(* ===== verification/_CoqProject ===== *)
-Q . S2P
Prelude.v
Text.v
Paths.v
Validate.v
Env.v
Json.v
Protocol.v
Files.v
Seatbelt.v
Dns.v
Ip.v
Proxy.v
Bridge.v
Seccomp.v
SeccompDebug.v
Unotify.v
Allowlists.v
Fds.v
Cgroup.v
AuditLog.v
Landlock.v
Rlimit.v
Process.v
Helpers.v
Pidns.v
Wrapper.v
Launch.v
LaunchPrep.v
LaunchSpec.v
EndToEnd.v
Handle.v
HandleSpec.v
Trail.v
Windows.v
VmState.v
Agent.v
Slots.v
AgentSpec.v
Remote.v
