(* ===== verification/Prelude.v ===== *)
(** * Arapuca: a process sandbox, verified (root file)

    Arapuca runs a command in a sandbox.  The launcher validates a profile,
    encodes it in environment variables and starts a wrapper, which decodes them
    and applies the layers (Landlock, PID namespace, seccomp, limits) to itself
    before it executes the command, and forks helper processes: a bridge, a PID
    namespace relay, a supervisor of system calls.  Network access goes through a bridge: a CONNECT proxy with an
    allowlist outside the network namespace and a DNS server inside it that
    records queries and answers NXDOMAIN.  With the virtual-machine backend an
    agent in the guest runs commands over a framed protocol.

    ** Files

    - [Prelude]: results, errors ([error.rs]), machine integers, byte strings,
      the monad [ST] of code that changes a state and may stop, with its program
      logic [hoare], the tactics [bsplit], [bcase] and [by_eval], the hint and
      rewrite database [arapuca].
    - [Text]: UTF-8 and the string functions of the Rust library that the code
      uses (splitting, trimming, decimal and hexadecimal numbers).
    - [Paths]: [std::path] components and [validate::normalize_path].
    - [Validate]: [validate.rs].
    - [Env]: [profile.rs] (data) and [env.rs]: the filter of the caller's
      variables, the encoders of the launcher and the decoders of the wrapper
      (also [bridge::parse_bridge_env]).
    - [Json]: the JSON printer and parser of [vm/protocol.rs], and
      [wrapper::json_escape].
    - [Protocol]: frames, nonces and control messages of [vm/protocol.rs].
    - [Files]: files with their contents and modes, and the operations of
      [std::fs] that the code uses, any of which may fail.
    - [Seatbelt]: the macOS policy: its text ([darwin_profile.rs]) and the data
      that [platform/darwin/mod.rs] puts into it, with a reader and a semantics
      of the policy language as the specification.
    - [Dns]: [dns.rs] and the server loop [bridge::dns_serve].
    - [Ip]: the address check of the CONNECT proxy ([bridge.rs]).
    - [Proxy]: the CONNECT proxy's request parser, allowlist and connection
      handler ([bridge.rs]).
    - [Bridge]: the accept loop's connection limit and [close_fds_except]
      ([bridge.rs]).
    - [Seccomp]: the system-call filters of [seccomp.rs].
    - [SeccompDebug]: the SIGSYS handler and the name tables of [seccomp.rs].
    - [Unotify]: the notification filter, the handler of notifications and the
      loop of the supervisor ([unotify.rs]).
    - [Allowlists]: the default-deny filters of the helper processes
      ([bridge.rs], [unotify.rs]).
    - [Fds]: [platform/fd.rs], the caller's extra descriptors.
    - [Cgroup]: [cgroup.rs] over a tree of control groups: discovery, the move
      to a leaf, stale groups, limits, statistics.
    - [AuditLog]: the events, their sink and the sanitizer of strings ([audit.rs]).
    - [Landlock]: the rules of [landlock.rs] and its reader of ELF headers.
    - [Rlimit]: [rlimit.rs].
    - [Process]: a process as a state (descriptors, environment, attributes,
      Landlock domains, filters, limits, calls made) on which system calls act,
      the rules to reason about it, and [wrapper.rs].
    - [Helpers]: the forked helpers, from [fork] to the loop in which they serve
      ([fork_bridge], [loopback_up], [fork_connect_proxy] of [bridge.rs],
      [fork_unotify_supervisor] of [unotify.rs]).
    - [Pidns]: [pidns.rs].
    - [Wrapper]: [selfexec::run_wrapper_path] and the wrapper path of
      [bin/arapuca.rs], from the arguments to [execve], and the part of
      [platform/linux.rs] that builds the wrapper's environment.
    - [Launch]: [Linux::launch] of [platform/linux.rs] from the checks to the
      handle, over the launcher's descriptors, children, directories, control
      groups and audit events, with the child up to [exec]; [LaunchPrep] (resources
      and preparation) and [LaunchSpec]: what it takes and gives back, what the
      child gets; [EndToEnd]: the launcher and the wrapper together.
    - [Handle]: the operations on a running sandbox ([process.rs]) on Linux;
      [HandleSpec]: the life of a sandbox from the launch to [Drop]; [Trail]: from
      a query to the DNS server in the sandbox to the launcher's event.
    - [Windows]: the command line, environment block, working directory and
      container name of [platform/windows.rs].
    - [VmState]: the configuration of a virtual machine ([vm/state.rs]): its JSON
      text, saving and loading.
    - [Agent]: the agent in the guest ([bin/arapuca-agent.rs]): a connection, the
      start of a command, the forwarding of its streams; and its client on the host
      ([vm/exec.rs]).  [Slots]: the agent's counters of connections and sessions;
      [AgentSpec]: what a connection can make the agent do; [Remote]: client and
      agent together.

    ** How the code is modelled

    A [str] or a byte buffer is a [list Z] of bytes ([bytes]); where the code has
    a [str] the theorems assume [Utf8.valid].  Integers are [Z] with the width
    written out ([wrap], [is_uint]).  Fallible functions return [result]; an
    error carries the format string of its message, not the formatted text.
    I/O errors and panics of the protocol code are the values of [Abort].  A
    parser takes the rest of its input and returns it, instead of an index.
    Loops are fixpoints; those that are not structural take fuel, and running out
    of it is a value of its own ([OutOfFuel]) or proved away: [from_json_total]
    shows that the fuel computed from the length of the input is enough, and the
    DNS and decimal loops have exact specifications.  Code that changes outside
    state is a function on that state: the kernel's stack of filters
    ([Seccomp]), the set of open descriptors ([Bridge]), the static variables of
    the signal handler ([SeccompDebug]), the supervisor's pipe and drop counter
    ([Unotify]), the loop variable and the list of effects of the DNS server, and
    in [Process] a whole process.  There, a system call gets its answer from the
    host, which may choose it from all the calls made before, so that a theorem
    for every host covers every failure and every interleaving that the process
    can observe; a [fork] returns in the parent or in the child by the host's
    answer.  The loops that retry after EINTR or wait take the bound [retries] of
    the host; when it is used up the process is still in the loop, which is the
    end [Hang], and the theorems about a confined end hold for every bound.  The
    end of a process (exit, panic, [execve], a loop that serves for ever) is a
    value of [Stop].  In [Launch] the state is the launcher's ([World]) and the kernel's
    choices are functions of it ([LaunchHost]); the logic is [wp], with one
    postcondition for a result and one for an error, because the error paths are
    what is to be verified.  In [Agent] the state is that of a connection's thread
    ([Sess]): the bytes to come, those written, the descriptors, the child's streams
    and the effects; what [poll], the reads and [waitpid] give is a list of turns
    ([Turn]), whose end means that the loop still waits ([Running]).  The loop over
    messages is bounded by the length of the input, and [agent_confined] shows that
    the bound is never used up.  The accept loops and their handler threads are
    step relations ([pool_step], [slot_step]).

    Code outside the repository is an interface: [Seccompiler] with
    [SeccompilerLaws] (the crate and the kernel's filters), [Target]
    (architecture and syscall numbers), the fields of [Net] (resolver and
    sockets), of [FdKernel] (descriptors), of [Kernel] (notifications and the
    target's memory), of [DupKernel] (the choice of a new descriptor), of [Disk]
    (which file operations fail), of [CgKernel] with [CgLaws] (the cgroup file system), of [LaunchHost] with
    [LaunchLaws] (new descriptors and processes are new), of [HandleHost] with [HandleLaws] and
    [SerdeLaws] (signals, waiting, the contents of the pipes, [serde_json]), of [AgentHost] with
    [AgentLaws] and of [ClientHost] (the guest's and the host's kernel for remote execution), of [LandlockHost] (the landlock crate), of [Host] (system
    calls and the file system), and the functions [canonicalize] and [is_dir].  Each has a concrete instance with which the theorems are applied.

    ** What the theorems show

    - A launch accounts for all it takes: on success the handle has it, on an error
      everything is given back, whichever call fails.  The child executes the
      wrapper with the command, gets the descriptors and variables that are meant
      for it and no other, and is held back on a pipe, where one can be made, until
      it is in its control group with all limits written.
    - Whatever its owner and the sandboxed processes do, the end of a sandbox gives
      back all that the launch took; signals are addressed to the sandbox, its
      group and its proxy, by number only before the process is reaped, except for
      the group, which is signalled afterwards; [wait] reports
      what the pipes tell, then the exit; a blocked query that was recorded is
      reported with its name and type.
    - Through launcher and wrapper together, the command runs under the profile of
      the configuration, with its paths as the wrapper reads them.
    - No command runs unconfined: whatever the kernel answers, the wrapper either
      executes the command with all layers in force, audit pipes closed and its
      own variables removed, or is a confined helper, or exits; the layers in
      force are the ones of the profile that the launcher was given; and on a
      kernel that does what it is asked for the command is executed.
    - Every helper serves only after it has closed all other descriptors, is bound
      to its parent, cannot be read by the sandboxed process and has its filter.
      The PID namespace relay ends as the command did, by the same code or signal.
    - Landlock grants exactly the profile's paths, and execution only of the target
      and its interpreter when execution is off; the ELF reader is equivalent to
      the definition of the interpreter segment; limits survive the trip through
      the environment.
    - The supervisor answers each notification as specified, the cases in which it
      fails open included, checks every destination of a batch, and its log accounts for every record; the BPF
      program selects exactly the listed calls of the native architecture.
    - The seccomp filters that are installed give, for every system call and all
      arguments, the verdict of a policy table; strict is at least as
      restrictive as baseline; installation succeeds on a supported target.
    - The proxy connects only to allowed hosts and ports, at addresses outside
      the denied blocks; the address check is equivalent to a table of blocks and
      embeddings; the request parser is sound and complete.
    - At most 64 connections are handled in every interleaving; exactly the kept
      descriptors stay open.
    - The macOS profile, read back as the policy language reads it, permits what
      the data of the profile grants and nothing else, for all data: no path can
      add a rule, and all are absolute, without [..] and of the allowed characters.  A launch grants the paths of the caller's profile.
    - A task's control group has the limits that were asked for, or they are
      reported as missing; on an error no group stays.  Setting up the
      manager kills only processes in sandbox groups below the launcher's own
      cgroup (running ones of another launcher there included) and moves only
      processes of that cgroup itself.
    - The DNS parser is exact, every parsed query is answered by a well-formed
      NXDOMAIN, the audit log has one record per query and accounts for losses.
    - The protocol: [read_frame] inverts [write_frame], control messages and
      requests within the reader's limits survive the trip, the parser ends on
      every input.
    - Remote execution: the client's outputs are what the agent read from the command
      and its result is the command's, which is the requested one with the requested
      identity and no other descriptors; the client returns once the status is there,
      with the terminal restored.  Without the nonce a peer gets no answer and no
      command; a finished connection leaves no descriptor open; the agent's limits hold.
    - A saved VM configuration is loaded as it was, and an error while saving, at
      any point, leaves the old one in place; the reader ends on every text and
      returns fields in the range of their types.
    - The caller's descriptors arrive at 3, 4, ... in order and nothing else
      becomes inheritable, whatever numbers they have.
    - On Windows, the child reads the arguments it was given and the environment
      block gives the sandbox's values for the managed variables.
    - The environment: what the launcher encodes the wrapper decodes; a caller
      cannot set a configuration variable or a dangerous one.
    - Validation: guest paths, permissions, task identifiers, cgroup paths and
      working directories are accepted exactly as specified.

    Some theorems show that the code differs from what it means or says:
    [wrapper_env_trims_paths], [from_json_can_panic], [parse_connect_trailing_dot],
    [syscall_name_misnamed], [summary_omits_tkill], [kill_tables_permutation],
    [escape_for_audit_breaks_json], [parse_pt_interp_panics],
    [apply_without_paths], [quote_args_splits], [vm_from_json_can_panic],
    [new_kills_running], [control_array_limit].

    ** Not modelled

    The probes for namespaces and the disk quota tools (their effect is on other
    processes and on the file system), the probe for notification support (its outcome is a field of
    [Host]), the relay of bytes between sockets, the start and the daemon of a
    virtual machine, the agent's listening socket and the signal handlers of agent
    and client, downloads and disk images, the macOS
    launcher after the profile and the Win32 calls, the
    subcommands of the command line and the C interface. *)

From Stdlib Require Export ZArith Lia.
From Stdlib Require Export Ascii.
From stdpp Require Export base list gmap strings numbers.
Open Scope Z_scope.

(** [Vec::last]: stdpp's, which returns an option. *)
Abbreviation last := list.last.

(** ** Fallible code

    [result E A] is Rust's [Result<A, E>]; [?] is the monadic bind. *)

Inductive result (E A : Type) : Type :=
| Ok (a : A)
| Err (e : E).
Arguments Ok {E A} a.
Arguments Err {E A} e.

#[export] Instance result_ret {E} : MRet (result E) := fun A a => Ok a.
#[export] Instance result_bind {E} : MBind (result E) :=
  fun A B f r => match r with Ok a => f a | Err e => Err e end.
#[export] Instance result_fmap {E} : FMap (result E) :=
  fun A B f r => match r with Ok a => Ok (f a) | Err e => Err e end.

Definition is_ok {E A} (r : result E A) : bool :=
  match r with Ok _ => true | Err _ => false end.

(** [ok_or e o] is [o.ok_or(e)]. *)
Definition ok_or {E A} (e : E) (o : option A) : result E A :=
  match o with Some a => Ok a | None => Err e end.

(** [crate::Error].  The string is the text of the format string at the
    return site; the values interpolated into it are not kept. *)
Inductive Error : Type :=
| Landlock (m : string)
| Seccomp (m : string)
| Rlimit (m : string)
| Netns (m : string)
| Cgroup (m : string)
| MicroVm (m : string)
| Process (m : string)
| Validation (m : string)
| Syscall (name : string)
| Io (m : string).

#[export] Instance Error_eq_dec : EqDecision Error.
Proof. solve_decision. Defined.

Abbreviation Result := (result Error).

(** Code that changes a state and can stop early. *)
Definition ST (S E A : Type) : Type := S -> S * result E A.

#[export] Instance ST_ret {S E} : MRet (ST S E) := fun A a s => (s, Ok a).
#[export] Instance ST_bind {S E} : MBind (ST S E) := fun A B f m s =>
  match m s with (s, Ok a) => f a s | (s, Err e) => (s, Err e) end.

Definition stop {S E A} (e : E) : ST S E A := fun s => (s, Err e).
Definition get {S E A} (f : S -> A) : ST S E A := fun s => (s, Ok (f s)).
Definition modify {S E} (f : S -> S) : ST S E unit := fun s => (f s, Ok tt).

(** A program logic: from a state with [P] the code ends with a value and [Q],
    or stops early with [X]. *)
Definition hoare {S E A} (P : S -> Prop) (m : ST S E A) (Q : A -> S -> Prop) (X : E -> S -> Prop) : Prop :=
  forall s, P s -> match m s with (s', Ok a) => Q a s' | (s', Err e) => X e s' end.

Lemma hoare_bind {S E A B} P (m : ST S E A) R (f : A -> ST S E B) Q X :
  hoare P m R X -> (forall a, hoare (R a) (f a) Q X) -> hoare P (m ≫= f) Q X.
Proof.
  intros Hm Hf s Hs. specialize (Hm s Hs). unfold mbind, ST_bind. destruct (m s) as [s1 [a|e]]; [|done].
  apply (Hf a s1 Hm).
Qed.

Lemma hoare_ret {S E A} (P : S -> Prop) (a : A) (Q : A -> S -> Prop) (X : E -> S -> Prop) :
  (forall s, P s -> Q a s) -> hoare P (mret a) Q X.
Proof. intros H s. apply H. Qed.

Lemma hoare_true {S E A} (P : S -> Prop) (m : ST S E A) : hoare P m (fun _ _ => True) (fun _ _ => True).
Proof. intros s _. by destruct (m s) as [? []]. Qed.

Lemma hoare_stop {S E A} (P : S -> Prop) (e : E) (Q : A -> S -> Prop) (X : E -> S -> Prop) :
  (forall s, P s -> X e s) -> hoare P (stop e) Q X.
Proof. intros H s. apply H. Qed.

Lemma hoare_assoc {S E A B C} P (m : ST S E A) (f : A -> ST S E B) (g : B -> ST S E C) Q X :
  hoare P (m ≫= (fun a => f a ≫= g)) Q X -> hoare P ((m ≫= f) ≫= g) Q X.
Proof.
  intros H s Hs. specialize (H s Hs). unfold mbind, ST_bind in *. destruct (m s) as [s1 [a|e]]; exact H.
Qed.

Lemma hoare_ret_bind {S E A B} P (a : A) (f : A -> ST S E B) Q X :
  hoare P (f a) Q X -> hoare P (mret a ≫= f) Q X.
Proof. intros H s Hs. apply (H s Hs). Qed.

Lemma hoare_stop_bind {S E A B} P (e : E) (f : A -> ST S E B) Q (X : E -> S -> Prop) :
  (forall s, P s -> X e s) -> hoare P (stop e ≫= f) Q X.
Proof. intros H s Hs. apply (H s Hs). Qed.

Lemma hoare_pre {S E A} (P P' : S -> Prop) (m : ST S E A) Q X :
  hoare P' m Q X -> (forall s, P s -> P' s) -> hoare P m Q X.
Proof. intros Hm H s Hs. apply Hm, H, Hs. Qed.

Lemma hoare_post {S E A} (P : S -> Prop) (m : ST S E A) (Q Q' : A -> S -> Prop) X :
  hoare P m Q' X -> (forall a s, Q' a s -> Q a s) -> hoare P m Q X.
Proof. intros Hm H s Hs. specialize (Hm s Hs). destruct (m s) as [s' [a|e]]; auto. Qed.

Lemma hoare_exn {S E A} (P : S -> Prop) (m : ST S E A) Q (X X' : E -> S -> Prop) :
  hoare P m Q X' -> (forall e s, X' e s -> X e s) -> hoare P m Q X.
Proof. intros Hm H s Hs. specialize (Hm s Hs). destruct (m s) as [s' [a|e]]; auto. Qed.

(** The same from one state, to run code forward. *)
Definition wp {S E A} (m : ST S E A) (Q : A -> S -> Prop) (X : E -> S -> Prop) (s : S) : Prop :=
  match m s with (s', Ok a) => Q a s' | (s', Err e) => X e s' end.

Lemma wp_bind {S E A B} (m : ST S E A) (f : A -> ST S E B) Q X s :
  wp m (fun a => wp (f a) Q X) X s -> wp (m ≫= f) Q X s.
Proof. unfold wp, mbind, ST_bind. by destruct (m s) as [s1 [a|e]]. Qed.

Lemma wp_mono {S E A} (m : ST S E A) (Q Q' : A -> S -> Prop) (X X' : E -> S -> Prop) s :
  wp m Q X s -> (forall a s', Q a s' -> Q' a s') -> (forall e s', X e s' -> X' e s') -> wp m Q' X' s.
Proof. unfold wp. intros Hm HQ HX. destruct (m s) as [s1 [a|e]]; auto. Qed.

Lemma ST_bind_ok {S E A B} (m : ST S E A) (f : A -> ST S E B) s s' b :
  (m ≫= f) s = (s', Ok b) <-> exists s1 a, m s = (s1, Ok a) /\ f a s1 = (s', Ok b).
Proof.
  unfold mbind, ST_bind. destruct (m s) as [s1 [a|e]]; split; [eauto| |done|].
  - by intros (? & ? & [= <- <-] & ?).
  - by intros (? & ? & ? & ?).
Qed.

(** ** Machine integers and bytes

    A [w]-bit unsigned integer is a [Z] in [0, 2^w); a cast or a wrapping
    operation writes [wrap w] out.  A byte string ([[u8]], [str], [OsStr],
    [Path]) is a list of bytes. *)

Abbreviation bytes := (list Z).

Definition wrap (w z : Z) : Z := z mod 2 ^ w.

Definition is_uint (w z : Z) : Prop := 0 <= z < 2 ^ w.
Definition is_u8 (z : Z) : Prop := 0 <= z < 256.

#[export] Instance is_uint_dec w z : Decision (is_uint w z).
Proof. unfold is_uint. apply _. Defined.
#[export] Instance is_u8_dec z : Decision (is_u8 z).
Proof. unfold is_u8. apply _. Defined.

(** [bs "text"] is the byte string of an ASCII literal; [ch "x"] is [b'x']. *)
Definition ch (a : ascii) : Z := Z.of_N (N_of_ascii a).
Definition bs (s : string) : bytes := map ch (String.list_ascii_of_string s).
Arguments ch a%_char_scope.
Arguments bs s%_string_scope.

Lemma ch_u8 a : is_u8 (ch a).
Proof.
  unfold is_u8, ch. pose proof (N_ascii_bounded a). lia.
Qed.

Lemma bs_u8 s : Forall is_u8 (bs s).
Proof.
  unfold bs. induction (String.list_ascii_of_string s); constructor; auto using ch_u8.
Qed.

Lemma bs_app s t : bs (s ++ t)%string = bs s ++ bs t.
Proof.
  unfold bs. induction s as [|a s IH]; [done|].
  change (ch a :: map ch (String.list_ascii_of_string (s ++ t)%string)
          = ch a :: (map ch (String.list_ascii_of_string s)
                          ++ map ch (String.list_ascii_of_string t))).
  by rewrite IH.
Qed.

(** Length as an integer ([len()]). *)
Definition len {A} (l : list A) : Z := Z.of_nat (length l).

Lemma len_nonneg {A} (l : list A) : 0 <= len l.
Proof. unfold len. lia. Qed.
Lemma len_nil {A} : len (@nil A) = 0.
Proof. done. Qed.
Lemma len_cons {A} (x : A) l : len (x :: l) = 1 + len l.
Proof. unfold len. simpl. lia. Qed.
Lemma len_app {A} (l k : list A) : len (l ++ k) = len l + len k.
Proof. unfold len. rewrite length_app. lia. Qed.

(** ** Character classes of [u8] *)

Definition is_ascii_digit (c : Z) : bool := (48 <=? c) && (c <=? 57).
Definition is_ascii_upper (c : Z) : bool := (65 <=? c) && (c <=? 90).
Definition is_ascii_lower (c : Z) : bool := (97 <=? c) && (c <=? 122).
Definition is_ascii_alphanumeric (c : Z) : bool :=
  is_ascii_digit c || is_ascii_upper c || is_ascii_lower c.
(** [u8::is_ascii_whitespace]: space, \t, \n, form feed, \r. *)
Definition is_ascii_whitespace (c : Z) : bool :=
  (c =? 32) || (c =? 9) || (c =? 10) || (c =? 12) || (c =? 13).
Definition ascii_lower (c : Z) : Z := if is_ascii_upper c then c + 32 else c.
Definition to_ascii_lowercase (s : bytes) : bytes := map ascii_lower s.

(** ** Automation

    [arapuca] collects the generic rewriting and resolution lemmas; [bsplit]
    turns boolean connectives and comparisons in the context into their
    propositions; [bcase] splits on the boolean scrutinee of an [if]. *)

Create HintDb arapuca.
Create Rewrite HintDb arapuca.
#[export] Hint Resolve len_nonneg ch_u8 bs_u8 : arapuca.
#[export] Hint Rewrite @len_nil @len_cons @len_app : arapuca.

Ltac bsplit :=
  repeat match goal with
  | H : (_ && _) = true |- _ => apply andb_true_iff in H as [? ?]
  | H : (_ || _) = false |- _ => apply orb_false_iff in H as [? ?]
  | H : negb _ = true |- _ => apply negb_true_iff in H
  | H : negb _ = false |- _ => apply negb_false_iff in H
  | H : (_ =? _) = true |- _ => apply Z.eqb_eq in H
  | H : (_ =? _) = false |- _ => apply Z.eqb_neq in H
  | H : (_ <=? _) = true |- _ => apply Z.leb_le in H
  | H : (_ <=? _) = false |- _ => apply Z.leb_gt in H
  | H : (_ <? _) = true |- _ => apply Z.ltb_lt in H
  | H : (_ <? _) = false |- _ => apply Z.ltb_ge in H
  | H : bool_decide _ = true |- _ => apply bool_decide_eq_true in H
  | H : bool_decide _ = false |- _ => apply bool_decide_eq_false in H
  end.

Ltac bcase :=
  match goal with
  | |- context [if ?c then _ else _] => let E := fresh "E" in destruct c eqn:E; bsplit
  | H : context [if ?c then _ else _] |- _ => let E := fresh "E" in destruct c eqn:E; bsplit
  end.

(** A decidable closed statement, by evaluation. *)
Ltac by_eval := apply (bool_decide_unpack _); vm_compute; exact I.

Lemma bind_ok {E A B} (f : A -> result E B) r v :
  (r ≫= f) = Ok v <-> exists a, r = Ok a /\ f a = Ok v.
Proof.
  split.
  - destruct r; [eauto | done].
  - intros (a & -> & Hf). done.
Qed.

Lemma ok_inj {E A} (x y : A) : @Ok E A x = Ok y -> x = y.
Proof. by intros [= ->]. Qed.

(** Induction on the length of a list. *)
Lemma list_len_ind {A} (P : list A -> Prop) :
  (forall l, (forall k, (length k < length l)%nat -> P k) -> P l) -> forall l, P l.
Proof.
  intros H l. remember (length l) as n eqn:Hn. revert l Hn.
  induction (lt_wf n) as [n _ IH]; intros l ->. apply H. intros k Hk. by apply (IH (length k)).
Qed.

Lemma bool_eq_iff (x y : bool) : (x = true <-> y = true) -> x = y.
Proof. destruct x, y; intuition congruence. Qed.

(** ** Big-endian and little-endian integers *)

(** [u16::from_be_bytes([hi, lo])]. *)
Definition be16 (hi lo : Z) : Z := 256 * hi + lo.
(** [u32::from_be_bytes]. *)
Definition be32 (b0 b1 b2 b3 : Z) : Z := 256 * (256 * (256 * b0 + b1) + b2) + b3.
Definition be16_bytes (n : Z) : bytes := [wrap 8 (Z.shiftr n 8); wrap 8 n].
Definition be32_bytes (n : Z) : bytes :=
  [wrap 8 (Z.shiftr n 24); wrap 8 (Z.shiftr n 16); wrap 8 (Z.shiftr n 8); wrap 8 n].
(** [from_ne_bytes] on the little-endian targets the program supports. *)
Fixpoint le_int (l : bytes) : Z :=
  match l with [] => 0 | x :: r => x + 256 * le_int r end.

Lemma wrap_range w z : 0 <= w -> 0 <= wrap w z < 2 ^ w.
Proof. intros. apply Z.mod_pos_bound. lia. Qed.

Lemma wrap_small w z : is_uint w z -> wrap w z = z.
Proof. apply Z.mod_small. Qed.

Lemma wrap8_u8 z : is_u8 (wrap 8 z).
Proof. apply (wrap_range 8). lia. Qed.
#[export] Hint Resolve wrap8_u8 : arapuca.

Lemma be16_range hi lo : is_u8 hi -> is_u8 lo -> is_uint 16 (be16 hi lo).
Proof. unfold is_u8, is_uint, be16. lia. Qed.

Lemma shiftr_div z n : 0 <= n -> Z.shiftr z n = z / 2 ^ n.
Proof. apply Z.shiftr_div_pow2. Qed.

Lemma be16_bytes_inv n : is_uint 16 n ->
  be16 (wrap 8 (Z.shiftr n 8)) (wrap 8 n) = n.
Proof.
  unfold is_uint, be16, wrap. intros. rewrite shiftr_div by lia.
  change (2 ^ 8) with 256 in *. change (2 ^ 16) with 65536 in *.
  rewrite (Z.mod_small (n / 256)) by (split; [apply Z.div_pos | apply Z.div_lt_upper_bound]; lia).
  pose proof (Z.div_mod n 256). lia.
Qed.

Lemma be32_bytes_inv n : is_uint 32 n ->
  be32 (wrap 8 (Z.shiftr n 24)) (wrap 8 (Z.shiftr n 16)) (wrap 8 (Z.shiftr n 8)) (wrap 8 n) = n.
Proof.
  unfold is_uint, be32, wrap. intros. rewrite !shiftr_div by lia.
  change (2 ^ 8) with 256 in *. change (2 ^ 16) with (256 * 256) in *.
  change (2 ^ 24) with (256 * 256 * 256) in *. change (2 ^ 32) with (256 * 256 * 256 * 256) in *.
  rewrite <- !Z.div_div by lia.
  pose proof (Z.div_mod n 256). pose proof (Z.div_mod (n / 256) 256).
  pose proof (Z.div_mod (n / 256 / 256) 256).
  rewrite (Z.mod_small (n / 256 / 256 / 256)); [lia|].
  split; [repeat apply Z.div_pos; lia|].
  repeat (apply Z.div_lt_upper_bound; [lia|]). lia.
Qed.

(** ** Bits *)

(** Masking with a single bit. *)
Lemma land_pow2_0 x n : 0 <= n -> Z.land x (2 ^ n) = 0 <-> Z.odd (x / 2 ^ n) = false.
Proof.
  intros Hn. rewrite <- shiftr_div, <- Z.bit0_odd, Z.shiftr_spec, Z.add_0_l by lia.
  split; intros H.
  - assert (E : Z.testbit (Z.land x (2 ^ n)) n = false) by by rewrite H, Z.bits_0.
    by rewrite Z.land_spec, Z.pow2_bits_true, andb_true_r in E.
  - apply Z.bits_inj'. intros k Hk. rewrite Z.land_spec, Z.bits_0.
    destruct (decide (k = n)) as [->|]; [by rewrite H|]. by rewrite Z.pow2_bits_false, andb_false_r by lia.
Qed.
