(* ===== verification/Text.v ===== *)
(** * Text: Rust's [str] and UTF-8

    What the sources use of [core::str] and [core::fmt]: UTF-8 validation,
    decoding and lossy decoding ([Utf8]), searching, splitting and trimming
    of strings, and decimal numbers ([to_string], [parse]).  A [str] is its
    byte string; [Utf8.valid] is the invariant Rust keeps on it. *)

From S2P Require Import Prelude.

(** ** UTF-8 *)

Module Utf8.

(** A continuation byte. *)
Definition cont (c : Z) : bool := (128 <=? c) && (c <=? 191).
(** The lead byte of a two-byte sequence. *)
Definition lead2 (c : Z) : bool := (194 <=? c) && (c <=? 223).
(** Lead and second byte of a three-byte sequence (no overlong forms, no
    surrogates). *)
Definition pair3 (c d : Z) : bool :=
  ((c =? 224) && (160 <=? d) && (d <=? 191))
  || ((225 <=? c) && (c <=? 236) && cont d)
  || ((c =? 237) && (128 <=? d) && (d <=? 159))
  || ((238 <=? c) && (c <=? 239) && cont d).
(** Lead and second byte of a four-byte sequence (no overlong forms, at most
    U+10FFFF). *)
Definition pair4 (c d : Z) : bool :=
  ((c =? 240) && (144 <=? d) && (d <=? 191))
  || ((241 <=? c) && (c <=? 243) && cont d)
  || ((c =? 244) && (128 <=? d) && (d <=? 143)).

(** [char::encode_utf8]. *)
Definition encode (c : Z) : bytes :=
  if c <? 128 then [c]
  else if c <? 2048 then [192 + c / 64; 128 + c mod 64]
  else if c <? 65536 then [224 + c / 4096; 128 + (c / 64) mod 64; 128 + c mod 64]
  else [240 + c / 262144; 128 + (c / 4096) mod 64; 128 + (c / 64) mod 64; 128 + c mod 64].

(** [char::from_u32]: a Unicode scalar value. *)
Definition is_scalar (c : Z) : bool :=
  (0 <=? c) && (c <=? 1114111) && negb ((55296 <=? c) && (c <=? 57343)).

Definition cp2 (c d : Z) : Z := (c - 192) * 64 + (d - 128).
Definition cp3 (c d e : Z) : Z := (c - 224) * 4096 + (d - 128) * 64 + (e - 128).
Definition cp4 (c d e f : Z) : Z :=
  (c - 240) * 262144 + (d - 128) * 4096 + (e - 128) * 64 + (f - 128).

(** [core::str::from_utf8] succeeds, and what [chars()] then yields: strict
    decoding, [None] on the first malformed sequence. *)
Fixpoint decode (s : bytes) : option (list Z) :=
  match s with
  | [] => Some []
  | c :: s1 =>
    if (0 <=? c) && (c <? 128) then cons c <$> decode s1 else
    match s1 with
    | d :: s2 =>
      if lead2 c && cont d then cons (cp2 c d) <$> decode s2 else
      match s2 with
      | e :: s3 =>
        if pair3 c d && cont e then cons (cp3 c d e) <$> decode s3 else
        match s3 with
        | f :: s4 =>
          if pair4 c d && cont e && cont f then cons (cp4 c d e f) <$> decode s4 else None
        | [] => None
        end
      | [] => None
      end
    | [] => None
    end
  end.

Definition valid (s : bytes) : bool := bool_decide (is_Some (decode s)).

(** The characters of a (valid) string. *)
Definition chars (s : bytes) : list Z := default [] (decode s).
Definition of_chars (l : list Z) : bytes := concat (map encode l).

(** [String::from_utf8_lossy]: every maximal ill-formed subpart becomes one
    U+FFFD (EF BF BD). *)
Definition replacement : bytes := [239; 191; 189].

Fixpoint lossy (s : bytes) : bytes :=
  match s with
  | [] => []
  | c :: s1 =>
    if (0 <=? c) && (c <? 128) then c :: lossy s1 else
    match s1 with
    | [] => replacement
    | d :: s2 =>
      if lead2 c && cont d then c :: d :: lossy s2
      else if pair3 c d then
        match s2 with
        | [] => replacement
        | e :: s3 => if cont e then c :: d :: e :: lossy s3 else replacement ++ lossy s2
        end
      else if pair4 c d then
        match s2 with
        | [] => replacement
        | e :: s3 =>
          if cont e then
            match s3 with
            | [] => replacement
            | f :: s4 =>
              if cont f then c :: d :: e :: f :: lossy s4 else replacement ++ lossy s3
            end
          else replacement ++ lossy s2
        end
      else replacement ++ lossy s1
    end
  end.

(** [str::is_char_boundary]. *)
Definition is_char_boundary (s : bytes) (i : Z) : bool :=
  if i =? 0 then true
  else match s !! Z.to_nat i with
       | None => i =? len s
       | Some c => negb ((128 <=? c) && (c <? 192))
       end.

Ltac utf8 :=
  unfold lead2, pair3, pair4, cont, cp2, cp3, cp4, is_scalar in *; first [lia | exfalso; lia].

(** Induction on a successful decoding, one sequence at a time. *)
Lemma decode_ind (P : bytes -> list Z -> Prop) :
  P [] [] ->
  (forall c s l, 0 <= c < 128 -> decode s = Some l -> P s l -> P (c :: s) (c :: l)) ->
  (forall c d s l, lead2 c = true -> cont d = true -> decode s = Some l -> P s l ->
     P (c :: d :: s) (cp2 c d :: l)) ->
  (forall c d e s l, pair3 c d = true -> cont e = true -> decode s = Some l -> P s l ->
     P (c :: d :: e :: s) (cp3 c d e :: l)) ->
  (forall c d e f s l, pair4 c d = true -> cont e = true -> cont f = true ->
     decode s = Some l -> P s l ->
     P (c :: d :: e :: f :: s) (cp4 c d e f :: l)) ->
  forall s l, decode s = Some l -> P s l.
Proof.
  intros H0 H1 H2 H3 H4 s. remember (length s) as n eqn:Hn. revert s Hn.
  induction (lt_wf n) as [n _ IH]; intros s -> l Hd.
  assert (IHs : forall t k, (length t < length s)%nat -> decode t = Some k -> P t k)
    by (intros; eapply IH; eauto).
  clear IH.
  destruct s as [|c s1]; simpl in Hd; [by inv Hd|].
  bcase. { destruct (decode s1) eqn:?; inv Hd. apply H1; auto. }
  destruct s1 as [|d s2]; [done|].
  bcase. { destruct (decode s2) eqn:?; inv Hd. apply H2; auto. apply IHs; simpl; auto. }
  destruct s2 as [|e s3]; [done|].
  bcase. { destruct (decode s3) eqn:?; inv Hd. apply H3; auto. apply IHs; simpl; auto. }
  destruct s3 as [|f s4]; [done|].
  bcase; [|done]. destruct (decode s4) eqn:?; inv Hd. apply H4; auto. apply IHs; simpl; auto.
Qed.

Lemma decode_1 c s : 0 <= c < 128 -> decode (c :: s) = cons c <$> decode s.
Proof. intros. simpl. bcase; [done|lia]. Qed.
Lemma decode_2 c d s : lead2 c = true -> cont d = true ->
  decode (c :: d :: s) = cons (cp2 c d) <$> decode s.
Proof. intros H1 H2. simpl. rewrite H1, H2. bcase; [utf8|done]. Qed.
Lemma decode_3 c d e s : pair3 c d = true -> cont e = true ->
  decode (c :: d :: e :: s) = cons (cp3 c d e) <$> decode s.
Proof. intros H1 H2. simpl. rewrite H1, H2. repeat (bcase; [utf8|]). done. Qed.
Lemma decode_4 c d e f s : pair4 c d = true -> cont e = true -> cont f = true ->
  decode (c :: d :: e :: f :: s) = cons (cp4 c d e f) <$> decode s.
Proof. intros H1 H2 H3. simpl. rewrite H1, H2, H3. repeat (bcase; [utf8|]). done. Qed.

(** Decoding is a homomorphism on well-formed strings. *)
Lemma decode_app s l t : decode s = Some l -> decode (s ++ t) = app l <$> decode t.
Proof.
  revert s l. apply decode_ind.
  - simpl. by destruct (decode t).
  - intros c s l Hc _ IH. rewrite <- app_comm_cons, decode_1, IH by done. by destruct (decode t).
  - intros c d s l Hc Hd _ IH. rewrite <- !app_comm_cons, decode_2, IH by done. by destruct (decode t).
  - intros c d e s l Hc Hd _ IH. rewrite <- !app_comm_cons, decode_3, IH by done. by destruct (decode t).
  - intros c d e f s l Hc Hd Hf _ IH. rewrite <- !app_comm_cons, decode_4, IH by done. by destruct (decode t).
Qed.

Lemma decode_ascii s : Forall (fun c => 0 <= c < 128) s -> decode s = Some s.
Proof. induction 1 as [|c s Hc _ IH]; [done|]. by rewrite decode_1, IH. Qed.

(** [encode] is inverted by decoding, and decoding by [encode]. *)
Lemma decode_encode c s : is_scalar c = true -> decode (encode c ++ s) = cons c <$> decode s.
Proof.
  intros Hc. unfold encode. repeat bcase; simpl app.
  - apply decode_1. utf8.
  - rewrite decode_2 by (unfold lead2, cont; Z.to_euclidean_division_equations; lia).
    repeat f_equal. unfold cp2. pose proof (Z.div_mod c 64). lia.
  - rewrite decode_3 by (unfold is_scalar, pair3, cont in *; Z.to_euclidean_division_equations; lia).
    repeat f_equal. unfold cp3. Z.to_euclidean_division_equations; lia.
  - rewrite decode_4 by (unfold is_scalar, pair4, cont in *; Z.to_euclidean_division_equations; lia).
    repeat f_equal. unfold cp4. Z.to_euclidean_division_equations; lia.
Qed.

Lemma encode_cp2 c d : lead2 c = true -> cont d = true -> encode (cp2 c d) = [c; d].
Proof.
  intros. unfold encode. repeat (bcase; try utf8).
  repeat f_equal; unfold lead2, cont, cp2 in *; Z.to_euclidean_division_equations; lia.
Qed.
Lemma encode_cp3 c d e : pair3 c d = true -> cont e = true -> encode (cp3 c d e) = [c; d; e].
Proof.
  intros. unfold encode. repeat (bcase; try utf8).
  repeat f_equal; unfold pair3, cont, cp3 in *; Z.to_euclidean_division_equations; lia.
Qed.
Lemma encode_cp4 c d e f : pair4 c d = true -> cont e = true -> cont f = true ->
  encode (cp4 c d e f) = [c; d; e; f].
Proof.
  intros. unfold encode. repeat (bcase; try utf8).
  repeat f_equal; unfold pair4, cont, cp4 in *; Z.to_euclidean_division_equations; lia.
Qed.

Lemma of_chars_decode s l : decode s = Some l -> of_chars l = s.
Proof.
  revert s l. apply decode_ind; unfold of_chars; simpl; [done|..].
  - intros c s l Hc _ ->. unfold encode. bcase; [done|lia].
  - intros. rewrite encode_cp2 by done. simpl. congruence.
  - intros. rewrite encode_cp3 by done. simpl. congruence.
  - intros. rewrite encode_cp4 by done. simpl. congruence.
Qed.

Lemma decode_scalar s l : decode s = Some l -> Forall (fun c => is_scalar c = true) l.
Proof.
  revert s l. apply decode_ind; [constructor|..]; intros; constructor; auto; utf8.
Qed.

Lemma decode_of_chars l :
  Forall (fun c => is_scalar c = true) l -> decode (of_chars l) = Some l.
Proof.
  induction 1 as [|c l Hc _ IH]; [done|].
  unfold of_chars in *. simpl. by rewrite decode_encode, IH.
Qed.

(** Lossy decoding leaves a well-formed string alone. *)
Lemma lossy_decode s l : decode s = Some l -> lossy s = s.
Proof.
  revert s l. apply decode_ind; [done|..]; intros; simpl.
  - bcase; [congruence|lia].
  - rewrite H, H0. bcase; [utf8|]. simpl. congruence.
  - rewrite H, H0. bcase; [utf8|]. bcase; [utf8|]. congruence.
  - rewrite H, H0, H1. repeat (bcase; [utf8|]). congruence.
Qed.

(** Case analysis on one step of [lossy]. *)
Lemma lossy_cases c s :
  (0 <= c < 128 /\ lossy (c :: s) = c :: lossy s) \/
  (~ (0 <= c < 128) /\
   exists h t, lossy (c :: s) = h ++ lossy t /\ (length t <= length s)%nat /\
     (length h + 3 * length t <= 3 + 3 * length s)%nat /\
     (exists x r, h = x :: r /\ 128 <= x) /\ is_Some (decode h)).
Proof.
  destruct (decide (0 <= c < 128)) as [Hc|Hc].
  { left. split; [done|]. simpl. bcase; [done|lia]. }
  right. split; [done|]. simpl. bcase; [lia|]. clear E.
  assert (R : forall t, (length t <= length s)%nat ->
    exists h t', replacement ++ lossy t = h ++ lossy t' /\ (length t' <= length s)%nat /\
     (length h + 3 * length t' <= 3 + 3 * length s)%nat /\
     (exists x r, h = x :: r /\ 128 <= x) /\ is_Some (decode h)).
  { intros t Ht. exists replacement, t. unfold replacement. simpl.
    repeat split; [done|lia| |eauto]. eexists _, _. split; [done|lia]. }
  assert (R0 : exists h t', replacement = h ++ lossy t' /\ (length t' <= length s)%nat /\
     (length h + 3 * length t' <= 3 + 3 * length s)%nat /\
     (exists x r, h = x :: r /\ 128 <= x) /\ is_Some (decode h)).
  { destruct (R []) as (h & t & E & Ht); [simpl; lia|]. exists h, t. split; [exact E|exact Ht]. }
  destruct s as [|d s2]; [done|].
  bcase.
  { exists [c; d], s2. rewrite decode_2 by done. simpl.
    repeat split; [lia..| |eauto]. eexists _, _. split; [done|utf8]. }
  destruct (pair3 c d) eqn:E3.
  { destruct s2 as [|e s3]; [done|]. bcase; [|apply R; simpl; lia].
    exists [c; d; e], s3. rewrite decode_3 by done. simpl.
    repeat split; [lia..| |eauto]. eexists _, _. split; [done|utf8]. }
  destruct (pair4 c d) eqn:E4; [|apply R; simpl; lia].
  destruct s2 as [|e s3]; [done|].
  bcase; [|apply R; simpl; lia].
  destruct s3 as [|f s4]; [done|].
  bcase; [|apply R; simpl; lia].
  exists [c; d; e; f], s4. rewrite decode_4 by done. simpl.
  repeat split; [lia..| |eauto]. eexists _, _. split; [done|utf8].
Qed.

(** The output of a lossy decoding is well-formed UTF-8. *)
Lemma decode_lossy s : is_Some (decode (lossy s)).
Proof.
  induction s as [s IH] using list_len_ind. destruct s as [|c s]; [by eexists|].
  destruct (lossy_cases c s) as [[Hc ->] | (_ & h & t & -> & Ht & _ & _ & [l Hl])].
  - rewrite decode_1 by done. destruct (IH s) as [k ->]; simpl; [lia|eauto].
  - rewrite (decode_app _ _ _ Hl). destruct (IH t) as [k ->]; simpl; [lia|eauto].
Qed.

(** It is at most three times as long. *)
Lemma length_lossy s : (length (lossy s) <= 3 * length s)%nat.
Proof.
  induction s as [s IH] using list_len_ind. destruct s as [|c s]; [done|].
  destruct (lossy_cases c s) as [[Hc ->] | (_ & h & t & -> & Ht & Hlen & _)].
  - specialize (IH s). simpl in *. lia.
  - specialize (IH t). rewrite length_app. simpl in *. lia.
Qed.

(** Comparing with an ASCII prefix can be done before or after the lossy
    decoding. *)
Lemma lossy_prefix p s : Forall (fun c => 0 <= c < 128) p ->
  p `prefix_of` lossy s <-> p `prefix_of` s.
Proof.
  intros Hp. revert s. induction Hp as [|x p Hx Hp IH]; intros s.
  { split; intros _; apply prefix_nil. }
  destruct s as [|c s]; [done|].
  destruct (lossy_cases c s) as [[Hc ->] | (Hc & h & t & -> & _ & _ & (y & r & -> & Hy) & _)].
  - split; intros H; (apply prefix_cons_inv_1 in H as H1; apply prefix_cons_inv_2 in H;
      subst; apply prefix_cons; by apply IH).
  - split; intros H; apply prefix_cons_inv_1 in H; lia.
Qed.

Lemma valid_decode s : valid s = true <-> is_Some (decode s).
Proof. unfold valid. by rewrite bool_decide_eq_true. Qed.

Lemma valid_app s t : valid s = true -> valid t = true -> valid (s ++ t) = true.
Proof.
  rewrite !valid_decode. intros [l Hl] [k Hk]. rewrite (decode_app _ _ _ Hl), Hk. by eexists.
Qed.

Lemma valid_ascii s : Forall (fun c => 0 <= c < 128) s -> valid s = true.
Proof. intros H. apply valid_decode. rewrite decode_ascii by done. by eexists. Qed.

Lemma valid_chars s : valid s = true ->
  of_chars (chars s) = s /\ Forall (fun c => is_scalar c = true) (chars s).
Proof.
  rewrite valid_decode. intros [l Hl]. unfold chars. rewrite Hl. simpl.
  eauto using of_chars_decode, decode_scalar.
Qed.

Lemma encode_ascii c : 0 <= c < 128 -> encode c = [c].
Proof. intros. unfold encode. bcase; [done|lia]. Qed.

(** [chars().next()] with the rest of the string. *)
Definition next_char (s : bytes) : option (Z * bytes) :=
  match s with
  | [] => None
  | c :: s1 =>
    if (0 <=? c) && (c <? 128) then Some (c, s1) else
    match s1 with
    | [] => None
    | d :: s2 =>
      if lead2 c && cont d then Some (cp2 c d, s2) else
      match s2 with
      | [] => None
      | e :: s3 =>
        if pair3 c d && cont e then Some (cp3 c d e, s3) else
        match s3 with
        | [] => None
        | f :: s4 =>
          if pair4 c d && cont e && cont f then Some (cp4 c d e f, s4) else None
        end
      end
    end
  end.

Lemma next_char_encode c s : is_scalar c = true -> next_char (encode c ++ s) = Some (c, s).
Proof.
  intros Hc. unfold encode. repeat bcase; cbn [next_char app]; repeat (bcase; try utf8);
    try (do 2 f_equal; unfold cp2, cp3, cp4, is_scalar in *; Z.to_euclidean_division_equations; lia);
    exfalso; unfold lead2, pair3, pair4, cont, is_scalar in *;
    Z.to_euclidean_division_equations; lia.
Qed.

(** A non-empty valid string is a character followed by a valid string. *)
Lemma decode_next s l : decode s = Some l -> s <> [] ->
  exists c r l', next_char s = Some (c, r) /\ s = encode c ++ r /\ l = c :: l' /\
    decode r = Some l' /\ is_scalar c = true.
Proof.
  intros Hd Hne. pose proof (of_chars_decode _ _ Hd) as Hs. pose proof (decode_scalar _ _ Hd) as Hl.
  destruct l as [|c l]; [by subst|]. inv Hl. exists c, (of_chars l), l.
  change (of_chars (c :: l)) with (encode c ++ of_chars l).
  split_and!; auto using next_char_encode, decode_of_chars.
Qed.

(** A valid string that starts with an ASCII byte stays valid without it. *)
Lemma valid_tail c s : 0 <= c < 128 -> valid (c :: s) = true -> valid s = true.
Proof. intros Hc. rewrite !valid_decode, decode_1 by done. destruct (decode s); [by eexists|by intros [? ?]]. Qed.

Lemma encode_valid c : is_scalar c = true -> valid (encode c) = true.
Proof.
  intros Hc. apply valid_decode. rewrite <- (app_nil_r (encode c)), decode_encode by done. by eexists.
Qed.

Lemma encode_u8 c : is_scalar c = true -> Forall is_u8 (encode c).
Proof.
  intros Hc. unfold encode. repeat bcase; repeat apply Forall_cons; try apply Forall_nil;
    unfold is_u8, is_scalar in *; Z.to_euclidean_division_equations; lia.
Qed.

Lemma length_encode c : (1 <= length (encode c) <= 4)%nat.
Proof. unfold encode. repeat bcase; simpl; lia. Qed.

Lemma encode_high c : is_scalar c = true -> 128 <= c -> Forall (fun b => 128 <= b < 256) (encode c).
Proof.
  intros Hc Hh. unfold encode. repeat bcase; [lia|..]; repeat apply Forall_cons; try apply Forall_nil;
    unfold is_scalar in *; Z.to_euclidean_division_equations; lia.
Qed.

End Utf8.

(** ** Prefixes and suffixes *)

Fixpoint strip_prefix (p s : bytes) : option bytes :=
  match p, s with
  | [], _ => Some s
  | x :: p', y :: s' => if x =? y then strip_prefix p' s' else None
  | _ :: _, [] => None
  end.

Definition starts_with (p s : bytes) : bool :=
  match strip_prefix p s with Some _ => true | None => false end.
Definition strip_suffix (p s : bytes) : option bytes :=
  reverse <$> strip_prefix (reverse p) (reverse s).
Definition ends_with (p s : bytes) : bool :=
  match strip_suffix p s with Some _ => true | None => false end.

Lemma strip_prefix_Some p s r : strip_prefix p s = Some r <-> s = p ++ r.
Proof.
  revert s. induction p as [|x p IH]; intros s; simpl.
  { split; [by intros [= ->]|by intros ->]. }
  destruct s as [|y s]; [done|]. bcase; subst.
  - rewrite IH. split; [by intros ->|by intros [= ->]].
  - split; [done|intros [= ? ->]; congruence].
Qed.

Lemma strip_prefix_app p r : strip_prefix p (p ++ r) = Some r.
Proof. by apply strip_prefix_Some. Qed.

Lemma starts_with_spec p s : starts_with p s = true <-> exists r, s = p ++ r.
Proof.
  unfold starts_with. destruct (strip_prefix p s) as [r|] eqn:E.
  - apply strip_prefix_Some in E. split; eauto.
  - split; [done|]. intros [r Hr]. apply strip_prefix_Some in Hr. congruence.
Qed.

Lemma starts_with_prefix p s : starts_with p s = true <-> p `prefix_of` s.
Proof. apply starts_with_spec. Qed.

Lemma strip_suffix_Some p s r : strip_suffix p s = Some r <-> s = r ++ p.
Proof.
  unfold strip_suffix. destruct (strip_prefix (reverse p) (reverse s)) as [t|] eqn:E; simpl.
  - apply strip_prefix_Some in E. apply (f_equal (@reverse Z)) in E.
    rewrite reverse_app, !reverse_involutive in E. subst s. split.
    + by intros [= <-].
    + intros H. apply app_inv_tail in H. congruence.
  - split; [done|]. intros ->. rewrite reverse_app in E.
    by rewrite strip_prefix_app in E.
Qed.

Lemma ends_with_spec p s : ends_with p s = true <-> exists r, s = r ++ p.
Proof.
  unfold ends_with. destruct (strip_suffix p s) as [r|] eqn:E.
  - apply strip_suffix_Some in E. split; eauto.
  - split; [done|]. intros [r Hr]. apply strip_suffix_Some in Hr. congruence.
Qed.

(** ** Searching and splitting *)

(** [s.contains(c)] for a byte, [s.contains("..")] for a substring. *)
Definition contains (c : Z) (s : bytes) : bool := existsb (Z.eqb c) s.

Fixpoint contains_sub (p s : bytes) : bool :=
  starts_with p s || match s with [] => false | _ :: s' => contains_sub p s' end.

Lemma contains_In c s : contains c s = true <-> In c s.
Proof.
  unfold contains. rewrite existsb_exists. split.
  - intros (x & Hx & E). bsplit. by subst.
  - intros. exists c. split; [done|]. apply Z.eqb_refl.
Qed.

Lemma contains_false c s : contains c s = false <-> Forall (fun x => x <> c) s.
Proof.
  rewrite <- not_true_iff_false, contains_In, List.Forall_forall. split.
  - intros H x Hx ->. done.
  - intros H Hc. by apply (H c).
Qed.

Lemma contains_sub_spec p s : contains_sub p s = true <-> exists h t, s = h ++ p ++ t.
Proof.
  induction s as [|x s IH]; simpl.
  - rewrite orb_false_r, starts_with_spec. split.
    + intros [r Hr]. by exists [], r.
    + intros (h & t & H). destruct h; [|done]. eauto.
  - rewrite orb_true_iff, IH, starts_with_spec. split.
    + intros [[r Hr] | (h & t & ->)]; [by exists [], r|by exists (x :: h), t].
    + intros ([|y h] & t & H); [left; eauto|right; inv H; eauto].
Qed.

(** [s.split(sep)]: never empty. *)
Fixpoint split (sep : Z) (s : bytes) : list bytes :=
  match s with
  | [] => [[]]
  | c :: r =>
    if c =? sep then [] :: split sep r
    else match split sep r with h :: t => (c :: h) :: t | [] => [[c]] end
  end.

(** [parts.join(sep)]. *)
Fixpoint join (sep : bytes) (l : list bytes) : bytes :=
  match l with
  | [] => []
  | [x] => x
  | x :: r => x ++ sep ++ join sep r
  end.

(** [s.split_once(c)] and [s.rsplit_once(c)]. *)
Fixpoint split_once (sep : Z) (s : bytes) : option (bytes * bytes) :=
  match s with
  | [] => None
  | c :: r =>
    if c =? sep then Some ([], r)
    else match split_once sep r with Some (x, y) => Some (c :: x, y) | None => None end
  end.
Definition rsplit_once (sep : Z) (s : bytes) : option (bytes * bytes) :=
  match split_once sep (reverse s) with Some (x, y) => Some (reverse y, reverse x) | None => None end.

Lemma split_nonempty sep s : split sep s <> [].
Proof. destruct s; simpl; [done|]. bcase; [done|]. by destruct (split sep s). Qed.

Lemma split_no_sep sep s : Forall (fun x => x <> sep) s -> split sep s = [s].
Proof.
  induction 1 as [|c s Hc _ IH]; [done|]. simpl. bcase; [done|]. by rewrite IH.
Qed.

Lemma split_app sep s t : Forall (fun x => x <> sep) s ->
  split sep (s ++ sep :: t) = s :: split sep t.
Proof.
  induction 1 as [|c s Hc _ IH]; simpl.
  - by rewrite Z.eqb_refl.
  - bcase; [done|]. by rewrite IH.
Qed.

Lemma split_join sep l : l <> [] ->
  Forall (Forall (fun x => x <> sep)) l -> split sep (join [sep] l) = l.
Proof.
  intros Hl H. induction H as [|x l Hx Hr IH]; [done|].
  destruct l as [|y l]; [by apply split_no_sep|].
  change (join [sep] (x :: y :: l)) with (x ++ sep :: join [sep] (y :: l)).
  rewrite split_app by done. by rewrite IH.
Qed.

(** The pieces of [split] contain no separator, and joining them gives the
    string back. *)
Lemma split_pieces sep s : Forall (Forall (fun x => x <> sep)) (split sep s).
Proof.
  induction s as [|c s IH]; simpl; [by repeat constructor|].
  bcase; [by constructor|]. destruct (split sep s); [by repeat constructor|].
  inv IH. by repeat constructor.
Qed.

Lemma join_split sep s : join [sep] (split sep s) = s.
Proof.
  induction s as [|c s IH]; [done|]. simpl. bcase.
  - subst. pose proof (split_nonempty sep s). simpl. destruct (split sep s); [done|].
    simpl in *. by rewrite IH.
  - pose proof (split_nonempty sep s). destruct (split sep s) as [|h [|k t]]; [done|..];
      simpl in *; by rewrite IH.
Qed.

Lemma split_once_Some sep s x y : split_once sep s = Some (x, y) <->
  s = x ++ sep :: y /\ Forall (fun c => c <> sep) x.
Proof.
  revert x y. induction s as [|c s IH]; intros x y; simpl.
  { split; [done|]. intros [H _]. by destruct x. }
  bcase; subst.
  - split; [intros [= <- <-]; by split|]. intros [H Hx].
    destruct x; [by inv H|]. inv H. by inv Hx.
  - split; [intros H|intros [H Hx]].
    + destruct (split_once sep s) as [[x' y']|]; [|done]. inv H.
      destruct (IH x' y) as [[-> ?] _]; [done|]. by repeat constructor.
    + destruct x as [|z x]; [by inv H|]. inv H. inv Hx.
      assert (Es : split_once sep (x ++ sep :: y) = Some (x, y)) by by apply IH.
      by rewrite Es.
Qed.

Lemma rsplit_once_Some sep s x y : rsplit_once sep s = Some (x, y) <->
  s = x ++ sep :: y /\ Forall (fun c => c <> sep) y.
Proof.
  unfold rsplit_once. split.
  - destruct (split_once sep (reverse s)) as [[u v]|] eqn:E; [|done]. intros [= <- <-].
    apply split_once_Some in E as [E Hu]. apply (f_equal (@reverse Z)) in E.
    rewrite reverse_involutive, reverse_app, reverse_cons, <- app_assoc in E.
    split; [done|by apply Forall_reverse].
  - intros [-> Hy]. rewrite reverse_app, reverse_cons, <- app_assoc. simpl.
    destruct (split_once_Some sep (reverse y ++ sep :: reverse x) (reverse y) (reverse x)) as [_ ->].
    + by rewrite !reverse_involutive.
    + split; [done|by apply Forall_reverse].
Qed.

(** ** White space *)

(** [char::is_whitespace]: the Unicode White_Space property. *)
Definition is_whitespace (c : Z) : bool :=
  ((9 <=? c) && (c <=? 13)) || (c =? 32) || (c =? 133) || (c =? 160) || (c =? 5760)
  || ((8192 <=? c) && (c <=? 8202)) || (c =? 8232) || (c =? 8233) || (c =? 8239)
  || (c =? 8287) || (c =? 12288).

Fixpoint drop_while {A} (p : A -> bool) (l : list A) : list A :=
  match l with [] => [] | x :: r => if p x then drop_while p r else l end.

(** [s.trim()] and [s.split_whitespace()], on the characters of [s]. *)
Definition trim_chars (l : list Z) : list Z :=
  reverse (drop_while is_whitespace (reverse (drop_while is_whitespace l))).
Definition trim (s : bytes) : bytes := Utf8.of_chars (trim_chars (Utf8.chars s)).

(** The words of [l], [cur] being the word read so far. *)
Fixpoint words_chars (cur l : list Z) : list (list Z) :=
  match l with
  | [] => match cur with [] => [] | _ => [cur] end
  | c :: r =>
    if is_whitespace c
    then match cur with [] => words_chars [] r | _ => cur :: words_chars [] r end
    else words_chars (cur ++ [c]) r
  end.
Definition split_whitespace (s : bytes) : list bytes :=
  map Utf8.of_chars (words_chars [] (Utf8.chars s)).

(** [s.lines().next().unwrap_or("")]. *)
Definition first_line (s : bytes) : bytes :=
  match split_once 10 s with
  | Some (l, _) => default l (strip_suffix [13] l)
  | None => s
  end.

(** A string that begins and ends with a visible ASCII character is its own
    trim. *)
Definition solid (l : list Z) : Prop :=
  match l with [] => True | c :: _ => is_whitespace c = false end
  /\ match reverse l with [] => True | c :: _ => is_whitespace c = false end.

Lemma drop_while_head {A} (p : A -> bool) l :
  match l with [] => True | c :: _ => p c = false end -> drop_while p l = l.
Proof. destruct l; simpl; [done|]. by intros ->. Qed.

Lemma trim_chars_solid l : solid l -> trim_chars l = l.
Proof.
  intros [H1 H2]. unfold trim_chars. rewrite (drop_while_head _ l H1).
  rewrite drop_while_head by done. apply reverse_involutive.
Qed.

Lemma trim_solid s : Utf8.valid s = true -> solid (Utf8.chars s) -> trim s = s.
Proof.
  intros Hv Hs. unfold trim. rewrite trim_chars_solid by done. by apply Utf8.valid_chars.
Qed.

(** ** Decimal and hexadecimal numbers *)

(** Digits of [n], most significant first, in front of [acc]. *)
Fixpoint dec_aux (fuel : nat) (n : Z) (acc : bytes) : bytes :=
  match fuel with
  | O => acc
  | S f => if n <? 10 then (48 + n) :: acc else dec_aux f (n / 10) ((48 + n mod 10) :: acc)
  end.
(** [n.to_string()] for an unsigned [n]; one digit per bit is fuel enough. *)
Definition dec (n : Z) : bytes := dec_aux (S (Z.to_nat (Z.log2 n))) n [].
(** [n.to_string()] for a signed [n]. *)
Definition dec_signed (n : Z) : bytes := if n <? 0 then 45 :: dec (- n) else dec n.

Definition hex_digit (d : Z) : Z := if d <? 10 then 48 + d else 87 + d.
(** [format!("{:04x}", n)] for [n] below 65536. *)
Definition hex4 (n : Z) : bytes :=
  [hex_digit (n / 4096); hex_digit ((n / 256) mod 16);
   hex_digit ((n / 16) mod 16); hex_digit (n mod 16)].

(** [char::to_digit(radix)], radix at most 16. *)
Definition digit_val (radix c : Z) : option Z :=
  let v := if is_ascii_digit c then c - 48
           else if (97 <=? c) && (c <=? 102) then c - 87
           else if (65 <=? c) && (c <=? 70) then c - 55 else radix in
  if v <? radix then Some v else None.

Fixpoint digits_val (radix acc : Z) (s : bytes) : option Z :=
  match s with
  | [] => Some acc
  | c :: r => match digit_val radix c with
              | Some d => digits_val radix (acc * radix + d) r
              | None => None
              end
  end.

Definition strip_plus (s : bytes) : bytes :=
  match s with c :: r => if c =? 43 then r else s | [] => [] end.

(** [from_str_radix] of an unsigned type with maximum [max]: an optional [+],
    at least one digit, no overflow. *)
Definition parse_radix (radix max : Z) (s : bytes) : option Z :=
  match strip_plus s with
  | [] => None
  | d => match digits_val radix 0 d with
         | Some v => if v <=? max then Some v else None
         | None => None
         end
  end.
Definition parse_u16 (s : bytes) : option Z := parse_radix 10 65535 s.
Definition parse_u32 (s : bytes) : option Z := parse_radix 10 4294967295 s.
Definition parse_u64 (s : bytes) : option Z := parse_radix 10 18446744073709551615 s.
(** [str::parse::<i32>]. *)
Definition parse_i32 (s : bytes) : option Z :=
  match s with
  | c :: ((_ :: _) as r) =>
    if c =? 45 then
      match digits_val 10 0 r with
      | Some v => if v <=? 2147483648 then Some (- v) else None
      | None => None
      end
    else parse_radix 10 2147483647 s
  | _ => parse_radix 10 2147483647 s
  end.

Lemma digit_val_dec d : 0 <= d < 10 -> digit_val 10 (48 + d) = Some d.
Proof.
  intros. unfold digit_val, is_ascii_digit.
  destruct ((48 <=? 48 + d) && (48 + d <=? 57)) eqn:E; [|lia].
  bcase; [f_equal; lia|lia].
Qed.

Lemma log2_div10 n : 10 <= n -> (Z.to_nat (Z.log2 (n / 10)) < Z.to_nat (Z.log2 n))%nat.
Proof.
  intros Hn. assert (Z.log2 (n / 10) < Z.log2 n); [|pose proof (Z.log2_nonneg (n / 10)); lia].
  apply Z.log2_lt_pow2; [apply Z.div_str_pos; lia|].
  pose proof (Z.log2_spec n ltac:(lia)) as [_ H]. rewrite Z.pow_succ_r in H by apply Z.log2_nonneg.
  apply Z.div_lt_upper_bound; lia.
Qed.

Lemma dec_aux_spec fuel n acc a : 0 <= n -> (Z.to_nat (Z.log2 n) < fuel)%nat ->
  exists k, 0 < k /\ digits_val 10 a (dec_aux fuel n acc) = digits_val 10 (a * k + n) acc /\
    exists h, h <> [] /\ dec_aux fuel n acc = h ++ acc /\
      Forall (fun c => 48 <= c <= 57) h.
Proof.
  revert n acc. induction fuel as [|f IH]; intros n acc Hn Hf; [lia|]. simpl. bcase.
  - exists 10. split; [lia|]. simpl. rewrite digit_val_dec by lia.
    split; [done|]. exists [48 + n]. repeat split; [done|]. repeat constructor; lia.
  - assert (Hl : (Z.to_nat (Z.log2 (n / 10)) < f)%nat) by (pose proof (log2_div10 n ltac:(lia)); lia).
    destruct (IH (n / 10) ((48 + n mod 10) :: acc)) as (k & Hk & Hd & h & Hh & Ed & HF);
      [apply Z.div_pos; lia|done|].
    exists (10 * k). split; [lia|]. rewrite Hd, Ed. simpl.
    pose proof (Z.mod_pos_bound n 10 ltac:(lia)). rewrite digit_val_dec by lia. split.
    + f_equal. pose proof (Z.div_mod n 10). lia.
    + exists (h ++ [48 + n mod 10]). rewrite <- app_assoc. repeat split; [by destruct h|].
      apply Forall_app. split; [done|]. repeat constructor; lia.
Qed.

Lemma dec_digits n : 0 <= n -> Forall (fun c => 48 <= c <= 57) (dec n) /\ dec n <> [].
Proof.
  intros Hn. destruct (dec_aux_spec (S (Z.to_nat (Z.log2 n))) n [] 0) as
    (k & _ & _ & h & Hh & E & HF); [done|lia|]. unfold dec. rewrite E, app_nil_r. done.
Qed.

Lemma digits_val_dec n : 0 <= n -> digits_val 10 0 (dec n) = Some n.
Proof.
  intros Hn. destruct (dec_aux_spec (S (Z.to_nat (Z.log2 n))) n [] 0) as
    (k & _ & E & _); [done|lia|]. unfold dec. rewrite E. done.
Qed.

Lemma dec_aux_acc fuel n acc : dec_aux fuel n acc = dec_aux fuel n [] ++ acc.
Proof.
  revert n acc. induction fuel as [|f IH]; intros n acc; [done|]. cbn [dec_aux]. bcase; [done|].
  by rewrite (IH _ (_ :: acc)), (IH _ [_]), <- app_assoc.
Qed.

Lemma dec_aux_fuel f g n acc : 0 <= n -> (Z.to_nat (Z.log2 n) < f)%nat -> (Z.to_nat (Z.log2 n) < g)%nat ->
  dec_aux f n acc = dec_aux g n acc.
Proof.
  revert g n acc. induction f as [|f IH]; intros [|g] n acc Hn Hf Hg; try lia. cbn [dec_aux]. bcase; [done|].
  pose proof (log2_div10 n ltac:(lia)). apply IH; [apply Z.div_pos; lia|lia..].
Qed.

Lemma dec_small n : 0 <= n < 10 -> dec n = [48 + n].
Proof. intros. unfold dec. cbn [dec_aux]. bcase; [done|lia]. Qed.

Lemma dec_step n : 10 <= n -> dec n = dec (n / 10) ++ [48 + n mod 10].
Proof.
  intros Hn. pose proof (log2_div10 n Hn).
  change (dec n) with (if n <? 10 then [48 + n] else dec_aux (Z.to_nat (Z.log2 n)) (n / 10) [48 + n mod 10]).
  bcase; [lia|]. unfold dec.
  rewrite dec_aux_acc. f_equal. apply dec_aux_fuel; [apply Z.div_pos; lia|lia..].
Qed.

(** Printing then parsing an unsigned integer in range gives it back. *)
Lemma parse_dec max n : 0 <= n <= max -> parse_radix 10 max (dec n) = Some n.
Proof.
  intros Hn. pose proof (digits_val_dec n ltac:(lia)) as E.
  destruct (dec_digits n ltac:(lia)) as [HF Hne].
  unfold parse_radix, strip_plus. destruct (dec n) as [|c r] eqn:Ed; [done|].
  inv HF. bcase; [lia|]. rewrite E. bcase; [done|lia].
Qed.

Lemma parse_radix_range max radix s v : 0 <= radix -> parse_radix radix max s = Some v -> v <= max.
Proof.
  unfold parse_radix. intros _ H. destruct (strip_plus s); [done|].
  destruct (digits_val _ _ _); [|done]. bcase; [by inv H|done].
Qed.

Lemma dec_aux_length fuel n acc k : 0 <= n < 10 ^ Z.of_nat (S k) ->
  (length (dec_aux fuel n acc) <= S k + length acc)%nat.
Proof.
  revert n acc k. induction fuel as [|f IH]; intros n acc k Hn; simpl; [lia|].
  bcase; [simpl; lia|]. destruct k as [|k]; [change (10 ^ Z.of_nat 1) with 10 in Hn; lia|].
  etransitivity; [apply (IH _ _ k)|simpl; lia].
  rewrite Nat2Z.inj_succ, Z.pow_succ_r in Hn by lia.
  split; [apply Z.div_pos; lia|apply Z.div_lt_upper_bound; lia].
Qed.

(** A number below [10^k] has at most [k] digits. *)
Lemma len_dec n k : 0 <= n < 10 ^ Z.of_nat (S k) -> len (dec n) <= Z.of_nat (S k).
Proof.
  intros H. unfold len, dec. pose proof (dec_aux_length (S (Z.to_nat (Z.log2 n))) n [] k H).
  simpl length in *. lia.
Qed.

(** The same for a signed 32-bit integer. *)
Lemma parse_i32_dec n : - 2 ^ 31 <= n < 2 ^ 31 -> parse_i32 (dec_signed n) = Some n.
Proof.
  intros Hn. unfold dec_signed, parse_i32. bcase.
  - destruct (dec_digits (- n) ltac:(lia)) as [HF Hne].
    pose proof (digits_val_dec (- n) ltac:(lia)) as Ev.
    destruct (dec (- n)) as [|c r]; [done|]. cbn [Z.eqb Pos.eqb]. rewrite Ev.
    bcase; [f_equal; lia|lia].
  - pose proof (parse_dec 2147483647 n ltac:(lia)) as Ep.
    destruct (dec_digits n ltac:(lia)) as [HF Hne]. destruct (dec n) as [|c [|d r]]; [done|done|].
    inv HF. bcase; [lia|done].
Qed.

#[export] Hint Resolve Utf8.valid_ascii Utf8.valid_app : arapuca.

(** Character boundaries, seen from the next byte and at a continuation byte. *)
Lemma boundary_tail c s n : Utf8.is_char_boundary (c :: s) (Z.of_nat (S n)) = true ->
  Utf8.is_char_boundary s (Z.of_nat n) = true.
Proof.
  unfold Utf8.is_char_boundary. rewrite !Nat2Z.id. cbn [lookup list_lookup].
  destruct (Z.of_nat (S n) =? 0) eqn:E0; bsplit; [exfalso; lia|]. destruct (Z.of_nat n =? 0); [done|].
  change (list_lookup n s) with (s !! n). destruct (s !! n); [done|].
  rewrite len_cons. intros; bsplit. apply Z.eqb_eq. lia.
Qed.

Lemma boundary_not_cont s n d : s !! S n = Some d -> Utf8.cont d = true ->
  Utf8.is_char_boundary s (Z.of_nat (S n)) = true -> False.
Proof.
  intros Hl Hc. unfold Utf8.is_char_boundary. rewrite Nat2Z.id, Hl. unfold Utf8.cont in Hc.
  destruct (Z.of_nat (S n) =? 0) eqn:E0; intros; bsplit; lia.
Qed.

(** Cutting a valid string at a character boundary leaves a valid string. *)
Lemma valid_boundary_drop s n : Utf8.valid s = true ->
  Utf8.is_char_boundary s (Z.of_nat n) = true -> Utf8.valid (drop n s) = true.
Proof.
  rewrite !Utf8.valid_decode. intros [l Hl]. revert n. revert s l Hl.
  apply (Utf8.decode_ind (fun s l => forall n, Utf8.is_char_boundary s (Z.of_nat n) = true ->
    is_Some (Utf8.decode (drop n s)))).
  - intros n _. destruct n; by eexists.
  - intros c s l Hc Hd IH [|n] Hb; [rewrite drop_0, Utf8.decode_1, Hd by done; by eexists|].
    eapply (IH n), boundary_tail, Hb.
  - intros c d s l Hc Hd Hs IH [|[|n]] Hb;
      [rewrite drop_0, Utf8.decode_2, Hs by done; by eexists
      |destruct (fun Hl H => boundary_not_cont _ 0 d Hl H Hb); [reflexivity|Utf8.utf8]|].
    eapply (IH n), boundary_tail, boundary_tail, Hb.
  - intros c d e s l Hc He Hs IH [|[|[|n]]] Hb;
      [rewrite drop_0, Utf8.decode_3, Hs by done; by eexists
      |destruct (fun Hl H => boundary_not_cont _ 0 d Hl H Hb); [reflexivity|Utf8.utf8]
      |destruct (fun Hl H => boundary_not_cont _ 1 e Hl H Hb); [reflexivity|Utf8.utf8]|].
    eapply (IH n), boundary_tail, boundary_tail, boundary_tail, Hb.
  - intros c d e f s l Hc He Hf Hs IH [|[|[|[|n]]]] Hb;
      [rewrite drop_0, Utf8.decode_4, Hs by done; by eexists
      |destruct (fun Hl H => boundary_not_cont _ 0 d Hl H Hb); [reflexivity|Utf8.utf8]
      |destruct (fun Hl H => boundary_not_cont _ 1 e Hl H Hb); [reflexivity|Utf8.utf8]
      |destruct (fun Hl H => boundary_not_cont _ 2 f Hl H Hb); [reflexivity|Utf8.utf8]|].
    eapply (IH n), boundary_tail, boundary_tail, boundary_tail, boundary_tail, Hb.
Qed.

(** ** Order *)

(** [Ord] of [String]: the bytes in lexicographic order. *)
Fixpoint lex_le (a b : bytes) : bool :=
  match a, b with
  | [], _ => true
  | _ :: _, [] => false
  | x :: a, y :: b => (x <? y) || ((x =? y) && lex_le a b)
  end.

Lemma lex_le_total a b : lex_le a b = false -> lex_le b a = true.
Proof.
  revert b. induction a as [|x a IH]; intros [|y b]; simpl; try done. intros H.
  apply orb_false_iff in H as [Hlt Hle]. destruct (Z.eqb_spec x y) as [->|Hne].
  - rewrite Z.ltb_irrefl, Z.eqb_refl. by apply IH.
  - rewrite (proj2 (Z.ltb_lt _ _)) by lia. done.
Qed.

Lemma lex_le_antisym a b : lex_le a b = true -> lex_le b a = true -> a = b.
Proof.
  revert b. induction a as [|x a IH]; intros [|y b]; simpl; try done. intros H1 H2.
  apply orb_true_iff in H1, H2. rewrite andb_true_iff in H1, H2. bsplit.
  destruct H1 as [H1|[E1 H1]]; bsplit; [destruct H2 as [|[]]; bsplit; lia|]. subst.
  rewrite Z.ltb_irrefl in H2. destruct H2 as [|[_ H2]]; [done|]. f_equal. by apply IH.
Qed.

Lemma lex_le_trans a b c : lex_le a b = true -> lex_le b c = true -> lex_le a c = true.
Proof.
  revert b c. induction a as [|x a IH]; intros [|y b] [|z c]; simpl; try done.
  rewrite !orb_true_iff, !andb_true_iff, !Z.ltb_lt, !Z.eqb_eq. intros [H1|[-> H1]] [H2|[-> H2]]; eauto with lia.
Qed.

(** ** Lines and signed numbers *)

Fixpoint lines_of (pieces : list bytes) : list bytes :=
  match pieces with
  | [] => []
  | [x] => if decide (x = []) then [] else [x]
  | x :: r => default x (strip_suffix [13] x) :: lines_of r
  end.

(** [str::lines]. *)
Definition lines (s : bytes) : list bytes := lines_of (split 10 s).

(** [str::parse::<i64>]. *)
Definition parse_i64 (s : bytes) : option Z :=
  match s with
  | c :: ((_ :: _) as r) =>
    if c =? 45 then
      match digits_val 10 0 r with
      | Some v => if v <=? 9223372036854775808 then Some (- v) else None
      | None => None
      end
    else parse_radix 10 9223372036854775807 s
  | _ => parse_radix 10 9223372036854775807 s
  end.
