(* ===== verification/Paths.v ===== *)
(** * Paths: [std::path] on Unix and lexical normalisation

    [components] and [PathBuf::push] as the standard library defines them on
    Unix, [normalize_path] of src/src/validate.rs, and its meaning: the stack
    of names [resolve] computes directly on the pieces of the path. *)

From S2P Require Import Prelude Text.

Definition slash : Z := 47.
Definition dot : bytes := bs ".".
Definition dotdot : bytes := bs "..".

(** [std::path::Component]. *)
Inductive Component : Type :=
| RootDir
| CurDir
| ParentDir
| Normal (s : bytes).

#[export] Instance Component_eq_dec : EqDecision Component.
Proof. solve_decision. Defined.

Definition is_absolute (p : bytes) : bool := starts_with [slash] p.

(** One piece between slashes; [.] is kept only at the start of a relative
    path. *)
Definition piece_component (first : bool) (s : bytes) : list Component :=
  if decide (s = []) then []
  else if decide (s = dot) then (if first then [CurDir] else [])
  else if decide (s = dotdot) then [ParentDir]
  else [Normal s].

Definition pieces_components (l : list bytes) : list Component :=
  concat (map (piece_component false) l).

(** [Path::components]. *)
Definition components (p : bytes) : list Component :=
  match split slash p with
  | [] => []
  | h :: t =>
    (if is_absolute p then [RootDir] else piece_component true h) ++ pieces_components t
  end.

(** [Component::as_os_str]. *)
Definition as_os_str (c : Component) : bytes :=
  match c with
  | RootDir => [slash]
  | CurDir => dot
  | ParentDir => dotdot
  | Normal s => s
  end.

(** [PathBuf::push]. *)
Definition push (buf p : bytes) : bytes :=
  if is_absolute p then p
  else match last buf with
       | None => p
       | Some c => if c =? slash then buf ++ p else buf ++ slash :: p
       end.

(** [iter.collect::<PathBuf>()]. *)
Definition collect_path (l : list Component) : bytes :=
  fold_left (fun buf c => push buf (as_os_str c)) l [].

(** What [Path::parent] and [Path::file_name] see of a path: the text in front of the body (a root or a leading
    [.]), and the pieces of the body without empty ones and [.] at the end. *)
Definition trim_right (l : list bytes) : list bytes :=
  reverse (drop_while (fun s => bool_decide (s = [] \/ s = dot)) (reverse l)).
Definition path_body (p : bytes) : bytes * list bytes :=
  match split slash p with
  | h :: t =>
    if decide (is_absolute p = true) then ([slash], trim_right t)
    else if decide (h = dot) then (dot, trim_right t) else ([], trim_right (h :: t))
  | [] => ([], [])
  end.

Definition parent (p : bytes) : option bytes :=
  let '(root, body) := path_body p in
  match body with
  | [] => if decide (root = dot) then Some [] else None
  | _ =>
    match trim_right (removelast body) with
    | [] => Some root
    | body => Some ((if decide (root = dot) then dot ++ [slash] else root) ++ join [slash] body)
    end
  end.

Definition file_name (p : bytes) : option bytes :=
  match last (path_body p).2 with
  | Some s => if decide (s = dotdot) then None else Some s
  | None => None
  end.

(** [Path::starts_with]: component-wise prefix. *)
Definition path_starts_with (p base : bytes) : bool :=
  bool_decide (components base `prefix_of` components p).

(** [Vec::pop], ignoring the popped element. *)
Definition pop {A} (l : list A) : list A := removelast l.

(** One iteration of the loop of [normalize_path]. *)
Definition normalize_step (parts : list Component) (c : Component) : list Component :=
  match c with
  | ParentDir => if decide (last parts = Some RootDir) then parts else pop parts
  | CurDir => parts
  | other => parts ++ [other]
  end.

Definition normalize_path (p : bytes) : bytes :=
  collect_path (fold_left normalize_step (components p) []).

(** ** What normalisation means *)

(** A name: a piece that is neither empty nor special. *)
Definition is_name (s : bytes) : Prop :=
  s <> [] /\ s <> dot /\ s <> dotdot /\ Forall (fun c => c <> slash) s.

(** The directory stack after one piece. *)
Definition resolve_step (stack : list bytes) (s : bytes) : list bytes :=
  if decide (s = []) then stack
  else if decide (s = dot) then stack
  else if decide (s = dotdot) then pop stack
  else stack ++ [s].

(** The names an absolute path leads through, from the root. *)
Definition resolve (p : bytes) : list bytes :=
  fold_left resolve_step (split slash p) [].

(** The absolute path spelled by a list of names. *)
Definition absolute (names : list bytes) : bytes := slash :: join [slash] names.

Lemma is_absolute_spec p : is_absolute p = true <-> exists q, p = slash :: q.
Proof. apply starts_with_spec. Qed.

Lemma components_absolute q :
  components (slash :: q) = RootDir :: pieces_components (split slash q).
Proof. done. Qed.

Lemma removelast_snoc {A} (l : list A) x : removelast (l ++ [x]) = l.
Proof. apply List.removelast_last. Qed.

Lemma last_map_Normal names :
  last (RootDir :: map Normal names) = Some RootDir <-> names = [].
Proof.
  split; [|by intros ->]. destruct names as [|x names _] using rev_ind; [done|].
  rewrite map_app. simpl. rewrite app_comm_cons, last_snoc. done.
Qed.

Lemma pop_map_Normal names :
  names <> [] -> pop (RootDir :: map Normal names) = RootDir :: map Normal (pop names).
Proof.
  destruct names as [|x names _] using rev_ind; [done|]. intros _. unfold pop.
  rewrite removelast_snoc, map_app. cbn [map].
  by rewrite app_comm_cons, removelast_snoc.
Qed.

(** The two stacks move together. *)
Lemma normalize_pieces l names :
  fold_left normalize_step (pieces_components l) (RootDir :: map Normal names)
  = RootDir :: map Normal (fold_left resolve_step l names).
Proof.
  revert names. induction l as [|s l IH]; intros names; [done|].
  unfold pieces_components in *. simpl. rewrite fold_left_app.
  unfold piece_component, resolve_step at 2.
  destruct (decide (s = [])); [apply IH|].
  destruct (decide (s = dot)); [apply IH|].
  destruct (decide (s = dotdot)); cbn [fold_left normalize_step].
  - destruct (decide (names = [])) as [->|Hn].
    + rewrite decide_True by by apply last_map_Normal. apply (IH []).
    + rewrite decide_False by by rewrite last_map_Normal.
      by rewrite pop_map_Normal, IH.
  - rewrite <- (IH (names ++ [s])), map_app. done.
Qed.

Lemma Forall_pop {A} (P : A -> Prop) l : Forall P l -> Forall P (pop l).
Proof.
  unfold pop. destruct l as [|x l _] using rev_ind; [done|].
  rewrite removelast_snoc. intros H. by apply Forall_app in H as [H _].
Qed.

Lemma resolve_fold_names l names : Forall (Forall (fun c => c <> slash)) l ->
  Forall is_name names -> Forall is_name (fold_left resolve_step l names).
Proof.
  intros Hl. revert names. induction Hl as [|s l Hs _ IH]; intros names Hn; [done|].
  simpl. apply IH. unfold resolve_step.
  repeat case_decide; auto using Forall_pop.
  apply Forall_app. split; [done|]. by repeat constructor.
Qed.

Lemma resolve_names p : Forall is_name (resolve p).
Proof. apply resolve_fold_names; [apply split_pieces|constructor]. Qed.

Lemma push_name buf s : is_name s -> push buf s =
  match last buf with
  | None => s
  | Some c => if c =? slash then buf ++ s else buf ++ slash :: s
  end.
Proof.
  intros (Hne & _ & _ & Hs). unfold push.
  destruct (is_absolute s) eqn:E; [|done].
  apply is_absolute_spec in E as [q ->]. by inv Hs.
Qed.

Lemma last_app_ne {A} (l k : list A) : k <> [] -> last (l ++ k) = last k.
Proof.
  destruct k as [|x k _] using rev_ind; [done|]. intros _.
  by rewrite app_assoc, !last_snoc.
Qed.

Lemma last_name s : is_name s -> exists c, last s = Some c /\ c <> slash.
Proof.
  intros (Hne & _ & _ & Hs). destruct s as [|c s _] using rev_ind; [done|].
  exists c. rewrite last_snoc. apply Forall_app in Hs as [_ Hs]. by inv Hs.
Qed.

Lemma collect_names buf names : Forall is_name names ->
  (exists c, last buf = Some c /\ c <> slash) ->
  fold_left (fun buf c => push buf (as_os_str c)) (map Normal names) buf
  = buf ++ concat (map (cons slash) names).
Proof.
  intros Hn. revert buf. induction Hn as [|s names Hs _ IH]; intros buf (c & Hc & Hns); simpl.
  - by rewrite app_nil_r.
  - rewrite push_name, Hc by done. bcase; [done|]. rewrite IH, <- app_assoc; [done|].
    rewrite (last_app_ne buf (slash :: s)) by done.
    destruct (last_name s Hs) as (d & Hd & Hds). exists d.
    change (slash :: s) with ([slash] ++ s). by rewrite last_app_ne by by destruct Hs.
Qed.

Lemma join_slash x names :
  join [slash] (x :: names) = x ++ concat (map (cons slash) names).
Proof.
  revert x. induction names as [|y names IH]; intros x; [by simpl; rewrite app_nil_r|].
  change (join [slash] (x :: y :: names)) with (x ++ slash :: join [slash] (y :: names)).
  by rewrite IH.
Qed.

Lemma collect_absolute names : Forall is_name names ->
  collect_path (RootDir :: map Normal names) = absolute names.
Proof.
  intros H. unfold collect_path, absolute. simpl.
  destruct H as [|s names Hs Hn]; [done|]. cbn [map fold_left as_os_str].
  rewrite push_name by done. change (push [] [slash]) with [slash].
  cbn [list.last]. rewrite Z.eqb_refl.
  rewrite collect_names, join_slash; [done|done|].
  rewrite last_app_ne by by destruct Hs. by apply last_name.
Qed.

(** Normalising an absolute path spells the names it resolves to. *)
Lemma normalize_absolute p : is_absolute p = true ->
  normalize_path p = absolute (resolve p).
Proof.
  intros Ha. pose proof (resolve_names p) as Hn. apply is_absolute_spec in Ha as [q ->].
  unfold normalize_path. rewrite components_absolute. cbn [fold_left normalize_step app].
  rewrite (normalize_pieces _ []). by apply collect_absolute.
Qed.

(** The components of a spelled-out absolute path are its names. *)
Lemma pieces_components_names names : Forall is_name names ->
  pieces_components names = map Normal names.
Proof.
  unfold pieces_components.
  induction 1 as [|s names (H1 & H2 & H3 & _) _ IH]; [done|]. simpl. rewrite IH.
  unfold piece_component. by rewrite !decide_False.
Qed.

Lemma split_names names : Forall is_name names -> names <> [] ->
  split slash (join [slash] names) = names.
Proof.
  intros Hn Hne. apply split_join; [done|].
  eapply Forall_impl; [|exact Hn]. by intros s (_ & _ & _ & ?).
Qed.

Lemma components_names names : Forall is_name names ->
  components (absolute names) = RootDir :: map Normal names.
Proof.
  intros Hn. unfold absolute. rewrite components_absolute. f_equal.
  destruct (decide (names = [])) as [->|Hne]; [done|].
  by rewrite split_names, pieces_components_names.
Qed.

Lemma fold_resolve_names names acc : Forall is_name names ->
  fold_left resolve_step names acc = acc ++ names.
Proof.
  intros H. revert acc. induction H as [|s names (H1 & H2 & H3 & _) _ IH]; intros acc; simpl.
  - by rewrite app_nil_r.
  - unfold resolve_step at 2. rewrite !decide_False by done. rewrite IH, <- app_assoc. done.
Qed.

Lemma resolve_absolute names : Forall is_name names -> resolve (absolute names) = names.
Proof.
  intros Hn. unfold resolve, absolute. cbn [split]. rewrite Z.eqb_refl. simpl.
  destruct (decide (names = [])) as [->|Hne]; [done|].
  by rewrite split_names, fold_resolve_names.
Qed.

Lemma is_absolute_absolute names : is_absolute (absolute names) = true.
Proof. done. Qed.

(** ** Prefixes of spelled-out paths *)

Lemma prefix_first_name q x r : Forall (fun c => c <> slash) q -> q <> [] ->
  q `prefix_of` join [slash] (x :: r) <-> q `prefix_of` x.
Proof.
  intros Hq Hne. rewrite join_slash. split; [|apply prefix_app_r].
  intros [t Ht]. apply app_eq_app in Ht as (u & [[-> _]|[-> Hu]]); [by apply prefix_app_r|].
  destruct u as [|c u]; [rewrite app_nil_r; done|]. exfalso.
  destruct r as [|y r]; [by destruct t|]. simpl in Hu. inv Hu.
  apply Forall_app in Hq as [_ Hq]. by inv Hq.
Qed.

Lemma prefix_next_name a q names : Forall (fun c => c <> slash) a ->
  Forall is_name names -> a <> [] ->
  (a ++ slash :: q) `prefix_of` join [slash] names <->
  exists r, names = a :: r /\ r <> [] /\ q `prefix_of` join [slash] r.
Proof.
  intros Ha Hn Hane. destruct Hn as [|x names Hx Hn].
  { split; [intros [t Ht]; destruct a; done|intros (r & ? & _); done]. }
  rewrite join_slash. split.
  - intros [t Ht]. rewrite <- app_assoc in Ht. apply app_eq_app in Ht as (u & [[-> Hu]|[-> Hu]]).
    + destruct u as [|c u].
      * rewrite app_nil_r. destruct names as [|y names]; [done|]. exists (y :: names).
        rewrite join_slash. simpl in *. inv Hu. repeat split; [done|]. by exists t.
      * exfalso. simpl in Hu. inv Hu. destruct Hx as (_ & _ & _ & Hx).
        apply Forall_app in Hx as [_ Hx]. by inv Hx.
    + destruct u as [|c u].
      * rewrite app_nil_r in *. destruct names as [|y names]; [done|]. exists (y :: names).
        rewrite join_slash. simpl in *. inv Hu. repeat split; [done|]. by exists t.
      * exfalso. destruct names as [|y names]; [by simpl in Hu|]. simpl in Hu. inv Hu.
        apply Forall_app in Ha as [_ Ha]. by inv Ha.
  - intros (r & E & Hr & t & Ht). inv E. destruct r as [|y r]; [done|].
    rewrite join_slash in Ht. exists t. rewrite <- app_assoc. simpl. by rewrite Ht.
Qed.

Lemma push_inj d a b : is_absolute a = false -> is_absolute b = false -> push d a = push d b -> a = b.
Proof.
  unfold push. intros -> ->. destruct (last d) as [c|]; [|done]. case_match; intros H'; simplify_list_eq; done.
Qed.

(** ** The parent is shorter *)

Definition text_size (l : list bytes) : nat := foldr (fun s n => S (length s) + n)%nat 0%nat l.

Lemma length_join sep l : (l <> [] -> S (length (join [sep] l)) = text_size l)%nat.
Proof.
  induction l as [|x l IH]; [done|]. intros _. destruct l as [|y l]; [simpl; lia|].
  change (join [sep] (x :: y :: l)) with (x ++ [sep] ++ join [sep] (y :: l)). rewrite !length_app.
  specialize (IH ltac:(done)). simpl in *. lia.
Qed.

Lemma text_size_app l k : text_size (l ++ k) = (text_size l + text_size k)%nat.
Proof. induction l as [|x l IH]; simpl; lia. Qed.

Lemma trim_right_app l : exists k, l = trim_right l ++ k.
Proof.
  unfold trim_right. assert (H : forall r, exists k, r = k ++ drop_while (fun s => bool_decide (s = [] \/ s = dot)) r).
  { induction r as [|x r IH]; [by exists []|]. simpl. case_bool_decide; [|by exists []]. destruct IH as [k Hk].
    exists (x :: k). simpl. by rewrite <- Hk. }
  destruct (H (reverse l)) as [k Hk]. exists (reverse k). rewrite <- reverse_app, <- Hk. by rewrite reverse_involutive.
Qed.

Lemma text_size_trim l : (text_size (trim_right l) <= text_size l)%nat.
Proof. destruct (trim_right_app l) as [k Hk]. rewrite Hk at 2. rewrite text_size_app. lia. Qed.

Lemma removelast_last {A} (l : list A) x : last l = Some x -> l = removelast l ++ [x].
Proof.
  induction l as [|y l IH] using rev_ind; [done|]. rewrite last_snoc. intros [= ->]. by rewrite removelast_snoc.
Qed.

Lemma parent_absolute p q n : is_absolute p = true -> file_name p = Some n -> parent p = Some q ->
  is_absolute q = true /\ (length q < length p)%nat.
Proof.
  intros Ha. destruct (proj1 (is_absolute_spec p) Ha) as [r ->]. unfold file_name, parent.
  change (path_body (slash :: r)) with ([slash], trim_right (split slash r)). cbn [snd].
  destruct (last (trim_right (split slash r))) as [x|] eqn:El; [|done]. intros _. pose proof (removelast_last _ _ El) as Eb.
  assert (Hsz : (text_size (removelast (trim_right (split slash r))) <= length r)%nat).
  { pose proof (text_size_trim (split slash r)) as Ht. rewrite Eb, text_size_app in Ht. cbn in Ht.
    rewrite <- (length_join slash (split slash r)), join_split in Ht by apply split_nonempty. lia. }
  assert (Hr : r <> []) by (by intros ->).
  destruct (trim_right (split slash r)) as [|b body] eqn:E; [done|].
  set (rest := removelast (b :: body)) in *. pose proof (text_size_trim rest) as Ht.
  destruct (trim_right rest) as [|c l] eqn:Er; intros [= <-]; (split; [done|]); cbn [length].
  - destruct r; [done|]. simpl. lia.
  - pose proof (length_join slash (c :: l) ltac:(done)) as Hj. clearbody rest. cbn in Hj, Ht |- *. lia.
Qed.
