(* ===== verification/Validate.v ===== *)
(** * Validate: input validation (src/src/validate.rs)

    Task identifiers, guest paths, guest permissions, the working directory
    and the protection of /sys/fs/cgroup.  The filesystem
    ([std::fs::canonicalize], [Path::is_dir]) is a parameter. *)

From S2P Require Import Prelude Text Paths.

Definition MAX_TASK_ID_LEN : Z := 128.
Definition MAX_GUEST_FILE_SIZE : Z := 1024 * 1024.
Definition MAX_GUEST_WRITE_FILES : Z := 16.
Definition GUEST_PATH_DENY_PREFIXES : list bytes :=
  [bs "/proc"; bs "/sys"; bs "/dev"; bs "/cidata"; bs "/agent"].

Definition sanitize_task_id (id : bytes) : Result bytes :=
  if decide (id = []) then Err (Validation "empty task ID")
  else if MAX_TASK_ID_LEN <? len id then Err (Validation "task ID too long")
  else if negb (forallb (fun c => is_ascii_alphanumeric c || (c =? ch "-")) id)
  then Err (Validation "task ID contains invalid characters")
  else Ok id.

(** The loop over the denied prefixes. *)
Fixpoint deny_loop (ns : bytes) (prefixes : list bytes) : Result unit :=
  match prefixes with
  | [] => Ok tt
  | prefix :: rest =>
    if bool_decide (ns = prefix) || starts_with (prefix ++ bs "/") ns
    then Err (Validation "guest path in denied prefix")
    else deny_loop ns rest
  end.

Definition validate_guest_path (path : bytes) : Result unit :=
  if negb (starts_with (bs "/") path)
  then Err (Validation "guest path must be absolute")
  else if existsb (fun c => bool_decide (c = bs "..")) (split (ch "/") path)
  then Err (Validation "guest path contains '..'")
  else
    let normalized := normalize_path path in
    let ns := Utf8.lossy normalized in
    if decide (ns = bs "/") then Err (Validation "guest path must not be '/'")
    else deny_loop ns GUEST_PATH_DENY_PREFIXES.

Definition validate_guest_file_content (content : bytes) : Result unit :=
  if MAX_GUEST_FILE_SIZE <? len content
  then Err (Validation "guest file content too large")
  else Ok tt.

Definition validate_guest_permissions (perms : bytes) : Result unit :=
  if (len perms <? 3) || (4 <? len perms)
  then Err (Validation "permissions must be 3-4 octal digits")
  else if negb (forallb (fun c => (ch "0" <=? c) && (c <=? ch "7")) perms)
  then Err (Validation "permissions must be octal digits")
  else if (len perms =? 4) && negb (bool_decide (perms !! 0%nat = Some (ch "0")))
  then Err (Validation "setuid/setgid/sticky bits not allowed")
  else Ok tt.

(** ** Validation against the filesystem *)

Section Filesystem.

(** [std::fs::canonicalize] and [Path::is_dir] at the time of the call. *)
Context (canonicalize : bytes -> option bytes) (is_dir : bytes -> bool).

Definition validate_work_dir (work_dir : option bytes) (read_paths write_paths : list bytes)
  : Result unit :=
  match work_dir with
  | None => Ok tt
  | Some dir =>
    if negb (is_absolute dir) then Err (Validation "work_dir must be absolute")
    else match canonicalize dir with
    | None => Err (Validation "work_dir cannot be resolved")
    | Some canonical =>
      if negb (is_dir canonical) then Err (Validation "work_dir is not a directory")
      else if negb (existsb (fun p => path_starts_with canonical (default p (canonicalize p)))
                            (read_paths ++ write_paths))
      then Err (Validation "work_dir must be within a mounted path")
      else Ok tt
    end
  end.

(** The test [reject_cgroup_paths] applies to the normalised and to the
    canonical path. *)
Definition cgroup_hit (q : bytes) : bool :=
  starts_with (bs "/sys/fs/cgroup") (Utf8.lossy q)
  || path_starts_with (bs "/sys/fs/cgroup") q.

Fixpoint reject_cgroup_paths (paths : list bytes) : Result unit :=
  match paths with
  | [] => Ok tt
  | p :: rest =>
    if cgroup_hit (normalize_path p)
    then Err (Validation "path must not include or be an ancestor of /sys/fs/cgroup")
    else
      match canonicalize p with
      | Some resolved =>
        if cgroup_hit resolved
        then Err (Validation "path must not include or be an ancestor of /sys/fs/cgroup")
        else reject_cgroup_paths rest
      | None => reject_cgroup_paths rest
      end
  end.

End Filesystem.

(** ** Task identifiers *)

Definition task_id_char (c : Z) : Prop :=
  (48 <= c <= 57) \/ (65 <= c <= 90) \/ (97 <= c <= 122) \/ c = 45.

Lemma task_id_char_spec c :
  is_ascii_alphanumeric c || (c =? ch "-") = true <-> task_id_char c.
Proof.
  unfold is_ascii_alphanumeric, is_ascii_digit, is_ascii_upper, is_ascii_lower, task_id_char.
  change (ch "-") with 45. lia.
Qed.

Lemma forallb_Forall {A} (f : A -> bool) l :
  forallb f l = true <-> Forall (fun x => f x = true) l.
Proof. rewrite forallb_forall, List.Forall_forall. done. Qed.

Lemma task_id_chars_spec id :
  forallb (fun c => is_ascii_alphanumeric c || (c =? ch "-")) id = true <-> Forall task_id_char id.
Proof.
  rewrite forallb_Forall.
  split; intros H; (eapply Forall_impl; [|exact H]); intros c; apply task_id_char_spec.
Qed.

(** [sanitize_task_id] accepts exactly the non-empty identifiers of at
    most 128 bytes made of ASCII letters, digits and dashes, and returns them
    unchanged; an accepted identifier is therefore a single path component
    that is neither [.] nor [..]. *)
Theorem sanitize_task_id_spec id :
  (forall out, sanitize_task_id id = Ok out <->
    out = id /\ id <> [] /\ len id <= 128 /\ Forall task_id_char id)
  /\ (is_ok (sanitize_task_id id) = true -> is_name id).
Proof.
  assert (H : forall out, sanitize_task_id id = Ok out <->
    out = id /\ id <> [] /\ len id <= 128 /\ Forall task_id_char id).
  { intros out. unfold sanitize_task_id, MAX_TASK_ID_LEN.
    rewrite <- task_id_chars_spec.
    case_decide; [by split; [|intros (_ & ? & _)]|].
    bcase; [split; [done|lia]|].
    destruct (forallb _ id); simpl; [|by split; [|intros (_ & _ & _ & ?)]].
    split; [intros [= ->]; done|]. by intros (-> & _). }
  split; [done|]. intros Ho. destruct (sanitize_task_id id) as [out|]; [|done].
  destruct (H out) as [(_ & Hne & _ & HF) _]; [done|]. repeat split; [done|..].
  - intros ->. change dot with [46] in HF. inv HF. unfold task_id_char in *. lia.
  - intros ->. change dotdot with [46; 46] in HF. inv HF. unfold task_id_char in *. lia.
  - eapply Forall_impl; [|exact HF]. unfold task_id_char, slash. intros. lia.
Qed.

(** ** Lexical normalisation *)

(** [normalize_path] on an absolute path spells out the stack of names
    the path leads through when [.] and empty pieces are skipped and [..]
    pops: its components are exactly those names, none of them is [.], [..]
    or empty, and normalising again changes nothing. *)
Theorem normalize_path_spec p : is_absolute p = true ->
  components (normalize_path p) = RootDir :: map Normal (resolve p)
  /\ Forall is_name (resolve p)
  /\ normalize_path (normalize_path p) = normalize_path p.
Proof.
  intros Ha. pose proof (resolve_names p) as Hn. rewrite (normalize_absolute p Ha).
  repeat split; [by apply components_names|done|].
  rewrite normalize_absolute by done. by rewrite resolve_absolute.
Qed.

Lemma normalize_path_spec_witness :
  is_absolute (bs "/a/./b/../../..//sys/fs/cgroup") = true /\
  components (normalize_path (bs "/a/./b/../../..//sys/fs/cgroup"))
    = RootDir :: map Normal [bs "sys"; bs "fs"; bs "cgroup"].
Proof.
  split; [reflexivity|].
  destruct (normalize_path_spec (bs "/a/./b/../../..//sys/fs/cgroup") eq_refl) as [H _].
  rewrite H. vm_compute. reflexivity.
Defined.

(** ** Guest paths *)

Definition DENIED_NAMES : list bytes :=
  [bs "proc"; bs "sys"; bs "dev"; bs "cidata"; bs "agent"].

Lemma lossy_eq_ascii a s : Forall (fun c => 0 <= c < 128) a -> Utf8.lossy s = a <-> s = a.
Proof.
  intros Ha. split.
  - intros H. assert (Hp : a `prefix_of` s).
    { apply Utf8.lossy_prefix; [done|]. by rewrite H. }
    destruct Hp as [t ->]. clear - Ha H. induction Ha as [|c a Hc Ha IH].
    + destruct t as [|x t]; [done|]. simpl app in H.
      destruct (Utf8.lossy_cases x t) as [[_ E]|(_ & h & r & E & _ & _ & (y & z & -> & _) & _)];
        by rewrite E in H.
    + simpl app in *. destruct (Utf8.lossy_cases c (a ++ t)) as [[_ E]|[Hn _]]; [|lia].
      rewrite E in H. injection H as H. f_equal. by apply IH.
  - intros ->. by eapply Utf8.lossy_decode, Utf8.decode_ascii.
Qed.

Lemma bs_ascii s : forallb (fun c => c <? 128) (bs s) = true ->
  Forall (fun c => 0 <= c < 128) (bs s).
Proof.
  rewrite forallb_Forall. pose proof (bs_u8 s) as Hu. intros H.
  induction H; [done|]. inv Hu. bsplit. constructor; [unfold is_u8 in *; lia|auto].
Qed.

Lemma absolute_inj n1 n2 : Forall is_name n1 -> Forall is_name n2 ->
  absolute n1 = absolute n2 -> n1 = n2.
Proof. intros H1 H2 E. rewrite <- (resolve_absolute n1), E by done. by apply resolve_absolute. Qed.

(** A denied prefix hits exactly the paths below the denied name. *)
Lemma deny_hit name names : is_name name -> Forall (fun c => 0 <= c < 128) name ->
  Forall is_name names ->
  bool_decide (Utf8.lossy (absolute names) = slash :: name)
  || starts_with ((slash :: name) ++ bs "/") (Utf8.lossy (absolute names)) = true
  <-> exists r, names = name :: r.
Proof.
  intros Hname Ha Hn.
  assert (Hs : Forall (fun c => 0 <= c < 128) (slash :: name))
    by (constructor; [unfold slash; lia|done]).
  rewrite orb_true_iff, bool_decide_eq_true, lossy_eq_ascii, starts_with_prefix by done.
  rewrite Utf8.lossy_prefix by (apply Forall_app; split; [done|by apply bs_ascii]).
  unfold absolute at 2. change ((slash :: name) ++ bs "/") with (slash :: (name ++ [slash])).
  split.
  - intros [E|H].
    + exists []. apply absolute_inj; [done|by constructor|]. by rewrite E.
    + apply prefix_cons_inv_2 in H. apply prefix_next_name in H as (r & -> & _);
        [eauto|apply Hname|done|apply Hname].
  - intros [r ->]. destruct r as [|x r]; [by left|right].
    apply prefix_cons, prefix_next_name; [apply Hname|done|apply Hname|].
    exists (x :: r). repeat split; [done|apply prefix_nil].
Qed.

Lemma is_name_bool s :
  negb (bool_decide (s = [])) && negb (bool_decide (s = dot)) && negb (bool_decide (s = dotdot))
  && negb (contains slash s) = true -> is_name s.
Proof. intros H. bsplit. rewrite contains_false in *. done. Qed.

Lemma denied_names_ok :
  Forall (fun n => is_name n /\ Forall (fun c => 0 <= c < 128) n) DENIED_NAMES.
Proof.
  repeat (apply List.Forall_cons; [split; [by apply is_name_bool|by apply bs_ascii]|]). constructor.
Qed.

Lemma deny_loop_spec names denied : Forall is_name names ->
  Forall (fun n => is_name n /\ Forall (fun c => 0 <= c < 128) n) denied ->
  deny_loop (Utf8.lossy (absolute names)) (map (cons slash) denied) = Ok tt
  <-> ~ (exists n r, names = n :: r /\ n ∈ denied).
Proof.
  intros Hn Hd. induction Hd as [|n denied [Hname Hascii] _ IH]; simpl.
  { split; [|done]. intros _ (n & r & _ & H). by apply not_elem_of_nil in H. }
  pose proof (deny_hit n names Hname Hascii Hn) as Hh.
  destruct (bool_decide _ || starts_with _ _).
  - split; [done|]. intros H. exfalso. apply H. destruct Hh as [Hh _].
    destruct (Hh eq_refl) as [r ->]. exists n, r. split; [done|]. by apply list_elem_of_here.
  - rewrite IH. split; intros H (m & r & -> & Hm); apply H.
    + exists m, r. split; [done|]. apply elem_of_cons in Hm as [->|Hm]; [|done].
      exfalso. destruct Hh as [_ Hh]. discriminate Hh. eauto.
    + exists m, r. split; [done|]. by apply list_elem_of_further.
Qed.

(** [validate_guest_path] accepts exactly the absolute paths with no [..]
    piece that lead to something below the root and whose first name is none
    of proc, sys, dev, cidata and agent, however the path is spelled. *)
Theorem validate_guest_path_spec path :
  validate_guest_path path = Ok tt <->
  is_absolute path = true /\ (dotdot ∉ split slash path) /\ resolve path <> [] /\
  ~ (exists n r, resolve path = n :: r /\ n ∈ DENIED_NAMES).
Proof.
  unfold validate_guest_path. change (starts_with (bs "/") path) with (is_absolute path).
  destruct (is_absolute path) eqn:Ha; simpl; [|by split; [|intros (? & _)]].
  pose proof (resolve_names path) as Hn. rewrite (normalize_absolute path Ha).
  destruct (existsb _ _) eqn:Ed.
  - split; [done|]. intros (_ & H & _). exfalso. apply H, list_elem_of_In.
    apply existsb_exists in Ed as (x & Hx & E). bsplit. by subst.
  - assert (Hd : dotdot ∉ split slash path).
    { rewrite list_elem_of_In. intros Hin. apply not_true_iff_false in Ed. apply Ed.
      apply existsb_exists. exists dotdot. by rewrite bool_decide_eq_true. }
    pose proof (deny_loop_spec (resolve path) DENIED_NAMES Hn denied_names_ok) as HL.
    change (map (cons slash) DENIED_NAMES) with GUEST_PATH_DENY_PREFIXES in HL.
    case_decide as Hroot.
    + split; [done|]. intros (_ & _ & Hne & _). exfalso. apply Hne.
      rewrite lossy_eq_ascii in Hroot by by apply bs_ascii.
      by apply (absolute_inj _ []).
    + rewrite HL. split; [|by intros (_ & _ & _ & ?)]. intros H.
      repeat split; [done| |done]. intros E. apply Hroot. rewrite E. reflexivity.
Qed.

(** ** Permissions *)

(** The number written by octal digits. *)
Definition octal (s : bytes) : Z := fold_left (fun v c => v * 8 + (c - 48)) s 0.

(** Permissions accepted by [validate_guest_permissions] denote a mode
    of at most 0777: no setuid, setgid or sticky bit; and every such mode has
    an accepted spelling with three digits. *)
Theorem validate_guest_permissions_mode :
  (forall perms, validate_guest_permissions perms = Ok tt -> 0 <= octal perms <= 511) /\
  (forall mode, 0 <= mode <= 511 -> exists perms,
     octal perms = mode /\ len perms = 3 /\ validate_guest_permissions perms = Ok tt).
Proof.
  unfold validate_guest_permissions, octal. split.
  - intros perms H. change (ch "0") with 48 in *. change (ch "7") with 55 in *.
    destruct perms as [|p0 [|p1 [|p2 [|p3 [|p4 r]]]]]; try done.
    + simpl in *. repeat bcase; try done. lia.
    + simpl in *. repeat bcase; try done.
      simplify_eq. lia.
    + exfalso. assert ((4 <? len (p0 :: p1 :: p2 :: p3 :: p4 :: r)) = true) as E.
      { apply Z.ltb_lt. autorewrite with arapuca. pose proof (len_nonneg r). lia. }
      by rewrite E, orb_true_r in H.
  - intros mode Hm. exists [48 + mode / 64; 48 + (mode / 8) mod 8; 48 + mode mod 8].
    split; [simpl; Z.to_euclidean_division_equations; lia|]. split; [done|].
    change (ch "0") with 48. change (ch "7") with 55. simpl.
    bcase; [|done]. exfalso. Z.to_euclidean_division_equations; lia.
Qed.

(** ** The cgroup hierarchy *)

Definition CGROUP : list bytes := [bs "sys"; bs "fs"; bs "cgroup"].

(** At or below /sys/fs/cgroup; one of its ancestors, the root included; or at or below another entry of /sys/fs
    whose name begins with "cgroup" (such as /sys/fs/cgroup2), which the comparison of bytes catches too. *)
Definition touches_cgroup (names : list bytes) : Prop :=
  CGROUP `prefix_of` names \/ names `prefix_of` CGROUP \/
  exists x r, names = bs "sys" :: bs "fs" :: (bs "cgroup" ++ x) :: r /\ x <> [].

(** The first and the last case are what the comparison of bytes finds. *)
Lemma touches_cgroup_name names : touches_cgroup names <->
  (exists x r, names = bs "sys" :: bs "fs" :: x :: r /\ bs "cgroup" `prefix_of` x) \/ names `prefix_of` CGROUP.
Proof.
  unfold touches_cgroup. split.
  - intros [[r ->]|[H|(x & r & -> & _)]]; [|by right|].
    + left. by exists (bs "cgroup"), r.
    + left. exists (bs "cgroup" ++ x), r. split; [done|]. by apply prefix_app_r.
  - intros [(x & r & -> & [y ->])|H]; [|by right; left]. destruct (decide (y = [])) as [->|Hy].
    + left. exists r. by rewrite app_nil_r.
    + right. right. by exists y, r.
Qed.

Lemma prefix_map_Normal (l k : list bytes) :
  map Normal l `prefix_of` map Normal k <-> l `prefix_of` k.
Proof.
  split.
  - revert k. induction l as [|x l IH]; intros k H; [apply prefix_nil|].
    destruct k as [|y k]; [by apply prefix_nil_not in H|]. simpl in H.
    apply prefix_cons_inv_1 in H as E. inv E. apply prefix_cons_inv_2 in H.
    by apply prefix_cons, IH.
  - intros [t ->]. exists (map Normal t). by rewrite map_app.
Qed.

Lemma cgroup_hit_spec names : Forall is_name names ->
  cgroup_hit (absolute names) = true <-> touches_cgroup names.
Proof.
  intros Hn. rewrite touches_cgroup_name. unfold cgroup_hit, path_starts_with.
  rewrite orb_true_iff, bool_decide_eq_true, starts_with_prefix.
  rewrite Utf8.lossy_prefix by by apply bs_ascii.
  rewrite (components_names names Hn).
  change (components (bs "/sys/fs/cgroup")) with (RootDir :: map Normal CGROUP).
  assert (Hp : RootDir :: map Normal names `prefix_of` RootDir :: map Normal CGROUP
               <-> names `prefix_of` CGROUP).
  { rewrite <- prefix_map_Normal.
    split; [apply prefix_cons_inv_2|apply prefix_cons]. }
  rewrite Hp. apply or_iff_compat_r.
  unfold absolute. change (bs "/sys/fs/cgroup")
    with (slash :: (bs "sys" ++ slash :: (bs "fs" ++ slash :: bs "cgroup"))).
  assert (Hs : is_name (bs "sys")) by by apply is_name_bool.
  assert (Hf : is_name (bs "fs")) by by apply is_name_bool.
  assert (Hc : is_name (bs "cgroup")) by by apply is_name_bool.
  split.
  - intros H. apply prefix_cons_inv_2 in H.
    apply prefix_next_name in H as (r1 & -> & _ & H); [|apply Hs|done|apply Hs].
    inv Hn. apply prefix_next_name in H as (r2 & -> & Hr & H); [|apply Hf|done|apply Hf].
    destruct r2 as [|x r]; [done|].
    apply prefix_first_name in H; [|apply Hc|apply Hc]. eauto.
  - intros (x & r & -> & H). apply prefix_cons.
    apply prefix_next_name; [apply Hs|done|apply Hs|].
    eexists. repeat split; [done|]. inv Hn.
    apply prefix_next_name; [apply Hf|done|apply Hf|].
    eexists. repeat split; [done|]. apply prefix_first_name; [apply Hc|apply Hc|done].
Qed.

Section CgroupSpec.

Context (canonicalize : bytes -> option bytes).

(** What [std::fs::canonicalize] promises: an absolute path with every
    intermediate component normalised. *)
Definition canonical_ok : Prop := forall p r, canonicalize p = Some r ->
  exists names, Forall is_name names /\ r = absolute names.

Lemma canonical_hit p r : canonical_ok -> canonicalize p = Some r ->
  cgroup_hit r = true <-> touches_cgroup (resolve r).
Proof.
  intros Hok Hr. destruct (Hok p r Hr) as (names & Hn & ->).
  by rewrite resolve_absolute, cgroup_hit_spec.
Qed.

(** C27: [reject_cgroup_paths] accepts a list of absolute paths exactly when
    no path, neither as written (normalised lexically) nor as the filesystem
    resolves it, is at, below or above /sys/fs/cgroup, or at or below another
    entry of /sys/fs whose name begins with "cgroup", such as
    /sys/fs/cgroup2, which is refused although it is not in the hierarchy;
    and for a relative path, acceptance still implies it for the resolved
    path. *)
Theorem reject_cgroup_paths_spec paths (Hok : canonical_ok) :
  (Forall (fun p => is_absolute p = true) paths ->
   (reject_cgroup_paths canonicalize paths = Ok tt <->
    forall p, p ∈ paths -> ~ touches_cgroup (resolve p) /\
      forall r, canonicalize p = Some r -> ~ touches_cgroup (resolve r)))
  /\ (reject_cgroup_paths canonicalize paths = Ok tt ->
      forall p r, p ∈ paths -> canonicalize p = Some r -> ~ touches_cgroup (resolve r)).
Proof.
  induction paths as [|p paths [IH1 IH2]]; simpl.
  { split; [intros _; split; [intros _ p H|done]|intros _ p r H]; by apply not_elem_of_nil in H. }
  split.
  - intros Ha. inv Ha. pose proof (resolve_names p) as Hn.
    rewrite (normalize_absolute p) by done. pose proof (cgroup_hit_spec _ Hn) as Hh.
    destruct (cgroup_hit (absolute (resolve p))).
    { split; [done|]. intros H. exfalso. by apply (H p), Hh; [apply list_elem_of_here|]. }
    assert (Hstep : (forall r, canonicalize p = Some r -> ~ touches_cgroup (resolve r)) ->
      reject_cgroup_paths canonicalize paths = Ok tt <->
      forall q, q ∈ p :: paths -> ~ touches_cgroup (resolve q) /\
        forall r, canonicalize q = Some r -> ~ touches_cgroup (resolve r)).
    { intros Hp. rewrite IH1 by done. split; intros H q Hq.
      - apply elem_of_cons in Hq as [->|Hq]; [|by apply H].
        split; [|done]. by rewrite <- Hh.
      - apply H. by apply list_elem_of_further. }
    destruct (canonicalize p) as [r|] eqn:Er; [|by apply Hstep].
    pose proof (canonical_hit p r Hok Er) as Hr.
    destruct (cgroup_hit r).
    { split; [done|]. intros H. exfalso.
      destruct (H p) as [_ Hres]; [apply list_elem_of_here|]. by apply (Hres r), Hr. }
    apply Hstep. intros ? [= <-]. by rewrite <- Hr.
  - intros H q r Hq Hr. destruct (cgroup_hit (normalize_path p)); [done|].
    apply elem_of_cons in Hq as [->|Hq].
    + rewrite Hr in H. rewrite <- (canonical_hit p r Hok Hr). by destruct (cgroup_hit r).
    + apply (IH2) with q; [|done|done]. destruct (canonicalize p); [|done].
      by destruct (cgroup_hit _).
Qed.

(** A working directory accepted by [validate_work_dir] is absolute,
    resolves to an existing directory, and that directory lies at or below
    the resolved form of one of the read or write paths (for a mount that
    resolves, component by component). *)
Theorem validate_work_dir_sound is_dir dir read_paths write_paths (Hok : canonical_ok)
  (H : validate_work_dir canonicalize is_dir (Some dir) read_paths write_paths = Ok tt) :
  is_absolute dir = true /\
  exists c, canonicalize dir = Some c /\ is_dir c = true /\
  exists p, p ∈ read_paths ++ write_paths /\
    forall m, canonicalize p = Some m -> resolve m `prefix_of` resolve c.
Proof.
  unfold validate_work_dir in H. destruct (is_absolute dir) eqn:Ha; [|done].
  split; [done|]. simpl in H. destruct (canonicalize dir) as [c|] eqn:Ec; [|done].
  exists c. split; [done|]. destruct (is_dir c); [|done]. split; [done|]. simpl in H.
  destruct (existsb _ _) eqn:Ex; [|done]. apply existsb_exists in Ex as (p & Hp & Hs).
  exists p. split; [by apply list_elem_of_In|]. intros m Hm. rewrite Hm in Hs. simpl in Hs.
  unfold path_starts_with in Hs. bsplit.
  destruct (Hok _ _ Hm) as (nm & Hnm & ->). destruct (Hok _ _ Ec) as (nc & Hnc & ->).
  rewrite !components_names in Hs by done. rewrite !resolve_absolute by done.
  apply prefix_cons_inv_2 in Hs. by apply prefix_map_Normal.
Qed.

End CgroupSpec.

(** A filesystem in which every path exists and no link is followed. *)
Definition plain_fs (p : bytes) : option bytes := Some (absolute (resolve p)).

Lemma plain_fs_ok : canonical_ok plain_fs.
Proof. intros p r [= <-]. exists (resolve p). split; [apply resolve_names|done]. Qed.

Lemma reject_cgroup_paths_spec_witness :
  canonical_ok plain_fs /\
  forall p r, p ∈ [bs "/usr/lib"; bs "/tmp/../home"] -> plain_fs p = Some r ->
    ~ touches_cgroup (resolve r).
Proof.
  split; [exact plain_fs_ok|].
  apply (proj2 (reject_cgroup_paths_spec plain_fs [bs "/usr/lib"; bs "/tmp/../home"] plain_fs_ok)).
  vm_compute. reflexivity.
Defined.

Lemma validate_work_dir_sound_witness :
  validate_work_dir plain_fs (fun _ => true) (Some (bs "/tmp/x/../y")) [bs "/usr"] [bs "/tmp"] = Ok tt
  /\ is_absolute (bs "/tmp/x/../y") = true.
Proof.
  split; [vm_compute; reflexivity|].
  exact (proj1 (validate_work_dir_sound plain_fs (fun _ => true) (bs "/tmp/x/../y")
    [bs "/usr"] [bs "/tmp"] plain_fs_ok ltac:(vm_compute; reflexivity))).
Defined.

(** A relative path whose pieces cancel out normalises to the empty path and
    is refused, an ancestor of everything. *)
Example reject_relative_dot :
  is_ok (reject_cgroup_paths (fun _ => None) [bs "a/.."]) = false
  /\ is_ok (reject_cgroup_paths (fun _ => None) [bs "a/b"]) = true.
Proof. vm_compute. done. Qed.
