(* ===== verification/Env.v ===== *)
(** * Env: environment construction and the wrapper's configuration variables
    (src/src/env.rs, src/src/bridge.rs, src/src/profile.rs)

    The launcher encodes the sandbox configuration into ARAPUCA_* variables
    and the wrapper binary decodes it; the variables a caller supplies are
    filtered first.  A process environment is an association list of byte
    strings; [std::env::var] is [env_var].  The Linux/Unix configuration is
    modelled ([PATH_LIST_SEP] is a colon). *)

From S2P Require Import Prelude Text.

(** ** Profiles (src/src/profile.rs) *)

Inductive SeccompProfile : Type := Strict | Baseline.
Inductive CgroupPolicy : Type := Required | BestEffort.

Definition seccomp_as_str (p : SeccompProfile) : bytes :=
  match p with Strict => bs "strict" | Baseline => bs "baseline" end.

Record GuestFile : Type := {
  gf_path : bytes;
  gf_content : bytes;
  gf_permissions : option bytes;
}.

Inductive ImageSource : Type :=
| ImagePath (p : bytes)
| ImageDistro (name version : bytes).

Record MicroVmConfig : Type := {
  image : ImageSource;
  cpus : Z;
  mem_mb : Z;
  write_files : list GuestFile;
}.

Inductive Isolation : Type :=
| IsoProcess
| IsoMicroVm (cfg : MicroVmConfig).

Record Profile : Type := {
  isolation : Isolation;
  read_paths : list bytes;
  write_paths : list bytes;
  max_memory_mb : Z;
  max_cpu_pct : Z;
  max_pids : Z;
  cgroup_policy : CgroupPolicy;
  cpu_timeout_secs : Z;
  max_file_size_mb : Z;
  max_open_files : Z;
  allow_exec : bool;
  use_netns : bool;
  use_pidns : bool;
  dns_capture : bool;
  lpac : bool;
  seccomp_profile : SeccompProfile;
  audit_file_access : bool;
  audit_network : bool;
  seccomp_debug : bool;
  allow_proxy_env : bool;
  allow_keychain : bool;
}.

(** ** Filtering caller-supplied variables *)

Inductive DropReason : Type :=
| ArapucaPrefix | LauncherReserved | LdPrefix | DyldPrefix | DotnetPrefix
| InterpreterInjection | ShellInjection | WindowsShimInjection | RuntimeInjection.

Definition minimal_env (tmp_dir : bytes) : list (bytes * bytes) :=
  [(bs "HOME", Utf8.lossy tmp_dir);
   (bs "TMPDIR", Utf8.lossy tmp_dir);
   (bs "PATH", bs "/usr/local/bin:/usr/bin:/bin:/usr/local/sbin:/usr/sbin:/sbin");
   (bs "LANG", bs "C.UTF-8")].

(** [matches!(key, "A" | "B" | ...)]. *)
Definition one_of (key : bytes) (l : list string) : bool :=
  existsb (fun s => bool_decide (key = bs s)) l.

Definition INTERPRETER_VARS : list string :=
  ["BASH_ENV"; "ENV"; "PYTHONPATH"; "PYTHONSTARTUP"; "NODE_OPTIONS"; "PERL5OPT"; "PERL5LIB";
   "ZDOTDIR"; "IFS"; "PROMPT_COMMAND"]%string.
Definition SHELL_VARS : list string := ["COMSPEC"; "PSModulePath"; "PATHEXT"]%string.
Definition LIBC_VARS : list string :=
  ["GCONV_PATH"; "HOSTALIASES"; "LOCPATH"; "GETCONF_DIR"]%string.
Definition TOOL_VARS : list string :=
  ["RUBYOPT"; "RUBYLIB"; "JAVA_TOOL_OPTIONS"; "_JAVA_OPTIONS"; "CLASSPATH"; "PYTHONHOME";
   "GOFLAGS"; "GIT_CONFIG_GLOBAL"; "GIT_CONFIG_SYSTEM"; "GIT_SSH_COMMAND"; "GIT_SSH";
   "GIT_EXEC_PATH"; "GIT_TEMPLATE_DIR"; "GIT_EXTERNAL_DIFF"; "GIT_ASKPASS"; "GIT_EDITOR";
   "GIT_SEQUENCE_EDITOR"; "OPENSSL_CONF"; "EDITOR"; "VISUAL"; "PAGER"; "CARGO_HOME"]%string.
Definition PROXY_VARS : list string :=
  ["http_proxy"; "HTTP_PROXY"; "https_proxy"; "HTTPS_PROXY"; "ALL_PROXY"; "all_proxy";
   "NO_PROXY"; "no_proxy"; "ftp_proxy"; "FTP_PROXY"; "SOCKS_PROXY"; "socks_proxy";
   "CGI_HTTP_PROXY"; "CURL_CA_BUNDLE"; "SSL_CERT_FILE"; "SSL_CERT_DIR";
   "REQUESTS_CA_BUNDLE"]%string.

Definition drop_reason (key : bytes) : option DropReason :=
  if starts_with (bs "ARAPUCA_") key then Some ArapucaPrefix
  else if bool_decide (key = bs "AGENT_NETWORK_PROXY") then Some LauncherReserved
  else if starts_with (bs "LD_") key then Some LdPrefix
  else if starts_with (bs "DYLD_") key then Some DyldPrefix
  else if starts_with (bs "COR_") key || starts_with (bs "CORECLR_") key
          || starts_with (bs "DOTNET_") key || starts_with (bs "COMPLUS_") key
  then Some DotnetPrefix
  else if bool_decide (key = bs "__COMPAT_LAYER") then Some WindowsShimInjection
  else if one_of key INTERPRETER_VARS then Some InterpreterInjection
  else if one_of key SHELL_VARS then Some ShellInjection
  else if one_of key LIBC_VARS then Some RuntimeInjection
  else if one_of key TOOL_VARS then Some RuntimeInjection
  else if one_of key PROXY_VARS then Some RuntimeInjection
  else None.

(** The loop of [filter_caller_env] on its two vectors. *)
Fixpoint filter_loop (env passed : list (bytes * bytes)) (dropped : list (bytes * DropReason))
  : list (bytes * bytes) * list (bytes * DropReason) :=
  match env with
  | [] => (passed, dropped)
  | (k, v) :: rest =>
    match drop_reason k with
    | Some reason => filter_loop rest passed (dropped ++ [(k, reason)])
    | None => filter_loop rest (passed ++ [(k, v)]) dropped
    end
  end.
Definition filter_caller_env (env : list (bytes * bytes)) :=
  filter_loop env [] [].

(** ** Path lists *)

Definition PATH_LIST_SEP : Z := 58.

Definition parse_paths (s : bytes) : list bytes :=
  if decide (s = []) then []
  else filter (fun p => p <> []) (map trim (split PATH_LIST_SEP s)).

(** ** Encoding the configuration *)

(** [u64::saturating_mul]. *)
Definition saturating_mul_u64 (x y : Z) : Z := Z.min (x * y) 18446744073709551615.

Definition wrapper_env (profile : Profile) : Result (list (bytes * bytes)) :=
  if existsb (fun path => contains PATH_LIST_SEP (Utf8.lossy path))
             (read_paths profile ++ write_paths profile)
  then Err (Validation "sandbox path must not contain ':'")
  else
    let env := [(bs "ARAPUCA_WRAPPER", bs "1")] in
    let env := if decide (read_paths profile = []) then env
      else env ++ [(bs "ARAPUCA_READ_PATHS",
                    join [PATH_LIST_SEP] (map Utf8.lossy (read_paths profile)))] in
    let env := if decide (write_paths profile = []) then env
      else env ++ [(bs "ARAPUCA_WRITE_PATHS",
                    join [PATH_LIST_SEP] (map Utf8.lossy (write_paths profile)))] in
    let env := if 0 <? max_file_size_mb profile
      then env ++ [(bs "ARAPUCA_RLIMIT_FSIZE",
                    dec (saturating_mul_u64 (max_file_size_mb profile) (1024 * 1024)))]
      else env in
    let env := if 0 <? max_open_files profile
      then env ++ [(bs "ARAPUCA_RLIMIT_NOFILE", dec (max_open_files profile))] else env in
    let env := if 0 <? cpu_timeout_secs profile
      then env ++ [(bs "ARAPUCA_RLIMIT_CPU", dec (cpu_timeout_secs profile))] else env in
    let env := env ++ [(bs "ARAPUCA_SECCOMP_PROFILE", seccomp_as_str (seccomp_profile profile))] in
    let env := env ++ [(bs "ARAPUCA_ALLOW_EXEC", if allow_exec profile then bs "1" else bs "0")] in
    let env := if seccomp_debug profile
      then env ++ [(bs "ARAPUCA_SECCOMP_DEBUG", bs "1")] else env in
    Ok env.

Definition BRIDGE_PORT : Z := 18080.

Definition bridge_env (use_netns : bool) (proxy_socket : option bytes)
  : Result (option (bytes * bytes)) :=
  match proxy_socket with
  | None => Ok None
  | Some socket =>
    if negb use_netns then Ok None
    else
      let socket_str := Utf8.lossy socket in
      if contains 58 socket_str
      then Err (Validation "proxy socket path must not contain colons")
      else Ok (Some (bs "ARAPUCA_PROXY_BRIDGE", dec BRIDGE_PORT ++ bs ":" ++ socket_str))
  end.

Definition unotify_env (profile : Profile) : option (bytes * bytes) :=
  if negb (audit_file_access profile) && negb (audit_network profile) then None
  else
    let parts := @nil bytes in
    let parts := if audit_file_access profile then parts ++ [bs "file"] else parts in
    let parts := if audit_network profile then
        let parts := parts ++ [bs "network"] in
        if use_netns profile
        then parts ++ [bs "bridge_port=" ++ dec BRIDGE_PORT] ++ [bs "enforce"]
        else parts
      else parts in
    let parts := if dns_capture profile && use_netns profile
      then parts ++ [bs "dns_port=53"] else parts in
    Some (bs "ARAPUCA_UNOTIFY_CONFIG", join (bs ",") parts).

(** [crate::bridge::AllowedHost]. *)
Record AllowedHost : Type := { host : bytes; port : Z }.

Fixpoint connect_proxy_parts (hosts : list AllowedHost) : Result (list bytes) :=
  match hosts with
  | [] => Ok []
  | h :: rest =>
    if contains 44 (host h) || contains 58 (host h)
    then Err (Validation "allowed host must not contain ',' or ':'")
    else parts ← connect_proxy_parts rest;
         Ok ((host h ++ bs ":" ++ dec (port h)) :: parts)
  end.
Definition connect_proxy_env (allowed_hosts : list AllowedHost)
  : Result (option (bytes * bytes)) :=
  if decide (allowed_hosts = []) then Ok None
  else parts ← connect_proxy_parts allowed_hosts;
       Ok (Some (bs "ARAPUCA_CONNECT_PROXY", join (bs ",") parts)).

(** ** Decoding it in the wrapper *)

(** [std::env::var]: the OS value, which may be missing or not UTF-8. *)
Inductive VarError : Type := NotPresent | NotUnicode.
Definition env_var (raw : option bytes) : result VarError bytes :=
  match raw with
  | None => Err NotPresent
  | Some v => if Utf8.valid v then Ok v else Err NotUnicode
  end.

Definition parse_bridge_env (raw : option bytes) : Result (option (Z * bytes)) :=
  match env_var raw with
  | Err NotPresent => Ok None
  | Err NotUnicode => Err (Validation "ARAPUCA_PROXY_BRIDGE is not valid UTF-8")
  | Ok val =>
    match split_once 58 val with
    | Some (port_str, uds_path) =>
      if decide (uds_path = [])
      then Err (Validation "invalid ARAPUCA_PROXY_BRIDGE format (expected port:path)")
      else match parse_u16 port_str with
           | Some p => if p =? 0 then Err (Validation "bridge port must be non-zero")
                       else Ok (Some (p, uds_path))
           | None => Err (Validation "invalid bridge port")
           end
    | None => Err (Validation "invalid ARAPUCA_PROXY_BRIDGE format (expected port:path)")
    end
  end.

(** [crate::unotify::UnotifyConfig]. *)
Record UnotifyConfig : Type := {
  cfg_file_access : bool;
  cfg_network : bool;
  cfg_bridge_port : option Z;
  cfg_dns_port : option Z;
  cfg_enforce_network : bool;
}.

(** One iteration of the loop over the comma-separated flags. *)
Definition unotify_part (c : UnotifyConfig) (part : bytes) : UnotifyConfig :=
  let '(Build_UnotifyConfig f n bp dp e) := c in
  if bool_decide (part = bs "file") then Build_UnotifyConfig true n bp dp e
  else if bool_decide (part = bs "network") then Build_UnotifyConfig f true bp dp e
  else if bool_decide (part = bs "enforce") then Build_UnotifyConfig f n bp dp true
  else match strip_prefix (bs "bridge_port=") part with
  | Some p => Build_UnotifyConfig f n (parse_u16 p) dp e
  | None =>
    match strip_prefix (bs "dns_port=") part with
    | Some p => Build_UnotifyConfig f n bp (parse_u16 p) e
    | None => c
    end
  end.

Definition parse_unotify_config (raw : option bytes) : option UnotifyConfig :=
  match env_var raw with
  | Err _ => None
  | Ok val =>
    let c := fold_left unotify_part (split 44 val)
               (Build_UnotifyConfig false false None None false) in
    if negb (cfg_file_access c) && negb (cfg_network c) then None else Some c
  end.

(** The loop over the pairs of ARAPUCA_CONNECT_PROXY. *)
Fixpoint connect_proxy_loop (pairs : list bytes) : Result (list AllowedHost) :=
  match pairs with
  | [] => Ok []
  | entry :: rest =>
    let entry := trim entry in
    if decide (entry = []) then connect_proxy_loop rest
    else match rsplit_once 58 entry with
    | None => Err (Validation "invalid ARAPUCA_CONNECT_PROXY entry (expected host:port)")
    | Some (h, port_str) =>
      match parse_u16 port_str with
      | None => Err (Validation "invalid port in ARAPUCA_CONNECT_PROXY entry")
      | Some p =>
        if p =? 0 then Err (Validation "port must be 1-65535 in ARAPUCA_CONNECT_PROXY entry")
        else hosts ← connect_proxy_loop rest; Ok ({| host := h; port := p |} :: hosts)
      end
    end
  end.

Definition parse_connect_proxy_env (raw : option bytes) : Result (option (list AllowedHost)) :=
  match env_var raw with
  | Err NotPresent => Ok None
  | Err NotUnicode => Err (Validation "ARAPUCA_CONNECT_PROXY is not valid UTF-8")
  | Ok val =>
    hosts ← connect_proxy_loop (split 44 val);
    Ok (if decide (hosts = []) then None else Some hosts)
  end.

(** ** What the filter lets through *)

Definition DENIED_PREFIXES : list string :=
  ["ARAPUCA_"; "LD_"; "DYLD_"; "COR_"; "CORECLR_"; "DOTNET_"; "COMPLUS_"]%string.
Definition DENIED_VARS : list string :=
  ["AGENT_NETWORK_PROXY"; "__COMPAT_LAYER"]%string
  ++ INTERPRETER_VARS ++ SHELL_VARS ++ LIBC_VARS ++ TOOL_VARS ++ PROXY_VARS.

Definition dangerous (key : bytes) : Prop :=
  (exists p, p ∈ DENIED_PREFIXES /\ bs p `prefix_of` key)
  \/ (exists s, s ∈ DENIED_VARS /\ key = bs s).

Lemma one_of_spec key l : one_of key l = true <-> exists s, s ∈ l /\ key = bs s.
Proof.
  unfold one_of. rewrite existsb_exists. split; intros (s & H1 & H2); exists s.
  - bsplit. by rewrite list_elem_of_In.
  - by rewrite bool_decide_eq_true, <- list_elem_of_In.
Qed.

(** The chain of tests as one disjunction. *)
Lemma drop_reason_None key : drop_reason key = None <->
  existsb (fun p => starts_with (bs p) key) DENIED_PREFIXES || one_of key DENIED_VARS = false.
Proof.
  unfold drop_reason, DENIED_VARS, DENIED_PREFIXES.
  assert (Ha : forall l k, one_of key (l ++ k) = one_of key l || one_of key k)
    by (intros; apply existsb_app).
  assert (H2 : forall s t, one_of key [s; t] = bool_decide (key = bs s) || bool_decide (key = bs t))
    by (intros; unfold one_of; simpl; by rewrite orb_false_r).
  rewrite !Ha, H2. cbn [existsb]. rewrite !orb_false_r. clear Ha H2.
  split; intros H.
  - repeat match type of H with (if ?c then _ else _) = None => destruct c eqn:?; [done|] end.
    repeat match goal with E : _ || _ = false |- _ => apply orb_false_iff in E as [? ?] end.
    by repeat match goal with E : _ = false |- _ => rewrite E; clear E end.
  - repeat match goal with E : _ || _ = false |- _ => apply orb_false_iff in E as [? ?] end.
    by repeat match goal with E : _ = false |- _ => rewrite E; clear E end.
Qed.

Lemma drop_reason_dangerous key : drop_reason key = None <-> ~ dangerous key.
Proof.
  rewrite drop_reason_None, <- not_true_iff_false, orb_true_iff, one_of_spec, existsb_exists.
  unfold dangerous. apply not_iff_compat, or_iff_compat_r.
  split; intros (p & H1 & H2); exists p; by rewrite ?list_elem_of_In, ?starts_with_prefix in *.
Qed.

Lemma filter_loop_spec env passed dropped :
  filter_loop env passed dropped =
  (passed ++ filter (fun kv => drop_reason kv.1 = None) env,
   dropped ++ omap (fun kv => pair kv.1 <$> drop_reason kv.1) env).
Proof.
  revert passed dropped. induction env as [|[k v] env IH]; intros passed dropped; simpl.
  - by rewrite !app_nil_r.
  - rewrite filter_cons. simpl. destruct (drop_reason k); simpl; by rewrite IH, <- app_assoc.
Qed.

Lemma filter_caller_env_passed env k v :
  (k, v) ∈ (filter_caller_env env).1 <-> (k, v) ∈ env /\ ~ dangerous k.
Proof.
  unfold filter_caller_env. rewrite filter_loop_spec. simpl.
  rewrite list_elem_of_filter. simpl. rewrite drop_reason_dangerous. tauto.
Qed.

(** [filter_caller_env] splits the caller's variables without losing,
    adding or reordering any: a variable is passed, value included, exactly
    when its name is not dangerous (none of the loader, runtime and
    configuration prefixes, none of the listed names), and every other one is
    reported as dropped with its reason. *)
Theorem filter_caller_env_spec env :
  let '(passed, dropped) := filter_caller_env env in
  passed `sublist_of` env
  /\ (forall k v, (k, v) ∈ passed <-> (k, v) ∈ env /\ ~ dangerous k)
  /\ (forall k r, (k, r) ∈ dropped <-> (exists v, (k, v) ∈ env) /\ drop_reason k = Some r)
  /\ (forall k r, (k, r) ∈ dropped -> dangerous k)
  /\ length env = (length passed + length dropped)%nat.
Proof.
  unfold filter_caller_env. rewrite filter_loop_spec. simpl.
  assert (Hd : forall k r, (k, r) ∈ omap (fun kv => pair kv.1 <$> drop_reason kv.1) env
    <-> (exists v, (k, v) ∈ env) /\ drop_reason k = Some r).
  { intros k r. rewrite list_elem_of_omap. split.
    - intros ([k' v] & Hin & E). simpl in E. destruct (drop_reason k') eqn:Er; inv E. eauto.
    - intros [[v Hin] Er]. exists (k, v). simpl. by rewrite Er. }
  split_and!; [apply sublist_filter| |exact Hd|..].
  - intros k v. pose proof (filter_caller_env_passed env k v) as Hp.
    unfold filter_caller_env in Hp. by rewrite filter_loop_spec in Hp.
  - intros k r H. apply Hd in H as [_ Hr].
    destruct (decide (drop_reason k = None)) as [E|E]; [congruence|].
    rewrite drop_reason_dangerous in E. unfold dangerous in *.
    destruct (existsb (fun p => starts_with (bs p) k) DENIED_PREFIXES || one_of k DENIED_VARS) eqn:Eb.
    + rewrite orb_true_iff, one_of_spec, existsb_exists in Eb.
      destruct Eb as [(p & H1 & H2)|?]; [left|by right].
      exists p. by rewrite list_elem_of_In, <- starts_with_prefix.
    + apply drop_reason_None in Eb. congruence.
  - clear Hd. induction env as [|[k v] env IH]; [done|]. rewrite filter_cons. simpl.
    unfold omap in IH. destruct (drop_reason k); simpl; lia.
Qed.

(** The variables that carry the configuration of a launch. *)
Definition config_vars (profile : Profile) (hosts : list AllowedHost) (socket : option bytes)
  : list (bytes * bytes) :=
  match wrapper_env profile with Ok l => l | Err _ => [] end
  ++ match bridge_env (use_netns profile) socket with Ok (Some kv) => [kv] | _ => [] end
  ++ match unotify_env profile with Some kv => [kv] | None => [] end
  ++ match connect_proxy_env hosts with Ok (Some kv) => [kv] | _ => [] end.

Definition is_config (kv : bytes * bytes) : Prop := bs "ARAPUCA_" `prefix_of` kv.1.

Lemma config_key s v : starts_with (bs "ARAPUCA_") (bs s) = true -> is_config (bs s, v).
Proof. intros H. by apply starts_with_prefix. Qed.

Lemma config_vars_prefix profile hosts socket :
  Forall is_config (config_vars profile hosts socket).
Proof.
  unfold config_vars. repeat apply Forall_app_2.
  - unfold wrapper_env. bcase; [constructor|].
    repeat case_decide; repeat bcase; simpl;
      repeat (apply Forall_cons; [by apply config_key|]); constructor.
  - unfold bridge_env. destruct socket; [|constructor]. repeat bcase; try constructor.
    by apply config_key. constructor.
  - unfold unotify_env. bcase; repeat constructor. by apply config_key.
  - unfold connect_proxy_env. case_decide; [constructor|].
    destruct (connect_proxy_parts hosts); simpl; repeat constructor. by apply config_key.
Qed.

(** C29: a caller cannot configure the sandbox: no variable that passes the
    filter has the name of a variable with which the launcher configures the
    wrapper, whatever the profile, the allowed hosts and the proxy socket. *)
Theorem caller_env_cannot_configure env profile hosts socket k v :
  (k, v) ∈ (filter_caller_env env).1 -> k ∉ (config_vars profile hosts socket).*1.
Proof.
  rewrite filter_caller_env_passed. intros [_ Hd] Hin. apply Hd. left.
  exists "ARAPUCA_"%string. split; [apply list_elem_of_here|].
  apply list_elem_of_fmap in Hin as ([k' v'] & -> & Hin).
  pose proof (config_vars_prefix profile hosts socket) as HF.
  rewrite List.Forall_forall in HF. apply (HF (k', v')), list_elem_of_In, Hin.
Qed.

Lemma caller_env_cannot_configure_witness :
  (bs "MY_TOKEN", bs "x") ∈ (filter_caller_env [(bs "ARAPUCA_WRAPPER", bs "0"); (bs "MY_TOKEN", bs "x")]).1
  /\ bs "MY_TOKEN" ∉ (config_vars {| isolation := IsoProcess; read_paths := [bs "/usr"];
       write_paths := []; max_memory_mb := 0; max_cpu_pct := 0; max_pids := 0;
       cgroup_policy := Required; cpu_timeout_secs := 9; max_file_size_mb := 1;
       max_open_files := 0; allow_exec := false; use_netns := true; use_pidns := false;
       dns_capture := false; lpac := false; seccomp_profile := Strict;
       audit_file_access := true; audit_network := true; seccomp_debug := false;
       allow_proxy_env := false; allow_keychain := false |} [] (Some (bs "/run/p"))).*1.
Proof.
  assert (H : (bs "MY_TOKEN", bs "x") ∈
    (filter_caller_env [(bs "ARAPUCA_WRAPPER", bs "0"); (bs "MY_TOKEN", bs "x")]).1)
    by (apply list_elem_of_In; vm_compute; left; reflexivity).
  split; [exact H|]. eapply caller_env_cannot_configure. exact H.
Defined.

(** ** Round trips between launcher and wrapper *)

Lemma lossy_valid s : Utf8.valid s = true -> Utf8.lossy s = s.
Proof. rewrite Utf8.valid_decode. intros [l Hl]. by eapply Utf8.lossy_decode. Qed.

Lemma dec_no c n : 0 <= n -> ~ (48 <= c <= 57) -> Forall (fun x => x <> c) (dec n).
Proof.
  intros Hn Hc. destruct (dec_digits n Hn) as [H _].
  eapply Forall_impl; [|exact H]. intros; simpl in *; lia.
Qed.

Lemma dec_ascii n : 0 <= n -> Forall (fun c => 0 <= c < 128) (dec n).
Proof.
  intros Hn. destruct (dec_digits n Hn) as [H _].
  eapply Forall_impl; [|exact H]. intros; simpl in *; lia.
Qed.

(** The proxy bridge variable survives the trip: whenever the launcher
    encodes a (non-empty, UTF-8) socket path, the wrapper decodes the fixed
    bridge port and exactly that path. *)
Theorem bridge_env_roundtrip socket k v :
  Utf8.valid socket = true -> socket <> [] ->
  bridge_env true (Some socket) = Ok (Some (k, v)) ->
  k = bs "ARAPUCA_PROXY_BRIDGE" /\ parse_bridge_env (Some v) = Ok (Some (BRIDGE_PORT, socket)).
Proof.
  intros Hv Hne H. unfold bridge_env in H. cbn [negb] in H. rewrite lossy_valid in H by done.
  destruct (contains 58 socket); [done|].
  assert (v = dec BRIDGE_PORT ++ bs ":" ++ socket) as -> by congruence.
  split; [congruence|]. clear H k.
  unfold parse_bridge_env, env_var.
  assert (Hval : Utf8.valid (dec BRIDGE_PORT ++ bs ":" ++ socket) = true).
  { apply Utf8.valid_app; [by apply Utf8.valid_ascii, dec_ascii|]. by apply Utf8.valid_app. }
  rewrite Hval.
  assert (Es : split_once 58 (dec BRIDGE_PORT ++ bs ":" ++ socket) = Some (dec BRIDGE_PORT, socket)).
  { apply split_once_Some. split; [done|]. apply dec_no; unfold BRIDGE_PORT; lia. }
  rewrite Es, decide_False by done. unfold parse_u16. by rewrite parse_dec.
Qed.

Lemma bridge_env_roundtrip_witness :
  bridge_env true (Some (bs "/tmp/p.sock"))
    = Ok (Some (bs "ARAPUCA_PROXY_BRIDGE", bs "18080:/tmp/p.sock"))
  /\ parse_bridge_env (Some (bs "18080:/tmp/p.sock")) = Ok (Some (18080, bs "/tmp/p.sock")).
Proof.
  split; [vm_compute; reflexivity|].
  apply (bridge_env_roundtrip (bs "/tmp/p.sock") (bs "ARAPUCA_PROXY_BRIDGE"));
    [vm_compute; reflexivity|discriminate|vm_compute; reflexivity].
Defined.

(** The unotify configuration survives the trip: the wrapper decodes
    exactly the audit flags of the profile, with network enforcement and the
    bridge port present precisely when network auditing runs inside a network
    namespace, and the variable is absent only when no auditing is asked
    for. *)
Theorem unotify_env_roundtrip p :
  match unotify_env p with
  | None => audit_file_access p = false /\ audit_network p = false
  | Some (_, v) => parse_unotify_config (Some v) = Some {|
      cfg_file_access := audit_file_access p;
      cfg_network := audit_network p;
      cfg_bridge_port := if audit_network p && use_netns p then Some BRIDGE_PORT else None;
      cfg_dns_port := if dns_capture p && use_netns p then Some 53 else None;
      cfg_enforce_network := audit_network p && use_netns p |}
  end.
Proof.
  unfold unotify_env.
  destruct (audit_file_access p), (audit_network p), (use_netns p), (dns_capture p);
    first [done|vm_compute; reflexivity].
Qed.

(** A hostname as the command line accepts it: ASCII letters, digits, dashes
    and dots; and a usable port. *)
Definition hostname_char (c : Z) : Prop :=
  (48 <= c <= 57) \/ (65 <= c <= 90) \/ (97 <= c <= 122) \/ c = 45 \/ c = 46.
Definition valid_host (h : AllowedHost) : Prop :=
  Forall hostname_char (host h) /\ 1 <= port h <= 65535.

Definition is_hostname_char (c : Z) : bool := is_ascii_alphanumeric c || (c =? 45) || (c =? 46).

Lemma is_hostname_char_spec c : is_hostname_char c = true <-> hostname_char c.
Proof.
  unfold is_hostname_char, is_ascii_alphanumeric, is_ascii_digit, is_ascii_upper,
    is_ascii_lower, hostname_char. lia.
Qed.

Lemma valid_host_bool h :
  forallb is_hostname_char (host h) && (1 <=? port h) && (port h <=? 65535) = true -> valid_host h.
Proof.
  intros H. bsplit. split; [|lia]. apply List.Forall_forall. intros c Hc.
  apply is_hostname_char_spec. rewrite forallb_forall in H. auto.
Qed.

Definition entry_of (h : AllowedHost) : bytes := host h ++ bs ":" ++ dec (port h).

Lemma hostname_visible c : hostname_char c \/ c = 58 \/ 48 <= c <= 57 ->
  0 <= c < 128 /\ is_whitespace c = false /\ c <> 44.
Proof. unfold hostname_char, is_whitespace. lia. Qed.

Lemma entry_visible h : valid_host h ->
  Forall (fun c => 0 <= c < 128 /\ is_whitespace c = false /\ c <> 44) (entry_of h).
Proof.
  intros [Hh Hp]. unfold entry_of. repeat apply Forall_app_2.
  - eapply Forall_impl; [|exact Hh]. intros c Hc. apply hostname_visible. by left.
  - apply Forall_cons; [apply hostname_visible; by right; left|constructor].
  - destruct (dec_digits (port h)) as [Hd _]; [lia|].
    eapply Forall_impl; [|exact Hd]. intros c Hc. apply hostname_visible. by right; right.
Qed.

Lemma trim_visible s :
  Forall (fun c => 0 <= c < 128 /\ is_whitespace c = false /\ c <> 44) s -> trim s = s.
Proof.
  intros H.
  assert (Ha : Forall (fun c => 0 <= c < 128) s) by (eapply Forall_impl; [|exact H]; by intros c (? & ? & ?)).
  apply trim_solid; [by apply Utf8.valid_ascii|].
  unfold Utf8.chars. rewrite Utf8.decode_ascii by done. simpl. split.
  - destruct H as [|c s Hc]; [done|]. apply Hc.
  - apply Forall_reverse in H. destruct (reverse s) as [|c r]; [done|]. inv H. tauto.
Qed.

Lemma entry_split h : valid_host h -> rsplit_once 58 (entry_of h) = Some (host h, dec (port h)).
Proof.
  intros [_ Hp]. apply rsplit_once_Some. split; [done|]. apply dec_no; lia.
Qed.

Lemma connect_proxy_loop_entries hosts : Forall valid_host hosts ->
  connect_proxy_loop (map entry_of hosts) = Ok hosts.
Proof.
  induction 1 as [|h hosts Hh _ IH]; [done|]. cbn [map connect_proxy_loop].
  rewrite trim_visible by by apply entry_visible.
  rewrite decide_False by (unfold entry_of; by destruct (host h)).
  rewrite entry_split by done. destruct Hh as [_ Hp].
  unfold parse_u16. rewrite parse_dec by lia. bcase; [lia|]. rewrite IH. by destruct h.
Qed.

Lemma connect_proxy_parts_entries hosts : Forall valid_host hosts ->
  connect_proxy_parts hosts = Ok (map entry_of hosts).
Proof.
  induction 1 as [|h hosts [Hh _] _ IH]; [done|]. simpl.
  assert (E : forall c, c = 44 \/ c = 58 -> contains c (host h) = false).
  { intros c Hc. apply contains_false. eapply Forall_impl; [|exact Hh].
    unfold hostname_char. intros; simpl in *; lia. }
  rewrite !E by lia. simpl. by rewrite IH.
Qed.

(** The CONNECT allowlist survives the trip: for any non-empty list of
    hosts with hostname characters and ports 1-65535 the launcher encodes a
    variable from which the wrapper decodes the very same list. *)
Theorem connect_proxy_env_roundtrip hosts :
  hosts <> [] -> Forall valid_host hosts ->
  exists v, connect_proxy_env hosts = Ok (Some (bs "ARAPUCA_CONNECT_PROXY", v))
    /\ parse_connect_proxy_env (Some v) = Ok (Some hosts).
Proof.
  intros Hne Hv. unfold connect_proxy_env. rewrite decide_False by done.
  rewrite connect_proxy_parts_entries by done. eexists. split; [done|].
  unfold parse_connect_proxy_env, env_var.
  assert (Hs : split 44 (join (bs ",") (map entry_of hosts)) = map entry_of hosts).
  { apply split_join; [by destruct hosts|]. apply Forall_map.
    eapply Forall_impl; [|exact Hv]. intros h Hh. eapply Forall_impl; [|by apply entry_visible].
    by intros c (? & ? & ?). }
  assert (Hj : Forall (fun c => 0 <= c < 128) (join (bs ",") (map entry_of hosts))).
  { clear Hs Hne. induction Hv as [|h hosts Hh _ IH]; [constructor|].
    assert (He : Forall (fun c => 0 <= c < 128) (entry_of h)).
    { eapply Forall_impl; [|by apply entry_visible]. by intros c (? & ? & ?). }
    destruct hosts as [|h' hosts]; [done|]. apply Forall_app_2; [done|].
    constructor; [by vm_compute|done]. }
  rewrite Utf8.valid_ascii by done. rewrite Hs, connect_proxy_loop_entries by done.
  simpl. by rewrite decide_False.
Qed.

Lemma connect_proxy_env_roundtrip_witness :
  let hosts := [{| host := bs "api.example.com"; port := 443 |};
                {| host := bs ".googleapis.com"; port := 8443 |}] in
  Forall valid_host hosts /\
  exists v, connect_proxy_env hosts = Ok (Some (bs "ARAPUCA_CONNECT_PROXY", v))
    /\ parse_connect_proxy_env (Some v) = Ok (Some hosts).
Proof.
  intros hosts.
  assert (H : Forall valid_host hosts)
    by (repeat (apply Forall_cons; [by apply valid_host_bool|]); constructor).
  split; [exact H|]. apply connect_proxy_env_roundtrip; [discriminate|exact H].
Defined.

(** A path that survives [parse_paths]: UTF-8, not empty, no surrounding
    white space. *)
Definition plain_path (p : bytes) : Prop :=
  Utf8.valid p = true /\ p <> [] /\ trim p = p.

Lemma map_lossy_valid l : Forall (fun p => Utf8.valid p = true) l -> map Utf8.lossy l = l.
Proof. induction 1 as [|p l Hp _ IH]; [done|]. simpl. by rewrite IH, lossy_valid. Qed.

Lemma parse_paths_join l : l <> [] -> Forall plain_path l ->
  Forall (fun p => contains PATH_LIST_SEP p = false) l ->
  parse_paths (join [PATH_LIST_SEP] l) = l.
Proof.
  intros Hne Hp Hc. unfold parse_paths.
  rewrite decide_False.
  2:{ destruct Hp as [|p l (_ & Hp & _) _]; [done|]. destruct l; [done|].
      simpl. by destruct p. }
  rewrite split_join; [|done|].
  2:{ eapply Forall_impl; [|exact Hc]. intros p. apply contains_false. }
  clear Hne Hc. induction Hp as [|p l (_ & Hn & Ht) _ IH]; [done|].
  cbn [map]. rewrite Ht, filter_cons, decide_True by done. by rewrite IH.
Qed.

(** The paths of a list as the wrapper reads them back: the lossy text without surrounding white space, empty ones
    left out. *)
Definition carried (l : list bytes) : list bytes := filter (fun p => p <> []) (map (fun p => trim (Utf8.lossy p)) l).

Lemma parse_paths_split s : parse_paths s = filter (fun p => p <> []) (map trim (split PATH_LIST_SEP s)).
Proof. unfold parse_paths. case_decide as E; [by rewrite E|done]. Qed.

Lemma parse_paths_carried l : l <> [] -> Forall (fun p => contains PATH_LIST_SEP (Utf8.lossy p) = false) l ->
  parse_paths (join [PATH_LIST_SEP] (map Utf8.lossy l)) = carried l.
Proof.
  intros Hne Hc. rewrite parse_paths_split, split_join; [|by destruct l|].
  - unfold carried. by rewrite map_map.
  - apply List.Forall_map. eapply Forall_impl; [|exact Hc]. intros p. apply contains_false.
Qed.

Lemma carried_plain l : Forall plain_path l -> carried l = l.
Proof.
  unfold carried. induction 1 as [|p l (Hv & Hn & Ht) _ IH]; [done|]. cbn [map].
  rewrite lossy_valid, Ht, filter_cons, decide_True by done. by rewrite IH.
Qed.

Lemma wrapper_env_no_sep p env : wrapper_env p = Ok env ->
  Forall (fun q => contains PATH_LIST_SEP (Utf8.lossy q) = false) (read_paths p ++ write_paths p).
Proof.
  unfold wrapper_env. destruct (existsb _ _) eqn:E; [done|]. intros _.
  apply List.Forall_forall. intros q Hq. apply not_true_iff_false. intros Ht.
  apply not_true_iff_false in E. apply E. apply existsb_exists. eauto.
Qed.

Lemma wrapper_env_paths p env : wrapper_env p = Ok env ->
  (read_paths p <> [] -> (bs "ARAPUCA_READ_PATHS",
     join [PATH_LIST_SEP] (map Utf8.lossy (read_paths p))) ∈ env) /\
  (write_paths p <> [] -> (bs "ARAPUCA_WRITE_PATHS",
     join [PATH_LIST_SEP] (map Utf8.lossy (write_paths p))) ∈ env).
Proof.
  unfold wrapper_env. destruct (existsb _ _); [done|].
  set (R := (bs "ARAPUCA_READ_PATHS", _)). set (W := (bs "ARAPUCA_WRITE_PATHS", _)).
  clearbody R W. intros H.
  assert (E : env = ([(bs "ARAPUCA_WRAPPER", bs "1")]
    ++ (if decide (read_paths p = []) then [] else [R])
    ++ (if decide (write_paths p = []) then [] else [W])) ++ drop (length ([(bs "ARAPUCA_WRAPPER", bs "1")]
    ++ (if decide (read_paths p = []) then [] else [R])
    ++ (if decide (write_paths p = []) then [] else [W]))) env).
  { injection H as <-.
    destruct (decide (read_paths p = [])), (decide (write_paths p = [])),
      (0 <? max_file_size_mb p), (0 <? max_open_files p), (0 <? cpu_timeout_secs p),
      (seccomp_debug p); reflexivity. }
  clear H. rewrite E. generalize (drop (length ([(bs "ARAPUCA_WRAPPER", bs "1")]
    ++ (if decide (read_paths p = []) then [] else [R])
    ++ (if decide (write_paths p = []) then [] else [W]))) env). intros rest.
  split; intros Hne; do 2 case_decide; set_solver.
Qed.

(** A list of paths survives the trip. *)
Lemma parse_paths_lossy l : Forall plain_path l -> l <> [] ->
  Forall (fun q => contains PATH_LIST_SEP (Utf8.lossy q) = false) l ->
  parse_paths (join [PATH_LIST_SEP] (map Utf8.lossy l)) = l.
Proof.
  intros Hl Hne Hc. rewrite map_lossy_valid
    by (eapply Forall_impl; [|exact Hl]; by intros q (? & _)).
  apply parse_paths_join; [done|done|]. apply List.Forall_forall. intros q Hq.
  rewrite List.Forall_forall in Hc, Hl. destruct (Hl q Hq) as (Hv & _).
  rewrite <- (lossy_valid q) by done. by apply Hc.
Qed.

(** The filesystem policy survives the trip: from the environment built
    by [wrapper_env] the wrapper decodes exactly the read and write paths of
    the profile, provided these are UTF-8, non-empty and free of surrounding
    white space. *)
Theorem wrapper_env_paths_roundtrip p env :
  wrapper_env p = Ok env -> Forall plain_path (read_paths p) -> Forall plain_path (write_paths p) ->
  (read_paths p <> [] -> exists v,
     (bs "ARAPUCA_READ_PATHS", v) ∈ env /\ parse_paths v = read_paths p) /\
  (write_paths p <> [] -> exists v,
     (bs "ARAPUCA_WRITE_PATHS", v) ∈ env /\ parse_paths v = write_paths p).
Proof.
  intros H Hr Hw. destruct (wrapper_env_paths p env H) as [HR HW].
  pose proof (wrapper_env_no_sep p env H) as Hs. apply Forall_app in Hs as [Hs1 Hs2].
  split; intros Hne; eexists; split; eauto using parse_paths_lossy.
Qed.

Definition demo_profile (r w : list bytes) : Profile :=
  {| isolation := IsoProcess; read_paths := r; write_paths := w; max_memory_mb := 0;
     max_cpu_pct := 0; max_pids := 0; cgroup_policy := Required; cpu_timeout_secs := 0;
     max_file_size_mb := 0; max_open_files := 0; allow_exec := false; use_netns := false;
     use_pidns := false; dns_capture := false; lpac := false; seccomp_profile := Strict;
     audit_file_access := false; audit_network := false; seccomp_debug := false;
     allow_proxy_env := false; allow_keychain := false |}.

Lemma wrapper_env_paths_roundtrip_witness :
  exists env, wrapper_env (demo_profile [bs "/usr"; bs "/etc/a b"] [bs "/tmp/w"]) = Ok env /\
  exists v, (bs "ARAPUCA_READ_PATHS", v) ∈ env /\ parse_paths v = [bs "/usr"; bs "/etc/a b"].
Proof.
  eexists. split; [vm_compute; reflexivity|].
  refine (proj1 (wrapper_env_paths_roundtrip (demo_profile [bs "/usr"; bs "/etc/a b"] [bs "/tmp/w"])
    _ _ _ _) _); [vm_compute; reflexivity| | |discriminate];
  repeat (apply Forall_cons; [split; [vm_compute; reflexivity|split; [discriminate|vm_compute; reflexivity]]|]);
  apply Forall_nil_2.
Defined.

(** Surrounding white space in a sandbox path is not preserved: the
    launcher accepts the profile, and the wrapper decodes a different path
    (here the directory without the trailing space), so a different directory
    is granted than the one the profile names. *)
Theorem wrapper_env_trims_paths :
  let p := demo_profile [] [bs "/srv/data "] in
  exists env v, wrapper_env p = Ok env /\ (bs "ARAPUCA_WRITE_PATHS", v) ∈ env
    /\ parse_paths v = [bs "/srv/data"] /\ parse_paths v <> write_paths p.
Proof.
  intros p. eexists _, _. split; [vm_compute; reflexivity|]. split.
  - apply list_elem_of_In. vm_compute. right. left. reflexivity.
  - split; [vm_compute; reflexivity|]. vm_compute. discriminate.
Qed.

(** ** Reading the variables of [wrapper_env] *)

(** [std::env::var_os] on the environment as a list; the first of two variables
    of the same name counts. *)
Fixpoint var_os (env : list (bytes * bytes)) (k : bytes) : option bytes :=
  match env with
  | [] => None
  | (k', v) :: env => if bool_decide (k' = k) then Some v else var_os env k
  end.

Definition when (c : bool) (kv : bytes * bytes) : list (bytes * bytes) := if c then [kv] else [].

Lemma var_os_app a b k : var_os (a ++ b) k = match var_os a k with Some v => Some v | None => var_os b k end.
Proof. induction a as [|[k' v] a IH]; simpl; [done|]. destruct (bool_decide _); done. Qed.

Lemma var_os_when c k' v k :
  var_os (when c (k', v)) k = if bool_decide (k' = k) then if c then Some v else None else None.
Proof. destruct c; simpl; destruct (bool_decide _); done. Qed.

Lemma var_os_elem env k v : var_os env k = Some v -> (k, v) ∈ env.
Proof.
  induction env as [|[k' w] env IH]; simpl; [done|]. destruct (bool_decide (k' = k)) eqn:E.
  - apply bool_decide_eq_true in E as ->. intros [= ->]. apply list_elem_of_here.
  - intros. apply list_elem_of_further. auto.
Qed.

Lemma wrapper_env_list p env : wrapper_env p = Ok env -> env =
  when true (bs "ARAPUCA_WRAPPER", bs "1")
  ++ when (negb (bool_decide (read_paths p = [])))
       (bs "ARAPUCA_READ_PATHS", join [PATH_LIST_SEP] (map Utf8.lossy (read_paths p)))
  ++ when (negb (bool_decide (write_paths p = [])))
       (bs "ARAPUCA_WRITE_PATHS", join [PATH_LIST_SEP] (map Utf8.lossy (write_paths p)))
  ++ when (0 <? max_file_size_mb p)
       (bs "ARAPUCA_RLIMIT_FSIZE", dec (saturating_mul_u64 (max_file_size_mb p) (1024 * 1024)))
  ++ when (0 <? max_open_files p) (bs "ARAPUCA_RLIMIT_NOFILE", dec (max_open_files p))
  ++ when (0 <? cpu_timeout_secs p) (bs "ARAPUCA_RLIMIT_CPU", dec (cpu_timeout_secs p))
  ++ when true (bs "ARAPUCA_SECCOMP_PROFILE", seccomp_as_str (seccomp_profile p))
  ++ when true (bs "ARAPUCA_ALLOW_EXEC", if allow_exec p then bs "1" else bs "0")
  ++ when (seccomp_debug p) (bs "ARAPUCA_SECCOMP_DEBUG", bs "1").
Proof.
  unfold wrapper_env. destruct (existsb _ _); [done|]. intros H. apply ok_inj in H as <-. unfold when.
  rewrite !bool_decide_decide.
  do 2 case_decide; destruct (0 <? max_file_size_mb p), (0 <? max_open_files p), (0 <? cpu_timeout_secs p),
    (seccomp_debug p); reflexivity.
Qed.

(** Looks a literal name up in the environment of [wrapper_env]. *)
Ltac wrapper_var H :=
  rewrite (wrapper_env_list _ _ H), !var_os_app, !var_os_when;
  repeat match goal with
  | |- context [bool_decide (bs ?a = bs ?b)] =>
      let r := eval vm_compute in (bool_decide (bs a = bs b)) in
      change (bool_decide (bs a = bs b)) with r; cbn match
  end; repeat case_match; try reflexivity; try discriminate; try congruence.

Lemma wrapper_env_rlimits p env : wrapper_env p = Ok env ->
  var_os env (bs "ARAPUCA_RLIMIT_AS") = None /\ var_os env (bs "ARAPUCA_RLIMIT_NPROC") = None /\
  var_os env (bs "ARAPUCA_RLIMIT_CPU") =
    (if 0 <? cpu_timeout_secs p then Some (dec (cpu_timeout_secs p)) else None) /\
  var_os env (bs "ARAPUCA_RLIMIT_FSIZE") =
    (if 0 <? max_file_size_mb p then Some (dec (saturating_mul_u64 (max_file_size_mb p) (1024 * 1024))) else None) /\
  var_os env (bs "ARAPUCA_RLIMIT_NOFILE") =
    (if 0 <? max_open_files p then Some (dec (max_open_files p)) else None).
Proof. intros H. split_and!; wrapper_var H. Qed.

Lemma var_os_None env k : k ∉ env.*1 -> var_os env k = None.
Proof.
  induction env as [|[k' v] env IH]; simpl; [done|]. rewrite not_elem_of_cons. intros [Hk Hn].
  rewrite bool_decide_eq_false_2 by congruence. auto.
Qed.

Lemma var_os_nodup env k v : base.NoDup env.*1 -> (k, v) ∈ env -> var_os env k = Some v.
Proof.
  induction env as [|[k' w] env IH]; simpl; [intros _ H; by apply elem_of_nil in H|].
  intros [Hn Hd]%list.NoDup_cons. rewrite elem_of_cons. intros [E|Hin].
  - injection E as -> ->. by rewrite bool_decide_eq_true_2.
  - rewrite bool_decide_eq_false_2; [auto|]. intros ->. apply Hn. apply list_elem_of_fmap. by exists (k, v).
Qed.

(** The last of two variables of the same name counts when a [Command] is
    given its environment; without such variables the order does not matter. *)
Lemma var_os_reverse env k : base.NoDup env.*1 -> var_os (reverse env) k = var_os env k.
Proof.
  intros Hd. destruct (decide (k ∈ env.*1)) as [Hin|Hn].
  - apply list_elem_of_fmap in Hin as ([k' v] & -> & Hin). simpl. rewrite (var_os_nodup env k' v) by done.
    apply var_os_nodup; [|by rewrite elem_of_reverse]. by rewrite fmap_reverse, reverse_Permutation.
  - rewrite !var_os_None; [done|done|]. by rewrite fmap_reverse, elem_of_reverse.
Qed.

Lemma wrapper_env_nodup p env : wrapper_env p = Ok env -> base.NoDup env.*1.
Proof.
  intros H. rewrite (wrapper_env_list p env H).
  assert (K : forall c (kv : bytes * bytes), (when c kv).*1 = if c then [kv.1] else []) by (by intros []).
  rewrite !fmap_app, !K. simpl.
  destruct (negb _), (negb _), (0 <? max_file_size_mb p), (0 <? max_open_files p), (0 <? cpu_timeout_secs p),
    (seccomp_debug p); by_eval.
Qed.

Lemma valid_join l : Forall (fun s => Utf8.valid s = true) l -> Utf8.valid (join [PATH_LIST_SEP] l) = true.
Proof.
  induction 1 as [|s l Hs Hl IH]; [done|]. destruct l as [|t l]; [done|]. change (join [PATH_LIST_SEP] (s :: t :: l))
    with (s ++ [PATH_LIST_SEP] ++ join [PATH_LIST_SEP] (t :: l)).
  apply Utf8.valid_app; [done|]. apply Utf8.valid_app; done.
Qed.

(** What the wrapper reads of the environment of [wrapper_env]. *)
Lemma wrapper_env_policy p env : wrapper_env p = Ok env ->
  var_os env (bs "ARAPUCA_READ_PATHS") =
    (if decide (read_paths p = []) then None else Some (join [PATH_LIST_SEP] (map Utf8.lossy (read_paths p)))) /\
  var_os env (bs "ARAPUCA_WRITE_PATHS") =
    (if decide (write_paths p = []) then None else Some (join [PATH_LIST_SEP] (map Utf8.lossy (write_paths p)))) /\
  var_os env (bs "ARAPUCA_ALLOW_EXEC") = Some (if allow_exec p then bs "1" else bs "0") /\
  var_os env (bs "ARAPUCA_SECCOMP_PROFILE") = Some (seccomp_as_str (seccomp_profile p)).
Proof.
  intros H. split_and!; wrapper_var H.
  all: match goal with H : negb _ = _ |- _ => first [apply negb_true_iff, bool_decide_eq_false in H
                                                    |apply negb_false_iff, bool_decide_eq_true in H] end; done.
Qed.
