(* ===== verification/Json.v ===== *)
(** * Json: the hand-written JSON encoder and parser of [vm/protocol.rs]

    The string encoders of [vm/protocol.rs] and [wrapper.rs], [JsonParser]
    and [ExecRequest::to_json]/[from_json].  A [JsonParser] is modelled by the
    part of its input it has not read, [&input[pos..]]: the code looks at
    [input] and [pos] only through that suffix, and [pos] never passes the end
    of the input.  Its methods return the value and the new suffix.  Slicing a
    [str] inside a character panics; a loop that is cut off by its fuel is
    [OutOfFuel], which the theorems show never to happen. *)

From S2P Require Import Prelude Text.

Inductive ErrorKind : Type :=
| InvalidData | InvalidInput | UnexpectedEof | WriteZero | PermissionDenied
| ConnectionRefused | ConnectionReset | NotFound.

(** How a computation can end without a value: an [io::Error], a panic, or
    (never) lack of fuel. *)
Inductive Abort : Type :=
| IoError (kind : ErrorKind) (msg : string)
| Panic
| OutOfFuel.

#[export] Instance ErrorKind_eq_dec : EqDecision ErrorKind.
Proof. solve_decision. Defined.
#[export] Instance Abort_eq_dec : EqDecision Abort.
Proof. solve_decision. Defined.

Abbreviation io := (result Abort).
Definition invalid {A} (m : string) : io A := Err (IoError InvalidData m).
Definition eof {A} (m : string) : io A := Err (IoError UnexpectedEof m).
Arguments invalid {A} m%_string_scope.
Arguments eof {A} m%_string_scope.

Definition dquote : Z := 34.
Definition backslash : Z := 92.

(** ** Encoders *)

Definition encode_char (c : Z) : bytes :=
  if c =? dquote then [backslash; dquote]
  else if c =? backslash then [backslash; backslash]
  else if c =? 10 then [backslash; ch "n"]
  else if c =? 13 then [backslash; ch "r"]
  else if c =? 9 then [backslash; ch "t"]
  else if c <? 32 then [backslash; ch "u"] ++ hex4 c
  else Utf8.encode c.

Definition json_encode_string (s out : bytes) : bytes :=
  out ++ [dquote] ++ concat (map encode_char (Utf8.chars s)) ++ [dquote].

(** The loop body over [arr.iter().enumerate()], [i] the index. *)
Fixpoint encode_array_loop (i : Z) (arr : list bytes) (out : bytes) : bytes :=
  match arr with
  | [] => out
  | s :: arr' =>
    let out := if 0 <? i then out ++ [ch ","] else out in
    encode_array_loop (i + 1) arr' (json_encode_string s out)
  end.

Definition json_encode_string_array (arr : list bytes) (out : bytes) : bytes :=
  encode_array_loop 0 arr (out ++ [ch "["]) ++ [ch "]"].

(** [wrapper::json_escape]. *)
Definition escape_char (c : Z) : bytes :=
  if c =? dquote then [backslash; dquote]
  else if c =? backslash then [backslash; backslash]
  else if c <? 32 then [backslash; ch "u"] ++ hex4 c
  else Utf8.encode c.

Definition json_escape (s : bytes) : bytes := concat (map escape_char (Utf8.chars s)).

(** ** [JsonParser] *)

Definition peek (p : bytes) : option Z := head p.
Definition advance (p : bytes) : bytes := drop 1 p.
Definition skip_ws (p : bytes) : bytes := drop_while is_ascii_whitespace p.

Definition expect_byte (expected : Z) (p : bytes) : io bytes :=
  match peek p with
  | Some c => if c =? expected then Ok (advance p) else invalid "expected '{}', got '{}'"
  | None => eof "expected '{}'"
  end.

(** The loop of [parse_string], [s] the string built so far. *)
Fixpoint string_loop (fuel : nat) (s p : bytes) : io (bytes * bytes) :=
  match fuel with
  | O => Err OutOfFuel
  | S f =>
    match p with
    | [] => eof "unterminated string"
    | b :: r =>
      if b =? dquote then Ok (s, r)
      else if b =? backslash then
        match r with
        | [] => eof "unterminated escape"
        | e :: r =>
          if e =? dquote then string_loop f (s ++ [dquote]) r
          else if e =? backslash then string_loop f (s ++ [backslash]) r
          else if e =? ch "/" then string_loop f (s ++ [ch "/"]) r
          else if e =? ch "n" then string_loop f (s ++ [10]) r
          else if e =? ch "r" then string_loop f (s ++ [13]) r
          else if e =? ch "t" then string_loop f (s ++ [9]) r
          else if e =? ch "b" then string_loop f (s ++ [8]) r
          else if e =? ch "f" then string_loop f (s ++ [12]) r
          else if e =? ch "u" then
            if len r <? 4 then eof "truncated \u escape"
            else if negb (Utf8.is_char_boundary r 4) then Err Panic
            else
              match parse_radix 16 4294967295 (take 4 r) with
              | None => invalid "invalid \u hex"
              | Some code =>
                if Utf8.is_scalar code then string_loop f (s ++ Utf8.encode code) (drop 4 r)
                else invalid "invalid unicode codepoint"
              end
          else invalid "invalid escape: \{}"
        end
      else if b <? 128 then string_loop f (s ++ [b]) r
      else
        match Utf8.next_char p with
        | None => invalid "invalid UTF-8 in string"
        | Some (c, r) => string_loop f (s ++ Utf8.encode c) r
        end
    end
  end.

Definition parse_string (p : bytes) : io (bytes * bytes) :=
  p ← expect_byte dquote p;
  string_loop (S (length p)) [] p.

Definition MAX_ARRAY_ELEMENTS : Z := 4096.

Fixpoint array_loop (fuel : nat) (arr : list bytes) (p : bytes) : io (list bytes * bytes) :=
  match fuel with
  | O => Err OutOfFuel
  | S f =>
    if MAX_ARRAY_ELEMENTS <=? len arr then invalid "array exceeds element limit"
    else
      '(s, p) ← parse_string (skip_ws p);
      let arr := arr ++ [s] in
      let p := skip_ws p in
      match peek p with
      | Some c =>
        if c =? ch "," then array_loop f arr (advance p)
        else if c =? ch "]" then Ok (arr, advance p)
        else invalid "expected ',' or ']', got '{}'"
      | None => eof "unterminated array"
      end
  end.

Definition parse_string_array (p : bytes) : io (list bytes * bytes) :=
  p ← expect_byte (ch "[") p;
  let p := skip_ws p in
  if decide (peek p = Some (ch "]")) then Ok ([], advance p)
  else array_loop (S (length p)) [] p.

Fixpoint take_while {A} (q : A -> bool) (l : list A) : list A :=
  match l with [] => [] | x :: r => if q x then x :: take_while q r else [] end.

Definition json_u64 (p : bytes) : io (Z * bytes) :=
  let digits := take_while is_ascii_digit p in
  let p := drop_while is_ascii_digit p in
  if decide (digits = []) then invalid "expected number"
  else
    v ← ok_or (IoError InvalidData "invalid number") (parse_u64 digits);
    Ok (v, p).

Definition json_u16 (p : bytes) : io (Z * bytes) :=
  '(v, p) ← json_u64 p;
  if v <=? 65535 then Ok (v, p) else invalid "number exceeds u16 range".

Definition parse_bool (p : bytes) : io (bool * bytes) :=
  match strip_prefix (bs "true") p with
  | Some p => Ok (true, p)
  | None =>
    match strip_prefix (bs "false") p with
    | Some p => Ok (false, p)
    | None => invalid "expected boolean"
    end
  end.

(** [skip_value] and the loops of its array and object cases. *)
Fixpoint skip_value (fuel : nat) (p : bytes) {struct fuel} : io bytes :=
  match fuel with
  | O => Err OutOfFuel
  | S f =>
    match peek p with
    | Some b =>
      if b =? dquote then snd <$> parse_string p
      else if b =? ch "[" then
        let p := skip_ws (advance p) in
        if decide (peek p = Some (ch "]")) then Ok (advance p)
        else advance <$> skip_elements f p
      else if b =? ch "{" then
        let p := skip_ws (advance p) in
        if decide (peek p = Some (ch "}")) then Ok (advance p)
        else advance <$> skip_members f p
      else if (b =? ch "t") || (b =? ch "f") then snd <$> parse_bool p
      else if is_ascii_digit b then snd <$> json_u64 p
      else if (b =? ch "n") && starts_with (bs "null") p then Ok (drop 4 p)
      else invalid "expected value"
    | None => invalid "expected value"
    end
  end
with skip_elements (fuel : nat) (p : bytes) {struct fuel} : io bytes :=
  match fuel with
  | O => Err OutOfFuel
  | S f =>
    p ← skip_value f (skip_ws p);
    let p := skip_ws p in
    match peek p with
    | Some c =>
      if c =? ch "," then skip_elements f (advance p)
      else if c =? ch "]" then Ok p
      else invalid "expected ',' or ']'"
    | None => invalid "expected ',' or ']'"
    end
  end
with skip_members (fuel : nat) (p : bytes) {struct fuel} : io bytes :=
  match fuel with
  | O => Err OutOfFuel
  | S f =>
    '(_, p) ← parse_string (skip_ws p);
    p ← expect_byte (ch ":") (skip_ws p);
    p ← skip_value f (skip_ws p);
    let p := skip_ws p in
    match peek p with
    | Some c =>
      if c =? ch "," then skip_members f (advance p)
      else if c =? ch "}" then Ok p
      else invalid "expected ',' or '}'"
    | None => invalid "expected ',' or '}'"
    end
  end.

Definition skip_fuel (p : bytes) : nat := 2 * length p + 2.

(** ** [ExecRequest] *)

Record ExecRequest : Type := {
  cmd : bytes;
  args : list bytes;
  env : list bytes;
  user : bytes;
  tty : bool;
  rows : Z;
  cols : Z;
}.

#[export] Instance ExecRequest_eq_dec : EqDecision ExecRequest.
Proof. solve_decision. Defined.

(** A field name as it is written: quoted, followed by a colon. *)
Definition key (k : string) : bytes := [dquote] ++ bs k ++ [dquote; ch ":"].

Definition to_json (self : ExecRequest) : bytes :=
  let out := [ch "{"] in
  let out := out ++ key "cmd" in
  let out := json_encode_string (cmd self) out in
  let out := out ++ [ch ","] ++ key "args" in
  let out := json_encode_string_array (args self) out in
  let out := out ++ [ch ","] ++ key "env" in
  let out := json_encode_string_array (env self) out in
  let out := out ++ [ch ","] ++ key "user" in
  let out := json_encode_string (user self) out in
  let out :=
    if tty self then
      let out := out ++ [ch ","] ++ key "tty" ++ bs "true" in
      if (0 <? rows self) && (0 <? cols self) then
        out ++ [ch ","] ++ key "rows" ++ dec (rows self)
            ++ [ch ","] ++ key "cols" ++ dec (cols self)
      else out
    else out in
  out ++ [ch "}"].

(** The local variables of [from_json]'s loop. *)
Record Fields : Type := {
  f_cmd : option bytes;
  f_args : option (list bytes);
  f_env : option (list bytes);
  f_user : option bytes;
  f_tty : option bool;
  f_rows : option Z;
  f_cols : option Z;
}.

Definition no_fields : Fields := Build_Fields None None None None None None None.

(** The [match key.as_str()] of the loop body. *)
Definition parse_field (k : bytes) (st : Fields) (p : bytes) : io (Fields * bytes) :=
  let '(Build_Fields c a e u t r o) := st in
  let dup := invalid "duplicate field in EXEC: {key}" in
  if decide (k = bs "cmd") then
    match c with Some _ => dup | None =>
      '(v, p) ← parse_string p; Ok (Build_Fields (Some v) a e u t r o, p) end
  else if decide (k = bs "args") then
    match a with Some _ => dup | None =>
      '(v, p) ← parse_string_array p; Ok (Build_Fields c (Some v) e u t r o, p) end
  else if decide (k = bs "env") then
    match e with Some _ => dup | None =>
      '(v, p) ← parse_string_array p; Ok (Build_Fields c a (Some v) u t r o, p) end
  else if decide (k = bs "user") then
    match u with Some _ => dup | None =>
      '(v, p) ← parse_string p; Ok (Build_Fields c a e (Some v) t r o, p) end
  else if decide (k = bs "tty") then
    match t with Some _ => dup | None =>
      '(v, p) ← parse_bool p; Ok (Build_Fields c a e u (Some v) r o, p) end
  else if decide (k = bs "rows") then
    match r with Some _ => dup | None =>
      '(v, p) ← json_u16 p; Ok (Build_Fields c a e u t (Some v) o, p) end
  else if decide (k = bs "cols") then
    match o with Some _ => dup | None =>
      '(v, p) ← json_u16 p; Ok (Build_Fields c a e u t r (Some v), p) end
  else
    p ← skip_value (skip_fuel p) p; Ok (st, p).

(** The loop over the members of an object, which [vm/state.rs] repeats. *)
Section Object.
Context {St : Type} (field : bytes -> St -> bytes -> io (St * bytes)).

Fixpoint object_loop (fuel : nat) (first : bool) (st : St) (p : bytes) : io (St * bytes) :=
  match fuel with
  | O => Err OutOfFuel
  | S f =>
    let p := skip_ws p in
    if decide (peek p = Some (ch "}")) then Ok (st, advance p)
    else
      p ← (if first then Ok p else expect_byte (ch ",") p);
      '(k, p) ← parse_string (skip_ws p);
      p ← expect_byte (ch ":") (skip_ws p);
      '(st, p) ← field k st (skip_ws p);
      object_loop f false st p
  end.
End Object.

Definition from_json (json : bytes) : io ExecRequest :=
  p ← expect_byte (ch "{") (skip_ws json);
  '(st, _) ← object_loop parse_field (S (length p)) true no_fields p;
  c ← ok_or (IoError InvalidData "missing 'cmd' in EXEC") (f_cmd st);
  Ok {| cmd := c; args := default [] (f_args st); env := default [] (f_env st);
        user := default (bs "root") (f_user st); tty := default false (f_tty st);
        rows := default 0 (f_rows st); cols := default 0 (f_cols st) |}.

(** ** Progress and types

    [rest_of n q p]: [q] is what is left of the [str] [p] after at least [n]
    bytes have been read, a [str] again.  [parses P n p r]: the outcome [r] of
    a parser run on a [str] [p] is not [OutOfFuel], and on success it is a
    value that satisfies [P] together with such a rest. *)

Definition is_str (s : bytes) : Prop := Utf8.valid s = true.

Definition rest_of (n : nat) (q p : bytes) : Prop :=
  (length q + n <= length p)%nat /\ is_str q.

Definition parses {A} (P : A -> Prop) (n : nat) (p : bytes) (r : io (A * bytes)) : Prop :=
  is_str p ->
  match r with
  | Ok (a, q) => P a /\ rest_of n q p
  | Err e => e <> OutOfFuel
  end.

(** The same for the parsers that return only the rest. *)
Definition eats (n : nat) (p : bytes) (r : io bytes) : Prop :=
  parses (fun _ => True) n p (pair tt <$> r).

Lemma rest_of_refl p : is_str p -> rest_of 0 p p.
Proof. split; [lia|done]. Qed.
Lemma rest_of_trans n m q r p : rest_of n q p -> rest_of m r q -> rest_of (n + m) r p.
Proof. intros [] []. split; [lia|auto]. Qed.
Lemma rest_of_weaken n m q p : rest_of n q p -> (m <= n)%nat -> rest_of m q p.
Proof. intros [] ?. split; [lia|done]. Qed.

Lemma rest_of_cons c p : 0 <= c < 128 -> is_str (c :: p) -> rest_of 1 p (c :: p).
Proof. split; [simpl; lia|]. by apply (Utf8.valid_tail c). Qed.

Lemma rest_of_skip_ws p : is_str p -> rest_of 0 (skip_ws p) p.
Proof.
  unfold skip_ws. induction p as [|c p IH]; simpl; intros Hv; [by apply rest_of_refl|].
  destruct (is_ascii_whitespace c) eqn:E; [|by apply rest_of_refl].
  assert (H : rest_of 1 p (c :: p)).
  { apply rest_of_cons; [unfold is_ascii_whitespace in E; lia|done]. }
  apply (rest_of_weaken 1); [|lia]. apply (rest_of_trans 1 0 p); [done|]. apply IH, H.
Qed.

Lemma rest_of_advance c p : 0 <= c < 128 -> peek p = Some c -> is_str p -> rest_of 1 (advance p) p.
Proof.
  intros Hc H. destruct p as [|x p]; [done|]. injection H as ->. unfold advance. cbn [drop].
  rewrite drop_0. by apply rest_of_cons.
Qed.

Lemma parses_le {A} (P : A -> Prop) k n p' p r :
  rest_of k p' p -> parses P n p' r -> parses P (k + n) p r.
Proof.
  intros [Hk Hs] H Hp. specialize (H Hs). destruct r as [[a q]|e]; [|done]. destruct H as [Ha Hq].
  split; [done|]. by apply (rest_of_trans _ _ p').
Qed.

Lemma parses_ws {A} (P : A -> Prop) n p r : parses P n (skip_ws p) r -> parses P n p r.
Proof. intros H Hp. apply (parses_le P 0 n (skip_ws p)); [by apply rest_of_skip_ws|done..]. Qed.
Lemma eats_le k n p' p r : rest_of k p' p -> eats n p' r -> eats (k + n) p r.
Proof. apply parses_le. Qed.
Lemma eats_ws n p r : eats n (skip_ws p) r -> eats n p r.
Proof. apply parses_ws. Qed.

Lemma parses_weaken {A} (P Q : A -> Prop) n m p r : parses P n p r -> (m <= n)%nat ->
  (forall a, P a -> Q a) -> parses Q m p r.
Proof.
  intros H Hm HPQ Hp. specialize (H Hp). destruct r as [[a q]|e]; [|done]. destruct H as [Ha Hq].
  split; [auto|]. by apply (rest_of_weaken n).
Qed.

Lemma parses_ok {A} (P : A -> Prop) n p a q : P a -> rest_of n q p -> parses P n p (Ok (a, q)).
Proof. by intros ? ? ?. Qed.
Lemma eats_ok n p q : rest_of n q p -> eats n p (Ok q).
Proof. by intros ? ?. Qed.

Lemma parses_str {A} (P : A -> Prop) n p r : (is_str p -> parses P n p r) -> parses P n p r.
Proof. intros H Hp. by apply H. Qed.

(** Sequencing: the continuation may use that the value satisfies [P]. *)
Lemma parses_bind {A B} (P : A -> Prop) (Q : B -> Prop) n k p (m : io (A * bytes)) f :
  parses P n p m ->
  (forall a q, is_str p -> P a -> rest_of n q p -> parses Q k p (f (a, q))) ->
  parses Q k p (m ≫= f).
Proof.
  intros H Hf Hp. specialize (H Hp). destruct m as [[a q]|e]; cbn; [|done].
  destruct H as [Ha Hq]. by apply Hf.
Qed.

Lemma eats_bind {B} (Q : B -> Prop) n k p (m : io bytes) f :
  eats n p m -> (forall q, is_str p -> rest_of n q p -> parses Q k p (f q)) -> parses Q k p (m ≫= f).
Proof.
  intros H Hf Hp. specialize (H Hp). destruct m as [q|e]; cbn; [|done].
  destruct H as [_ Hq]. by apply Hf.
Qed.

Lemma eats_fmap {A} (P : A -> Prop) n p r : parses P n p r -> eats n p (snd <$> r).
Proof. intros H Hp. specialize (H Hp). destruct r as [[? ?]|]; [|done]. destruct H. by split. Qed.

Lemma expect_byte_cases c p :
  (exists q, p = c :: q /\ expect_byte c p = Ok q) \/
  (exists k m, expect_byte c p = Err (IoError k m)).
Proof.
  unfold expect_byte. destruct p as [|x p]; cbn [peek head]; [right; by eexists _, _|].
  destruct (x =? c) eqn:E; [|right; by eexists _, _]. bsplit. subst. left. exists p.
  unfold advance. cbn [drop]. by rewrite drop_0.
Qed.

Lemma expect_byte_eats c p : 0 <= c < 128 -> eats 1 p (expect_byte c p).
Proof.
  intros Hc Hp. destruct (expect_byte_cases c p) as [(q & -> & ->) | (k & m & ->)]; [|done].
  split; [done|]. by apply rest_of_cons.
Qed.

Lemma next_char_str s : is_str s -> s <> [] -> exists c r, Utf8.next_char s = Some (c, r) /\
  rest_of 1 r s /\ Utf8.is_scalar c = true.
Proof.
  intros [l Hl]%Utf8.valid_decode Hne.
  destruct (Utf8.decode_next s l Hl Hne) as (c & r & l' & Hn & E & _ & Hr & Hc).
  exists c, r. split_and!; [done| |done]. split; [|apply Utf8.valid_decode; by eexists].
  rewrite E, length_app. pose proof (Utf8.length_encode c). lia.
Qed.

Lemma str_head c s : is_str (c :: s) -> 0 <= c.
Proof.
  intros [l Hl]%Utf8.valid_decode.
  destruct (Utf8.decode_next _ l Hl) as (d & r & _ & _ & E & _ & _ & Hd); [done|].
  pose proof (Utf8.encode_u8 d Hd) as Hu. pose proof (Utf8.length_encode d).
  destruct (Utf8.encode d) as [|x t]; simpl in *; [lia|]. injection E as -> _. inv Hu.
  unfold is_u8 in *. lia.
Qed.

Lemma string_loop_parses fuel s p : (length p < fuel)%nat -> is_str s ->
  parses is_str 1 p (string_loop fuel s p).
Proof.
  revert s p. induction fuel as [|f IH]; intros s p Hf Hs; [lia|].
  assert (K : forall n c q, rest_of (S n) q p -> Utf8.is_scalar c = true ->
    parses is_str 1 p (string_loop f (s ++ Utf8.encode c) q)).
  { intros n c q Hq Hc. apply (parses_weaken is_str _ (S n + 1)); [|lia|done].
    apply (parses_le _ _ _ q); [done|]. destruct Hq. apply IH; [lia|].
    apply Utf8.valid_app; [done|]. by apply Utf8.encode_valid. }
  cbn [string_loop]. destruct p as [|b r]; [done|]. apply parses_str. intros Hp. simpl in Hf.
  bcase; [apply parses_ok; [done|]; apply rest_of_cons; [subst; done|done]|]. bcase.
  - destruct r as [|e r]; [done|]. subst b.
    assert (H1 : rest_of 1 (e :: r) (backslash :: e :: r)) by by apply rest_of_cons.
    assert (K2 : forall c, 0 <= e < 128 -> 0 <= c < 128 ->
      parses is_str 1 (backslash :: e :: r) (string_loop f (s ++ [c]) r)).
    { intros c He Hc. rewrite <- (Utf8.encode_ascii c) by done. apply (K 1%nat); [|unfold Utf8.is_scalar; lia].
      apply (rest_of_trans 1 1 _ _ _ H1). apply rest_of_cons; [done|apply H1]. }
    do 8 (bcase; [apply K2; by subst|]). bcase; [|done].
    bcase; [done|]. bcase; [done|]. destruct (parse_radix _ _ _); [|done].
    bcase; [|done]. apply (K 1%nat); [|done]. subst.
    assert (H2 : rest_of 1 r (ch "u" :: r)) by (apply rest_of_cons; [done|apply H1]).
    apply (rest_of_weaken (1 + (1 + 0))); [|lia]. apply (rest_of_trans _ _ _ _ _ H1).
    apply (rest_of_trans _ _ _ _ _ H2). split; [rewrite length_drop; lia|].
    apply (valid_boundary_drop r 4); [apply H2|done].
  - destruct (next_char_str (b :: r) Hp) as (c & q & Hn & Hq & Hc); [done|]. bcase.
    + pose proof (str_head b r Hp). rewrite <- (Utf8.encode_ascii b) by lia.
      apply (K 0%nat); [by apply rest_of_cons|unfold Utf8.is_scalar; lia].
    + rewrite Hn. by apply (K 0%nat).
Qed.

Lemma parse_string_parses p : parses is_str 2 p (parse_string p).
Proof.
  unfold parse_string. eapply eats_bind; [by apply expect_byte_eats|]. intros q Hp Hq.
  apply (parses_le _ 1 1 q); [done|]. apply string_loop_parses; [lia|done].
Qed.

(** [skip_ws], then a byte that [peek] sees, then [advance]. *)
Lemma peek_ws_rest c q : 0 <= c < 128 -> peek (skip_ws q) = Some c -> is_str q ->
  rest_of 1 (advance (skip_ws q)) q.
Proof.
  intros Hc Hp Hq. pose proof (rest_of_skip_ws q Hq) as Hw.
  apply (rest_of_trans 0 1 _ _ _ Hw). eapply rest_of_advance; [done|done|apply Hw].
Qed.

Definition is_str_array (arr : list bytes) : Prop :=
  Forall is_str arr /\ len arr <= MAX_ARRAY_ELEMENTS.

Lemma array_loop_parses fuel arr p : (length p < fuel)%nat -> Forall is_str arr ->
  parses is_str_array 1 p (array_loop fuel arr p).
Proof.
  revert arr p. induction fuel as [|f IH]; intros arr p Hf Ha; [lia|]. cbn [array_loop].
  bcase; [done|]. eapply parses_bind; [apply parses_ws, parse_string_parses|].
  intros s q Hp Hs Hq. destruct (peek (skip_ws q)) as [c|] eqn:Ep; [|done].
  assert (Ha' : Forall is_str (arr ++ [s])) by (apply Forall_app; by repeat constructor).
  bcase; [subst c|bcase; [subst c|done]].
  - pose proof (peek_ws_rest (ch ",") q ltac:(done) Ep (proj2 Hq)) as Hr.
    pose proof (rest_of_trans _ _ _ _ _ Hq Hr) as [Hl Hr'].
    apply (parses_weaken is_str_array _ 4); [|lia|done]. apply (parses_le _ 3 _ (advance (skip_ws q))); [done|].
    apply IH; [lia|done].
  - apply parses_ok; [split; [done|]; rewrite len_app, len_cons, len_nil; lia|].
    apply (rest_of_weaken 3); [|lia].
    apply (rest_of_trans _ _ _ _ _ Hq), (peek_ws_rest (ch "]")); [done|done|apply Hq].
Qed.

Lemma parse_string_array_parses p : parses is_str_array 1 p (parse_string_array p).
Proof.
  unfold parse_string_array. eapply eats_bind; [by apply expect_byte_eats|]. intros q Hp Hq.
  case_decide as Ep.
  - apply parses_ok; [by split; [constructor|]|]. apply (rest_of_weaken 2); [|lia].
    apply (rest_of_trans _ _ _ _ _ Hq), (peek_ws_rest (ch "]")); [done|done|apply Hq].
  - apply (parses_weaken is_str_array _ 2); [|lia|done]. apply (parses_le _ 1 1 q); [done|].
    apply parses_ws, array_loop_parses; [lia|constructor].
Qed.

Lemma length_drop_while {A} (q : A -> bool) l : (length (drop_while q l) <= length l)%nat.
Proof. induction l as [|x l IH]; simpl; [done|]. bcase; simpl; lia. Qed.

Lemma take_drop_while {A} (q : A -> bool) l : take_while q l ++ drop_while q l = l.
Proof. induction l as [|x l IH]; simpl; [done|]. bcase; simpl; by rewrite ?IH. Qed.

Lemma drop_digits_str p : is_str p -> is_str (drop_while is_ascii_digit p).
Proof.
  induction p as [|c p IH]; simpl; [done|]. bcase; [|done]. intros H.
  apply IH, (rest_of_cons c p); [unfold is_ascii_digit in *; lia|done].
Qed.

Lemma digits_val_nonneg radix a s v : 0 <= radix -> 0 <= a ->
  digits_val radix a s = Some v -> 0 <= v.
Proof.
  intros Hr. revert a. induction s as [|c s IH]; simpl; intros a Ha H; [by simplify_eq|].
  destruct (digit_val radix c) as [d|] eqn:E; [|done]. apply (IH (a * radix + d)); [|done].
  unfold digit_val in E. unfold is_ascii_digit in E. repeat bcase; simplify_eq; lia.
Qed.

Lemma json_u64_parses p : parses (fun v => 0 <= v <= 18446744073709551615) 1 p (json_u64 p).
Proof.
  unfold json_u64. case_decide as E; [done|]. destruct (parse_u64 _) as [v|] eqn:Ev; [|done]. intros Hp.
  split; [split|split].
  - unfold parse_u64, parse_radix in Ev. destruct (strip_plus _); [done|].
    destruct (digits_val _ _ _) eqn:Ed; [|done]. apply digits_val_nonneg in Ed; [|lia..].
    bcase; [by simplify_eq|done].
  - by apply parse_radix_range in Ev.
  - rewrite <- (take_drop_while is_ascii_digit p) at 2. rewrite length_app.
    destruct (take_while _ p); [done|]. simpl. lia.
  - by apply drop_digits_str.
Qed.

Lemma json_u16_parses p : parses (fun v => 0 <= v <= 65535) 1 p (json_u16 p).
Proof.
  unfold json_u16. eapply parses_bind; [apply json_u64_parses|]. intros v q _ Hv Hq.
  bcase; [|done]. apply parses_ok; [cbn beta in *; lia|done].
Qed.

Lemma rest_of_app a q : Forall (fun c => 0 <= c < 128) a -> is_str (a ++ q) ->
  rest_of (length a) q (a ++ q).
Proof.
  induction 1 as [|c a Hc _ IH]; simpl; intros Hp; [by apply rest_of_refl|].
  pose proof (rest_of_cons c (a ++ q) Hc Hp) as H1.
  apply (rest_of_trans 1 (length a) _ _ _ H1), IH, H1.
Qed.

Lemma bs_ascii_bool s : forallb (fun c => (0 <=? c) && (c <? 128)) (bs s) = true ->
  Forall (fun c => 0 <= c < 128) (bs s).
Proof.
  rewrite forallb_forall, List.Forall_forall. intros H c Hc. specialize (H c Hc). cbn beta in H. bsplit. lia.
Qed.

Lemma parse_bool_parses p : parses (fun _ => True) 1 p (parse_bool p).
Proof.
  unfold parse_bool. destruct (strip_prefix (bs "true") p) as [q|] eqn:E1;
    [|destruct (strip_prefix (bs "false") p) as [q|] eqn:E2; [|done]].
  - apply strip_prefix_Some in E1 as ->. intros Hp. split; [done|].
    apply (rest_of_weaken 4); [|lia]. apply (rest_of_app (bs "true")); [by apply bs_ascii_bool|done].
  - apply strip_prefix_Some in E2 as ->. intros Hp. split; [done|].
    apply (rest_of_weaken 5); [|lia]. apply (rest_of_app (bs "false")); [by apply bs_ascii_bool|done].
Qed.

(** [skip_value] consumes a byte; its loops stop at a closing bracket that is
    still to be read.  The fuel that suffices is twice the input's length. *)
Definition stops (close : Z) (p : bytes) (r : io bytes) : Prop :=
  is_str p ->
  match r with
  | Ok q => rest_of 0 q p /\ peek q = Some close
  | Err e => e <> OutOfFuel
  end.

Lemma stops_le close k p' p r : rest_of k p' p -> stops close p' r -> stops close p r.
Proof.
  intros Hk H Hp. specialize (H (proj2 Hk)). destruct r as [q|]; [|done]. destruct H as [Hq Hc].
  split; [|done]. apply (rest_of_weaken (k + 0)); [|lia]. by apply (rest_of_trans _ _ p').
Qed.

Lemma stops_advance close p r : 0 <= close < 128 -> stops close p r -> eats 1 p (advance <$> r).
Proof.
  intros Hc H Hp. specialize (H Hp). destruct r as [q|]; [|done]. destruct H as [Hq Ho].
  split; [done|]. apply (rest_of_trans 0 1 _ _ _ Hq). eapply rest_of_advance; [done|done|apply Hq].
Qed.

Lemma eats_stops close n p r f : eats n p r ->
  (forall q, is_str p -> rest_of n q p -> stops close p (f q)) -> stops close p (r ≫= f).
Proof.
  intros H Hf Hp. specialize (H Hp). destruct r as [q|]; cbn; [|done]. by apply Hf; [|apply H|].
Qed.

Lemma parses_stops {A} (P : A -> Prop) close n p r f : parses P n p r ->
  (forall a q, is_str p -> rest_of n q p -> stops close p (f (a, q))) -> stops close p (r ≫= f).
Proof.
  intros H Hf Hp. specialize (H Hp). destruct r as [[a q]|]; cbn; [|done]. by apply Hf; [|apply H|].
Qed.

(** What follows an element: a comma and the rest of the loop, or the end. *)
Lemma stops_tail close n q p loop (m : string) : 0 <= close < 128 -> rest_of (S n) q p ->
  (forall r, rest_of 1 r q -> stops close r (loop r)) ->
  stops close p
    match peek (skip_ws q) with
    | Some c => if c =? ch "," then loop (advance (skip_ws q))
                else if c =? close then Ok (skip_ws q) else invalid m
    | None => invalid m
    end.
Proof.
  intros Hc Hq Hl. destruct (peek (skip_ws q)) as [c|] eqn:Ep; [|done]. bcase; [|bcase; [|done]].
  - subst c. pose proof (peek_ws_rest (ch ",") q ltac:(done) Ep (proj2 Hq)) as Hr.
    eapply stops_le; [exact (rest_of_trans _ _ _ _ _ Hq Hr)|]. by apply Hl.
  - subst c. intros Hp. split; [|done]. apply (rest_of_weaken (S n + 0)); [|lia].
    apply (rest_of_trans _ _ _ _ _ Hq), rest_of_skip_ws, Hq.
Qed.

Lemma skip_progress fuel :
  (forall p, (2 * length p < fuel)%nat -> eats 1 p (skip_value fuel p)) /\
  (forall p, (2 * length p + 1 < fuel)%nat -> stops (ch "]") p (skip_elements fuel p)) /\
  (forall p, (2 * length p + 1 < fuel)%nat -> stops (ch "}") p (skip_members fuel p)).
Proof.
  induction fuel as [|f (IHv & IHe & IHm)]; [split_and!; intros; lia|].
  split_and!; intros p Hf.
  - cbn [skip_value]. destruct (peek p) as [b|] eqn:Ep; [|done]. apply parses_str. intros Hp.
    assert (HB : forall open close loop, b = open -> 0 <= open < 128 -> 0 <= close < 128 ->
      (forall p, (2 * length p + 1 < f)%nat -> stops close p (loop p)) ->
      eats 1 p (if decide (peek (skip_ws (advance p)) = Some close)
                then Ok (advance (skip_ws (advance p)))
                else advance <$> loop (skip_ws (advance p)))).
    { intros open close loop -> Ho Hc Hloop.
      pose proof (rest_of_advance open p Ho Ep Hp) as Ha.
      pose proof (rest_of_skip_ws _ (proj2 Ha)) as Hw.
      apply (parses_weaken (fun _ => True) _ (1 + 1)); [|lia|done]. apply (eats_le 1 1 _ _ _ Ha). apply eats_ws.
      case_decide as E'; [apply eats_ok; eapply rest_of_advance; [exact Hc|done|apply Hw]|].
      apply (stops_advance close); [done|]. apply Hloop. destruct Ha, Hw. lia. }
    bcase; [eapply eats_fmap, parses_weaken; [apply parse_string_parses|lia|done]|].
    bcase; [by apply (HB (ch "["))|]. bcase; [by apply (HB (ch "{"))|].
    bcase; [eapply eats_fmap, parse_bool_parses|]. bcase; [eapply eats_fmap, json_u64_parses|].
    bcase; [|done]. apply eats_ok. 
    match goal with H : starts_with _ _ = true |- _ => apply starts_with_spec in H as [q ->] end.
    apply (rest_of_weaken 4); [|lia]. change (drop 4 (bs "null" ++ q)) with (drop 0 q). rewrite drop_0.
    apply (rest_of_app (bs "null")); [by apply bs_ascii_bool|done].
  - cbn [skip_elements]. eapply eats_stops.
    { apply eats_ws, IHv. pose proof (length_drop_while is_ascii_whitespace p). unfold skip_ws. lia. }
    intros q Hp Hq. apply (stops_tail _ 0); [done|done|]. intros r [Hr _]. destruct Hq. apply IHe. lia.
  - cbn [skip_members]. eapply parses_stops; [apply parses_ws, parse_string_parses|]. intros k q Hp Hq.
    eapply stops_le; [exact Hq|]. eapply eats_stops; [apply eats_ws; by apply expect_byte_eats|].
    intros q1 _ Hq1. eapply stops_le; [exact Hq1|]. eapply eats_stops.
    { apply eats_ws, IHv. pose proof (length_drop_while is_ascii_whitespace q1). destruct Hq, Hq1. unfold skip_ws. lia. }
    intros q2 _ Hq2. apply (stops_tail _ 0); [done|done|]. intros r [Hr _]. destruct Hq, Hq1, Hq2. apply IHm. lia.
Qed.

Lemma skip_value_eats p : eats 1 p (skip_value (skip_fuel p) p).
Proof. apply skip_progress. unfold skip_fuel. lia. Qed.

(** The types of the fields ([String], [Vec<String>], [u16]), with at most
    MAX_ARRAY_ELEMENTS arguments and variables: a limit of the reader that is not
    one of the types, and that the writer does not check. *)
Definition opt {A} (P : A -> Prop) (o : option A) : Prop :=
  match o with Some a => P a | None => True end.

Definition is_u16 (v : Z) : Prop := 0 <= v <= 65535.

Definition fields_ok (st : Fields) : Prop :=
  opt is_str (f_cmd st) /\ opt is_str_array (f_args st) /\ opt is_str_array (f_env st) /\
  opt is_str (f_user st) /\ opt is_u16 (f_rows st) /\ opt is_u16 (f_cols st).

Definition request_ok (r : ExecRequest) : Prop :=
  is_str (cmd r) /\ is_str_array (args r) /\ is_str_array (env r) /\ is_str (user r) /\
  is_u16 (rows r) /\ is_u16 (cols r).

Lemma parse_field_parses k st p : fields_ok st -> parses fields_ok 1 p (parse_field k st p).
Proof.
  intros Hst. destruct st as [c a e u t r o]. cbn [parse_field].
  destruct Hst as (Hc & Ha & He & Hu & Hr & Ho). cbn [f_cmd f_args f_env f_user f_rows f_cols] in *.
  assert (KS : forall f, (forall v, is_str v -> fields_ok (f v)) ->
    parses fields_ok 1 p ('(v, p) ← parse_string p; Ok (f v, p))).
  { intros f Hf. eapply parses_bind; [apply parse_string_parses|].
    intros v q _ Hv Hq. apply parses_ok; [by apply Hf|]. by apply (rest_of_weaken 2); [|lia]. }
  assert (KA : forall f, (forall v, is_str_array v -> fields_ok (f v)) ->
    parses fields_ok 1 p ('(v, p) ← parse_string_array p; Ok (f v, p))).
  { intros f Hf. eapply parses_bind; [apply parse_string_array_parses|].
    intros v q _ Hv Hq. apply parses_ok; [by apply Hf|done]. }
  assert (KU : forall f, (forall v, is_u16 v -> fields_ok (f v)) ->
    parses fields_ok 1 p ('(v, p) ← json_u16 p; Ok (f v, p))).
  { intros f Hf. eapply parses_bind; [apply json_u16_parses|].
    intros v q _ Hv Hq. apply parses_ok; [by apply Hf|done]. }
  repeat case_decide.
  all: try (match goal with |- parses _ _ _ (match ?o with _ => _ end) => destruct o; [done|] end).
  1,4: apply KS; by intros v Hv.
  1,2: apply KA; by intros v Hv.
  2,3: apply KU; by intros v Hv.
  - eapply parses_bind; [apply parse_bool_parses|]. intros v q _ _ Hq. by apply parses_ok.
  - eapply eats_bind; [apply skip_value_eats|]. intros q _ Hq. by apply parses_ok.
Qed.

Lemma object_loop_parses {St} field (ok : St -> Prop) fuel first st p :
  (forall k st p, ok st -> parses ok 1 p (field k st p)) -> (length p < fuel)%nat -> ok st ->
  parses ok 1 p (object_loop field fuel first st p).
Proof.
  intros Hfield. revert first st p. induction fuel as [|f IH]; intros first st p Hf Hst; [lia|].
  cbn [object_loop]. apply parses_str. intros Hp. pose proof (rest_of_skip_ws p Hp) as Hw. case_decide as Ec.
  { apply parses_ok; [done|]. by apply (peek_ws_rest (ch "}")). }
  apply parses_ws. eapply (eats_bind _ 0).
  { destruct first; [apply eats_ok, rest_of_refl, Hw|].
    apply (parses_weaken (fun _ => True) _ 1); [by apply expect_byte_eats|lia|done]. }
  intros q _ Hq. apply (parses_weaken ok _ (0 + 1)); [|lia|done]. apply (parses_le _ _ _ q); [done|].
  eapply parses_bind; [apply parses_ws, parse_string_parses|]. intros k q1 _ Hk Hq1.
  apply (parses_weaken ok _ (2 + 1)); [|lia|done]. apply (parses_le _ _ _ q1); [done|].
  eapply eats_bind; [by apply eats_ws, expect_byte_eats|]. intros q2 _ Hq2.
  apply (parses_weaken ok _ (1 + 1)); [|lia|done]. apply (parses_le _ _ _ q2); [done|].
  eapply parses_bind; [by apply parses_ws, Hfield|]. intros st' q3 _ Hst' Hq3.
  apply (parses_weaken ok _ (1 + 1)); [|lia|done]. apply (parses_le _ _ _ q3); [done|].
  destruct Hw, Hq, Hq1, Hq2, Hq3. apply IH; [lia|done].
Qed.

(** C31: on every string the request parser ends (the fuel of its loops and of
    the recursive [skip_value] always suffices), and a request it accepts is
    well-typed: the strings are UTF-8, the arrays hold at most
    [MAX_ARRAY_ELEMENTS] strings, the window size fits [u16]. *)
Theorem from_json_total json : is_str json ->
  match from_json json with
  | Ok r => request_ok r
  | Err e => e <> OutOfFuel
  end.
Proof.
  intros Hj. unfold from_json. pose proof (rest_of_skip_ws json Hj) as Hw.
  pose proof (expect_byte_eats (ch "{") (skip_ws json) ltac:(done) (proj2 Hw)) as He.
  destruct (expect_byte _ _) as [p|e]; cbn [mbind result_bind fmap result_fmap] in He |- *; [|done]. destruct He as [_ [_ Hp]].
  pose proof (object_loop_parses parse_field fields_ok (S (length p)) true no_fields p
    parse_field_parses ltac:(lia) ltac:(by repeat split) Hp) as Hl.
  destruct (object_loop _ _ _ _ _) as [[st q]|e]; cbn [mbind result_bind]; [|done].
  destruct Hl as ((Hc & Ha & Hn & Hu & Hr & Ho) & _).
  destruct (f_cmd st); [|done]. cbn.
  assert (Hnil : is_str_array []) by (split; [constructor|done]).
  split_and!; [done| | | | |]; cbn.
  - by destruct (f_args st).
  - by destruct (f_env st).
  - by destruct (f_user st).
  - destruct (f_rows st); [done|]. unfold is_u16. simpl. lia.
  - destruct (f_cols st); [done|]. unfold is_u16. simpl. lia.
Qed.

Definition demo_request : ExecRequest :=
  {| cmd := bs "sh"; args := [bs "-c"; [dquote; 195; 169; 10]]; env := [bs "A=b"];
     user := bs "root"; tty := true; rows := 24; cols := 80 |}.

#[export] Instance request_ok_dec r : Decision (request_ok r).
Proof. unfold request_ok, is_str_array, is_u16, is_str. apply _. Defined.

Lemma demo_request_ok : request_ok demo_request.
Proof. by_eval. Qed.

Lemma from_json_total_witness : is_str (to_json demo_request) /\
  match from_json (to_json demo_request) with
  | Ok r => request_ok r
  | Err e => e <> OutOfFuel
  end.
Proof.
  assert (H : is_str (to_json demo_request)) by (vm_compute; reflexivity).
  split; [exact H|]. exact (from_json_total _ H).
Defined.

(** ** Round trips *)

(** The next byte does not continue a character. *)
Definition at_boundary (s : bytes) : Prop :=
  match s with b :: _ => Utf8.cont b = false | [] => True end.

Lemma at_boundary_encode c s : Utf8.is_scalar c = true -> at_boundary (Utf8.encode c ++ s).
Proof.
  intros Hc. unfold Utf8.encode, at_boundary, Utf8.cont, Utf8.is_scalar in *. repeat bcase; cbn [app];
    apply not_true_iff_false; intros ?; bsplit; Z.to_euclidean_division_equations; lia.
Qed.

(** An escaping that [string_loop] undoes character by character. *)
Definition undone_by_parser (esc : Z -> bytes) : Prop :=
  forall c, Utf8.is_scalar c = true ->
    (1 <= length (esc c))%nat /\
    (forall rest, at_boundary (esc c ++ rest)) /\
    forall f acc rest, at_boundary rest ->
      string_loop (S f) acc (esc c ++ rest) = string_loop f (acc ++ Utf8.encode c) rest.

Lemma string_loop_plain c f acc rest : Utf8.is_scalar c = true -> c <> dquote -> c <> backslash ->
  string_loop (S f) acc (Utf8.encode c ++ rest) = string_loop f (acc ++ Utf8.encode c) rest.
Proof.
  intros Hc Hq Hb. pose proof (Utf8.next_char_encode c rest Hc) as Hn.
  destruct (decide (c < 128)) as [Hl|Hl].
  - rewrite Utf8.encode_ascii by (unfold Utf8.is_scalar in Hc; lia). cbn [app string_loop].
    repeat (bcase; try lia). done.
  - pose proof (Utf8.encode_high c Hc ltac:(lia)) as Hh. pose proof (Utf8.length_encode c).
    destruct (Utf8.encode c) as [|b t] eqn:E; [simpl in *; lia|]. inv Hh.
    cbn [app string_loop]. cbn [app] in Hn. unfold dquote, backslash in *.
    repeat (bcase; try lia). by rewrite Hn, E.
Qed.

Lemma hex4_control c : 0 <= c < 32 -> parse_radix 16 4294967295 (hex4 c) = Some c.
Proof.
  intros Hc. assert (H : Forall (fun c => parse_radix 16 4294967295 (hex4 c) = Some c) (seqZ 0 32)).
  { apply (bool_decide_unpack _). vm_compute. exact I. }
  rewrite List.Forall_forall in H. apply H, list_elem_of_In, elem_of_seqZ. lia.
Qed.

Lemma string_loop_control c f acc rest : 0 <= c < 32 -> at_boundary rest ->
  string_loop (S f) acc (([backslash; ch "u"] ++ hex4 c) ++ rest)
  = string_loop f (acc ++ Utf8.encode c) rest.
Proof.
  intros Hc Hr. pose proof (hex4_control c Hc) as Hx. unfold hex4 in *.
  change (([backslash; ch "u"] ++ ?h) ++ rest) with (backslash :: ch "u" :: h ++ rest).
  set (h := [hex_digit (c / 4096); _; _; _]) in *.
  assert (Hl : length h = 4%nat) by done. clearbody h.
  cbn [string_loop]. change (backslash =? dquote) with false. change (backslash =? backslash) with true.
  cbn match. change (ch "u" =? dquote) with false.
  repeat change (ch "u" =? backslash) with false. repeat change (ch "u" =? ch _) with false.
  cbn match. rewrite len_app. unfold len at 1. rewrite Hl.
  destruct (Z.of_nat 4 + len rest <? 4) eqn:E; [bsplit; pose proof (len_nonneg rest); lia|].
  assert (Hb : Utf8.is_char_boundary (h ++ rest) 4 = true).
  { unfold Utf8.is_char_boundary. cbn match. rewrite lookup_app_r by (rewrite Hl; simpl; lia).
    rewrite Hl. change (Z.to_nat 4 - 4)%nat with 0%nat. destruct rest as [|b r]; [|].
    - rewrite app_nil_r. unfold len. by rewrite Hl.
    - unfold at_boundary, Utf8.cont in Hr. cbn. apply negb_true_iff.
      apply not_true_iff_false in Hr. apply not_true_iff_false. intros ?. apply Hr. bsplit. lia. }
  rewrite Hb. cbn [negb]. rewrite take_app_length', drop_app_length' by done. rewrite Hx.
  destruct (Utf8.is_scalar c) eqn:Es; [done|]. unfold Utf8.is_scalar in Es. lia.
Qed.

(** The two-byte escapes. *)
Lemma string_loop_short e c f acc rest :
  ((e, c) ∈ [(dquote, dquote); (backslash, backslash); (ch "n", 10); (ch "r", 13); (ch "t", 9)]) ->
  string_loop (S f) acc ([backslash; e] ++ rest) = string_loop f (acc ++ Utf8.encode c) rest.
Proof. rewrite list_elem_of_In. intros H. repeat (destruct H as [[= <- <-]|H]; [reflexivity|]). destruct H. Qed.

Lemma encode_char_undone : undone_by_parser encode_char.
Proof.
  intros c Hc. unfold encode_char.
  assert (HS : forall e, ((e, c) ∈ [(dquote, dquote); (backslash, backslash); (ch "n", 10); (ch "r", 13); (ch "t", 9)]) ->
    (1 <= length [backslash; e])%nat /\ (forall rest, at_boundary ([backslash; e] ++ rest)) /\
    forall f acc rest, at_boundary rest -> string_loop (S f) acc ([backslash; e] ++ rest)
      = string_loop f (acc ++ Utf8.encode c) rest).
  { intros e He. split_and!; [simpl; lia|done|]. intros. by apply string_loop_short. }
  do 5 (bcase; [apply HS; subst; by_eval|]). bcase.
  - unfold Utf8.is_scalar in Hc. bsplit. split_and!; [simpl; lia|done|]. intros. apply string_loop_control; [lia|done].
  - split_and!; [apply Utf8.length_encode|by intros; apply at_boundary_encode|].
    intros. by apply string_loop_plain.
Qed.

Lemma escape_char_undone : undone_by_parser escape_char.
Proof.
  intros c Hc. unfold escape_char.
  do 2 (bcase; [split_and!; [simpl; lia|done|intros; apply string_loop_short; subst; by_eval]|]). bcase.
  - unfold Utf8.is_scalar in Hc. bsplit. split_and!; [simpl; lia|done|]. intros. apply string_loop_control; [lia|done].
  - split_and!; [apply Utf8.length_encode|by intros; apply at_boundary_encode|].
    intros. by apply string_loop_plain.
Qed.

Section Escaping.
Context (esc : Z -> bytes) (Hesc : undone_by_parser esc).

Lemma escaped_boundary l rest : Forall (fun c => Utf8.is_scalar c = true) l -> at_boundary rest ->
  at_boundary (concat (map esc l) ++ rest).
Proof.
  destruct 1 as [|c l Hc Hl]; [done|]. intros _. simpl. rewrite <- app_assoc. by apply Hesc.
Qed.

Lemma string_loop_escaped l f acc rest : Forall (fun c => Utf8.is_scalar c = true) l ->
  (length l < f)%nat ->
  string_loop f acc (concat (map esc l) ++ dquote :: rest) = Ok (acc ++ Utf8.of_chars l, rest).
Proof.
  intros Hl. revert f acc. induction Hl as [|c l Hc Hl IH]; intros f acc Hf; simpl in Hf.
  - destruct f; [lia|]. simpl. by rewrite app_nil_r.
  - destruct f as [|f]; [lia|]. simpl map. simpl concat. rewrite <- app_assoc.
    destruct (Hesc c Hc) as (_ & _ & ->); [|by apply escaped_boundary].
    rewrite IH by lia. by rewrite <- app_assoc.
Qed.

Lemma length_escaped l : Forall (fun c => Utf8.is_scalar c = true) l ->
  (length l <= length (concat (map esc l)))%nat.
Proof.
  induction 1 as [|c l Hc _ IH]; [done|]. simpl. rewrite length_app. destruct (Hesc c Hc). lia.
Qed.

(** A quoted, escaped string is read back. *)
Lemma parse_string_escaped s rest : is_str s ->
  parse_string (dquote :: concat (map esc (Utf8.chars s)) ++ dquote :: rest) = Ok (s, rest).
Proof.
  intros Hs. destruct (Utf8.valid_chars s Hs) as [Ho Hc]. unfold parse_string.
  change (expect_byte dquote (dquote :: ?p)) with (@Ok Abort bytes (drop 0 p)). rewrite drop_0.
  cbn [mbind result_bind]. rewrite string_loop_escaped; [by rewrite Ho|done|].
  rewrite length_app. pose proof (length_escaped _ Hc). lia.
Qed.
End Escaping.

Definition quoted (s : bytes) : bytes :=
  dquote :: concat (map encode_char (Utf8.chars s)) ++ [dquote].

Lemma json_encode_string_quoted s out : json_encode_string s out = out ++ quoted s.
Proof. done. Qed.

Lemma parse_string_quoted s rest : is_str s -> parse_string (quoted s ++ rest) = Ok (s, rest).
Proof.
  intros Hs. unfold quoted. cbn [app]. rewrite <- app_assoc. by apply parse_string_escaped, Hs; apply encode_char_undone.
Qed.

Lemma encode_array_loop_spec i arr out : 0 < i ->
  encode_array_loop i arr out = out ++ concat (map (fun s => ch "," :: quoted s) arr).
Proof.
  revert i out. induction arr as [|s arr IH]; intros i out Hi; cbn [map concat encode_array_loop]; [by rewrite app_nil_r|].
  bcase; [|lia]. rewrite IH by lia. rewrite json_encode_string_quoted. rewrite <- !app_assoc; cbn [app]; done.
Qed.

Definition array_body (arr : list bytes) : bytes :=
  match arr with
  | [] => []
  | s :: arr => quoted s ++ concat (map (fun s => ch "," :: quoted s) arr)
  end.

Lemma json_encode_string_array_spec arr out :
  json_encode_string_array arr out = out ++ ch "[" :: array_body arr ++ [ch "]"].
Proof.
  unfold json_encode_string_array. destruct arr as [|s arr]; cbn [encode_array_loop array_body];
    [by rewrite <- app_assoc|].
  change (0 <? 0) with false. cbn match.
  rewrite encode_array_loop_spec by lia. rewrite json_encode_string_quoted. by rewrite <- !app_assoc.
Qed.

Lemma skip_ws_head c p : is_ascii_whitespace c = false -> skip_ws (c :: p) = c :: p.
Proof. unfold skip_ws. simpl. by intros ->. Qed.

Lemma skip_ws_quoted s p : skip_ws (quoted s ++ p) = quoted s ++ p.
Proof. done. Qed.

Lemma array_loop_spec s l f arr rest : is_str s -> Forall is_str l ->
  len arr + 1 + len l <= MAX_ARRAY_ELEMENTS -> (length l < f)%nat ->
  array_loop f arr (quoted s ++ concat (map (fun s => ch "," :: quoted s) l) ++ ch "]" :: rest)
  = Ok (arr ++ s :: l, rest).
Proof.
  intros Hs Hl. revert s f arr Hs. induction Hl as [|t l Ht Hl IH]; intros s f arr Hs Hn Hf;
    (destruct f as [|f]; [simpl in Hf; lia|]); cbn [array_loop];
    rewrite ?len_cons, ?len_nil in Hn;
    (destruct (MAX_ARRAY_ELEMENTS <=? len arr) eqn:E; [unfold len in *; bsplit; lia|]);
    rewrite skip_ws_quoted, parse_string_quoted by done; cbn [mbind result_bind].
  - cbn. by rewrite ?drop_0.
  - cbn [map concat app]. rewrite skip_ws_head by done. cbn [peek head].
    change (ch "," =? ch ",") with true. cbn match. unfold advance. cbn [drop]. rewrite drop_0, <- app_assoc.
    rewrite IH; [by rewrite <- app_assoc|done|rewrite len_app, len_cons, len_nil; lia|simpl in Hf; lia].
Qed.

Lemma parse_string_array_spec arr rest : is_str_array arr ->
  parse_string_array (ch "[" :: array_body arr ++ ch "]" :: rest) = Ok (arr, rest).
Proof.
  intros [Ha Hn]. unfold parse_string_array.
  change (expect_byte (ch "[") (ch "[" :: ?p)) with (@Ok Abort bytes (drop 0 p)). rewrite drop_0.
  cbn [mbind result_bind]. destruct arr as [|s arr]; [cbn; by rewrite ?drop_0|].
  inv Ha. cbn [array_body]. rewrite <- app_assoc, skip_ws_quoted.
  rewrite decide_False by done. rewrite len_cons in Hn. rewrite array_loop_spec; [done|done|done|rewrite len_nil; lia|].
  rewrite !length_app. clear. induction arr as [|x arr IH]; cbn [map concat length app]; rewrite ?length_app; cbn [length] in *; lia.
Qed.

Lemma take_while_app {A} (q : A -> bool) l r : forallb q l = true ->
  match r with [] => True | x :: _ => q x = false end ->
  take_while q (l ++ r) = l /\ drop_while q (l ++ r) = r.
Proof.
  intros Hl Hr. induction l as [|x l IH]; simpl in *.
  - destruct r as [|x r]; simpl; [done|]. by rewrite Hr.
  - bsplit. rewrite H. by destruct IH as [-> ->].
Qed.

Lemma json_u64_dec n c rest : is_uint 64 n -> is_ascii_digit c = false ->
  json_u64 (dec n ++ c :: rest) = Ok (n, c :: rest).
Proof.
  intros Hn Hc. unfold is_uint in Hn. destruct (dec_digits n ltac:(lia)) as [Hd Hne]. unfold json_u64.
  destruct (take_while_app is_ascii_digit (dec n) (c :: rest)) as [-> ->]; [|done|].
  { apply forallb_forall. rewrite List.Forall_forall in Hd. intros x Hx. specialize (Hd x Hx).
    unfold is_ascii_digit. cbn beta in Hd. lia. }
  rewrite decide_False by done. unfold parse_u64. by rewrite parse_dec by lia.
Qed.

Lemma json_u16_dec n c rest : is_u16 n -> is_ascii_digit c = false ->
  json_u16 (dec n ++ c :: rest) = Ok (n, c :: rest).
Proof.
  intros Hn Hc. unfold is_u16 in Hn. unfold json_u16.
  rewrite json_u64_dec by (done || (unfold is_uint; lia)). cbn. destruct (n <=? 65535) eqn:E; [done|bsplit; lia].
Qed.

(** A member name that is written without escapes. *)
Definition plain_key (k : string) : Prop := key k = quoted (bs k) ++ [ch ":"] /\ is_str (bs k).

#[export] Instance plain_key_dec k : Decision (plain_key k).
Proof. unfold plain_key, is_str. apply _. Defined.

Definition comma (first : bool) : bytes := if first then [] else [ch ","].

(** One member of the object is read by one iteration of the loop. *)
Lemma object_loop_member {St} field f first (st : St) k c v rest st' : plain_key k ->
  is_ascii_whitespace c = false ->
  field (bs k) st (c :: v ++ rest) = Ok (st', rest) ->
  object_loop field (S f) first st (comma first ++ key k ++ (c :: v) ++ rest)
  = object_loop field f false st' rest.
Proof.
  intros Hk Hc Hf. destruct Hk as [-> Hs]. rewrite <- app_assoc.
  cbn [object_loop app]. set (tl := quoted (bs k) ++ ch ":" :: c :: v ++ rest).
  assert (E : (p ← (if first then Ok (skip_ws (comma first ++ tl))
                   else expect_byte (ch ",") (skip_ws (comma first ++ tl)));
               Ok (skip_ws p)) = @Ok Abort bytes tl) by by destruct first.
  rewrite decide_False by by destruct first.
  destruct (if first then _ else _) as [p|]; cbn [mbind result_bind] in E |- *; [|done].
  injection E as E. rewrite E. subst tl. rewrite parse_string_quoted by done. cbn [mbind result_bind].
  rewrite skip_ws_head by done.
  change (expect_byte (ch ":") (ch ":" :: ?p)) with (@Ok Abort bytes (drop 0 p)). rewrite drop_0.
  cbn [mbind result_bind]. by rewrite skip_ws_head, Hf.
Qed.

(** What the wire format keeps of a request: the window size is only written
    for a terminal with rows and columns both positive; for any other request both
    arrive as zero. *)
Definition wire_request (r : ExecRequest) : ExecRequest :=
  if tty r && ((0 <? rows r) && (0 <? cols r)) then r
  else {| cmd := cmd r; args := args r; env := env r; user := user r; tty := tty r;
          rows := 0; cols := 0 |}.

Definition array_value (arr : list bytes) : bytes := ch "[" :: array_body arr ++ [ch "]"].

(** The members [to_json] writes after [user]. *)
Definition tty_members (r : ExecRequest) : bytes :=
  if tty r then
    comma false ++ key "tty" ++ bs "true" ++
    (if (0 <? rows r) && (0 <? cols r)
     then comma false ++ key "rows" ++ dec (rows r) ++ comma false ++ key "cols" ++ dec (cols r) ++ [ch "}"]
     else [ch "}"])
  else [ch "}"].

Lemma to_json_members r : to_json r =
  ch "{" :: comma true ++ key "cmd" ++ quoted (cmd r) ++
  comma false ++ key "args" ++ array_value (args r) ++
  comma false ++ key "env" ++ array_value (env r) ++
  comma false ++ key "user" ++ quoted (user r) ++ tty_members r.
Proof.
  unfold to_json, tty_members, comma. rewrite !json_encode_string_quoted, !json_encode_string_array_spec.
  fold (array_value (args r)) (array_value (env r)). destruct (tty r).
  - destruct ((0 <? rows r) && (0 <? cols r)); rewrite <- !app_assoc; cbn [app]; rewrite <- ?app_assoc; reflexivity.
  - rewrite <- !app_assoc. cbn [app]. rewrite <- ?app_assoc. reflexivity.
Qed.

(** The end of the object. *)
Lemma object_loop_end {St} field f first (st : St) rest :
  object_loop field (S f) first st (ch "}" :: rest) = Ok (st, rest).
Proof. done. Qed.

Lemma parse_string_field s rest : is_str s ->
  parse_string (dquote :: (concat (map encode_char (Utf8.chars s)) ++ [dquote]) ++ rest) = Ok (s, rest).
Proof. apply parse_string_quoted. Qed.

Lemma parse_array_field arr rest : is_str_array arr ->
  parse_string_array (ch "[" :: (array_body arr ++ [ch "]"]) ++ rest) = Ok (arr, rest).
Proof. intros H. rewrite <- app_assoc. by apply parse_string_array_spec. Qed.

Lemma dec_cons n : 0 <= n -> exists c v, dec n = c :: v /\ is_ascii_whitespace c = false.
Proof.
  intros Hn. destruct (dec_digits n Hn) as [Hd Hne]. destruct (dec n) as [|c v]; [done|].
  exists c, v. split; [done|]. inv Hd. unfold is_ascii_whitespace. lia.
Qed.

(** Reading a number member. *)
Lemma object_loop_number {St} field f (st : St) k n x rest st' : plain_key k -> 0 <= n ->
  field (bs k) st (dec n ++ x :: rest) = Ok (st', x :: rest) ->
  object_loop field (S f) false st (comma false ++ key k ++ dec n ++ x :: rest) = object_loop field f false st' (x :: rest).
Proof.
  intros Hk Hn Hj. destruct (dec_cons n Hn) as (c & v & E & Hc). rewrite E in *.
  by apply object_loop_member.
Qed.

Lemma fields_loop_tty f r c a e u : is_u16 (rows r) -> is_u16 (cols r) -> (4 <= f)%nat ->
  object_loop parse_field f false (Build_Fields (Some c) (Some a) (Some e) (Some u) None None None) (tty_members r)
  = Ok (Build_Fields (Some c) (Some a) (Some e) (Some u) (if tty r then Some true else None)
          (if tty r && ((0 <? rows r) && (0 <? cols r)) then Some (rows r) else None)
          (if tty r && ((0 <? rows r) && (0 <? cols r)) then Some (cols r) else None), []).
Proof.
  intros Hr Hc Hf. do 4 (destruct f as [|f]; [lia|]). unfold tty_members.
  destruct (tty r); [|by rewrite object_loop_end]. cbn [andb].
  rewrite (object_loop_member _ _ false _ "tty" (ch "t") (bs "rue") _
    (Build_Fields (Some c) (Some a) (Some e) (Some u) (Some true) None None)); [|by_eval|done|done].
  destruct ((0 <? rows r) && (0 <? cols r)); [|by rewrite object_loop_end].
  change (dec (rows r) ++ comma false ++ ?t) with (dec (rows r) ++ ch "," :: t).
  erewrite object_loop_number; [|by_eval|by apply Hr || by apply Hc|cbn -[json_u16 dec]; rewrite json_u16_dec by done; reflexivity].
  change (ch "," :: key "cols" ++ ?t) with (comma false ++ key "cols" ++ t).
  erewrite object_loop_number; [|by_eval|by apply Hr || by apply Hc|cbn -[json_u16 dec]; rewrite json_u16_dec by done; reflexivity].
  by rewrite object_loop_end.
Qed.

(** Parsing what [to_json] writes gives the request back, whatever its
    strings hold, up to the window size that is only sent for a terminal. *)
Lemma from_json_wire r : request_ok r -> from_json (to_json r) = Ok (wire_request r).
Proof.
  intros (Hcmd & Hargs & Henv & Huser & Hrows & Hcols). rewrite to_json_members. unfold from_json.
  rewrite skip_ws_head by done.
  change (expect_byte (ch "{") (ch "{" :: ?p)) with (@Ok Abort bytes (drop 0 p)). rewrite drop_0.
  cbn [mbind result_bind]. set (p := comma true ++ _). set (n := S (length p)).
  assert (Hn : (8 <= n)%nat) by (subst n p; rewrite !length_app; simpl; lia). clearbody n. subst p.
  do 4 (destruct n as [|n]; [lia|]).
  unfold quoted at 1 2, array_value.
  erewrite object_loop_member; [|by_eval|done|cbn -[parse_string]; rewrite parse_string_field by done; reflexivity].
  erewrite (object_loop_member _ _ false); [|by_eval|done|cbn -[parse_string_array]; rewrite parse_array_field by done; reflexivity].
  erewrite (object_loop_member _ _ false); [|by_eval|done|cbn -[parse_string_array]; rewrite parse_array_field by done; reflexivity].
  erewrite (object_loop_member _ _ false); [|by_eval|done|cbn -[parse_string]; rewrite parse_string_field by done; reflexivity].
  rewrite fields_loop_tty by (done || lia). cbn. unfold wire_request.
  destruct r as [c a e u t ro co]; cbn. by destruct t, ((0 <? ro) && (0 <? co)).
Qed.


Lemma escape_char_printable c : Utf8.is_scalar c = true -> Forall (fun b => 32 <= b < 256) (escape_char c).
Proof.
  intros Hc. unfold escape_char.
  do 2 (bcase; [repeat (apply Forall_cons; [by split|]); constructor|]). bcase.
  - apply Forall_app. split; [repeat (apply Forall_cons; [by split|]); constructor|].
    unfold hex4, hex_digit, Utf8.is_scalar in *. repeat apply Forall_cons; try apply Forall_nil_2;
      bcase; Z.to_euclidean_division_equations; lia.
  - unfold Utf8.is_scalar in Hc. destruct (decide (c < 128)).
    + rewrite Utf8.encode_ascii by lia. repeat constructor; lia.
    + eapply Forall_impl; [|apply Utf8.encode_high; [unfold Utf8.is_scalar|]; lia]. cbn. lia.
Qed.

Lemma json_escape_printable s : is_str s -> Forall (fun b => 32 <= b < 256) (json_escape s).
Proof.
  intros Hs. destruct (Utf8.valid_chars s Hs) as [_ Hc]. unfold json_escape.
  induction Hc as [|c l Hc _ IH]; [constructor|]. apply Forall_app. split; [|done].
  by apply escape_char_printable.
Qed.

(** [json_escape], which writes error texts and DNS names into the audit
    stream, is sound JSON escaping: the result has no byte below space (so an
    audit record stays on one line), and between quotes it is read back as
    the original string by the JSON parser. *)
Theorem json_escape_spec s rest : is_str s ->
  Forall (fun b => 32 <= b < 256) (json_escape s) /\
  parse_string (dquote :: json_escape s ++ dquote :: rest) = Ok (s, rest).
Proof.
  intros Hs. split; [by apply json_escape_printable|by apply parse_string_escaped; [apply escape_char_undone|]].
Qed.

Lemma json_escape_spec_witness : is_str [dquote; 10; 195; 169; backslash] /\
  parse_string (dquote :: json_escape [dquote; 10; 195; 169; backslash] ++ [dquote])
    = Ok ([dquote; 10; 195; 169; backslash], []).
Proof. split; [vm_compute; reflexivity|]. apply (json_escape_spec _ []). vm_compute. reflexivity. Defined.

(** The request parser can panic: in a [\u] escape whose four bytes end
    inside a multi-byte character, [&self.input[pos..pos + 4]] slices a [str]
    off a character boundary.  The input below is a valid UTF-8 text. *)
Theorem from_json_can_panic : exists json, is_str json /\ from_json json = Err Panic.
Proof.
  exists ([ch "{"; dquote; backslash; ch "u"; ch "0"; ch "0"; ch "0"; 195; 169; dquote; ch "}"]).
  split; vm_compute; reflexivity.
Qed.
