(* ===== verification/Protocol.v ===== *)
(** * Protocol: framing and control messages of [vm/protocol.rs]

    The host and the agent in the guest exchange length-prefixed frames on a
    byte stream.  [Writer] is the stream written to (with the room it has
    left, to model a write that fails part-way); a reader is the list of the
    bytes still to come. *)

From S2P Require Import Prelude Text Json.

Definition CHANNEL_STDIN : Z := 0.
Definition CHANNEL_STDOUT : Z := 1.
Definition CHANNEL_STDERR : Z := 2.
Definition CHANNEL_CONTROL : Z := 3.
Definition FRAME_HEADER_SIZE : Z := 5.
Definition MAX_CONTROL_PAYLOAD : Z := 64 * 1024.
Definition MAX_DATA_PAYLOAD : Z := 1024 * 1024.
Definition MAX_EXEC_PAYLOAD : Z := 64 * 1024.
Definition PROTOCOL_VERSION : bytes := bs "arapuca-agent/1".
Definition NONCE_SIZE : Z := 32.

(** ** Streams *)

(** An [io::Write]: the bytes written so far, and how many more it takes
    ([None]: no limit). *)
Record Writer : Type := { written : bytes; room : option Z }.

(** [Write::write_all]: the new stream, and the error if it does not take the
    whole buffer. *)
Definition write_all (w : Writer) (buf : bytes) : Writer * io unit :=
  match room w with
  | None => ({| written := written w ++ buf; room := None |}, Ok tt)
  | Some n =>
    if len buf <=? n
    then ({| written := written w ++ buf; room := Some (n - len buf) |}, Ok tt)
    else ({| written := written w ++ take (Z.to_nat n) buf; room := Some 0 |},
          Err (IoError WriteZero "failed to write whole buffer"))
  end.

(** [Read::read_exact] of [n] bytes. *)
Definition read_exact (n : Z) (r : bytes) : io (bytes * bytes) :=
  if len r <? n then eof "failed to fill whole buffer"
  else Ok (take (Z.to_nat n) r, drop (Z.to_nat n) r).

(** ** Frames *)

Definition max_payload (channel : Z) : Z :=
  if channel =? CHANNEL_CONTROL then MAX_CONTROL_PAYLOAD else MAX_DATA_PAYLOAD.

Definition write_frame (w : Writer) (channel : Z) (payload : bytes) : Writer * io unit :=
  if CHANNEL_CONTROL <? channel then
    (w, Err (IoError InvalidInput "invalid channel: {channel}"))
  else if max_payload channel <? len payload then
    (w, Err (IoError InvalidInput "payload too large: {} > {max}"))
  else
    let header := channel :: be32_bytes (wrap 32 (len payload)) in
    match write_all w header with
    | (w, Err e) => (w, Err e)
    | (w, Ok _) =>
      if decide (payload = []) then (w, Ok tt) else write_all w payload
    end.

Definition read_frame (r : bytes) : io (Z * bytes * bytes) :=
  '(header, r) ← read_exact FRAME_HEADER_SIZE r;
  match header with
  | [channel; h1; h2; h3; h4] =>
    if CHANNEL_CONTROL <? channel then invalid "invalid channel: {channel}"
    else
      let n := be32 h1 h2 h3 h4 in
      if max_payload channel <? n then invalid "frame too large: {len} > {max}"
      else
        '(payload, r) ← (if 0 <? n then read_exact n r else Ok ([], r));
        Ok (channel, payload, r)
  | _ => Err Panic (* [read_exact] fills the five bytes *)
  end.

(** ** Nonce authentication *)

Definition write_nonce (w : Writer) (nonce : bytes) : Writer * io unit := write_all w nonce.
Definition read_nonce (r : bytes) : io (bytes * bytes) := read_exact NONCE_SIZE r.

(** The loop [for i in 0..NONCE_SIZE] of [nonce_eq]; both arguments have
    [NONCE_SIZE] elements. *)
Fixpoint nonce_diff (diff : Z) (a b : bytes) : Z :=
  match a, b with
  | x :: a', y :: b' => nonce_diff (Z.lor diff (Z.lxor x y)) a' b'
  | _, _ => diff
  end.

Definition nonce_eq (a b : bytes) : bool := nonce_diff 0 a b =? 0.

(** ** Control messages *)

Inductive ControlMessage : Type :=
| Hello (version : bytes)
| Exec (req : ExecRequest)
| Status (exit_code : Z)
| Shutdown
| Ping
| Pong
| Resize (rows cols : Z).

Definition serialize (m : ControlMessage) : bytes :=
  match m with
  | Hello version => bs "HELLO " ++ version ++ [10]
  | Exec req => bs "EXEC " ++ to_json req ++ [10]
  | Status exit_code => bs "STATUS " ++ dec_signed exit_code ++ [10]
  | Shutdown => bs "SHUTDOWN" ++ [10]
  | Ping => bs "PING" ++ [10]
  | Pong => bs "PONG" ++ [10]
  | Resize rows cols => bs "RESIZE " ++ dec rows ++ [ch " "] ++ dec cols ++ [10]
  end.

(** [str::trim_end_matches('\n')]. *)
Definition trim_end_newlines (s : bytes) : bytes :=
  reverse (drop_while (fun c => c =? 10) (reverse s)).

Definition parse (payload : bytes) : io ControlMessage :=
  if negb (Utf8.valid payload) then invalid "invalid UTF-8 in control message"
  else
    let text := trim_end_newlines payload in
    match strip_prefix (bs "HELLO ") text with
    | Some version => Ok (Hello version)
    | None =>
    match strip_prefix (bs "EXEC ") text with
    | Some json =>
      if MAX_EXEC_PAYLOAD <? len json then invalid "EXEC payload exceeds 64 KiB limit"
      else Exec <$> from_json json
    | None =>
    match strip_prefix (bs "STATUS ") text with
    | Some code_str =>
      c ← ok_or (IoError InvalidData "invalid STATUS exit code") (parse_i32 code_str);
      Ok (Status c)
    | None =>
    if decide (text = bs "SHUTDOWN") then Ok Shutdown
    else if decide (text = bs "PING") then Ok Ping
    else if decide (text = bs "PONG") then Ok Pong
    else
    match strip_prefix (bs "RESIZE ") text with
    | Some dims =>
      '(rows_str, cols_str) ← ok_or (IoError InvalidData "RESIZE requires <rows> <cols>")
                                 (split_once (ch " ") dims);
      r ← ok_or (IoError InvalidData "invalid RESIZE rows") (parse_u16 rows_str);
      c ← ok_or (IoError InvalidData "invalid RESIZE cols") (parse_u16 cols_str);
      Ok (Resize r c)
    | None => invalid "unknown control message"
    end end end end.

Definition write_control (w : Writer) (msg : ControlMessage) : Writer * io unit :=
  write_frame w CHANNEL_CONTROL (serialize msg).

Definition read_control (r : bytes) : io (ControlMessage * bytes) :=
  '(channel, payload, r) ← read_frame r;
  if negb (channel =? CHANNEL_CONTROL) then invalid "expected control channel, got channel {channel}"
  else
    m ← parse payload;
    Ok (m, r).

(** ** Frames: what is on the wire *)

(** The encoding of a frame, and the frames the protocol allows. *)
Definition frame (channel : Z) (payload : bytes) : bytes :=
  channel :: be32_bytes (len payload) ++ payload.

Definition frame_ok (channel : Z) (payload : bytes) : Prop :=
  0 <= channel <= CHANNEL_CONTROL /\ len payload <= max_payload channel.

Lemma max_payload_bound c : max_payload c <= 1048576.
Proof. unfold max_payload, MAX_CONTROL_PAYLOAD, MAX_DATA_PAYLOAD. bcase; lia. Qed.

Lemma frame_len_u32 c (p : bytes) : len p <= max_payload c -> is_uint 32 (len p).
Proof. intros H. pose proof (max_payload_bound c). pose proof (len_nonneg p). unfold is_uint. lia. Qed.

Lemma write_all_ok w buf w' : write_all w buf = (w', Ok tt) -> written w' = written w ++ buf.
Proof. unfold write_all. destruct (room w); [bcase|]; intros [= <-]; done. Qed.

Lemma write_frame_ok w c p w' : 0 <= c -> write_frame w c p = (w', Ok tt) ->
  frame_ok c p /\ written w' = written w ++ frame c p.
Proof.
  intros Hc. unfold write_frame, frame. bcase; [done|]. bcase; [done|].
  rewrite wrap_small by (by apply (frame_len_u32 c)).
  destruct (write_all w _) as [w1 [[]|e]] eqn:E1; [|done]. apply write_all_ok in E1.
  split; [by split|]. case_decide.
  - subst p. injection H as <-. by rewrite E1, app_nil_r.
  - apply write_all_ok in H as ->. rewrite E1, <- app_assoc. done.
Qed.

Lemma read_exact_app x r : read_exact (len x) (x ++ r) = Ok (x, r).
Proof.
  unfold read_exact. rewrite len_app. pose proof (len_nonneg r). bcase; [lia|].
  unfold len. rewrite Nat2Z.id. by rewrite take_app_length, drop_app_length.
Qed.

Lemma read_exact_inv n r x r' : 0 <= n -> read_exact n r = Ok (x, r') -> r = x ++ r' /\ len x = n.
Proof.
  intros Hn. unfold read_exact. bcase; [done|]. intros [= <- <-]. rewrite take_drop.
  split; [done|]. unfold len in *. rewrite length_take. lia.
Qed.

Lemma read_frame_frame c p r : frame_ok c p -> read_frame (frame c p ++ r) = Ok (c, p, r).
Proof.
  intros [Hc Hp]. unfold read_frame, frame.
  pose proof (be32_bytes_inv (len p) (frame_len_u32 c p Hp)) as Hb. unfold be32_bytes in *.
  match goal with |- context [read_exact _ ((c :: ?h ++ p) ++ r)] =>
    change (read_exact FRAME_HEADER_SIZE ((c :: h ++ p) ++ r))
      with (read_exact (len (c :: h)) ((c :: h) ++ (p ++ r))) end.
  rewrite read_exact_app. cbn [mbind result_bind]. rewrite Hb.
  bcase; [lia|]. bcase; [lia|]. bcase.
  - rewrite read_exact_app. done.
  - destruct p; [done|]. rewrite len_cons in *. pose proof (len_nonneg p). lia.
Qed.

Lemma be32_bytes_be32 b0 b1 b2 b3 : is_u8 b0 -> is_u8 b1 -> is_u8 b2 -> is_u8 b3 ->
  be32_bytes (be32 b0 b1 b2 b3) = [b0; b1; b2; b3].
Proof.
  unfold is_u8, be32_bytes, be32, wrap. intros. rewrite !shiftr_div by lia.
  change (2 ^ 8) with 256. change (2 ^ 16) with 65536. change (2 ^ 24) with 16777216.
  repeat f_equal; Z.to_euclidean_division_equations; lia.
Qed.

(** [read_frame] is the exact inverse of the frame encoding.  On any byte
    stream it returns a frame if and only if the stream starts with the
    encoding of that frame and the frame is within the limits of its channel;
    it then leaves exactly the bytes after it. *)
Theorem read_frame_spec s c p r : Forall is_u8 s ->
  read_frame s = Ok (c, p, r) <-> s = frame c p ++ r /\ frame_ok c p.
Proof.
  intros Hs. split; [|intros [-> H]; by apply read_frame_frame].
  unfold read_frame. destruct (read_exact FRAME_HEADER_SIZE s) as [[h r0]|] eqn:Eh; [|done].
  apply read_exact_inv in Eh as [-> Hl]; [|done]. cbn [mbind result_bind].
  apply Forall_app in Hs as [Hh Hr0].
  destruct h as [|c' [|h1 [|h2 [|h3 [|h4 [|]]]]]]; try done.
  repeat match goal with H : Forall is_u8 (_ :: _) |- _ => apply Forall_cons_1 in H as [? H] end.
  bcase; [done|]. bcase; [done|].
  set (n := be32 h1 h2 h3 h4) in *.
  assert (Hn : 0 <= n) by (subst n; unfold be32, is_u8 in *; lia).
  assert (K : forall p' r', r0 = p' ++ r' -> len p' = n ->
    c' :: h1 :: h2 :: h3 :: h4 :: r0 = frame c' p' ++ r' /\ frame_ok c' p').
  { intros p' r' -> Hp'. unfold frame, frame_ok. rewrite Hp'. subst n.
    rewrite be32_bytes_be32 by done. split; [done|]. unfold is_u8 in *. lia. }
  destruct (if 0 <? n then _ else _) as [[p' r']|] eqn:Ep; [|done]. cbn. intros [= -> -> ->].
  bcase; [apply read_exact_inv in Ep as [-> ?]; [|lia]; by apply K|].
  injection Ep as <- <-. apply K; [done|]. rewrite len_nil. lia.
Qed.

Lemma read_frame_spec_witness :
  read_frame (frame CHANNEL_CONTROL (bs "PING") ++ [7]) = Ok (CHANNEL_CONTROL, bs "PING", [7]).
Proof.
  apply (read_frame_spec (frame CHANNEL_CONTROL (bs "PING") ++ [7])); [by_eval|].
  split; [reflexivity|]. unfold frame_ok. vm_compute. split; [split|]; discriminate.
Defined.

(** ** Control messages: the round trip *)

Lemma is_str_app a b : is_str a -> is_str b -> is_str (a ++ b).
Proof. apply Utf8.valid_app. Qed.

Lemma is_str_digits n : 0 <= n -> is_str (dec n).
Proof.
  intros Hn. apply Utf8.valid_ascii. eapply Forall_impl; [|apply (dec_digits n Hn)]. cbn. lia.
Qed.

Lemma is_str_encode_char c : Utf8.is_scalar c = true -> is_str (encode_char c).
Proof.
  intros Hc. unfold encode_char.
  do 5 (bcase; [vm_compute; reflexivity|]). bcase; [|by apply Utf8.encode_valid].
  apply Utf8.valid_ascii, Forall_app. split; [repeat (apply Forall_cons; [by split|]); constructor|].
  unfold hex4, hex_digit, Utf8.is_scalar in *. repeat apply Forall_cons; try apply Forall_nil_2;
    bcase; Z.to_euclidean_division_equations; lia.
Qed.

Lemma is_str_quoted s : is_str s -> is_str (quoted s).
Proof.
  intros Hs. unfold quoted. apply (is_str_app [dquote]); [done|]. apply is_str_app; [|done].
  destruct (Utf8.valid_chars s Hs) as [_ Hc]. induction Hc as [|c l Hc _ IH]; [done|].
  apply is_str_app; [by apply is_str_encode_char|done].
Qed.

Lemma is_str_array_value arr : Forall is_str arr -> is_str (array_value arr).
Proof.
  intros Ha. unfold array_value. apply (is_str_app [ch "["]); [done|]. apply is_str_app; [|done].
  destruct Ha as [|s arr Hs Ha]; [done|]. cbn [array_body]. apply is_str_app; [by apply is_str_quoted|].
  induction Ha as [|t arr Ht _ IH]; [done|]. cbn [map concat].
  apply is_str_app; [|done]. apply (is_str_app [ch ","]); [done|]. by apply is_str_quoted.
Qed.

Lemma is_str_member b k v rest : plain_key k -> is_str v -> is_str rest ->
  is_str (comma b ++ key k ++ v ++ rest).
Proof.
  intros Hk Hv Hr. apply is_str_app; [by destruct b|]. destruct Hk as [-> Hs].
  repeat apply is_str_app; auto using is_str_quoted. done.
Qed.

Lemma is_str_tty_members r : is_u16 (rows r) -> is_u16 (cols r) -> is_str (tty_members r).
Proof.
  unfold is_u16. intros Hr Hc. unfold tty_members. destruct (tty r); [|done].
  apply is_str_member; [by_eval|done|]. bcase; [|done].
  apply is_str_member; [by_eval|apply is_str_digits; lia|].
  apply is_str_member; [by_eval|apply is_str_digits; lia|done].
Qed.

Lemma is_str_to_json r : request_ok r -> is_str (to_json r).
Proof.
  intros (Hc & [Ha _] & [He _] & Hu & Hr & Ho). rewrite to_json_members.
  apply (is_str_app [ch "{"] (comma true ++ _)); [done|].
  apply (is_str_member true); [by_eval|by apply is_str_quoted|].
  apply is_str_member; [by_eval|by apply is_str_array_value|].
  apply is_str_member; [by_eval|by apply is_str_array_value|].
  apply is_str_member; [by_eval|by apply is_str_quoted|]. by apply is_str_tty_members.
Qed.

Lemma trim_end_newline s : last s <> Some 10 -> trim_end_newlines (s ++ [10]) = s.
Proof.
  intros H. unfold trim_end_newlines. rewrite reverse_snoc. cbn [drop_while]. change (10 =? 10) with true.
  cbn match. rewrite drop_while_head; [apply reverse_involutive|].
  destruct s as [|x s _] using rev_ind; [done|]. rewrite reverse_snoc. rewrite last_snoc in H.
  apply Z.eqb_neq. congruence.
Qed.

Lemma last_app_nonempty {A} (a b : list A) : b <> [] -> last (a ++ b) = last b.
Proof.
  destruct b as [|x b _] using rev_ind; [done|]. intros _. rewrite app_assoc, !last_snoc. done.
Qed.

Lemma last_digits n : 0 <= n -> last (dec n) <> Some 10 /\ dec n <> [].
Proof.
  intros Hn. destruct (dec_digits n Hn) as [Hd Hne]. split; [|done]. intros E.
  rewrite List.Forall_forall in Hd. apply last_Some_elem_of in E.
  apply list_elem_of_In in E. specialize (Hd _ E). cbn beta in Hd. lia.
Qed.

Lemma dec_signed_spec n : is_str (dec_signed n) /\ last (dec_signed n) <> Some 10 /\ dec_signed n <> [].
Proof.
  unfold dec_signed. destruct (n <? 0) eqn:E; bsplit.
  - destruct (last_digits (- n) ltac:(lia)) as [Hl Hne]. split_and!; [|by change (45 :: dec (- n)) with ([45] ++ dec (- n)); rewrite last_app_nonempty|done].
    apply (is_str_app [45]); [done|]. apply is_str_digits. lia.
  - destruct (last_digits n ltac:(lia)). split_and!; [by apply is_str_digits|done|done].
Qed.

Lemma last_to_json r : last (to_json r) = Some (ch "}").
Proof. unfold to_json. by rewrite last_snoc. Qed.

(** The messages that can be sent, and what arrives. *)
Definition message_ok (m : ControlMessage) : Prop :=
  match m with
  | Hello version => is_str version /\ last version <> Some 10
  | Exec r => request_ok r
  | Status c => - 2 ^ 31 <= c < 2 ^ 31
  | Resize r c => is_u16 r /\ is_u16 c
  | Shutdown | Ping | Pong => True
  end.

Definition wire_message (m : ControlMessage) : ControlMessage :=
  match m with Exec r => Exec (wire_request r) | _ => m end.

(** Parsing [t] followed by the newline of the wire format. *)
Lemma parse_line t : is_str t -> last t <> Some 10 ->
  Utf8.valid (t ++ [10]) = true /\ trim_end_newlines (t ++ [10]) = t.
Proof. split; [by apply is_str_app|by apply trim_end_newline]. Qed.

Lemma split_once_digits r c : 0 <= r -> split_once (ch " ") (dec r ++ ch " " :: dec c) = Some (dec r, dec c).
Proof.
  intros Hr. apply split_once_Some. split; [done|].
  eapply Forall_impl; [|apply (dec_digits r Hr)]. cbn. intros x Hx ->. by vm_compute in Hx; destruct Hx.
Qed.

(** Decimal numbers on the wire do not end in a newline, whatever precedes. *)
Lemma last_app_digits a n : 0 <= n -> last (a ++ dec n) <> Some 10.
Proof. intros Hn. destruct (last_digits n Hn). by rewrite last_app_nonempty. Qed.

Lemma parse_serialize m : message_ok m -> len (serialize m) <= MAX_CONTROL_PAYLOAD ->
  parse (serialize m) = Ok (wire_message m).
Proof.
  intros Hm Hlen. destruct m as [v|r|c| | | |r c]; try reflexivity; cbn [serialize message_ok] in *.
  - destruct Hm as [Hv Hl]. rewrite app_assoc. unfold parse.
    destruct (parse_line (bs "HELLO " ++ v)) as [-> ->]; [by apply is_str_app| |].
    { destruct v; [by rewrite app_nil_r|]. by rewrite last_app_nonempty. }
    cbn [negb]. by rewrite strip_prefix_app.
  - rewrite app_assoc. unfold parse.
    destruct (parse_line (bs "EXEC " ++ to_json r)) as [-> ->].
    { apply is_str_app; [done|by apply is_str_to_json]. }
    { rewrite last_app_nonempty, last_to_json; [done|].
      intros E. pose proof (last_to_json r) as H. by rewrite E in H. }
    cbn [negb]. change (strip_prefix (bs "HELLO ") (bs "EXEC " ++ to_json r)) with (@None bytes). cbn match.
    rewrite strip_prefix_app. rewrite !len_app in Hlen.
    change (len (bs "EXEC ")) with 5 in Hlen. change (len [10]) with 1 in Hlen.
    unfold MAX_CONTROL_PAYLOAD, MAX_EXEC_PAYLOAD in *. bcase; [lia|].
    by rewrite from_json_wire.
  - destruct (dec_signed_spec c) as (Hs & Hl & Hne). rewrite app_assoc. unfold parse.
    destruct (parse_line (bs "STATUS " ++ dec_signed c)) as [-> ->]; [by apply is_str_app| |].
    { by rewrite last_app_nonempty. }
    cbn [negb]. change (strip_prefix (bs "HELLO ") (bs "STATUS " ++ dec_signed c)) with (@None bytes).
    change (strip_prefix (bs "EXEC ") (bs "STATUS " ++ dec_signed c)) with (@None bytes). cbn match.
    rewrite strip_prefix_app, parse_i32_dec by done. done.
  - destruct Hm as [Hr Hc]. unfold is_u16 in *.
    change (bs "RESIZE " ++ dec r ++ [ch " "] ++ dec c ++ [10])
      with (bs "RESIZE " ++ dec r ++ ch " " :: dec c ++ [10]).
    set (d := dec r ++ ch " " :: dec c).
    assert (E : bs "RESIZE " ++ dec r ++ ch " " :: dec c ++ [10] = (bs "RESIZE " ++ d) ++ [10]).
    { subst d. rewrite <- !app_assoc. cbn [app]. by rewrite <- ?app_assoc. }
    rewrite E. unfold parse. destruct (parse_line (bs "RESIZE " ++ d)) as [-> ->].
    { repeat apply is_str_app; [done|apply is_str_digits; lia|].
      apply (is_str_app [ch " "]); [done|apply is_str_digits; lia]. }
    { subst d. change (ch " " :: dec c) with ([ch " "] ++ dec c). rewrite !app_assoc. apply last_app_digits. lia. }
    cbn [negb]. change (strip_prefix (bs "HELLO ") (bs "RESIZE " ++ d)) with (@None bytes).
    change (strip_prefix (bs "EXEC ") (bs "RESIZE " ++ d)) with (@None bytes).
    change (strip_prefix (bs "STATUS ") (bs "RESIZE " ++ d)) with (@None bytes). cbn match.
    rewrite !decide_False by done. rewrite strip_prefix_app. subst d.
    rewrite split_once_digits by lia. cbn [ok_or mbind result_bind]. unfold parse_u16.
    by rewrite !parse_dec by lia.
Qed.

(** C25: a control message survives the trip, within the reader's limits.
    Take a message that is well typed, with at most 4096 arguments and 4096
    variables in an [EXEC] request (MAX_ARRAY_ELEMENTS, which the reader enforces
    and the writer does not check: see [control_array_limit]) and no newline at the
    end of a [HELLO] version.  If the sender writes it successfully, the receiver's
    [read_control] returns that message and leaves the stream at the next frame; an
    [EXEC] request is recovered with all its strings, its window size only if it is
    for a terminal with rows and columns both positive, and as zero otherwise. *)
Theorem control_roundtrip w m w' rest : message_ok m ->
  write_control w m = (w', Ok tt) ->
  exists sent, written w' = written w ++ sent /\
    read_control (sent ++ rest) = Ok (wire_message m, rest).
Proof.
  intros Hm Hw. unfold write_control in Hw. apply write_frame_ok in Hw as [Hf Hw]; [|done].
  exists (frame CHANNEL_CONTROL (serialize m)). split; [done|]. unfold read_control.
  rewrite read_frame_frame by done. cbn. by rewrite parse_serialize; [|done|apply Hf].
Qed.

Lemma control_roundtrip_witness :
  let m := Exec demo_request in
  exists w' sent, write_control {| written := []; room := Some 200 |} m = (w', Ok tt) /\
    written w' = sent /\ read_control (sent ++ [3; 0]) = Ok (m, [3; 0]).
Proof.
  intros m. eexists.
  destruct (control_roundtrip {| written := []; room := Some 200 |} m
    (fst (write_control {| written := []; room := Some 200 |} m)) [3; 0]) as (sent & H1 & H2).
  - exact demo_request_ok.
  - vm_compute. reflexivity.
  - exists sent. split_and!; [|exact H1|exact H2]. vm_compute. reflexivity.
Defined.

(** The writer accepts a request with more arguments than the reader: it is sent and then refused. *)
Definition long_request : ExecRequest :=
  {| cmd := bs "true"; args := replicate 4097 []; env := []; user := bs "dev"; tty := false; rows := 0; cols := 0 |}.

Lemma read_control_refused b : match read_control b with Ok _ => false | Err _ => true end = true ->
  exists e, read_control b = Err e.
Proof. destruct (read_control b) as [x|e]; [done|by exists e]. Qed.

Theorem control_array_limit :
  let w := write_control {| written := []; room := None |} (Exec long_request) in
  snd w = Ok tt /\ exists e, read_control (written (fst w)) = Err e.
Proof. split; [vm_compute; reflexivity|]. apply read_control_refused. vm_compute. reflexivity. Qed.

(** ** The nonce *)

Lemma lor_eq_0 a b : Z.lor a b = 0 <-> a = 0 /\ b = 0.
Proof. apply Z.lor_eq_0_iff. Qed.

Lemma nonce_diff_spec diff a b : length a = length b ->
  nonce_diff diff a b = 0 <-> diff = 0 /\ a = b.
Proof.
  revert diff b. induction a as [|x a IH]; intros diff [|y b] Hl; try done; cbn [nonce_diff].
  - intuition congruence.
  - injection Hl as Hl. rewrite IH, lor_eq_0, Z.lxor_eq_0_iff by done. intuition congruence.
Qed.

(** The constant-time nonce comparison is equality of the nonces (the
    socket authentication accepts the right nonce and no other). *)
Theorem nonce_eq_spec a b : len a = NONCE_SIZE -> len b = NONCE_SIZE ->
  nonce_eq a b = true <-> a = b.
Proof.
  unfold len. intros Ha Hb. unfold nonce_eq. rewrite Z.eqb_eq, nonce_diff_spec by lia. intuition congruence.
Qed.

Lemma nonce_eq_spec_witness : nonce_eq (repeat 7 32) (repeat 7 32) = true.
Proof. apply (nonce_eq_spec (repeat 7 32) (repeat 7 32)); reflexivity. Defined.
