(* ===== verification/Files.v ===== *)
(** * Files

    The file system as a map from paths to files, and the calls of [std::fs] by
    which the code changes it.  Which calls fail, and after how much of a text, is
    decided by a [Disk].  Symbolic links and directories are not modelled: the code
    opens its files with [O_NOFOLLOW] or in directories of its own. *)
From stdpp Require Import gmap.
From S2P Require Import Prelude Text Paths Json.

Record File : Type := { contents : bytes; mode : Z }.
Abbreviation Files := (gmap bytes File).

#[export] Instance File_eq_dec : EqDecision File.
Proof. solve_decision. Defined.

(** Which calls succeed: [open] of a path for writing, how much of a text [write_all]
    writes before it fails ([None]: everything), [sync_all], [rename], [chmod]; and the
    kind of the error otherwise. *)
Record Disk : Type := {
  umask : Z;
  open_ok : Files -> bytes -> bool;
  write_upto : Files -> bytes -> option nat;
  sync_ok : Files -> bool;
  rename_ok : Files -> bool;
  chmod_ok : Files -> bool;
  disk_error : Files -> ErrorKind;
}.

Section Disk.
Context (disk : Disk).

Definition fs_error {A} : ST Files Abort A := fun fs => (fs, Err (IoError (disk_error disk fs) "{e}")).

(** The mode is that of a file that is there, and otherwise the one asked for. *)
Definition open_truncate (path : bytes) (m : Z) : ST Files Abort unit := fun fs =>
  if open_ok disk fs path
  then (<[path := {| contents := [];
                     mode := match (fs !! path : option File) with
                             | Some f => mode f | None => Z.land m (Z.lnot (umask disk)) end |}]> fs, Ok tt)
  else fs_error fs.

Definition put (path text : bytes) (fs : Files) : Files :=
  alter (fun f => {| contents := text; mode := mode f |}) path fs.

Definition file_write_all (path text : bytes) : ST Files Abort unit := fun fs =>
  match write_upto disk fs text with
  | None => (put path text fs, Ok tt)
  | Some n => fs_error (put path (take n text) fs)
  end.

Definition sync_all : ST Files Abort unit := fun fs => if sync_ok disk fs then (fs, Ok tt) else fs_error fs.

Definition rename (from to : bytes) : ST Files Abort unit := fun fs =>
  match (fs !! from : option File) with
  | Some f => if rename_ok disk fs then (<[to := f]> (delete from fs), Ok tt) else fs_error fs
  | None => fs_error fs
  end.

(** [std::fs::write]. *)
Definition fs_write (path text : bytes) : ST Files Abort unit :=
  _ ← open_truncate path 438; file_write_all path text.

Definition set_permissions (path : bytes) (m : Z) : ST Files Abort unit := fun fs =>
  if chmod_ok disk fs then (alter (fun f => {| contents := contents f; mode := m |}) path fs, Ok tt) else fs_error fs.
End Disk.

(** [std::fs::read_to_string]. *)
Definition read_to_string (path : bytes) (fs : Files) : io bytes :=
  match (fs !! path : option File) with
  | None => Err (IoError NotFound "{path}")
  | Some f => if Utf8.valid (contents f) then Ok (contents f) else invalid "stream did not contain valid UTF-8"
  end.

Definition lift_io {A} (r : io A) : ST Files Abort A := fun fs => (fs, r).

(** [?] in a function that returns [crate::Result]. *)
Definition from_io {A} (m : ST Files Abort A) : ST Files Error A := fun fs =>
  match m fs with
  | (fs, Ok a) => (fs, Ok a)
  | (fs, Err (IoError _ e)) => (fs, Err (Io e))
  | (fs, Err _) => (fs, Err (Io "panic"))
  end.

(** ** Frames

    [frame P m]: whatever happens, the files that [m] changes are those of [P]. *)
Definition frame {E A} (P : bytes -> Prop) (m : ST Files E A) : Prop :=
  forall fs path, ~ P path -> (m fs).1 !! path = fs !! path.

Section Frames.
Context (disk : Disk).

Lemma frame_bind {E A B : Type} (P : bytes -> Prop) (m : ST Files E A) (f : A -> ST Files E B) :
  frame P m -> (forall a, frame P (f a)) -> frame P (m ≫= f).
Proof.
  intros Hm Hf fs path HP. unfold mbind, ST_bind. specialize (Hm fs path HP).
  destruct (m fs) as [fs1 [a|e]]; simpl in *; [|done]. rewrite <- Hm. by apply Hf.
Qed.

Lemma frame_ret {E A : Type} (P : bytes -> Prop) (a : A) : frame (E := E) P (mret a).
Proof. by intros fs path. Qed.

Lemma frame_stop {E A : Type} (P : bytes -> Prop) (e : E) : frame P (stop e : ST Files E A).
Proof. by intros fs path. Qed.

Lemma frame_open (P : bytes -> Prop) path m : P path -> frame P (open_truncate disk path m).
Proof.
  intros HP fs q Hq. unfold open_truncate. case_match; [|done]. simpl. rewrite lookup_insert_ne; [done|]. by intros ->.
Qed.

Lemma put_ne path q text fs : path <> q -> put path text fs !! q = fs !! q.
Proof. intros H. unfold put. by rewrite lookup_alter_ne. Qed.

Lemma frame_write (P : bytes -> Prop) path text : P path -> frame P (file_write_all disk path text).
Proof.
  intros HP fs q Hq. unfold file_write_all, fs_error. assert (path <> q) by (by intros ->).
  case_match; simpl; by apply put_ne.
Qed.

Lemma frame_fs_write (P : bytes -> Prop) path text : P path -> frame P (fs_write disk path text).
Proof. intros HP. unfold fs_write. apply frame_bind; [by apply frame_open|intros _; by apply frame_write]. Qed.

Lemma frame_chmod (P : bytes -> Prop) path m : P path -> frame P (set_permissions disk path m).
Proof.
  intros HP fs q Hq. unfold set_permissions, fs_error. assert (path <> q) by (by intros ->).
  case_match; simpl; [|done]. by rewrite lookup_alter_ne.
Qed.

Lemma frame_from_io {A : Type} (P : bytes -> Prop) (m : ST Files Abort A) : frame P m -> frame P (from_io m).
Proof.
  intros Hm fs q Hq. specialize (Hm fs q Hq). unfold from_io. destruct (m fs) as [fs1 [|[]]]; done.
Qed.
End Frames.

(** What a file holds that [fs_write] has written. *)
Lemma fs_write_ok disk path text fs fs' : fs_write disk path text fs = (fs', Ok tt) ->
  exists m, fs' !! path = Some {| contents := text; mode := m |}.
Proof.
  unfold fs_write, mbind, ST_bind, open_truncate, file_write_all, fs_error.
  destruct (open_ok disk fs path); [|done]. destruct (write_upto disk _ text); [done|]. intros [= <-]. unfold put. rewrite lookup_alter_eq, lookup_insert_eq.
  by eexists.
Qed.

Lemma from_io_ok {A} (m : ST Files Abort A) fs fs' a : from_io m fs = (fs', Ok a) -> m fs = (fs', Ok a).
Proof. unfold from_io. destruct (m fs) as [fs1 [|[]]]; intros [= <- <-]; done. Qed.

Lemma from_io_err {A} (m : ST Files Abort A) fs fs' e : from_io m fs = (fs', Err e) -> exists t, e = Io t.
Proof. unfold from_io. destruct (m fs) as [fs1 [|[]]]; intros [= <- <-]; by eexists. Qed.

(** A disk on which everything works. *)
Definition demo_disk : Disk :=
  {| umask := 18; open_ok _ _ := true; write_upto _ _ := None; sync_ok _ := true; rename_ok _ := true;
     chmod_ok _ := true; disk_error _ := NotFound |}.
