(* ===== verification/Seatbelt.v ===== *)
(** * The Seatbelt profile of the macOS backend

    [platform/darwin/darwin_profile.rs], and the part of [platform/darwin/mod.rs]
    that collects the data of the profile.  The profile is a text in Apple's policy
    language; the theorem reads the text back and states what the policy allows. *)
From stdpp Require Import gmap sorting.
From S2P Require Import Prelude Text Paths Json Env Files.

(** Texts of the profile, with ['] for the quotation mark. *)
Definition sb (s : string) : bytes := map (fun c => if c =? 39 then dquote else c) (bs s).

Record ProfileData : Type := {
  sb_read_paths : list bytes;
  sb_write_paths : list bytes;
  sb_exec_paths : list bytes;
  control_socket : option bytes;
  llm_socket : option bytes;
  allow_network : bool;
  sb_allow_keychain : bool;
  sb_tty : bool;
}.

(** ** Validation *)

Definition profile_char (c : Z) : bool :=
  is_ascii_lower c || is_ascii_upper c || is_ascii_digit c || contains c (bs "/_. -@+").

Definition validate_profile_path (path : bytes) : Result unit :=
  if decide (path = []) then Err (Validation "empty path")
  else if negb (starts_with [slash] path) then Err (Validation "path must be absolute: {path}")
  else if existsb (fun c => bool_decide (c = dotdot)) (split slash path)
  then Err (Validation "path contains '..': {path}")
  else if negb (forallb profile_char (Utf8.chars path))
  then Err (Validation "invalid character in sandbox profile path: {:?}")
  else Ok tt.

Fixpoint validate_all (l : list bytes) : Result unit :=
  match l with
  | [] => Ok tt
  | p :: l => _ ← validate_profile_path p; validate_all l
  end.

(** ** Ancestors of the mounts *)

(** A [BTreeSet], as its elements in order. *)
Fixpoint btree_insert (x : bytes) (l : list bytes) : list bytes :=
  match l with
  | [] => [x]
  | y :: r => if decide (x = y) then l else if lex_le x y then x :: l else y :: btree_insert x r
  end.

Fixpoint prefixes (prefix : bytes) (comps : list bytes) (set : list bytes) : list bytes :=
  match comps with
  | [] => set
  | comp :: comps =>
    let prefix := prefix ++ [slash] ++ comp in
    prefixes prefix comps (btree_insert prefix set)
  end.

Definition mount_comps (p : bytes) : list bytes := List.filter (fun c => negb (bool_decide (c = []))) (split slash p).

Definition mount_ancestors (paths : list bytes) : list bytes :=
  fold_left (fun set p => let comps := mount_comps p in prefixes [] (take (length comps - 1) comps) set) paths [].

(** ** The text *)

Definition writelns (lines : list bytes) : bytes := concat (map (fun l => l ++ [10]) lines).

(** [(allow <op> (<filter> '<arg>'))]. *)
Definition allow (op flt : string) (arg : bytes) : bytes :=
  sb "(allow " ++ bs op ++ sb " (" ++ bs flt ++ sb " '" ++ arg ++ sb "'))".
Definition allows (op flt : string) (args : list bytes) : list bytes := map (allow op flt) args.

Definition header_lines : list bytes :=
  [sb "(version 1)"; sb "(deny default)"; [];
   sb "; Process"; sb "(allow process-fork)"; sb "(allow signal (target self))"; [];
   sb "; Root directory (dyld bootstrap)"; sb "(allow file-read* (literal '/'))"; []].

Definition ANCESTORS : list bytes :=
  map bs ["/opt"; "/etc"; "/tmp"; "/var"; "/Users"; "/private"; "/private/var"]%string.
Definition SYS_PATHS : list bytes :=
  map bs ["/usr"; "/bin"; "/opt/homebrew"; "/Library/Frameworks"; "/System"; "/private/var/select";
          "/private/var/db/timezone"]%string.
Definition DEVICES : list bytes := map bs ["/dev/null"; "/dev/zero"; "/dev/urandom"; "/dev/random"]%string.
Definition ETC_FILES : list bytes :=
  map bs ["/private/etc/hosts"; "/private/etc/resolv.conf"; "/private/etc/localtime"]%string.

Definition system_lines (tty : bool) : list bytes :=
  [sb "; Ancestor directories for path traversal"] ++ allows "file-read*" "literal" ANCESTORS ++ [[]]
  ++ [sb "; System read paths"] ++ allows "file-read*" "subpath" SYS_PATHS
  ++ allows "file-read*" "literal" DEVICES ++ [sb "(allow file-read* (subpath '/dev/fd'))"]
  ++ (if tty then [sb "(allow file-ioctl (regex #'^/dev/ttys[0-9]+$'))"] else []) ++ [[]]
  ++ [sb "; Specific /etc files (canonical paths)"] ++ allows "file-read*" "literal" ETC_FILES
  ++ [sb "(allow file-read* (subpath '/private/etc/ssl'))"; []].

Definition user_lines (data : ProfileData) : list bytes :=
  (if decide (sb_read_paths data = []) then []
   else [sb "; User read paths"] ++ allows "file-read*" "subpath" (sb_read_paths data) ++ [[]])
  ++ (if decide (sb_write_paths data = []) then []
      else [sb "; User write paths"]
           ++ concat (map (fun p => [allow "file-read*" "subpath" p; allow "file-write*" "subpath" p])
                          (sb_write_paths data)) ++ [[]])
  ++ (let user_paths := sb_read_paths data ++ sb_write_paths data in
      let ancestors := mount_ancestors user_paths in
      if decide (ancestors = []) then []
      else [sb "; Ancestor traversal for user mounts"] ++ allows "file-read-metadata" "literal" ancestors ++ [[]]).

Definition exec_lines (data : ProfileData) : list bytes :=
  [sb "; /dev/null write"; sb "(allow file-write* (literal '/dev/null'))"; [];
   sb "; Exec"; sb "(allow process-exec (subpath '/usr'))"; sb "(allow process-exec (subpath '/bin'))";
   sb "(allow process-exec (subpath '/opt/homebrew'))"]
  ++ allows "process-exec" "subpath" (sb_exec_paths data)
  ++ allows "process-exec" "subpath" (sb_write_paths data) ++ [[]].

Definition META_PATHS : list bytes :=
  map bs ["/private"; "/private/var"; "/private/etc"; "/usr"; "/System"; "/Library"; "/var"; "/etc"; "/tmp"]%string.

Definition network_lines : list bytes :=
  [sb "; Network (baseline mode)"] ++ allows "file-read-metadata" "subpath" META_PATHS
  ++ [sb "(allow network-outbound (remote tcp))";
      sb "(allow network-outbound (remote unix-socket (path-literal '/private/var/run/mDNSResponder')))";
      sb "(allow network-outbound"; sb "  (control-name 'com.apple.netsrc')";
      sb "  (control-name 'com.apple.network.statistics'))";
      sb "(allow system-socket"; sb "  (require-all (socket-domain AF_SYSTEM) (socket-protocol 2))";
      sb "  (socket-domain AF_ROUTE))"; [];
      sb "; Network stack files";
      sb "(allow file-read* (literal '/Library/Preferences/com.apple.networkd.plist'))";
      sb "(allow file-read* (literal '/private/var/db/nsurlstoraged/dafsaData.bin'))"; []].

Definition unix_socket (s : bytes) : bytes :=
  sb "(allow network-outbound (remote unix-socket (path-literal '" ++ s ++ sb "')))".

Definition socket_lines (socket : option bytes) : list bytes :=
  match socket with
  | Some s => [unix_socket s; allow "file-read*" "literal" s; allow "file-write*" "literal" s]
  | None => []
  end.

Definition has_socket (data : ProfileData) : bool :=
  bool_decide (is_Some (control_socket data)) || bool_decide (is_Some (llm_socket data)).

Definition net_lines (data : ProfileData) : list bytes :=
  (if allow_network data then network_lines
   else if has_socket data
   then [sb "; Unix sockets (strict mode — scoped to configured paths)"]
        ++ socket_lines (control_socket data) ++ socket_lines (llm_socket data) ++ [[]]
   else [])
  ++ (if allow_network data && has_socket data
      then socket_lines (control_socket data) ++ socket_lines (llm_socket data) ++ [[]] else []).

Definition MACH_NETWORK : list bytes :=
  map bs ["com.apple.dnssd.service"; "com.apple.nehelper"; "com.apple.nesessionmanager"; "com.apple.networkd";
          "com.apple.symptomsd"; "com.apple.usymptomsd"; "com.apple.SystemConfiguration.SCNetworkReachability";
          "com.apple.cfnetwork.cfnetworkagent"; "com.apple.trustd"; "com.apple.trustd.agent";
          "com.apple.SystemConfiguration.configd"]%string.
Definition KEYCHAIN_PATHS : list bytes :=
  map bs ["/Library/Keychains"; "/System/Library/Keychains"; "/private/var/db/mds"]%string.

Definition services (data : ProfileData) : list bytes :=
  map bs ["com.apple.SecurityServer"; "com.apple.ocspd"]%string
  ++ (if allow_network data then [] else map bs ["com.apple.trustd"; "com.apple.trustd.agent"]%string).

Definition service_lines (data : ProfileData) : list bytes :=
  [sb "; Mach IPC"; sb "(allow mach-lookup (global-name 'com.apple.system.logger'))";
   sb "(allow mach-lookup (global-name 'com.apple.system.opendirectoryd.libinfo'))";
   sb "(allow mach-lookup (global-name 'com.apple.system.notification_center'))"]
  ++ (if allow_network data then allows "mach-lookup" "global-name" MACH_NETWORK else []) ++ [[]]
  ++ (if sb_allow_keychain data
      then [sb "; Keychain (--allow-keychain)"] ++ allows "mach-lookup" "global-name" (services data)
           ++ allows "file-read*" "subpath" KEYCHAIN_PATHS ++ [[]]
      else [])
  ++ [sb "; POSIX shm"; sb "(allow ipc-posix-shm-read-data)"; []; sb "; Sysctl"; sb "(allow sysctl-read)"].

Definition profile_text (data : ProfileData) : bytes :=
  writelns (header_lines ++ system_lines (sb_tty data) ++ user_lines data ++ exec_lines data ++ net_lines data
            ++ service_lines data).

Definition validate_data (data : ProfileData) : Result unit :=
  _ ← validate_all (sb_read_paths data);
  _ ← validate_all (sb_write_paths data);
  _ ← validate_all (sb_exec_paths data);
  _ ← validate_all (option_list (control_socket data));
  validate_all (option_list (llm_socket data)).

Definition generate_profile (disk : Disk) (dir : bytes) (data : ProfileData) : ST Files Error bytes :=
  _ ← (fun fs => (fs, validate_data data));
  let profile_path := push dir (bs "profile.sb") in
  _ ← from_io (fs_write disk profile_path (profile_text data));
  _ ← from_io (set_permissions disk profile_path 256);
  mret profile_path.

(** ** Reading a profile

    The policy language has the syntax of Scheme: a reader over the bytes of the
    text, with the open lists, innermost first and each in reverse order. *)

Inductive sexp : Type :=
| Atom (s : bytes)
| Str (s : bytes)
| Regex (s : bytes)
| Form (l : list sexp).

Inductive reading : Type :=
| Between
| InAtom (acc : bytes)
| Sharp
| InString (acc : bytes)
| Escaped (acc : bytes)
| InRegex (acc : bytes)
| Comment.

Abbreviation ReaderState := (reading * list (list sexp))%type.

Definition emit (x : sexp) (st : list (list sexp)) : list (list sexp) :=
  match st with l :: r => (x :: l) :: r | [] => [[x]] end.

Definition is_space (c : Z) : bool := (c =? 32) || (c =? 10) || (c =? 9) || (c =? 13).
Definition is_delimiter (c : Z) : bool := is_space c || contains c (bs "();") || (c =? dquote).

Definition start (st : list (list sexp)) (c : Z) : option ReaderState :=
  if is_space c then Some (Between, st)
  else if c =? ch "(" then Some (Between, [] :: st)
  else if c =? ch ")" then
    match st with l :: r :: st => Some (Between, (Form (rev l) :: r) :: st) | _ => None end
  else if c =? ch ";" then Some (Comment, st)
  else if c =? dquote then Some (InString [], st)
  else if c =? ch "#" then Some (Sharp, st)
  else Some (InAtom [c], st).

Definition read_step (s : ReaderState) (c : Z) : option ReaderState :=
  let '(m, st) := s in
  match m with
  | Between => start st c
  | InAtom acc => if is_delimiter c then start (emit (Atom (rev acc)) st) c else Some (InAtom (c :: acc), st)
  | Sharp => if c =? dquote then Some (InRegex [], st) else Some (InAtom [c; ch "#"], st)
  | InString acc =>
    if c =? dquote then Some (Between, emit (Str (rev acc)) st)
    else if c =? backslash then Some (Escaped acc, st) else Some (InString (c :: acc), st)
  | Escaped acc => Some (InString (c :: acc), st)
  | InRegex acc => if c =? dquote then Some (Between, emit (Regex (rev acc)) st) else Some (InRegex (c :: acc), st)
  | Comment => Some (if c =? 10 then Between else Comment, st)
  end.

Fixpoint run (text : bytes) (s : ReaderState) : option ReaderState :=
  match text with [] => Some s | c :: text => s ← read_step s c; run text s end.

(** The forms of a text, if it is well formed. *)
Definition read_profile (text : bytes) : option (list sexp) :=
  match run (text ++ [10]) (Between, [[]]) with Some (Between, [l]) => Some (rev l) | _ => None end.

(** ** What a policy allows *)

(** What an operation is applied to. *)
Inductive Target : Type :=
| Path (p : bytes)
| Tcp
| UnixSocket (p : bytes)
| Control (name : bytes)
| Service (name : bytes)
| Socket (domain protocol : bytes)
| Self
| Nothing.

Section Policy.
(** How the kernel matches a path with [subpath] and with [regex]. *)
Context (subpath regex : bytes -> bytes -> bool).

Local Notation "a == b" := (bool_decide (a = bs b)) (at level 70).

Fixpoint matches (t : Target) (f : sexp) : bool :=
  match f with
  | Form (Atom k :: args) =>
    if k == "require-all" then forallb (matches t) args
    else
      match t, args with
      | Path q, [Str p] => ((k == "literal") && bool_decide (p = q)) || ((k == "subpath") && subpath p q)
      | Path q, [Regex r] => (k == "regex") && regex r q
      | Tcp, [Atom a] => (k == "remote") && (a == "tcp")
      | UnixSocket q, [Atom a; Form [Atom b; Str p]] =>
        (k == "remote") && (a == "unix-socket") && (b == "path-literal") && bool_decide (p = q)
      | Control n, [Str m] => (k == "control-name") && bool_decide (m = n)
      | Service n, [Str m] => (k == "global-name") && bool_decide (m = n)
      | Socket d p, [Atom a] =>
        ((k == "socket-domain") && bool_decide (a = d)) || ((k == "socket-protocol") && bool_decide (a = p))
      | Self, [Atom a] => (k == "target") && (a == "self")
      | _, _ => false
      end
  | _ => false
  end.

(** The name of an operation in a rule may end in a star; [default] stands for all of them. *)
Definition op_matches (pat op : bytes) : bool :=
  (pat == "default") || bool_decide (pat = op)
  || match strip_suffix (bs "*") pat with Some pre => starts_with pre op | None => false end.

(** What a rule says: the last rule that applies counts, and without one, to be on the safe side, everything is
    allowed. *)
Definition verdict (op : bytes) (t : Target) (before : bool) (rule : sexp) : bool :=
  match rule with
  | Form (Atom act :: Atom pat :: filters) =>
    if op_matches pat op && match filters with [] => true | _ => existsb (matches t) filters end
    then (if act == "allow" then true else if act == "deny" then false else before)
    else before
  | _ => before
  end.

Definition permits (rules : list sexp) (op : bytes) (t : Target) : bool := fold_left (verdict op t) rules true.
End Policy.

(** ** The text is read as it was meant *)

Definition atom_char (c : Z) : bool := negb (is_delimiter c) && negb (c =? ch "#").
Definition string_char (c : Z) : bool := negb (c =? dquote) && negb (c =? backslash).

Lemma run_app a b s : run (a ++ b) s = run a s ≫= run b.
Proof. revert s. induction a as [|c a IH]; intros s; [done|]. simpl. destruct (read_step s c); [apply IH|done]. Qed.

Lemma run_chain a b s s1 s2 : run a s = Some s1 -> run b s1 = Some s2 -> run (a ++ b) s = Some s2.
Proof. intros Ha Hb. by rewrite run_app, Ha. Qed.

Lemma run_in_atom w acc st : forallb atom_char w = true -> run w (InAtom acc, st) = Some (InAtom (rev w ++ acc), st).
Proof.
  revert acc. induction w as [|c w IH]; intros acc; [done|]. cbn [forallb]. intros H. bsplit. cbn [run read_step].
  unfold atom_char in H. bsplit. rewrite H. cbn. rewrite IH by done. by rewrite <- app_assoc.
Qed.

Lemma start_atom c st : atom_char c = true -> start st c = Some (InAtom [c], st).
Proof.
  unfold atom_char, start, is_delimiter. cbn [contains bs map existsb String.list_ascii_of_string]. intros H. bsplit.
  unfold contains in *. cbn in *. bsplit. repeat case_match; bsplit; try done; try congruence.
Qed.

Lemma run_atom w st : w <> [] -> forallb atom_char w = true -> run w (Between, st) = Some (InAtom (rev w), st).
Proof.
  destruct w as [|c w]; [done|]. intros _. cbn [forallb]. intros H. bsplit. cbn [run read_step].
  rewrite start_atom by done. cbn [mbind option_bind]. by rewrite run_in_atom.
Qed.

Lemma run_string w acc st : forallb string_char w = true ->
  run w (InString acc, st) = Some (InString (rev w ++ acc), st).
Proof.
  revert acc. induction w as [|c w IH]; intros acc; [done|]. cbn [forallb]. intros H. bsplit. cbn [run read_step].
  unfold string_char in H. bsplit. rewrite !(proj2 (Z.eqb_neq _ _)) by done. cbn. rewrite IH by done.
  by rewrite <- app_assoc.
Qed.

Definition reads (lines : list bytes) (rules : list sexp) : Prop :=
  forall l, run (writelns lines) (Between, [l]) = Some (Between, [rev rules ++ l]).

Lemma reads_nil : reads [] [].
Proof. by intros l. Qed.

Lemma reads_app a b ra rb : reads a ra -> reads b rb -> reads (a ++ b) (ra ++ rb).
Proof.
  intros Ha Hb l. unfold writelns in *. rewrite map_app, concat_app, run_app, Ha. cbn [mbind option_bind].
  by rewrite Hb, rev_app_distr, app_assoc.
Qed.

Lemma reads_if (b : bool) a ra : reads a ra -> reads (if b then a else []) (if b then ra else []).
Proof. by destruct b. Qed.

Definition rule (op flt : string) (arg : bytes) : sexp :=
  Form [Atom (bs "allow"); Atom (bs op); Form [Atom (bs flt); Str arg]].

Definition word (s : string) : Prop := bs s <> [] /\ forallb atom_char (bs s) = true.

Lemma reads_allow op flt arg : word op -> word flt -> forallb string_char arg = true ->
  reads [allow op flt arg] [rule op flt arg].
Proof.
  intros [Ho Ho'] [Hf Hf'] Ha l. unfold writelns, allow. cbn [map concat]. rewrite app_nil_r, <- !app_assoc.
  repeat (eapply run_chain; [first [by apply run_atom | by apply run_string | reflexivity]|]).
  cbn. by rewrite !app_nil_r, !rev_involutive.
Qed.

Lemma reads_eq lines r r' : reads lines r -> r = r' -> reads lines r'.
Proof. by intros H <-. Qed.

Definition quotable (arg : bytes) : Prop := forallb string_char arg = true.

Lemma reads_allows op flt args : word op -> word flt -> Forall quotable args ->
  reads (allows op flt args) (map (rule op flt) args).
Proof.
  intros Ho Hf. induction 1 as [|a args Ha _ IH]; [apply reads_nil|]. by apply (reads_app [_] _ [_]); [apply reads_allow|].
Qed.

Definition socket_rule (s : bytes) : sexp :=
  Form [Atom (bs "allow"); Atom (bs "network-outbound");
        Form [Atom (bs "remote"); Atom (bs "unix-socket"); Form [Atom (bs "path-literal"); Str s]]].

Lemma reads_unix_socket s : quotable s -> reads [unix_socket s] [socket_rule s].
Proof.
  intros Hs l. unfold writelns, unix_socket. cbn [map concat]. rewrite app_nil_r, <- !app_assoc.
  repeat (eapply run_chain; [first [by apply run_string | reflexivity]|]).
  cbn. by rewrite !app_nil_r, !rev_involutive.
Qed.

(** The rules that the text stands for. *)
Definition header_rules : list sexp :=
  [Form [Atom (bs "version"); Atom (bs "1")]; Form [Atom (bs "deny"); Atom (bs "default")]].

Definition form (op flt arg : string) : sexp :=
  Form [Atom (bs "allow"); Atom (bs op); Form [Atom (bs flt); Atom (bs arg)]].

Definition system_rules (tty : bool) : list sexp :=
  [Form [Atom (bs "allow"); Atom (bs "process-fork")]; form "signal" "target" "self";
   rule "file-read*" "literal" (bs "/")]
  ++ map (rule "file-read*" "literal") ANCESTORS ++ map (rule "file-read*" "subpath") SYS_PATHS
  ++ map (rule "file-read*" "literal") DEVICES ++ [rule "file-read*" "subpath" (bs "/dev/fd")]
  ++ (if tty then [Form [Atom (bs "allow"); Atom (bs "file-ioctl");
                         Form [Atom (bs "regex"); Regex (bs "^/dev/ttys[0-9]+$")]]] else [])
  ++ map (rule "file-read*" "literal") ETC_FILES ++ [rule "file-read*" "subpath" (bs "/private/etc/ssl")].

Definition user_rules (data : ProfileData) : list sexp :=
  map (rule "file-read*" "subpath") (sb_read_paths data)
  ++ concat (map (fun p => [rule "file-read*" "subpath" p; rule "file-write*" "subpath" p]) (sb_write_paths data))
  ++ map (rule "file-read-metadata" "literal") (mount_ancestors (sb_read_paths data ++ sb_write_paths data)).

Definition exec_rules (data : ProfileData) : list sexp :=
  rule "file-write*" "literal" (bs "/dev/null")
  :: map (rule "process-exec" "subpath") (map bs ["/usr"; "/bin"; "/opt/homebrew"]%string)
  ++ map (rule "process-exec" "subpath") (sb_exec_paths data)
  ++ map (rule "process-exec" "subpath") (sb_write_paths data).

Definition socket_rules (socket : option bytes) : list sexp :=
  match socket with
  | Some s => [socket_rule s; rule "file-read*" "literal" s; rule "file-write*" "literal" s]
  | None => []
  end.

Definition NETWORK_FILES : list bytes :=
  map bs ["/Library/Preferences/com.apple.networkd.plist"; "/private/var/db/nsurlstoraged/dafsaData.bin"]%string.

Definition network_rules : list sexp :=
  map (rule "file-read-metadata" "subpath") META_PATHS
  ++ [form "network-outbound" "remote" "tcp"; socket_rule (bs "/private/var/run/mDNSResponder");
      Form [Atom (bs "allow"); Atom (bs "network-outbound");
            Form [Atom (bs "control-name"); Str (bs "com.apple.netsrc")];
            Form [Atom (bs "control-name"); Str (bs "com.apple.network.statistics")]];
      Form [Atom (bs "allow"); Atom (bs "system-socket");
            Form [Atom (bs "require-all"); Form [Atom (bs "socket-domain"); Atom (bs "AF_SYSTEM")];
                  Form [Atom (bs "socket-protocol"); Atom (bs "2")]];
            Form [Atom (bs "socket-domain"); Atom (bs "AF_ROUTE")]]]
  ++ map (rule "file-read*" "literal") NETWORK_FILES.

Definition net_rules (data : ProfileData) : list sexp :=
  (if allow_network data then network_rules else [])
  ++ socket_rules (control_socket data) ++ socket_rules (llm_socket data).

Definition MACH_BASE : list bytes :=
  map bs ["com.apple.system.logger"; "com.apple.system.opendirectoryd.libinfo";
          "com.apple.system.notification_center"]%string.

Definition service_rules (data : ProfileData) : list sexp :=
  map (rule "mach-lookup" "global-name") MACH_BASE
  ++ (if allow_network data then map (rule "mach-lookup" "global-name") MACH_NETWORK else [])
  ++ (if sb_allow_keychain data
      then map (rule "mach-lookup" "global-name") (services data) ++ map (rule "file-read*" "subpath") KEYCHAIN_PATHS
      else [])
  ++ [Form [Atom (bs "allow"); Atom (bs "ipc-posix-shm-read-data")]; Form [Atom (bs "allow"); Atom (bs "sysctl-read")]].

Definition granted (data : ProfileData) : list sexp :=
  system_rules (sb_tty data) ++ user_rules data ++ exec_rules data ++ net_rules data ++ service_rules data.

(** ** Ancestors *)

Definition spell (names : list bytes) : bytes := concat (map (cons slash) names).

Lemma elem_of_btree_insert x y l : y ∈ btree_insert x l <-> y = x \/ y ∈ l.
Proof. induction l as [|z l IH]; simpl; [set_solver|]. repeat case_decide; repeat case_match; set_solver. Qed.

Definition increasing : list bytes -> Prop := StronglySorted (fun a b => lex_le a b = true /\ a <> b).

Lemma btree_insert_increasing x l : increasing l -> increasing (btree_insert x l).
Proof.
  unfold increasing. induction 1 as [|y l Hs IH Hy]; simpl; [by repeat constructor|].
  case_decide as E; [by constructor|]. destruct (lex_le x y) eqn:El.
  - constructor; [by constructor|]. constructor; [done|]. eapply Forall_impl; [|exact Hy]. intros z [Hz Hn]. split.
    + by eapply lex_le_trans.
    + intros ->. apply Hn. by apply lex_le_antisym.
  - constructor; [done|]. apply list.Forall_forall. intros z [->|Hz]%elem_of_btree_insert.
    + split; [by apply lex_le_total|congruence].
    + rewrite list.Forall_forall in Hy. by apply Hy.
Qed.

Lemma elem_of_prefixes pre comps set y :
  y ∈ prefixes pre comps set <-> y ∈ set \/ exists k, (0 < k <= length comps)%nat /\ y = pre ++ spell (take k comps).
Proof.
  revert pre set. induction comps as [|c comps IH]; intros pre set; simpl.
  - split; [tauto|]. intros [|(k & Hk & _)]; [done|lia].
  - rewrite IH, elem_of_btree_insert. split.
    + intros [[->|H]|(k & Hk & ->)]; [right|by left|right].
      * exists 1%nat. split; [lia|]. unfold spell. simpl. by rewrite app_nil_r.
      * exists (S k). split; [lia|]. unfold spell. simpl. by rewrite <- app_assoc.
    + intros [H|([|k] & Hk & ->)]; [by left; right|lia|]. destruct k as [|k].
      * left. left. unfold spell. simpl. by rewrite app_nil_r.
      * right. exists (S k). split; [lia|]. unfold spell. simpl. by rewrite <- app_assoc.
Qed.

Lemma prefixes_increasing pre comps set : increasing set -> increasing (prefixes pre comps set).
Proof.
  revert pre set. induction comps as [|c comps IH]; intros pre set H; simpl; [done|]. by apply IH, btree_insert_increasing.
Qed.

(** The ancestors are the paths strictly above a mount, without the root, each once and in order. *)
Lemma mount_ancestors_spec paths :
  (forall a, a ∈ mount_ancestors paths <-> exists p k, p ∈ paths /\ (0 < k < length (mount_comps p))%nat /\
     a = spell (take k (mount_comps p))) /\ increasing (mount_ancestors paths).
Proof.
  unfold mount_ancestors. set (f := fun set p => _).
  enough (H : forall set, increasing set ->
    (forall a, a ∈ fold_left f paths set <-> a ∈ set \/ exists p k, p ∈ paths /\
       (0 < k < length (mount_comps p))%nat /\ a = spell (take k (mount_comps p))) /\
    increasing (fold_left f paths set)).
  { destruct (H []) as [He Hi]; [constructor|]. split; [|done]. intros a. rewrite He. set_solver. }
  induction paths as [|p paths IH]; intros set Hs; simpl.
  { split; [|done]. intros a. split; [tauto|]. set_solver. }
  destruct (IH (f set p)) as [He Hi]; [by apply prefixes_increasing|]. split; [|done]. intros a. rewrite He.
  unfold f at 1. rewrite elem_of_prefixes, length_take. split.
  - intros [[H|(k & Hk & ->)]|(q & k & Hq & Hk & ->)]; [by left|right..].
    + exists p, k. split; [set_solver|]. split; [lia|]. rewrite take_take. simpl. f_equal. f_equal. lia.
    + exists q, k. split; [set_solver|]. done.
  - intros [H|(q & k & [->|Hq]%elem_of_cons & Hk & ->)]; [by left; left|left; right|right].
    + exists k. split; [lia|]. rewrite take_take. simpl. f_equal. f_equal. lia.
    + by exists q, k.
Qed.

(** ** Validated paths *)

Lemma profile_char_ascii c : profile_char c = true -> 0 <= c < 128 /\ string_char c = true.
Proof.
  unfold profile_char, string_char, is_ascii_lower, is_ascii_upper, is_ascii_digit. rewrite !orb_true_iff, contains_In.
  intros [[[H|H]|H]|H]; bsplit; [unfold dquote, backslash; repeat split; try lia..|];
    try (rewrite !(proj2 (Z.eqb_neq _ _)) by lia; done).
  cbn in H. unfold dquote, backslash. repeat (destruct H as [<-|H]; [done|]). done.
Qed.

(** A path that the check accepts can be put between quotation marks. *)
Lemma validate_profile_path_ok p : Utf8.valid p = true -> validate_profile_path p = Ok tt ->
  is_absolute p = true /\ ~ (dotdot ∈ split slash p) /\ quotable p.
Proof.
  intros Hv. unfold validate_profile_path. repeat (bcase; try done). intros _. split; [done|]. split.
  - intros Hin. assert (Ht : existsb (fun c => bool_decide (c = dotdot)) (split slash p) = true); [|congruence].
    apply existsb_exists. exists dotdot. split; [by apply list_elem_of_In|by apply bool_decide_eq_true].
  - assert (Hall : forall c, In c (Utf8.chars p) -> 0 <= c < 128 /\ string_char c = true).
    { intros c Hc. apply profile_char_ascii. by eapply forallb_forall. }
    destruct (Utf8.valid_chars p Hv) as [Hp _]. rewrite <- Hp. apply forallb_forall. intros c Hc.
    apply in_concat in Hc as (w & Hw & Hc). apply in_map_iff in Hw as (d & <- & Hd).
    destruct (Hall d Hd) as [Hr Hs]. rewrite Utf8.encode_ascii in Hc by done. by destruct Hc as [<-|[]].
Qed.

Lemma split_bytes sep s w c : w ∈ split sep s -> c ∈ w -> c ∈ s.
Proof.
  rewrite !list_elem_of_In. revert w. induction s as [|d s IH]; simpl; intros w; [by intros [<-|[]]|].
  destruct (split sep s) as [|h t]; destruct (d =? sep); simpl.
  - by intros [<-|[]].
  - intros [<-|[]]. by intros [->|[]]; left.
  - intros [<-|Hw] Hc; [done|]. right. by eapply IH.
  - intros [<-|Hw] Hc; [|right; by eapply IH; [right|]]. destruct Hc as [->|Hc]; [by left|].
    right. by apply (IH h); [left|].
Qed.

Lemma quotable_spell names : Forall quotable names -> quotable (spell names).
Proof.
  unfold quotable, spell. induction 1 as [|n names Hn _ IH]; [done|]. cbn. by rewrite forallb_app, Hn.
Qed.

Lemma quotable_ancestors paths : Forall quotable paths -> Forall quotable (mount_ancestors paths).
Proof.
  rewrite !list.Forall_forall. intros H a Ha. apply mount_ancestors_spec in Ha as (p & k & Hp & _ & ->).
  apply quotable_spell, Forall_take, list.Forall_forall. intros w Hw. unfold mount_comps in Hw.
  apply list_elem_of_In, List.filter_In in Hw as [Hw _]. apply forallb_forall. intros c Hc.
  eapply forallb_forall; [exact (H p Hp)|]. apply list_elem_of_In. eapply split_bytes; by apply list_elem_of_In.
Qed.

Record data_ok (data : ProfileData) : Prop := {
  ok_read : Forall quotable (sb_read_paths data);
  ok_write : Forall quotable (sb_write_paths data);
  ok_exec : Forall quotable (sb_exec_paths data);
  ok_control : Forall quotable (option_list (control_socket data));
  ok_llm : Forall quotable (option_list (llm_socket data));
}.

(** What the type [String] of the paths promises. *)
Definition data_strings (data : ProfileData) : Prop :=
  Forall (fun p => Utf8.valid p = true)
    (sb_read_paths data ++ sb_write_paths data ++ sb_exec_paths data ++ option_list (control_socket data)
     ++ option_list (llm_socket data)).

Lemma validate_all_ok l : Forall (fun p => Utf8.valid p = true) l -> validate_all l = Ok tt -> Forall quotable l.
Proof.
  induction 1 as [|p l Hp _ IH]; [done|]. cbn. intros (? & H1 & H2)%bind_ok. destruct x.
  constructor; [by apply validate_profile_path_ok|by apply IH].
Qed.

(** What the check is for: an absolute path without [..] of letters, digits and a few other characters. *)
Definition profile_alphabet : bytes :=
  bs "abcdefghijklmnopqrstuvwxyzABCDEFGHIJKLMNOPQRSTUVWXYZ0123456789/_. -@+".

Definition good_path (p : bytes) : Prop :=
  is_absolute p = true /\ ~ (dotdot ∈ split slash p) /\ Forall (fun c => c ∈ profile_alphabet) p.

Definition data_paths (data : ProfileData) : list bytes :=
  sb_read_paths data ++ sb_write_paths data ++ sb_exec_paths data ++ option_list (control_socket data)
  ++ option_list (llm_socket data).

Lemma profile_char_alphabet c : profile_char c = true <-> c ∈ profile_alphabet.
Proof.
  split.
  - intros H. destruct (profile_char_ascii c H) as [Hc _].
    assert (E : forallb (fun n => negb (profile_char (Z.of_nat n)) || bool_decide (Z.of_nat n ∈ profile_alphabet)) (seq 0 128) = true)
      by (vm_compute; reflexivity).
    rewrite forallb_forall in E. specialize (E (Z.to_nat c)). rewrite Z2Nat.id, H in E by lia.
    apply (bool_decide_eq_true _). apply E, in_seq. lia.
  - assert (E : forallb profile_char profile_alphabet = true) by (vm_compute; reflexivity).
    rewrite forallb_forall in E. rewrite list_elem_of_In. apply E.
Qed.

Lemma ascii_chars p : Utf8.valid p = true -> Forall (fun c => 0 <= c < 128) (Utf8.chars p) -> Utf8.chars p = p.
Proof.
  intros Hv Ha. destruct (Utf8.valid_chars p Hv) as [Hp _]. rewrite <- Hp at 2. clear Hp.
  induction Ha as [|c l Hc _ IH]; [done|]. unfold Utf8.of_chars. cbn [map concat]. rewrite Utf8.encode_ascii by done. cbn [app]. f_equal. exact IH.
Qed.

Lemma validate_profile_path_good p : Utf8.valid p = true -> validate_profile_path p = Ok tt <-> good_path p.
Proof.
  intros Hv. split.
  - intros H. destruct (validate_profile_path_ok p Hv H) as (Ha & Hd & _). split_and!; [done..|].
    unfold validate_profile_path in H. repeat (bcase; try done).
    assert (Hall : forall c, In c (Utf8.chars p) -> profile_char c = true) by by apply forallb_forall.
    rewrite <- (ascii_chars p Hv); apply List.Forall_forall; intros c Hc; [by apply profile_char_alphabet, Hall|].
    by apply profile_char_ascii, Hall.
  - intros (Ha & Hd & Hc). unfold validate_profile_path. destruct p as [|c0 p]; [done|]. rewrite decide_False by done.
    change (starts_with [slash] (c0 :: p)) with (is_absolute (c0 :: p)). rewrite Ha. cbn [negb].
    destruct (existsb _ _) eqn:E.
    { apply existsb_exists in E as (x & Hx%list_elem_of_In & ->%bool_decide_eq_true). by destruct Hd. }
    assert (HF : forallb profile_char (c0 :: p) = true).
    { apply forallb_forall. intros c Hin. rewrite List.Forall_forall in Hc. by apply profile_char_alphabet, Hc. }
    unfold Utf8.chars. rewrite Utf8.decode_ascii; [cbn [default from_option id]; by rewrite HF|]. apply List.Forall_forall. intros c Hin.
    apply profile_char_ascii. by eapply forallb_forall.
Qed.

Lemma validate_all_good l : Forall (fun p => Utf8.valid p = true) l -> validate_all l = Ok tt <-> Forall good_path l.
Proof.
  induction 1 as [|p l Hp _ IH]; [by split|]. cbn. rewrite list.Forall_cons, <- IH, <- (validate_profile_path_good p Hp).
  destruct (validate_profile_path p) as [[]|e]; cbn; [tauto|]. split; [done|by intros [? _]].
Qed.

Lemma validate_data_good data : data_strings data -> validate_data data = Ok tt <-> Forall good_path (data_paths data).
Proof.
  unfold data_strings, data_paths. rewrite !Forall_app. intros (H1 & H2 & H3 & H4 & H5).
  rewrite <- !validate_all_good by done. unfold validate_data.
  split; [|by intros (-> & -> & -> & -> & ->)].
  by intros ([] & ? & ([] & ? & ([] & ? & ([] & ? & ?)%bind_ok)%bind_ok)%bind_ok)%bind_ok.
Qed.

Lemma validate_data_ok data : data_strings data -> validate_data data = Ok tt -> data_ok data.
Proof.
  intros Hs. apply Forall_app in Hs as [H1 Hs]. apply Forall_app in Hs as [H2 Hs]. apply Forall_app in Hs as [H3 Hs].
  apply Forall_app in Hs as [H4 H5]. unfold validate_data.
  intros ([] & ? & ([] & ? & ([] & ? & ([] & ? & ?)%bind_ok)%bind_ok)%bind_ok)%bind_ok.
  constructor; by apply validate_all_ok.
Qed.

(** ** The whole text *)

Lemma reads_skip a b r : reads a [] -> reads b r -> reads (a ++ b) r.
Proof. apply (reads_app a b []). Qed.

Lemma reads_drop a b r : reads a r -> reads b [] -> reads (a ++ b) r.
Proof. intros Ha Hb. rewrite <- (app_nil_r r). by apply reads_app. Qed.

(** Lines without variable parts. *)
Ltac fixed_text := intros; intros ?; vm_compute; reflexivity.

Ltac reads :=
  lazymatch goal with
  | |- reads (if _ then _ else []) _ => apply reads_if; reads
  | |- reads (allows _ _ _) _ => first [fixed_text | apply reads_allows; [by split..|]]
  | |- reads (_ ++ _) _ =>
    first [ apply reads_skip; [fixed_text|]; reads | apply reads_drop; [|fixed_text]; reads | apply reads_app; reads ]
  | |- reads _ _ => try fixed_text
  end.

Lemma reads_header : reads (take 3 header_lines) header_rules.
Proof. fixed_text. Qed.

Lemma reads_system tty : reads (drop 3 header_lines ++ system_lines tty) (system_rules tty).
Proof. unfold system_lines, system_rules. reads. Qed.

Lemma reads_present {A} (l : list A) (lines : list bytes) rules : (l = [] -> rules = []) -> reads lines rules ->
  reads (if decide (l = []) then [] else lines) rules.
Proof. intros H Hr. case_decide; [by rewrite H|done]. Qed.

Lemma reads_user data : data_ok data -> reads (user_lines data) (user_rules data).
Proof.
  intros [Hr Hw _ _ _]. unfold user_lines, user_rules. apply reads_app; [|apply reads_app].
  - apply reads_present; [by intros ->|]. reads. done.
  - apply reads_present; [by intros ->|]. reads. induction Hw as [|p l Hp _ IH]; [fixed_text|].
    apply (reads_app [_; _] _ [_; _]); [|done]. by apply (reads_app [_] [_] [_]); apply reads_allow.
  - apply reads_present; [by intros ->|]. reads. by apply quotable_ancestors, Forall_app.
Qed.

Lemma reads_exec data : data_ok data -> reads (exec_lines data) (exec_rules data).
Proof.
  intros [_ Hw He _ _]. unfold exec_lines, exec_rules. apply (reads_app _ _ (_ :: map _ _)); [fixed_text|]. by reads.
Qed.

Lemma reads_socket socket : Forall quotable (option_list socket) -> reads (socket_lines socket) (socket_rules socket).
Proof.
  destruct socket as [s|]; [|fixed_text]. cbn [option_list socket_lines socket_rules].
  intros Hs%Forall_cons_1. destruct Hs as [Hs _].
  apply (reads_app [_] _ [_]); [by apply reads_unix_socket|].
  by apply (reads_app [_] [_] [_]); apply reads_allow.
Qed.

Lemma no_socket data : has_socket data = false -> control_socket data = None /\ llm_socket data = None.
Proof. unfold has_socket. destruct (control_socket data), (llm_socket data); done. Qed.

Lemma reads_net data : data_ok data -> reads (net_lines data) (net_rules data).
Proof.
  intros [_ _ _ Hc Hl]. unfold net_lines, net_rules. destruct (has_socket data) eqn:Es.
  - destruct (allow_network data); cbn [andb].
    + apply reads_app; [unfold network_lines, network_rules; by reads|].
      apply reads_app; [by apply reads_socket|]. apply reads_drop; [by apply reads_socket|fixed_text].
    + rewrite app_nil_r, (app_nil_l (socket_rules _ ++ _)). apply reads_skip; [fixed_text|].
      apply reads_app; [by apply reads_socket|]. apply reads_drop; [by apply reads_socket|fixed_text].
  - apply no_socket in Es as [-> ->]. destruct (allow_network data); [|fixed_text].
    apply reads_drop; [|fixed_text]. cbn [socket_rules app]. rewrite app_nil_r. fixed_text.
Qed.

Lemma reads_service data : reads (service_lines data) (service_rules data).
Proof.
  unfold service_lines, service_rules, services. apply reads_app; [fixed_text|]. destruct (allow_network data); reads.
Qed.

(** The reader gets the rules out of the text, whatever the validated paths are. *)
Lemma read_profile_text data : data_ok data -> read_profile (profile_text data) = Some (header_rules ++ granted data).
Proof.
  intros Hok. assert (H : reads (header_lines ++ system_lines (sb_tty data) ++ user_lines data ++ exec_lines data
    ++ net_lines data ++ service_lines data) (header_rules ++ granted data)).
  { rewrite <- (take_drop 3 header_lines) at 1. rewrite <- app_assoc. apply reads_app; [apply reads_header|].
    rewrite app_assoc. apply reads_app; [apply reads_system|]. apply reads_app; [by apply reads_user|].
    apply reads_app; [by apply reads_exec|]. apply reads_app; [by apply reads_net|apply reads_service]. }
  unfold read_profile, profile_text. rewrite run_app, H.
  generalize (header_rules ++ granted data). intros r. cbn. by rewrite app_nil_r, rev_involutive.
Qed.

(** ** What the text allows *)

Section Under.
Context (subpath : bytes -> bytes -> bool).

(** [q] is below one of the paths [l]. *)
Definition under (l : list bytes) (q : bytes) : Prop := exists p, p ∈ l /\ subpath p q = true.

Lemma under_app l k q : under (l ++ k) q <-> under l q \/ under k q.
Proof. unfold under. set_solver. Qed.

Lemma under_if (b : bool) l q : under (if b then l else []) q <-> b = true /\ under l q.
Proof. destruct b; [tauto|]. split; [|by intros []]. intros (p & Hp & _). by apply elem_of_nil in Hp. Qed.
End Under.

Section Allows.
Context (subpath regex : bytes -> bytes -> bool).
Abbreviation lets := (permits subpath regex).

Definition applies (op : bytes) (t : Target) (r : sexp) : bool :=
  match r with
  | Form (Atom _ :: Atom pat :: filters) =>
    op_matches pat op && match filters with [] => true | _ => existsb (matches subpath regex t) filters end
  | _ => false
  end.

Definition allowing (r : sexp) : Prop := exists pat filters, r = Form (Atom (bs "allow") :: Atom pat :: filters).

Lemma permits_allowing op t b rules : Forall allowing rules ->
  fold_left (verdict subpath regex op t) rules b = b || existsb (applies op t) rules.
Proof.
  intros H. revert b. induction H as [|r rules (pat & fs & ->) _ IH]; intros b; [by rewrite orb_false_r|].
  cbn [fold_left existsb]. rewrite IH. unfold verdict, applies.
  destruct (op_matches pat op && _); cbn; [by rewrite orb_true_r|done].
Qed.

Lemma allowing_rules o f l : Forall allowing (map (rule o f) l).
Proof. apply List.Forall_map, List.Forall_forall. intros a _. by eexists _, _. Qed.

Lemma granted_allowing data : Forall allowing (granted data).
Proof.
  unfold granted, system_rules, user_rules, exec_rules, net_rules, network_rules, service_rules.
  repeat (apply Forall_app; split); repeat case_match; repeat (apply Forall_app; split); try apply allowing_rules;
    try (repeat constructor; by eexists _, _).
  - apply List.Forall_concat, List.Forall_map, List.Forall_forall. intros a _. repeat constructor; by eexists _, _.
  - constructor; [by eexists _, _|]. repeat (apply Forall_app; split); apply allowing_rules.
  - destruct (control_socket data); repeat constructor; by eexists _, _.
  - destruct (llm_socket data); repeat constructor; by eexists _, _.
Qed.

Lemma permits_granted data op t : lets (header_rules ++ granted data) op t = existsb (applies op t) (granted data).
Proof.
  unfold permits. rewrite fold_left_app, permits_allowing by apply granted_allowing.
  enough (fold_left (verdict subpath regex op t) header_rules true = false) as -> by done.
  unfold header_rules, verdict. cbn [fold_left]. destruct (op_matches (bs "1") op); reflexivity.
Qed.

(** Whether a filter of the kind [f] with one of the arguments [l] matches. *)
Definition hits (f : string) (t : Target) (l : list bytes) : bool :=
  existsb (fun a => matches subpath regex t (Form [Atom (bs f); Str a])) l.

Lemma applies_rules op t o f l : existsb (applies op t) (map (rule o f) l) = op_matches (bs o) op && hits f t l.
Proof.
  unfold hits. induction l as [|a l IH]; [by rewrite andb_false_r|]. cbn [map existsb]. rewrite IH.
  unfold rule at 1. cbn [applies existsb]. rewrite orb_false_r. by rewrite andb_orb_distrib_r.
Qed.

Lemma applies_rule op t o f a : applies op t (rule o f a) = op_matches (bs o) op && hits f t [a].
Proof. done. Qed.

Lemma applies_writes op t l :
  existsb (applies op t) (concat (map (fun p => [rule "file-read*" "subpath" p; rule "file-write*" "subpath" p]) l)) =
  (op_matches (bs "file-read*") op || op_matches (bs "file-write*") op) && hits "subpath" t l.
Proof.
  unfold hits. induction l as [|a l IH]; [by rewrite andb_false_r|]. cbn [map concat]. rewrite existsb_app, IH.
  cbn [existsb]. rewrite !applies_rule. unfold hits. cbn [existsb].
  destruct (op_matches _ op), (op_matches _ op), (matches _ _ t _); done.
Qed.

Lemma applies_sockets op t socket : existsb (applies op t) (socket_rules socket) =
  (op_matches (bs "network-outbound") op && existsb (fun s => matches subpath regex t
     (Form [Atom (bs "remote"); Atom (bs "unix-socket"); Form [Atom (bs "path-literal"); Str s]])) (option_list socket)) ||
  ((op_matches (bs "file-read*") op || op_matches (bs "file-write*") op) && hits "literal" t (option_list socket)).
Proof.
  destruct socket as [s|]; [|cbn; by rewrite !andb_false_r]. cbn [socket_rules option_list existsb].
  rewrite !applies_rule. unfold hits, socket_rule. cbn [applies existsb].
  destruct (op_matches _ op), (op_matches _ op), (op_matches _ op); repeat rewrite ?orb_false_r, ?orb_true_r, ?andb_true_l;
    cbn; rewrite ?orb_false_r, ?orb_diag; try done.
Qed.

(** ** The policy, operation by operation *)

Definition sockets (data : ProfileData) : list bytes := option_list (control_socket data) ++ option_list (llm_socket data).
Definition read_dirs (data : ProfileData) : list bytes :=
  SYS_PATHS ++ [bs "/dev/fd"] ++ [bs "/private/etc/ssl"] ++ sb_read_paths data ++ sb_write_paths data
  ++ (if sb_allow_keychain data then KEYCHAIN_PATHS else []).
Definition read_files (data : ProfileData) : list bytes :=
  bs "/" :: ANCESTORS ++ DEVICES ++ ETC_FILES ++ sockets data ++ (if allow_network data then NETWORK_FILES else []).

Lemma hits_subpath q l : hits "subpath" (Path q) l = true <-> under subpath l q.
Proof.
  unfold hits, under. rewrite existsb_exists. split; intros (p & Hp & H); exists p; by rewrite list_elem_of_In in *.
Qed.

Lemma existsb_eq q l : existsb (fun a : bytes => bool_decide (a = q)) l = true <-> q ∈ l.
Proof.
  rewrite existsb_exists, list_elem_of_In. split.
  - intros (p & Hp & H). bsplit. by subst.
  - intros H. exists q. split; [done|by apply bool_decide_eq_true].
Qed.

Lemma hits_literal q l : hits "literal" (Path q) l = true <-> q ∈ l.
Proof.
  rewrite <- existsb_eq. unfold hits. f_equiv. induction l as [|a l IH]; [done|]. cbn [existsb]. rewrite IH. f_equal.
  cbn. by rewrite orb_false_r.
Qed.

Lemma hits_none f t l : (forall a, matches subpath regex t (Form [Atom (bs f); Str a]) = false) -> hits f t l = false.
Proof. intros H. unfold hits. induction l as [|a l IH]; [done|]. cbn [existsb]. by rewrite H, IH. Qed.

Lemma existsb_if {A} (f : A -> bool) (b : bool) l : existsb f (if b then l else []) = b && existsb f l.
Proof. by destruct b. Qed.

Lemma op_star pre o : op_matches (pre ++ bs "*") (pre ++ o) = true.
Proof.
  unfold op_matches. replace (strip_suffix (bs "*") (pre ++ bs "*")) with (Some pre).
  - rewrite (proj2 (starts_with_spec pre (pre ++ o))) by (by eexists). by rewrite orb_true_r.
  - symmetry. by apply strip_suffix_Some.
Qed.

Lemma op_metadata o : o <> bs "-metadata" -> op_matches (bs "file-read-metadata") (bs "file-read" ++ o) = false.
Proof.
  intros Ho. unfold op_matches. rewrite (bool_decide_eq_false_2 (bs "file-read-metadata" = bs "file-read" ++ o)); [done|].
  change (bs "file-read-metadata") with (bs "file-read" ++ bs "-metadata"). intros E%app_inv_head. by subst.
Qed.

(** Evaluates which rules are about an operation. *)
Ltac rule_ops op :=
  repeat match goal with
  | |- context [op_matches (bs ?pat) op] =>
    first [ change (op_matches (bs pat) op) with false
          | change (op_matches (bs pat) op) with true
          | replace (op_matches (bs pat) op) with true by (symmetry; apply (op_star (bs "file-write")))
          | replace (op_matches (bs pat) op) with true by (symmetry; apply (op_star (bs "file-read")))
          | rewrite op_metadata by done ]
  end.

Ltac policy :=
  rewrite permits_granted;
  unfold granted, system_rules, user_rules, exec_rules, net_rules, network_rules, service_rules, form, socket_rule;
  repeat (rewrite ?existsb_app, ?existsb_if, ?applies_rules, ?applies_writes, ?applies_sockets, ?applies_rule;
          cbn [existsb applies]);
  match goal with |- context [lets _ ?op _] => idtac | |- context [op_matches _ ?op] => rule_ops op end;
  repeat (rewrite ?andb_false_r, ?orb_false_r; cbn [andb orb]).

Lemma elem_of_if (b : bool) (l : list bytes) q : q ∈ (if b then l else []) <-> b = true /\ q ∈ l.
Proof. destruct b; set_solver. Qed.

(** Turns what [policy] leaves into membership in the lists of paths. *)
Ltac paths :=
  repeat (progress rewrite ?orb_true_iff, ?andb_true_iff); rewrite ?hits_subpath, ?hits_literal; unfold read_dirs, read_files, sockets;
  rewrite ?under_app, ?under_if, ?elem_of_cons, ?elem_of_app, ?elem_of_if, ?elem_of_nil.

Lemma policy_write data o q : lets (header_rules ++ granted data) (bs "file-write" ++ o) (Path q) = true <->
  under subpath (sb_write_paths data) q \/ q = bs "/dev/null" \/ q ∈ sockets data.
Proof.
  policy. paths. tauto.
Qed.

Lemma policy_exec data q : lets (header_rules ++ granted data) (bs "process-exec") (Path q) = true <->
  under subpath (map bs ["/usr"; "/bin"; "/opt/homebrew"]%string ++ sb_exec_paths data ++ sb_write_paths data) q.
Proof. policy. paths. tauto. Qed.

Lemma policy_read data o q : o <> bs "-metadata" ->
  lets (header_rules ++ granted data) (bs "file-read" ++ o) (Path q) = true <->
  under subpath (read_dirs data) q \/ q ∈ read_files data.
Proof.
  intros Ho. policy. paths. tauto.
Qed.

Lemma policy_metadata data q :
  lets (header_rules ++ granted data) (bs "file-read-metadata") (Path q) = true <->
  under subpath (read_dirs data) q \/ q ∈ read_files data \/
  q ∈ mount_ancestors (sb_read_paths data ++ sb_write_paths data) \/ (allow_network data = true /\ under subpath META_PATHS q).
Proof. policy. paths. tauto. Qed.

Lemma hits_socket q l : existsb (fun s => matches subpath regex (UnixSocket q)
  (Form [Atom (bs "remote"); Atom (bs "unix-socket"); Form [Atom (bs "path-literal"); Str s]])) l = true <-> q ∈ l.
Proof. rewrite <- existsb_eq. f_equiv. Qed.

Lemma policy_unix data s :
  lets (header_rules ++ granted data) (bs "network-outbound") (UnixSocket s) = true <->
  s ∈ sockets data \/ (allow_network data = true /\ s = bs "/private/var/run/mDNSResponder").
Proof.
  policy. change (matches subpath regex (UnixSocket s) (Form [Atom (bs "remote"); Atom (bs "unix-socket");
    Form [Atom (bs "path-literal"); Str (bs "/private/var/run/mDNSResponder")]]))
    with (bool_decide (bs "/private/var/run/mDNSResponder" = s)).
  rewrite !orb_true_iff, andb_true_iff, bool_decide_eq_true, !hits_socket. unfold sockets. rewrite elem_of_app.
  split; [intros [[? <-]|]|intros [|[? ->]]]; tauto.
Qed.

Lemma policy_outbound data t : allow_network data = false ->
  lets (header_rules ++ granted data) (bs "network-outbound") t = true -> exists s, t = UnixSocket s /\ s ∈ sockets data.
Proof.
  intros Hn. policy. rewrite Hn. cbn [andb orb].
  rewrite orb_true_iff, !existsb_exists. intros [(s & Hs & H)|(s & Hs & H)]; exists s; destruct t as [| |p| | | | |];
    try discriminate H; change (bool_decide (s = p) = true) in H; bsplit; subst; (split; [done|]);
    apply elem_of_app; rewrite !list_elem_of_In; tauto.
Qed.

Lemma policy_tcp data : lets (header_rules ++ granted data) (bs "network-outbound") Tcp = allow_network data.
Proof.
  policy. change (matches subpath regex Tcp (Form [Atom (bs "remote"); Atom (bs "tcp")])) with true.
  destruct (allow_network data); [done|]. cbn [andb orb]. by destruct (control_socket data), (llm_socket data).
Qed.

Definition OPERATIONS : list bytes :=
  map bs ["process-fork"; "signal"; "file-ioctl"; "process-exec"; "network-outbound"; "system-socket"; "mach-lookup";
          "ipc-posix-shm-read-data"; "sysctl-read"]%string.

Lemma op_plain pat op : strip_suffix (bs "*") pat = None -> pat <> bs "default" ->
  op_matches pat op = true -> op = pat.
Proof.
  intros Hs Hd. unfold op_matches. rewrite Hs, bool_decide_eq_false_2 by done. cbn [orb]. rewrite orb_false_r. intros H.
  by bsplit.
Qed.

Lemma op_prefix pre op : op_matches (pre ++ bs "*") op = true -> pre ++ bs "*" <> bs "default" ->
  starts_with pre op = true.
Proof.
  unfold op_matches. intros H Hd. rewrite bool_decide_eq_false_2 in H by done. cbn [orb] in H.
  rewrite (proj2 (strip_suffix_Some (bs "*") (pre ++ bs "*") pre) eq_refl) in H.
  apply orb_true_iff in H as [H|H]; [bsplit; subst|done]. apply starts_with_spec. by eexists.
Qed.

Lemma op_listed pat op : pat ∈ OPERATIONS -> op_matches pat op = true -> op ∈ OPERATIONS.
Proof.
  intros Hp H. assert (HF : Forall (fun pat => strip_suffix (bs "*") pat = None /\ pat <> bs "default") OPERATIONS)
    by by_eval. rewrite list.Forall_forall in HF. destruct (HF pat Hp). by rewrite (op_plain pat op).
Qed.

Lemma policy_closed data op t : lets (header_rules ++ granted data) op t = true ->
  op ∈ OPERATIONS \/ starts_with (bs "file-read") op = true \/ starts_with (bs "file-write") op = true.
Proof.
  intros H. destruct (decide (op ∈ OPERATIONS)) as [|Ho]; [by left|]. right.
  destruct (starts_with (bs "file-read") op) eqn:Hr; [by left|]. right.
  destruct (starts_with (bs "file-write") op) eqn:Hw; [done|]. exfalso. revert H. apply not_true_iff_false. policy.
  assert (Hp : forall pat, bs pat ∈ OPERATIONS -> op_matches (bs pat) op = false).
  { intros pat Hp. apply not_true_iff_false. intros H. by apply Ho, (op_listed (bs pat)). }
  assert (H1 : op_matches (bs "file-read*") op = false).
  { apply not_true_iff_false. intros H. by rewrite (op_prefix (bs "file-read")) in Hr. }
  assert (H2 : op_matches (bs "file-write*") op = false).
  { apply not_true_iff_false. intros H. by rewrite (op_prefix (bs "file-write")) in Hw. }
  assert (H3 : op_matches (bs "file-read-metadata") op = false).
  { apply not_true_iff_false. intros H. apply op_plain in H; [|done..]. by subst. }
  rewrite H1, H2, H3, !Hp by by_eval. cbn [andb orb]. by rewrite !andb_false_r.
Qed.

(** What the rules of a profile allow. *)
Record enforces (data : ProfileData) (rules : list sexp) : Prop := {
  enforces_write o q : lets rules (bs "file-write" ++ o) (Path q) = true <->
    under subpath (sb_write_paths data) q \/ q = bs "/dev/null" \/ q ∈ sockets data;
  enforces_exec q : lets rules (bs "process-exec") (Path q) = true <->
    under subpath (map bs ["/usr"; "/bin"; "/opt/homebrew"]%string ++ sb_exec_paths data ++ sb_write_paths data) q;
  enforces_read o q : o <> bs "-metadata" -> lets rules (bs "file-read" ++ o) (Path q) = true <->
    under subpath (read_dirs data) q \/ q ∈ read_files data;
  enforces_metadata q : lets rules (bs "file-read-metadata") (Path q) = true <->
    under subpath (read_dirs data) q \/ q ∈ read_files data \/
    (exists p k, p ∈ sb_read_paths data ++ sb_write_paths data /\ (0 < k < length (mount_comps p))%nat /\
       q = spell (take k (mount_comps p))) \/
    (allow_network data = true /\ under subpath META_PATHS q);
  enforces_tcp : lets rules (bs "network-outbound") Tcp = allow_network data;
  enforces_unix s : lets rules (bs "network-outbound") (UnixSocket s) = true <->
    s ∈ sockets data \/ (allow_network data = true /\ s = bs "/private/var/run/mDNSResponder");
  enforces_outbound t : allow_network data = false -> lets rules (bs "network-outbound") t = true ->
    exists s, t = UnixSocket s /\ s ∈ sockets data;
  enforces_rest op t : lets rules op t = true ->
    op ∈ OPERATIONS \/ starts_with (bs "file-read") op = true \/ starts_with (bs "file-write") op = true;
}.

Lemma granted_enforces data : enforces data (header_rules ++ granted data).
Proof.
  constructor; intros; eauto using policy_write, policy_exec, policy_read, policy_tcp, policy_unix, policy_outbound,
    policy_closed.
  rewrite policy_metadata. by rewrite (proj1 (mount_ancestors_spec _)).
Qed.
End Allows.

Lemma generate_profile_frame disk dir data : frame (fun p => p = push dir (bs "profile.sb")) (generate_profile disk dir data).
Proof.
  apply frame_bind; [by intros fs p|]. intros _. apply frame_bind; [by apply frame_from_io, frame_fs_write|]. intros _.
  apply frame_bind; [by apply frame_from_io, frame_chmod|]. intros _. apply frame_ret.
Qed.

Lemma generate_profile_cases disk dir data fs fs' r : generate_profile disk dir data fs = (fs', r) ->
  let path := push dir (bs "profile.sb") in
  (exists e, validate_data data = Err e /\ fs' = fs /\ r = Err e) \/
  (validate_data data = Ok tt /\ exists e, r = Err (Io e)) \/
  (validate_data data = Ok tt /\ r = Ok path /\
   fs' !! path = Some {| contents := profile_text data; mode := 256 |}).
Proof.
  unfold generate_profile. set (path := push dir (bs "profile.sb")). unfold mbind at 1, ST_bind at 1.
  destruct (validate_data data) as [[]|e] eqn:Hv; [|intros [= <- <-]; left; by exists e].
  unfold mbind, ST_bind. destruct (from_io (fs_write disk path _) fs) as [fs1 [[]|e]] eqn:E1.
  2:{ intros [= <- <-]. apply from_io_err in E1 as [m ->]. right. left. split; [done|by eexists]. }
  destruct (from_io (set_permissions disk path 256) fs1) as [fs2 [[]|e]] eqn:E2.
  2:{ intros [= <- <-]. apply from_io_err in E2 as [m ->]. right. left. split; [done|by eexists]. }
  intros [= <- <-]. right. right. split; [done|]. split; [done|]. apply from_io_ok in E1, E2. apply fs_write_ok in E1 as [m E1].
  unfold set_permissions in E2. case_match; [|done]. simplify_eq. by rewrite lookup_alter_eq, E1.
Qed.

Lemma generate_profile_ok subpath regex disk dir data fs fs' path : data_strings data ->
  generate_profile disk dir data fs = (fs', Ok path) -> exists text rules,
    fs' !! path = Some {| contents := text; mode := 256 |} /\ read_profile text = Some rules /\
    enforces subpath regex data rules.
Proof.
  intros Hs Hrun. apply generate_profile_cases in Hrun as [(e & _ & _ & ?)|[(_ & e & ?)|(Hv & [= ->] & Hf)]]; [done..|].
  exists (profile_text data), (header_rules ++ granted data). split; [done|]. split; [|apply granted_enforces].
  apply read_profile_text. by apply validate_data_ok.
Qed.

(** C33: the profile is the policy it is meant to be.  If [generate_profile] succeeds, the file it names is there,
    readable only by its owner, and its text, read as a profile, allows exactly this, whatever characters the paths
    contain: writing below the write paths, to [/dev/null] and the two sockets; executing below the system's
    directories, the exec paths and the write paths; reading the listed system paths, the read and write paths; the
    metadata of these and of the directories above them; without network access, connecting to the two sockets and
    to nothing else; and no operation outside a fixed list.  It succeeds only if all paths are absolute, without
    [..] and made of letters, digits and the characters [/_. -@+]; when it fails without an error of the file system,
    one of the paths is not so and the file system is unchanged; and no file but the profile is ever changed. *)
Theorem generate_profile_enforces subpath regex disk dir data fs fs' r :
  data_strings data -> generate_profile disk dir data fs = (fs', r) ->
  (forall path, path <> push dir (bs "profile.sb") -> fs' !! path = fs !! path) /\
  match r with
  | Ok path => path = push dir (bs "profile.sb") /\ Forall good_path (data_paths data) /\ exists text rules,
      fs' !! path = Some {| contents := text; mode := 256 |} /\ read_profile text = Some rules /\
      enforces subpath regex data rules
  | Err e => validate_data data = Err e /\ ~ Forall good_path (data_paths data) /\ fs' = fs \/ exists m, e = Io m
  end.
Proof.
  intros Hs Hrun. split.
  { intros path Hp. pose proof (generate_profile_frame disk dir data fs path Hp) as H. by rewrite Hrun in H. }
  destruct r as [path|e].
  - pose proof (generate_profile_ok subpath regex _ _ _ _ _ _ Hs Hrun) as Hok.
    apply generate_profile_cases in Hrun as [(e & _ & _ & ?)|[(_ & e & ?)|(Hv & [= ->] & _)]]; [done..|].
    by rewrite <- validate_data_good.
  - apply generate_profile_cases in Hrun as [(e' & Hv & ? & [= ->])|[(_ & m & [= ->])|(_ & ? & _)]];
      [left|right; by eexists|done].
    rewrite <- validate_data_good, Hv by done. done.
Qed.

(** ** The data of the profile *)

(** The fields of [Config] that the macOS launcher puts in the profile. *)
Record Config : Type := {
  cfg_profile : Profile;
  socket_dir : bytes;
  network_proxy_socket : option bytes;
  cfg_tty : bool;
}.

Definition add_missing (exec_paths : list bytes) (p : bytes) : list bytes :=
  if decide (p ∈ exec_paths) then exec_paths else exec_paths ++ [p].

Lemma elem_of_add_missing l exec_paths p : p ∈ fold_left add_missing l exec_paths <-> p ∈ exec_paths \/ p ∈ l.
Proof.
  revert exec_paths. induction l as [|q l IH]; intros e; simpl; [set_solver|]. rewrite IH. unfold add_missing.
  case_decide; set_solver.
Qed.

Section Launch.
(** [std::fs::canonicalize], [Path::exists] and the variable [HOME]. *)
Context (canonicalize : bytes -> option bytes) (path_exists : bytes -> bool) (home : option bytes).

Definition uv_cache_path : option bytes :=
  match home with
  | Some h => if Utf8.valid h then Some (push h (bs "Library/Caches/uv")) else None
  | None => None
  end.

Definition canon (p : bytes) : bytes :=
  match canonicalize p with
  | Some c => Utf8.lossy c
  | None =>
    match parent p, file_name p with
    | Some dir, Some name =>
      match canonicalize dir with
      | Some cp => Utf8.lossy (push cp name)
      | None => Utf8.lossy p
      end
    | _, _ => Utf8.lossy p
    end
  end.

(** The read paths without the Keychain. *)
Definition launch_read_paths (cfg : Config) : list bytes :=
  map canon (read_paths (cfg_profile cfg))
  ++ (if decide (socket_dir cfg = []) then [] else [canon (socket_dir cfg)])
  ++ match uv_cache_path with
     | Some uv_cache => if path_exists uv_cache then [canon uv_cache] else []
     | None => []
     end.

Definition launch_write_paths (cfg : Config) (tmp_dir : bytes) : list bytes :=
  map canon (write_paths (cfg_profile cfg)) ++ [Utf8.lossy tmp_dir].

(** The directory of the command. *)
Definition command_dir (cmd : bytes) : list bytes :=
  match parent (canon cmd) with
  | Some dir => if decide (dir = []) then [] else [Utf8.lossy dir]
  | None => []
  end.

Definition keychain_dir (cfg : Config) : list bytes :=
  if allow_keychain (cfg_profile cfg) then
    match home with
    | Some home =>
      let kc := push home (bs "Library/Keychains") in
      if path_exists kc then [canon kc] else []
    | None => []
    end
  else [].

Definition launch_sockets (cfg : Config) : option bytes * option bytes :=
  (if decide (socket_dir cfg = []) then None else Some (canon (push (socket_dir cfg) (bs "control.sock"))),
   canon <$> network_proxy_socket cfg).

Definition profile_data (cfg : Config) (cmd tmp_dir : bytes) : ProfileData :=
  let proxy_mode := bool_decide (is_Some (network_proxy_socket cfg)) in
  let network := match seccomp_profile (cfg_profile cfg) with Baseline => negb proxy_mode | _ => false end in
  let read_paths := launch_read_paths cfg in
  let write_paths := launch_write_paths cfg tmp_dir in
  let exec_paths := command_dir cmd in
  let exec_paths := if allow_exec (cfg_profile cfg) then fold_left add_missing read_paths exec_paths else exec_paths in
  let read_paths := read_paths ++ keychain_dir cfg in
  {| sb_read_paths := read_paths; sb_write_paths := write_paths; sb_exec_paths := exec_paths;
     control_socket := (launch_sockets cfg).1; llm_socket := (launch_sockets cfg).2; allow_network := network;
     sb_allow_keychain := allow_keychain (cfg_profile cfg); sb_tty := cfg_tty cfg |}.

Lemma canon_valid p : Utf8.valid (canon p) = true.
Proof. unfold canon. repeat case_match; apply Utf8.valid_decode, Utf8.decode_lossy. Qed.

Lemma lossy_is_valid p : Utf8.valid (Utf8.lossy p) = true.
Proof. apply Utf8.valid_decode, Utf8.decode_lossy. Qed.

(** Membership in a list of at most one element. *)
Ltac one H := first [by apply elem_of_nil in H | apply list_elem_of_singleton in H as ->].

Lemma launch_read_valid cfg p : p ∈ launch_read_paths cfg -> Utf8.valid p = true.
Proof.
  unfold launch_read_paths. rewrite !elem_of_app. intros [(q & -> & _)%list_elem_of_fmap|[H|H]]; [apply canon_valid|..];
    repeat case_match; one H; apply canon_valid.
Qed.

Lemma command_dir_valid cmd p : p ∈ command_dir cmd -> Utf8.valid p = true.
Proof.
  unfold command_dir. repeat case_match; intros Hp; one Hp. apply lossy_is_valid.
Qed.

(** The paths of the profile are texts. *)
Lemma profile_data_strings cfg cmd tmp : data_strings (profile_data cfg cmd tmp).
Proof.
  unfold data_strings, profile_data, launch_sockets, launch_write_paths.
  cbn [sb_read_paths sb_write_paths sb_exec_paths control_socket llm_socket fst snd].
  apply list.Forall_forall. intros p. rewrite !elem_of_app.
  intros [[H|H]|[[(q & -> & _)%list_elem_of_fmap|H]|[H|[H|H]]]].
  - by eapply launch_read_valid.
  - revert H. unfold keychain_dir. repeat case_match; intros Hp; one Hp. apply canon_valid.
  - apply canon_valid.
  - one H. apply lossy_is_valid.
  - destruct (allow_exec (cfg_profile cfg)); [|by eapply command_dir_valid].
    apply elem_of_add_missing in H as [H|H]; [by eapply command_dir_valid|by eapply launch_read_valid].
  - case_decide; one H. apply canon_valid.
  - destruct (network_proxy_socket cfg); one H. apply canon_valid.
Qed.
End Launch.

(** C34: what the launcher's configuration grants on macOS.  Once the profile is written, it lets the command write
    only below the canonical write paths and the temporary directory (and to [/dev/null] and the sockets); execute
    only below the system's directories, the command's own directory, the write paths and, if execution is allowed,
    the read paths, but never by way of the Keychain's directory; and use the network only if the profile is the
    baseline one and no proxy is configured: otherwise it can connect to the two sockets and to nothing else. *)
Theorem launch_confines subpath regex canonicalize path_exists home disk cfg cmd tmp fs fs' path :
  generate_profile disk tmp (profile_data canonicalize path_exists home cfg cmd tmp) fs = (fs', Ok path) ->
  let write := launch_write_paths canonicalize cfg tmp in
  let read := launch_read_paths canonicalize path_exists home cfg in
  let socket s := (launch_sockets canonicalize cfg).1 = Some s \/ (launch_sockets canonicalize cfg).2 = Some s in
  exists text rules, fs' !! path = Some {| contents := text; mode := 256 |} /\ read_profile text = Some rules /\
  (forall o q, permits subpath regex rules (bs "file-write" ++ o) (Path q) = true <->
     under subpath write q \/ q = bs "/dev/null" \/ socket q) /\
  (forall q, permits subpath regex rules (bs "process-exec") (Path q) = true <->
     under subpath (map bs ["/usr"; "/bin"; "/opt/homebrew"]%string ++ command_dir canonicalize cmd ++ write) q \/
     (allow_exec (cfg_profile cfg) = true /\ under subpath read q)) /\
  (forall t, permits subpath regex rules (bs "network-outbound") t = true ->
     (exists s, t = UnixSocket s /\ socket s) \/
     (seccomp_profile (cfg_profile cfg) = Baseline /\ network_proxy_socket cfg = None)).
Proof.
  intros Hrun write read socket.
  destruct (generate_profile_ok subpath regex disk tmp _ fs fs' path (profile_data_strings _ _ _ _ _ _) Hrun)
    as (text & rules & Hf & Hr & Hpol).
  exists text, rules. split; [done|]. split; [done|].
  assert (Hs : forall s, s ∈ sockets (profile_data canonicalize path_exists home cfg cmd tmp) <-> socket s).
  { intros s. unfold sockets, socket. cbn [control_socket llm_socket profile_data]. rewrite elem_of_app.
    destruct (launch_sockets _ _) as [[a|] [b|]]; cbn; rewrite ?list_elem_of_singleton, ?elem_of_nil; naive_solver. }
  split; [|split].
  - intros o q. by rewrite (enforces_write _ _ _ _ Hpol), Hs.
  - intros q. rewrite (enforces_exec _ _ _ _ Hpol), !under_app. cbn [sb_exec_paths sb_write_paths profile_data].
    destruct (allow_exec (cfg_profile cfg)); [|naive_solver].
    enough (under subpath (fold_left add_missing read (command_dir canonicalize cmd)) q <->
      under subpath (command_dir canonicalize cmd) q \/ under subpath read q) by naive_solver.
    rewrite <- under_app. unfold under. setoid_rewrite elem_of_add_missing. by setoid_rewrite elem_of_app.
  - intros t Ht. destruct (allow_network (profile_data canonicalize path_exists home cfg cmd tmp)) eqn:En.
    + right. revert En. cbn. destruct (seccomp_profile _); [done|split; [done|]]. by destruct (network_proxy_socket cfg).
    + left. destruct (enforces_outbound _ _ _ _ Hpol t En Ht) as (s & -> & Hs'). exists s. split; [done|]. by apply Hs.
Qed.

(** ** A profile *)

Definition demo_data : ProfileData :=
  {| sb_read_paths := [bs "/Users/me/src"]; sb_write_paths := [bs "/private/tmp/t1"]; sb_exec_paths := [];
     control_socket := Some (bs "/private/tmp/s/control.sock"); llm_socket := None; allow_network := false;
     sb_allow_keychain := false; sb_tty := true |}.

Definition demo_subpath (p q : bytes) : bool := path_starts_with q p.

Lemma generate_profile_enforces_witness : exists rules,
  enforces demo_subpath (fun _ _ => false) demo_data rules /\
  permits demo_subpath (fun _ _ => false) rules (bs "file-write-data") (Path (bs "/private/tmp/t1/out")) = true /\
  permits demo_subpath (fun _ _ => false) rules (bs "file-write-data") (Path (bs "/Users/me/src/a")) <> true.
Proof.
  destruct (generate_profile_enforces demo_subpath (fun _ _ => false) demo_disk (bs "/private/tmp/t1") demo_data ∅
    (generate_profile demo_disk (bs "/private/tmp/t1") demo_data ∅).1
    (Ok (bs "/private/tmp/t1/profile.sb"))) as (_ & _ & _ & text & rules & _ & _ & H).
  - by_eval.
  - vm_compute. reflexivity.
  - exists rules. split; [exact H|].
    change (bs "file-write-data") with (bs "file-write" ++ bs "-data"). rewrite !(enforces_write _ _ _ _ H). split.
    + left. exists (bs "/private/tmp/t1"). split; [by_eval|reflexivity].
    + intros [(p & Hp & Hs)|[E|E]].
      * apply list_elem_of_singleton in Hp as ->. discriminate Hs.
      * discriminate E.
      * apply list_elem_of_singleton in E. discriminate E.
Defined.

Definition demo_config : Config :=
  {| cfg_profile := demo_profile [bs "/Users/me/src"] [bs "/Users/me/out"]; socket_dir := [];
     network_proxy_socket := None; cfg_tty := false |}.

Lemma launch_confines_witness : exists rules,
  permits demo_subpath (fun _ _ => false) rules (bs "process-exec") (Path (bs "/Users/me/src/run")) <> true /\
  permits demo_subpath (fun _ _ => false) rules (bs "network-outbound") Tcp <> true.
Proof.
  destruct (launch_confines demo_subpath (fun _ _ => false) Some (fun _ => false) (Some (bs "/Users/me")) demo_disk
    demo_config (bs "/opt/tool/bin/tool") (bs "/private/tmp/t1") ∅
    (generate_profile demo_disk (bs "/private/tmp/t1") (profile_data Some (fun _ => false) (Some (bs "/Users/me"))
       demo_config (bs "/opt/tool/bin/tool") (bs "/private/tmp/t1")) ∅).1 (bs "/private/tmp/t1/profile.sb"))
    as (text & rules & _ & _ & _ & Hx & Hn).
  - vm_compute. reflexivity.
  - exists rules. split.
    + rewrite Hx. intros [(p & Hp & Hs)|[E _]]; [|discriminate E].
      revert Hs. apply not_true_iff_false. revert p Hp. apply list.Forall_forall. by_eval.
    + intros [(s & E & _)|[E _]]%Hn; discriminate E.
Defined.
