(* ===== verification/Dns.v ===== *)
(** * Dns: DNS query capture

    [dns.rs] (the query parser, the NXDOMAIN answer, the names of the query
    types) and [dns_serve] of [bridge.rs], the server loop that audits every
    query of the sandboxed program and answers it with NXDOMAIN.  The parser's
    [pos] is modelled by the suffix [&buf[pos..]]. *)

From S2P Require Import Prelude Text Json.

Record DnsQuery : Type := {
  id : Z;
  domain : bytes;
  qtype : Z;
  qclass : Z;
}.

Definition HEADER_LEN : Z := 12.
Definition MAX_NAME_LEN : Z := 253.
Definition MAX_LABEL_LEN : Z := 63.

Definition label_char (b : Z) : bool :=
  is_ascii_alphanumeric b || (b =? ch "-") || (b =? ch "_").

(** The loop that reads the QNAME; it returns the labels and what follows. *)
Fixpoint qname_loop (fuel : nat) (labels : list bytes) (name_len : Z) (p : bytes)
  : option (list bytes * bytes) :=
  match fuel with
  | O => None
  | S f =>
    match p with
    | [] => None
    | label_len :: p =>
      if label_len =? 0 then Some (labels, p)
      else if MAX_LABEL_LEN <? label_len then None
      else if len p <? label_len then None
      else
        let label := take (Z.to_nat label_len) p in
        if negb (forallb label_char label) then None
        else if negb (Utf8.valid label) then None
        else
          let name_len := if decide (labels = []) then name_len else name_len + 1 in
          let name_len := name_len + label_len in
          if MAX_NAME_LEN <? name_len then None
          else qname_loop f (labels ++ [label]) name_len (drop (Z.to_nat label_len) p)
    end
  end.

Definition parse_query (buf : bytes) : option DnsQuery :=
  match buf with
  | b0 :: b1 :: b2 :: b3 :: b4 :: b5 :: _ :: _ :: _ :: _ :: _ :: _ :: p =>
    let id := be16 b0 b1 in
    let flags := be16 b2 b3 in
    if negb (Z.land flags 0x8000 =? 0) then None
    else
      let qdcount := be16 b4 b5 in
      if qdcount =? 0 then None
      else
        '(labels, p) ← qname_loop (S (length p)) [] 0 p;
        match p with
        | t0 :: t1 :: c0 :: c1 :: _ =>
          let qtype := be16 t0 t1 in
          let qclass := be16 c0 c1 in
          let domain := if decide (labels = []) then bs "." else join (bs ".") labels in
          Some {| id := id; domain := domain; qtype := qtype; qclass := qclass |}
        | _ => None
        end
  | _ => None (* [buf.len() < HEADER_LEN] *)
  end.

(** The loop of [build_nxdomain] that walks past the QNAME: [pos] and the
    bytes from there on. *)
Fixpoint walk_loop (fuel : nat) (pos : Z) (p : bytes) : option (Z * bytes) :=
  match fuel with
  | O => None
  | S f =>
    match p with
    | [] => None
    | label_len :: p =>
      let pos := pos + 1 in
      if label_len =? 0 then Some (pos, p)
      else if (MAX_LABEL_LEN <? label_len) || (len p <? label_len) then None
      else walk_loop f (pos + label_len) (drop (Z.to_nat label_len) p)
    end
  end.

Definition build_nxdomain (query_buf : bytes) (id : Z) : bytes :=
  match query_buf with
  | _ :: _ :: q2 :: q3 :: _ :: _ :: _ :: _ :: _ :: _ :: _ :: _ :: p =>
    match walk_loop (S (length p)) HEADER_LEN p with
    | None => []
    | Some (pos, p) =>
      if len p <? 4 then []
      else
        let pos := pos + 4 in
        let orig_flags := be16 q2 q3 in
        let opcode := Z.land orig_flags 0x7800 in
        let rd := Z.land orig_flags 0x0100 in
        let new_flags := Z.lor (Z.lor (Z.lor (Z.lor 0x8000 opcode) 0x0400) rd) 0x0003 in
        [wrap 8 (Z.shiftr id 8); wrap 8 id;
         wrap 8 (Z.shiftr new_flags 8); wrap 8 new_flags;
         0; 1; 0; 0; 0; 0; 0; 0]
        ++ take (Z.to_nat (pos - HEADER_LEN)) (drop (Z.to_nat HEADER_LEN) query_buf)
    end
  | _ => []
  end.

Definition qtype_name (qtype : Z) : bytes :=
  if qtype =? 1 then bs "A" else if qtype =? 2 then bs "NS"
  else if qtype =? 5 then bs "CNAME" else if qtype =? 6 then bs "SOA"
  else if qtype =? 12 then bs "PTR" else if qtype =? 15 then bs "MX"
  else if qtype =? 16 then bs "TXT" else if qtype =? 28 then bs "AAAA"
  else if qtype =? 33 then bs "SRV" else if qtype =? 35 then bs "NAPTR"
  else if qtype =? 43 then bs "DS" else if qtype =? 46 then bs "RRSIG"
  else if qtype =? 48 then bs "DNSKEY" else if qtype =? 52 then bs "TLSA"
  else if qtype =? 65 then bs "HTTPS" else if qtype =? 255 then bs "ANY"
  else bs "OTHER".

(** ** The server loop *)

(** What the kernel does for one iteration: a failed receive, or a datagram
    (at most the 4096 bytes of [buf]) from [src] together with the outcomes of
    the writes to the non-blocking audit pipe. *)
Inductive WriteOutcome : Type := Written | WouldBlock | WriteFailed.

Inductive DnsInput : Type :=
| RecvError (kind_interrupted_or_would_block : bool)
| Datagram (buf : bytes) (src : Z) (line_write summary_write : WriteOutcome).

(** The effects of an iteration, in order. *)
Inductive DnsAction : Type :=
| Sleep
| AuditLine (line : bytes) (outcome : WriteOutcome)
| AuditSummary (dropped : Z) (line : bytes) (outcome : WriteOutcome)
| SendTo (resp : bytes) (src : Z).

Definition audit_record (domain qtype : bytes) : bytes :=
  [ch "{"] ++ key "domain" ++ [dquote] ++ domain ++ [dquote; ch ","]
  ++ key "qtype" ++ [dquote] ++ qtype ++ [dquote; ch "}"; 10].

Definition dns_line (buf : bytes) : bytes :=
  match parse_query buf with
  | Some query => audit_record (json_escape (domain query)) (qtype_name (qtype query))
  | None => audit_record (bs "<unparseable>") (bs "UNKNOWN")
  end.

Definition dropped_record (dropped : Z) : bytes :=
  [ch "{"] ++ key "dropped" ++ dec dropped ++ [ch "}"; 10].

(** One iteration of [dns_serve]'s loop; [dropped] is the loop variable. *)
Definition dns_step (dropped : Z) (i : DnsInput) : Z * list DnsAction :=
  match i with
  | RecvError ok_kind => (dropped, if ok_kind then [] else [Sleep])
  | Datagram buf src line_write summary_write =>
    match buf with
    | b0 :: b1 :: b2 :: _ =>
      if (len buf <? 12) || negb (Z.land b2 0x80 =? 0) then (dropped, [])
      else
        let id := be16 b0 b1 in
        let line := dns_line buf in
        let audit := AuditLine line line_write in
        let '(dropped, summary) :=
          match line_write with
          | WouldBlock => (wrap 64 (dropped + 1), [])
          | _ => if 0 <? dropped
                 then (0, [AuditSummary dropped (dropped_record dropped) summary_write])
                 else (dropped, [])
          end in
        let resp := build_nxdomain buf id in
        (dropped, audit :: summary ++ if decide (resp = []) then [] else [SendTo resp src])
    | _ => (dropped, [])
    end
  end.

Fixpoint dns_serve (dropped : Z) (l : list DnsInput) : Z * list DnsAction :=
  match l with
  | [] => (dropped, [])
  | i :: l =>
    let '(dropped, acts) := dns_step dropped i in
    let '(dropped, rest) := dns_serve dropped l in
    (dropped, acts ++ rest)
  end.

(** ** The grammar of a query *)

Definition label_ok (l : bytes) : Prop :=
  l <> [] /\ len l <= MAX_LABEL_LEN /\ forallb label_char l = true.

Definition encode_name (labels : list bytes) : bytes :=
  concat (map (fun l => len l :: l) labels) ++ [0].

Definition dotted (labels : list bytes) : bytes := join (bs ".") labels.

Definition name_ok (labels : list bytes) : Prop :=
  Forall label_ok labels /\ len (dotted labels) <= MAX_NAME_LEN.

(** A query with one question: header, name, type and class. *)
Definition question (labels : list bytes) (t0 t1 c0 c1 : Z) : bytes :=
  encode_name labels ++ [t0; t1; c0; c1].

Lemma dotted_snoc ls x :
  len (dotted (ls ++ [x])) = (if decide (ls = []) then len (dotted ls) else len (dotted ls) + 1) + len x.
Proof.
  unfold dotted. induction ls as [|y ls IH]; [done|]. destruct ls as [|z ls].
  - rewrite decide_False by done. cbn [app join]. rewrite !len_app.
    change (len (bs ".")) with 1. lia.
  - rewrite !decide_False in * by done. cbn [app] in *.
    change (join (bs ".") (y :: z :: ?l)) with (y ++ bs "." ++ join (bs ".") (z :: l)).
    rewrite !len_app, IH. lia.
Qed.

Lemma dotted_mono ls ks : len (dotted ls) <= len (dotted (ls ++ ks)).
Proof.
  revert ls. induction ks as [|k ks IH]; intros ls; [by rewrite app_nil_r|].
  change (ls ++ k :: ks) with (ls ++ [k] ++ ks). rewrite app_assoc.
  transitivity (len (dotted (ls ++ [k]))); [|apply IH]. rewrite dotted_snoc.
  pose proof (len_nonneg k). case_decide; lia.
Qed.

Lemma label_char_ascii l : forallb label_char l = true -> Forall (fun c => 0 <= c < 128) l.
Proof.
  rewrite forallb_forall, List.Forall_forall. intros H c Hc. specialize (H c Hc).
  unfold label_char, is_ascii_alphanumeric, is_ascii_digit, is_ascii_upper, is_ascii_lower in H.
  change (ch "-") with 45 in H. change (ch "_") with 95 in H. cbn beta. lia.
Qed.

Lemma encode_name_cons l ls : encode_name (l :: ls) = len l :: l ++ encode_name ls.
Proof. unfold encode_name. cbn [map concat app]. by rewrite <- app_assoc. Qed.

(** One label of the loop. *)
Lemma qname_loop_label f acc l p : label_ok l -> len (dotted (acc ++ [l])) <= MAX_NAME_LEN ->
  qname_loop (S f) acc (len (dotted acc)) (len l :: l ++ p)
  = qname_loop f (acc ++ [l]) (len (dotted (acc ++ [l]))) p.
Proof.
  intros (Hne & Hl & Hc) Hn. cbn [qname_loop]. rewrite len_app.
  assert (0 < len l) by (destruct l; [done|]; rewrite len_cons; pose proof (len_nonneg l); lia).
  pose proof (len_nonneg p). do 3 (bcase; [lia|]).
  replace (Z.to_nat (len l)) with (length l) by (unfold len; lia).
  rewrite take_app_length, drop_app_length, Hc. cbn [negb].
  rewrite Utf8.valid_ascii by (by apply label_char_ascii). cbn [negb].
  rewrite dotted_snoc in *. bcase; [lia|done].
Qed.

Lemma qname_loop_complete labels fuel acc r : Forall label_ok labels ->
  len (dotted (acc ++ labels)) <= MAX_NAME_LEN -> (length (encode_name labels) <= fuel)%nat ->
  qname_loop fuel acc (len (dotted acc)) (encode_name labels ++ r) = Some (acc ++ labels, r).
Proof.
  intros Hl. revert fuel acc. induction Hl as [|l labels Hl Hls IH]; intros fuel acc Hn Hf.
  - destruct fuel; [simpl in Hf; lia|]. cbn. by rewrite app_nil_r.
  - destruct fuel as [|fuel]; [simpl in Hf; lia|].
    rewrite encode_name_cons in *. cbn [app length] in *. rewrite <- app_assoc.
    change (acc ++ l :: labels) with (acc ++ [l] ++ labels) in *.
    rewrite (app_assoc acc) in Hn |- *. rewrite qname_loop_label; [|done|].
    2:{ pose proof (dotted_mono (acc ++ [l]) labels). lia. }
    apply IH; [done|]. rewrite length_app in Hf. lia.
Qed.

Lemma qname_loop_sound fuel acc p ls r : Forall is_u8 p -> len (dotted acc) <= MAX_NAME_LEN ->
  qname_loop fuel acc (len (dotted acc)) p = Some (ls, r) ->
  exists labels, ls = acc ++ labels /\ p = encode_name labels ++ r /\ Forall label_ok labels /\
    len (dotted ls) <= MAX_NAME_LEN.
Proof.
  revert acc p. induction fuel as [|f IH]; intros acc p Hp Ha H; [done|]. cbn [qname_loop] in H.
  destruct p as [|n p]; [done|]. apply Forall_cons_1 in Hp as [Hn Hp].
  destruct (n =? 0) eqn:En; bsplit.
  { injection H as <- <-. subst n. exists []. by rewrite app_nil_r. }
  do 2 (bcase; [done|]). destruct (forallb label_char _) eqn:Hc; [|done]. cbn [negb] in H.
  destruct (Utf8.valid _); [|done]. cbn [negb] in H.
  set (l := take (Z.to_nat n) p) in *. set (q := drop (Z.to_nat n) p) in *.
  assert (Hlq : p = l ++ q) by (symmetry; apply take_drop).
  assert (Hl : len l = n) by (subst l; unfold len, is_u8 in *; rewrite length_take; lia).
  bcase; [done|]. rewrite <- Hl in H, E1. rewrite <- dotted_snoc in H, E1.
  apply IH in H as (labels & -> & Hq & Hls & Hd); [|by apply Forall_drop|lia].
  clearbody l q. subst p n. exists (l :: labels). split_and!; [by rewrite <- app_assoc| | |done].
  - rewrite Hq, encode_name_cons. cbn [app]. by rewrite <- app_assoc.
  - apply Forall_cons; [|done]. split_and!; [by intros ->|lia|done].
Qed.

(** The name parser: it reads exactly the encoding of an admissible name. *)
Lemma qname_spec p ls r : Forall is_u8 p ->
  qname_loop (S (length p)) [] 0 p = Some (ls, r) <-> p = encode_name ls ++ r /\ name_ok ls.
Proof.
  intros Hp. split.
  - intros H. apply (qname_loop_sound _ []) in H as (l & -> & -> & Hl & Hd); [by split|done|done].
  - intros [-> [Hl Hd]]. apply (qname_loop_complete ls _ []); [done|done|].
    rewrite length_app. lia.
Qed.

(** ** The parser accepts exactly the well-formed queries *)

Lemma qr_bit b2 b3 : is_u8 b2 -> is_u8 b3 -> Z.land (be16 b2 b3) 0x8000 = 0 <-> b2 < 128.
Proof.
  unfold is_u8, be16. intros H2 H3. change 0x8000 with (2 ^ 15). rewrite land_pow2_0 by lia.
  change (2 ^ 15) with 32768. destruct (decide (b2 < 128)).
  - rewrite Z.div_small by lia. split; [lia|done].
  - replace ((256 * b2 + b3) / 32768) with 1 by (Z.to_euclidean_division_equations; lia).
    split; [done|lia].
Qed.

(** [is_query buf q]: [buf] is the wire form of the query [q]: a header with
    QR = 0 and at least one question, then the first question. *)
Definition is_query (buf : bytes) (q : DnsQuery) : Prop :=
  exists b0 b1 b2 b3 b4 b5 h labels t0 t1 c0 c1 rest,
    buf = [b0; b1; b2; b3; b4; b5] ++ h ++ question labels t0 t1 c0 c1 ++ rest /\
    length h = 6%nat /\ b2 < 128 /\ be16 b4 b5 <> 0 /\ name_ok labels /\
    q = {| id := be16 b0 b1;
           domain := if decide (labels = []) then bs "." else dotted labels;
           qtype := be16 t0 t1; qclass := be16 c0 c1 |}.

Lemma parse_query_grammar buf q : Forall is_u8 buf -> parse_query buf = Some q <-> is_query buf q.
Proof.
  intros Hb. split.
  - intros H. do 12 (destruct buf as [|? buf]; [done|]).
    repeat match goal with H : Forall is_u8 (_ :: _) |- _ => apply Forall_cons_1 in H as [? H] end.
    unfold parse_query in H. bcase; [done|]. bcase; [done|]. apply qr_bit in E; [|done|done].
    destruct (qname_loop _ _ _ _) as [[ls r]|] eqn:Eq; [|done]. apply qname_spec in Eq as [-> Hn]; [|done].
    cbn [mbind option_bind] in H. destruct r as [|t0 [|t1 [|c0 [|c1 r]]]]; try done. injection H as <-.
    do 6 eexists. eexists [_; _; _; _; _; _], ls, t0, t1, c0, c1, r.
    split_and!; [|done|exact E|exact E0|done|done].
    unfold question. cbn [app]. by rewrite <- !app_assoc.
  - intros (b0 & b1 & b2 & b3 & b4 & b5 & h & ls & t0 & t1 & c0 & c1 & rest & -> & Hh & H2 & Hq & Hn & ->).
    do 6 (destruct h as [|? h]; [done|]). destruct h; [|done]. cbn [app] in *.
    repeat match goal with H : Forall is_u8 (_ :: _) |- _ => apply Forall_cons_1 in H as [? H] end.
    unfold parse_query. destruct (Z.land _ _ =? 0) eqn:E; bsplit; [|by rewrite qr_bit in E].
    cbn [negb]. bcase; [done|]. unfold question. rewrite <- app_assoc.
    destruct (qname_spec (encode_name ls ++ [t0; t1; c0; c1] ++ rest) ls ([t0; t1; c0; c1] ++ rest)) as [_ ->];
      [by unfold question in Hb; rewrite <- app_assoc in Hb|done|done].
Qed.

(** C32: [parse_query] is exact.  A datagram is parsed as the query [q] if and
    only if it is a 12-byte header of a query (QR = 0, at least one question)
    followed by the wire encoding of a name of labels in [[A-Za-z0-9_-]] (each
    1 to 63 bytes long, at most 253 with the dots), a type and a class; the
    result holds that ID, the dotted name, the type and the class. *)
Theorem parse_query_spec buf q : Forall is_u8 buf -> parse_query buf = Some q <-> is_query buf q.
Proof. apply parse_query_grammar. Qed.

Definition demo_query : bytes :=
  [18; 52; 1; 0; 0; 1; 0; 0; 0; 0; 0; 0] ++ question [bs "www"; bs "example-1"; bs "com"] 0 28 0 1.

Lemma parse_query_spec_witness : parse_query demo_query =
  Some {| id := 4660; domain := bs "www.example-1.com"; qtype := 28; qclass := 1 |}.
Proof.
  apply (parse_query_spec demo_query); [by_eval|].
  exists 18, 52, 1, 0, 0, 1, (repeat 0 6), [bs "www"; bs "example-1"; bs "com"], 0, 28, 0, 1, [].
  split_and!; try reflexivity; [discriminate|]. split; [|vm_compute; discriminate].
  repeat (apply Forall_cons; [split_and!; [discriminate|vm_compute; discriminate|reflexivity]|]).
  apply Forall_nil_2.
Defined.

(** ** The NXDOMAIN answer *)

(** [walk_loop] finds the end of an encoded name (whatever its characters). *)
Lemma walk_loop_spec ls fuel pos r : Forall (fun l => 1 <= len l <= MAX_LABEL_LEN) ls ->
  (length (encode_name ls) <= fuel)%nat ->
  walk_loop fuel pos (encode_name ls ++ r) = Some (pos + len (encode_name ls), r).
Proof.
  intros Hl. revert fuel pos. induction Hl as [|l ls Hl _ IH]; intros fuel pos Hf.
  - destruct fuel; [simpl in Hf; lia|]. done.
  - rewrite encode_name_cons in *. cbn [length] in Hf. rewrite length_app in Hf.
    destruct fuel as [|f]; [lia|]. cbn [app walk_loop]. rewrite <- app_assoc, len_app.
    pose proof (len_nonneg (encode_name ls ++ r)). bcase; [lia|].
    destruct ((MAX_LABEL_LEN <? len l) || (len l + len (encode_name ls ++ r) <? len l)) eqn:E1.
    { apply orb_true_iff in E1 as [?|?]; bsplit; lia. }
    replace (Z.to_nat (len l)) with (length l) by (unfold len; lia).
    rewrite drop_app_length, IH by lia. rewrite len_cons, len_app. do 2 f_equal. lia.
Qed.

Definition nx_flags (orig_flags : Z) : Z :=
  Z.lor (Z.lor (Z.lor (Z.lor 0x8000 (Z.land orig_flags 0x7800)) 0x0400) (Z.land orig_flags 0x0100)) 0x0003.

(** The two flag bytes of the answer, from those of the query: QR and AA set,
    opcode and RD kept, TC cleared; RA and Z cleared, RCODE = 3. *)
Lemma nx_flags_bytes b2 b3 : is_u8 b2 -> is_u8 b3 ->
  wrap 8 (Z.shiftr (nx_flags (be16 b2 b3)) 8) = 0x84 + Z.land b2 0x79 /\
  wrap 8 (nx_flags (be16 b2 b3)) = 3.
Proof.
  intros H2 H3. assert (K : forallb (fun x => forallb (fun y =>
    (wrap 8 (Z.shiftr (nx_flags (be16 x y)) 8) =? 0x84 + Z.land x 0x79) && (wrap 8 (nx_flags (be16 x y)) =? 3))
    (seqZ 0 256)) (seqZ 0 256) = true) by (vm_compute; reflexivity).
  rewrite forallb_forall in K. specialize (K b2). rewrite forallb_forall in K.
  rewrite <- !list_elem_of_In, !elem_of_seqZ in K. specialize (K ltac:(unfold is_u8 in *; lia) b3).
  rewrite <- list_elem_of_In, elem_of_seqZ in K. specialize (K ltac:(unfold is_u8 in *; lia)). by bsplit.
Qed.

Lemma build_nxdomain_question b0 b1 b2 b3 h ls t0 t1 c0 c1 rest i :
  length h = 8%nat -> Forall (fun l => 1 <= len l <= MAX_LABEL_LEN) ls -> is_u8 b2 -> is_u8 b3 ->
  build_nxdomain ([b0; b1; b2; b3] ++ h ++ question ls t0 t1 c0 c1 ++ rest) i =
  be16_bytes i ++ [0x84 + Z.land b2 0x79; 3; 0; 1; 0; 0; 0; 0; 0; 0] ++ question ls t0 t1 c0 c1.
Proof.
  intros Hh Hl H2 H3. do 8 (destruct h as [|? h]; [done|]). destruct h; [|done].
  destruct (nx_flags_bytes b2 b3 H2 H3) as [F1 F2]. unfold question at 1. cbn [app]. rewrite <- app_assoc.
  unfold build_nxdomain. rewrite walk_loop_spec by (done || (rewrite length_app; lia)).
  rewrite len_app. change (len [t0; t1; c0; c1]) with 4.
  pose proof (len_nonneg rest). destruct (4 + len rest <? 4) eqn:E; bsplit; [lia|].
  fold (nx_flags (be16 b2 b3)). rewrite F1, F2.
  change (drop (Z.to_nat HEADER_LEN) (b0 :: b1 :: b2 :: b3 :: ?z0 :: ?z1 :: ?z2 :: ?z3 :: ?z4 :: ?z5 :: ?z6 :: ?z7 :: ?l))
    with (drop 0 l). rewrite drop_0, app_assoc.
  replace (Z.to_nat _) with (length (question ls t0 t1 c0 c1)).
  2:{ unfold question, len. rewrite length_app. simpl length. lia. }
  change (encode_name ls ++ [t0; t1; c0; c1]) with (question ls t0 t1 c0 c1). by rewrite take_app_length.
Qed.

Lemma land_mask_bound b : is_u8 b -> 0 <= Z.land b 0x79 <= 0x79.
Proof.
  intros Hb. assert (K : forallb (fun x => (0 <=? Z.land x 0x79) && (Z.land x 0x79 <=? 0x79)) (seqZ 0 256) = true)
    by (vm_compute; reflexivity).
  rewrite forallb_forall in K. specialize (K b). rewrite <- list_elem_of_In, elem_of_seqZ in K.
  specialize (K ltac:(unfold is_u8 in *; lia)). bsplit. lia.
Qed.

Lemma be16_bytes_be16 hi lo : is_u8 hi -> is_u8 lo -> be16_bytes (be16 hi lo) = [hi; lo].
Proof.
  unfold is_u8, be16_bytes, be16, wrap. intros. rewrite shiftr_div by lia. change (2 ^ 8) with 256.
  repeat f_equal; Z.to_euclidean_division_equations; lia.
Qed.

(** Every query that is parsed is answered, and the answer is a well-formed
    NXDOMAIN response to it: the same ID, the question echoed unchanged, one
    question and no records, QR and AA set, opcode and RD copied, RCODE = 3;
    it is no longer than the query, and is itself not taken for a query. *)
Theorem nxdomain_answers buf q : Forall is_u8 buf -> parse_query buf = Some q ->
  exists b2 qn, buf !! 2%nat = Some b2 /\ qn `prefix_of` drop 12 buf /\
    build_nxdomain buf (id q)
      = take 2 buf ++ [0x84 + Z.land b2 0x79; 3; 0; 1; 0; 0; 0; 0; 0; 0] ++ qn /\
    len (build_nxdomain buf (id q)) <= len buf /\
    parse_query (build_nxdomain buf (id q)) = None.
Proof.
  intros Hb Hq. pose proof Hq as Hq'.
  apply parse_query_grammar in Hq as (b0 & b1 & b2 & b3 & b4 & b5 & h & ls & t0 & t1 & c0 & c1 & rest & E & Hh & H2 & H4 & [Hl Hd] & ->);
    [|done]. clear Hq'. cbn [id].
  assert (Hu : is_u8 b0 /\ is_u8 b1 /\ is_u8 b2 /\ is_u8 b3).
  { rewrite E in Hb. cbn [app] in Hb.
    repeat match goal with H : Forall is_u8 (_ :: _) |- _ => apply Forall_cons_1 in H as [? H] end. done. }
  destruct Hu as (U0 & U1 & U2 & U3).
  change (buf = [b0; b1; b2; b3] ++ (b4 :: b5 :: h) ++ question ls t0 t1 c0 c1 ++ rest) in E.
  assert (Hbn : build_nxdomain buf (be16 b0 b1) = [b0; b1] ++
    [0x84 + Z.land b2 0x79; 3; 0; 1; 0; 0; 0; 0; 0; 0] ++ question ls t0 t1 c0 c1).
  { rewrite E, build_nxdomain_question; [by rewrite be16_bytes_be16|simpl; lia| |done|done].
    eapply Forall_impl; [|exact Hl]. intros l (Hne & ? & _).
    destruct l; [done|]. rewrite len_cons in *. pose proof (len_nonneg l). lia. }
  exists b2, (question ls t0 t1 c0 c1). rewrite Hbn. split_and!.
  - by rewrite E.
  - rewrite E. do 6 (destruct h as [|? h]; [done|]). destruct h; [|done]. cbn [app drop]. rewrite ?drop_0. by eexists.
  - by rewrite E.
  - rewrite E. unfold len. rewrite !length_app. cbn [length]. rewrite Hh. lia.
  - cbn [app]. unfold parse_query. destruct (Z.land (be16 _ 3) _ =? 0) eqn:Ef; [|done].
    bsplit. destruct (land_mask_bound b2 U2). apply qr_bit in Ef; [lia|unfold is_u8; lia|done].
Qed.

Lemma nxdomain_answers_witness :
  exists q b2 qn, parse_query demo_query = Some q /\ demo_query !! 2%nat = Some b2 /\
    build_nxdomain demo_query (id q)
      = take 2 demo_query ++ [0x84 + Z.land b2 0x79; 3; 0; 1; 0; 0; 0; 0; 0; 0] ++ qn.
Proof.
  eexists. destruct (nxdomain_answers demo_query
    {| id := 4660; domain := bs "www.example-1.com"; qtype := 28; qclass := 1 |})
    as (b2 & qn & H1 & _ & H2 & _); [by_eval|vm_compute; reflexivity|].
  exists b2, qn. split_and!; [vm_compute; reflexivity|exact H1|exact H2].
Defined.

(** ** The audit stream *)

Definition name_char (b : Z) : bool := label_char b || (b =? ch ".").

Lemma json_escape_name s : forallb name_char s = true -> json_escape s = s.
Proof.
  intros H. assert (Hs : Forall (fun c => 32 < c < 128 /\ c <> dquote /\ c <> backslash) s).
  { rewrite forallb_forall in H. apply List.Forall_forall. intros c Hc. specialize (H c Hc).
    unfold name_char, label_char, is_ascii_alphanumeric, is_ascii_digit, is_ascii_upper, is_ascii_lower in H.
    change (ch "-") with 45 in H. change (ch "_") with 95 in H. change (ch ".") with 46 in H.
    unfold dquote, backslash. cbn beta. lia. }
  unfold json_escape, Utf8.chars.
  rewrite Utf8.decode_ascii by (eapply Forall_impl; [|exact Hs]; cbn; lia). change (default [] (Some s)) with s.
  induction Hs as [|c s (Hc & Hq & Hb) _ IH]; [done|]. cbn [map concat].
  rewrite IH by (cbn [forallb] in H; by bsplit). unfold escape_char. repeat (bcase; try lia).
  by rewrite Utf8.encode_ascii by lia.
Qed.

Lemma dotted_name_chars ls : Forall label_ok ls -> forallb name_char (dotted ls) = true.
Proof.
  assert (K : forall l, label_ok l -> forallb name_char l = true).
  { intros l (_ & _ & H). rewrite forallb_forall in *. intros c Hc. unfold name_char. by rewrite (H c Hc). }
  unfold dotted. induction 1 as [|l ls Hl Hls IH]; [done|]. destruct ls as [|k ls]; [by apply K|].
  change (join (bs ".") (l :: k :: ls)) with (l ++ bs "." ++ join (bs ".") (k :: ls)).
  rewrite !forallb_app, IH, K by done. done.
Qed.

(** What the parser returns as a domain. *)
Lemma parse_query_domain buf q : Forall is_u8 buf -> parse_query buf = Some q ->
  forallb name_char (domain q) = true /\ 1 <= len (domain q) <= MAX_NAME_LEN.
Proof.
  intros Hb Hq. apply parse_query_grammar in Hq as
    (b0 & b1 & b2 & b3 & b4 & b5 & h & ls & t0 & t1 & c0 & c1 & rest & _ & _ & _ & _ & [Hl Hd] & ->); [|done].
  cbn [domain]. case_decide as Els; [by split|]. split; [by apply dotted_name_chars|]. split; [|done].
  destruct Hl as [|l ls (Hne & _) _]; [done|]. pose proof (dotted_mono [l] ls) as Hm.
  cbn [app] in Hm. change (dotted [l]) with l in Hm.
  destruct l as [|x l]; [done|]. rewrite len_cons in Hm. pose proof (len_nonneg l). lia.
Qed.

Lemma qtype_name_spec t : forallb name_char (qtype_name t) = true /\ len (qtype_name t) <= 7.
Proof. unfold qtype_name. repeat bcase; by split. Qed.

Lemma name_char_printable s : forallb name_char s = true -> Forall (fun b => 32 <= b) s.
Proof.
  rewrite forallb_forall, List.Forall_forall. intros H c Hc. specialize (H c Hc).
  unfold name_char, label_char, is_ascii_alphanumeric, is_ascii_digit, is_ascii_upper, is_ascii_lower in H.
  change (ch "-") with 45 in H. change (ch "_") with 95 in H. change (ch ".") with 46 in H. cbn beta. lia.
Qed.

Lemma audit_record_line d t : Forall (fun b => 32 <= b) d -> Forall (fun b => 32 <= b) t ->
  exists l, audit_record d t = l ++ [10] /\ Forall (fun b => 32 <= b) l.
Proof.
  intros Hd Ht. exists ([ch "{"] ++ key "domain" ++ [dquote] ++ d ++ [dquote; ch ","]
    ++ key "qtype" ++ [dquote] ++ t ++ [dquote; ch "}"]). split.
  - unfold audit_record. by rewrite <- !app_assoc.
  - repeat (apply Forall_app; split); try done; by_eval.
Qed.

(** Every audit record of the DNS server is one line, short enough
    (at most 300 bytes, below [PIPE_BUF]) to be written atomically to the pipe;
    for a query it carries the queried name itself, which needs no escaping. *)
Theorem dns_line_spec buf : Forall is_u8 buf ->
  len (dns_line buf) <= 300 /\
  (exists l, dns_line buf = l ++ [10] /\ Forall (fun b => 32 <= b) l) /\
  forall q, parse_query buf = Some q ->
    dns_line buf = audit_record (domain q) (qtype_name (qtype q)) /\
    forallb name_char (domain q) = true.
Proof.
  intros Hb. unfold dns_line. destruct (parse_query buf) as [q|] eqn:Eq.
  - destruct (parse_query_domain buf q Hb Eq) as [Hc Hl]. rewrite json_escape_name by done.
    destruct (qtype_name_spec (qtype q)) as [Ht Htl]. split_and!.
    + unfold audit_record. rewrite !len_app. change (len (key "domain")) with 9.
      change (len (key "qtype")) with 8. unfold MAX_NAME_LEN in Hl.
      change (len [_]) with 1. change (len [_; _]) with 2. change (len [_; _; _]) with 3. lia.
    + apply audit_record_line; by apply name_char_printable.
    + intros q' [= <-]. done.
  - split_and!; [vm_compute; discriminate| |done]. apply audit_record_line; by_eval.
Qed.

Lemma dns_line_spec_witness : dns_line demo_query = audit_record (bs "www.example-1.com") (bs "AAAA").
Proof.
  refine (proj1 (proj2 (proj2 (dns_line_spec demo_query _))
    {| id := 4660; domain := bs "www.example-1.com"; qtype := 28; qclass := 1 |} _));
    [by_eval|vm_compute; reflexivity].
Defined.

(** Records lost because the pipe was full, and records reported as lost. *)
Definition blocked (a : DnsAction) : Z := match a with AuditLine _ WouldBlock => 1 | _ => 0 end.
Definition reported (a : DnsAction) : Z := match a with AuditSummary n _ _ => n | _ => 0 end.
Definition total (f : DnsAction -> Z) (l : list DnsAction) : Z := foldr (fun a n => f a + n) 0 l.

Lemma total_app f l k : total f (l ++ k) = total f l + total f k.
Proof. induction l as [|a l IH]; simpl; lia. Qed.

(** The datagrams the server treats as queries: a whole header with QR = 0. *)
Definition query_datagram (i : DnsInput) : option bytes :=
  match i with
  | Datagram buf _ _ _ =>
    if (12 <=? len buf) && (default 0 (buf !! 2%nat) <? 128) then Some buf else None
  | RecvError _ => None
  end.

Definition audit_line (a : DnsAction) : option bytes :=
  match a with AuditLine l _ => Some l | _ => None end.

(** An answer goes back to the sender of a query, and is the NXDOMAIN answer
    to it. *)
Definition answers (i : DnsInput) (a : DnsAction) : Prop :=
  match a, i with
  | SendTo r s, Datagram buf src _ _ => s = src /\ exists id, r = build_nxdomain buf id /\ r <> []
  | SendTo _ _, RecvError _ => False
  | _, _ => True
  end.

Definition input_ok (i : DnsInput) : Prop :=
  match i with Datagram buf _ _ _ => Forall is_u8 buf | RecvError _ => True end.

Lemma qr_byte b : is_u8 b -> Z.land b 0x80 = 0 <-> b < 128.
Proof.
  unfold is_u8. intros Hb. change 0x80 with (2 ^ 7). rewrite land_pow2_0 by lia. change (2 ^ 7) with 128.
  destruct (decide (b < 128)).
  - rewrite Z.div_small by lia. split; [lia|done].
  - replace (b / 128) with 1 by (Z.to_euclidean_division_equations; lia). split; [done|lia].
Qed.

Lemma dns_step_spec d i d' acts : 0 <= d < 2 ^ 64 - 1 -> input_ok i -> dns_step d i = (d', acts) ->
  (d' + total reported acts = d + total blocked acts /\ 0 <= d' <= d + 1) /\
  omap audit_line acts = dns_line <$> option_list (query_datagram i) /\
  Forall (answers i) acts.
Proof.
  intros Hd Hi. destruct i as [ok|buf src lw sw]; cbn [dns_step query_datagram].
  { destruct ok; intros [= <- <-]; (split_and!; [cbn; lia|lia|lia|done|repeat constructor]). }
  destruct buf as [|b0 [|b1 [|b2 buf]]];
    try (intros [= <- <-]; split_and!; [cbn; lia|lia|lia|done|constructor]).
  cbn [input_ok] in Hi. assert (H2 : is_u8 b2) by (by do 2 apply Forall_cons_1 in Hi as [_ Hi]; inv Hi).
  set (b := b0 :: b1 :: b2 :: buf) in *. change (default 0 (b !! 2%nat)) with b2.
  assert (Eg : ((len b <? 12) || negb (Z.land b2 0x80 =? 0)) = negb ((12 <=? len b) && (b2 <? 128))).
  { apply bool_eq_iff. pose proof (qr_byte b2 H2). rewrite negb_andb, !orb_true_iff, !negb_true_iff.
    rewrite Z.ltb_lt, Z.leb_gt, Z.eqb_neq, Z.ltb_ge. lia. }
  rewrite Eg. destruct ((12 <=? len b) && (b2 <? 128)); cbn [negb].
  2:{ intros [= <- <-]. split_and!; [cbn; lia|lia|lia|done|constructor]. }
  set (resp := build_nxdomain b (be16 b0 b1)).
  assert (Hsend : Forall (answers (Datagram b src lw sw)) (if decide (resp = []) then [] else [SendTo resp src]))
    by (case_decide; repeat constructor; by exists (be16 b0 b1)).
  assert (Ht : forall f, (forall r s, f (SendTo r s) = 0) ->
    total f (if decide (resp = []) then [] else [SendTo resp src]) = 0)
    by (intros f Hf; case_decide; cbn; rewrite ?Hf; lia).
  assert (Ho : omap audit_line (if decide (resp = []) then [] else [SendTo resp src]) = [])
    by by case_decide.
  set (send := if decide (resp = []) then _ else _) in *. clearbody send resp.
  destruct lw; (destruct (0 <? d) eqn:E; bsplit); intros [= <- <-];
    cbn [app total foldr blocked reported];
    fold (total reported send) (total blocked send);
    rewrite ?Ht by done; (split_and!;
      [rewrite ?wrap_small by (unfold is_uint; lia); lia..|cbn; by rewrite Ho|repeat constructor; done]).
Qed.

Lemma dns_serve_gen inputs d0 d acts : 0 <= d0 -> d0 + len inputs < 2 ^ 64 -> Forall input_ok inputs ->
  dns_serve d0 inputs = (d, acts) ->
  omap audit_line acts = dns_line <$> omap query_datagram inputs /\
  (forall r s, SendTo r s ∈ acts -> exists i, i ∈ inputs /\ answers i (SendTo r s)) /\
  d + total reported acts = d0 + total blocked acts.
Proof.
  intros H0 Hn Hi. revert d0 acts H0 Hn. induction Hi as [|i inputs Hi His IH]; intros d0 acts H0 Hn H.
  { injection H as <- <-. split_and!; [done| |cbn; lia]. intros r s Hin. by apply elem_of_nil in Hin. }
  cbn [dns_serve] in H. destruct (dns_step d0 i) as [d1 acts1] eqn:E1.
  destruct (dns_serve d1 inputs) as [d2 acts2] eqn:E2. injection H as <- <-.
  rewrite len_cons in Hn. pose proof (len_nonneg inputs).
  destruct (dns_step_spec d0 i d1 acts1 ltac:(lia) Hi E1) as ((Ha & Hb) & Hl & Hs).
  destruct (IH d1 acts2 ltac:(lia) ltac:(lia) E2) as (Hl2 & Hs2 & Ha2).
  split_and!.
  - rewrite omap_app, Hl, Hl2. cbn [omap list_omap]. by destruct (query_datagram i).
  - intros r s Hin. apply elem_of_app in Hin as [Hin|Hin].
    + exists i. split; [by left|]. rewrite List.Forall_forall in Hs. by apply Hs, list_elem_of_In.
    + destruct (Hs2 r s Hin) as (j & ? & ?). exists j. split; [by right|done].
  - rewrite !total_app. lia.
Qed.

(** What the DNS server does on any run.  There is exactly one audit
    record per query datagram, in order of arrival; every datagram sent is the
    NXDOMAIN answer to a datagram received, sent to its sender; and no loss
    is forgotten: the records the full pipe refused are those reported in
    the summaries plus those counted in [dropped]. *)
Theorem dns_serve_spec inputs d acts : len inputs < 2 ^ 64 -> Forall input_ok inputs ->
  dns_serve 0 inputs = (d, acts) ->
  omap audit_line acts = dns_line <$> omap query_datagram inputs /\
  (forall r s, SendTo r s ∈ acts -> exists i, i ∈ inputs /\ answers i (SendTo r s)) /\
  d + total reported acts = total blocked acts.
Proof.
  intros Hn Hi H. destruct (dns_serve_gen inputs 0 d acts) as (H1 & H2 & H3); [lia|lia|done|done|]. done.
Qed.

Lemma dns_serve_spec_witness :
  let inputs := [Datagram demo_query 9 WouldBlock Written; RecvError true;
                 Datagram demo_query 9 Written Written] in
  exists d acts, dns_serve 0 inputs = (d, acts) /\ d + total reported acts = total blocked acts.
Proof.
  intros inputs. exists (fst (dns_serve 0 inputs)), (snd (dns_serve 0 inputs)).
  split; [vm_compute; reflexivity|]. eapply (dns_serve_spec inputs);
    [reflexivity| |vm_compute; reflexivity].
  repeat (apply Forall_cons; [first [exact I|by_eval]|]). apply Forall_nil_2.
Defined.
