(* ===== verification/Ip.v ===== *)
(** * Ip: which resolved addresses the CONNECT proxy may reach

    [is_safe_resolved_ip] of [bridge.rs] and its helpers, with what they use
    of [std::net].  An IPv4 address is its four octets, an IPv6 address its
    eight 16-bit segments.  The specification is in terms of CIDR blocks of
    32- and 128-bit integers. *)

From S2P Require Import Prelude.

Record Ipv4Addr : Type := Ipv4 { o0 : Z; o1 : Z; o2 : Z; o3 : Z }.
Record Ipv6Addr : Type := Ipv6 { s0 : Z; s1 : Z; s2 : Z; s3 : Z; s4 : Z; s5 : Z; s6 : Z; s7 : Z }.
Inductive IpAddr : Type := V4 (ip : Ipv4Addr) | V6 (ip : Ipv6Addr).

#[export] Instance Ipv4Addr_eq_dec : EqDecision Ipv4Addr.
Proof. solve_decision. Defined.
#[export] Instance Ipv6Addr_eq_dec : EqDecision Ipv6Addr.
Proof. solve_decision. Defined.
#[export] Instance IpAddr_eq_dec : EqDecision IpAddr.
Proof. solve_decision. Defined.

(** ** [std::net] *)

Definition v4_is_loopback (ip : Ipv4Addr) : bool := o0 ip =? 127.
Definition v4_is_private (ip : Ipv4Addr) : bool :=
  (o0 ip =? 10)
  || ((o0 ip =? 172) && (16 <=? o1 ip) && (o1 ip <=? 31))
  || ((o0 ip =? 192) && (o1 ip =? 168)).
Definition v4_is_link_local (ip : Ipv4Addr) : bool := (o0 ip =? 169) && (o1 ip =? 254).
Definition v4_is_broadcast (ip : Ipv4Addr) : bool :=
  (o0 ip =? 255) && (o1 ip =? 255) && (o2 ip =? 255) && (o3 ip =? 255).
Definition v4_is_unspecified (ip : Ipv4Addr) : bool :=
  (o0 ip =? 0) && (o1 ip =? 0) && (o2 ip =? 0) && (o3 ip =? 0).

Definition v6_is_loopback (ip : Ipv6Addr) : bool := bool_decide (ip = Ipv6 0 0 0 0 0 0 0 1).
Definition v6_is_unspecified (ip : Ipv6Addr) : bool := bool_decide (ip = Ipv6 0 0 0 0 0 0 0 0).

(** [((s >> 8) as u8, s as u8)] of two segments. *)
Definition v4_of_segments (hi lo : Z) : Ipv4Addr :=
  Ipv4 (wrap 8 (Z.shiftr hi 8)) (wrap 8 hi) (wrap 8 (Z.shiftr lo 8)) (wrap 8 lo).

(** [Ipv6Addr::to_ipv4]: IPv4-mapped and IPv4-compatible addresses. *)
Definition to_ipv4 (ip : Ipv6Addr) : option Ipv4Addr :=
  if (s0 ip =? 0) && (s1 ip =? 0) && (s2 ip =? 0) && (s3 ip =? 0) && (s4 ip =? 0)
     && ((s5 ip =? 0) || (s5 ip =? 0xffff))
  then Some (v4_of_segments (s6 ip) (s7 ip)) else None.

(** ** [bridge.rs] *)

Definition nat64_embedded_ipv4 (ip : Ipv6Addr) : option Ipv4Addr :=
  if (s0 ip =? 0x0064) && (s1 ip =? 0xff9b) && (s2 ip =? 0) && (s3 ip =? 0) && (s4 ip =? 0)
     && (s5 ip =? 0)
  then Some (Ipv4 (wrap 8 (Z.shiftr (s6 ip) 8)) (wrap 8 (s6 ip))
                  (wrap 8 (Z.shiftr (s7 ip) 8)) (wrap 8 (s7 ip)))
  else None.

Definition is_nat64_local (ip : Ipv6Addr) : bool :=
  (s0 ip =? 0x0064) && (s1 ip =? 0xff9b) && (s2 ip =? 0x0001).

Definition sixto4_embedded_ipv4 (ip : Ipv6Addr) : option Ipv4Addr :=
  if s0 ip =? 0x2002
  then Some (Ipv4 (wrap 8 (Z.shiftr (s1 ip) 8)) (wrap 8 (s1 ip))
                  (wrap 8 (Z.shiftr (s2 ip) 8)) (wrap 8 (s2 ip)))
  else None.

Definition teredo_embedded_ipv4 (ip : Ipv6Addr) : option Ipv4Addr :=
  if (s0 ip =? 0x2001) && (s1 ip =? 0x0000)
  then Some (Ipv4 (Z.lxor (wrap 8 (Z.shiftr (s6 ip) 8)) 0xff) (Z.lxor (wrap 8 (s6 ip)) 0xff)
                  (Z.lxor (wrap 8 (Z.shiftr (s7 ip) 8)) 0xff) (Z.lxor (wrap 8 (s7 ip)) 0xff))
  else None.

Definition is_safe_ipv4 (ip : Ipv4Addr) : bool :=
  negb (v4_is_loopback ip)
  && negb (v4_is_private ip)
  && negb (v4_is_link_local ip)
  && negb (v4_is_broadcast ip)
  && negb (v4_is_unspecified ip)
  && negb (o0 ip =? 0)
  && negb ((o0 ip =? 100) && ((64 <=? o1 ip) && (o1 ip <=? 127)))
  && negb ((o0 ip =? 198) && ((18 <=? o1 ip) && (o1 ip <=? 19)))
  && (o0 ip <? 240).

Definition is_ipv6_link_local (ip : Ipv6Addr) : bool := Z.land (s0 ip) 0xffc0 =? 0xfe80.
Definition is_ipv6_unique_local (ip : Ipv6Addr) : bool := Z.land (s0 ip) 0xfe00 =? 0xfc00.

Definition is_safe_resolved_ip (addr : IpAddr) : bool :=
  match addr with
  | V4 ip => is_safe_ipv4 ip
  | V6 ip =>
    match to_ipv4 ip with
    | Some v4 => is_safe_ipv4 v4
    | None =>
    match nat64_embedded_ipv4 ip with
    | Some embedded => is_safe_ipv4 embedded
    | None =>
    if is_nat64_local ip then false
    else
    match sixto4_embedded_ipv4 ip with
    | Some embedded => is_safe_ipv4 embedded
    | None =>
    match teredo_embedded_ipv4 ip with
    | Some embedded => is_safe_ipv4 embedded
    | None =>
      negb (v6_is_loopback ip) && negb (v6_is_unspecified ip)
      && negb (is_ipv6_link_local ip) && negb (is_ipv6_unique_local ip)
    end end end end
  end.

(** ** Specification: CIDR blocks *)

(** [in_block w base plen x]: the [w]-bit address [x] is in [base/plen]. *)
Definition in_block (w base plen x : Z) : Prop :=
  x / 2 ^ (w - plen) = base / 2 ^ (w - plen).

Definition u32_of (ip : Ipv4Addr) : Z := be32 (o0 ip) (o1 ip) (o2 ip) (o3 ip).

(** Appending a 16-bit segment. *)
Definition seg (n s : Z) : Z := 65536 * n + s.

(** [a.b.c.d] and an IPv6 address as integers. *)
Definition ip4 (a b c d : Z) : Z := be32 a b c d.
Definition ip6 (a b c d e f g h : Z) : Z :=
  fold_left seg [a; b; c; d; e; f; g; h] 0.
Definition u128_of (ip : Ipv6Addr) : Z :=
  ip6 (s0 ip) (s1 ip) (s2 ip) (s3 ip) (s4 ip) (s5 ip) (s6 ip) (s7 ip).

Definition denied_v4 : list (Z * Z) :=
  [ (ip4 0 0 0 0, 8);        (* "this network" *)
    (ip4 10 0 0 0, 8);       (* RFC 1918 *)
    (ip4 100 64 0 0, 10);    (* carrier-grade NAT *)
    (ip4 127 0 0 0, 8);      (* loopback *)
    (ip4 169 254 0 0, 16);   (* link-local, cloud metadata *)
    (ip4 172 16 0 0, 12);    (* RFC 1918 *)
    (ip4 192 168 0 0, 16);   (* RFC 1918 *)
    (ip4 198 18 0 0, 15);    (* benchmarking *)
    (ip4 240 0 0 0, 4) ].    (* reserved, broadcast *)

Definition denied_v6 : list (Z * Z) :=
  [ (ip6 0x64 0xff9b 1 0 0 0 0 0, 48); (* local-use NAT64 *)
    (ip6 0xfe80 0 0 0 0 0 0 0, 10);    (* link-local *)
    (ip6 0xfc00 0 0 0 0 0 0 0, 7) ].   (* unique local *)

(** The IPv4 address a transition mechanism delivers [x] to: block, prefix
    length and where the IPv4 address is.  Loopback and the unspecified
    address are in [::/96] and embed 0.0.0.1 and 0.0.0.0. *)
Definition embeddings : list (Z * Z * (Z -> Z)) :=
  [ (ip6 0 0 0 0 0 0 0 0, 96, fun x => x mod 2 ^ 32);                (* IPv4-compatible *)
    (ip6 0 0 0 0 0 0xffff 0 0, 96, fun x => x mod 2 ^ 32);           (* IPv4-mapped *)
    (ip6 0x64 0xff9b 0 0 0 0 0 0, 96, fun x => x mod 2 ^ 32);        (* NAT64 *)
    (ip6 0x2002 0 0 0 0 0 0 0, 16, fun x => (x / 2 ^ 80) mod 2 ^ 32);(* 6to4 *)
    (ip6 0x2001 0 0 0 0 0 0 0, 32, fun x => 2 ^ 32 - 1 - x mod 2 ^ 32) ]. (* Teredo *)

Definition allowed_v4 (x : Z) : Prop :=
  Forall (fun '(base, plen) => ~ in_block 32 base plen x) denied_v4.

Definition allowed_v6 (x : Z) : Prop :=
  Forall (fun '(base, plen) => ~ in_block 128 base plen x) denied_v6 /\
  Forall (fun '(base, plen, emb) => in_block 128 base plen x -> allowed_v4 (emb x)) embeddings.

Definition v4_ok (ip : Ipv4Addr) : Prop :=
  is_u8 (o0 ip) /\ is_u8 (o1 ip) /\ is_u8 (o2 ip) /\ is_u8 (o3 ip).
#[export] Instance v4_ok_dec ip : Decision (v4_ok ip).
Proof. unfold v4_ok. apply _. Defined.
Definition v6_ok (ip : Ipv6Addr) : Prop :=
  is_uint 16 (s0 ip) /\ is_uint 16 (s1 ip) /\ is_uint 16 (s2 ip) /\ is_uint 16 (s3 ip) /\
  is_uint 16 (s4 ip) /\ is_uint 16 (s5 ip) /\ is_uint 16 (s6 ip) /\ is_uint 16 (s7 ip).
#[export] Instance v6_ok_dec ip : Decision (v6_ok ip).
Proof. unfold v6_ok. apply _. Defined.
Definition ip_ok (a : IpAddr) : Prop := match a with V4 ip => v4_ok ip | V6 ip => v6_ok ip end.

Definition allowed_ip (a : IpAddr) : Prop :=
  match a with V4 ip => allowed_v4 (u32_of ip) | V6 ip => allowed_v6 (u128_of ip) end.

(** ** IPv4 *)

Lemma in_block_range w base plen x : 0 <= w - plen ->
  in_block w base plen x <->
  base / 2 ^ (w - plen) * 2 ^ (w - plen) <= x < base / 2 ^ (w - plen) * 2 ^ (w - plen) + 2 ^ (w - plen).
Proof.
  intros Hp. unfold in_block. assert (0 < 2 ^ (w - plen)) by lia. set (k := 2 ^ (w - plen)) in *.
  clearbody k. pose proof (Z.div_mod x k ltac:(lia)). pose proof (Z.mod_pos_bound x k ltac:(lia)). nia.
Qed.

(** The blocks of [denied_v4] on the octets; each goal is linear arithmetic
    with a constant block. *)
Ltac block :=
  rewrite in_block_range by lia;
  match goal with |- context [ip4 ?p ?q ?r ?s / 2 ^ ?k] =>
    let v := eval vm_compute in (ip4 p q r s / 2 ^ k) in change (ip4 p q r s / 2 ^ k) with v;
    let w := eval vm_compute in (2 ^ k) in change (2 ^ k) with w end;
  unfold ip4, be32, is_u8 in *; lia.

Section V4Blocks.
Context (a b c d : Z) (Ha : is_u8 a) (Hb : is_u8 b) (Hc : is_u8 c) (Hd : is_u8 d).

Lemma in_0_8 : in_block 32 (ip4 0 0 0 0) 8 (ip4 a b c d) <-> a = 0.
Proof. block. Qed.
Lemma in_10_8 : in_block 32 (ip4 10 0 0 0) 8 (ip4 a b c d) <-> a = 10.
Proof. block. Qed.
Lemma in_100_64_10 : in_block 32 (ip4 100 64 0 0) 10 (ip4 a b c d) <-> a = 100 /\ 64 <= b <= 127.
Proof. block. Qed.
Lemma in_127_8 : in_block 32 (ip4 127 0 0 0) 8 (ip4 a b c d) <-> a = 127.
Proof. block. Qed.
Lemma in_169_254_16 : in_block 32 (ip4 169 254 0 0) 16 (ip4 a b c d) <-> a = 169 /\ b = 254.
Proof. block. Qed.
Lemma in_172_16_12 : in_block 32 (ip4 172 16 0 0) 12 (ip4 a b c d) <-> a = 172 /\ 16 <= b <= 31.
Proof. block. Qed.
Lemma in_192_168_16 : in_block 32 (ip4 192 168 0 0) 16 (ip4 a b c d) <-> a = 192 /\ b = 168.
Proof. block. Qed.
Lemma in_198_18_15 : in_block 32 (ip4 198 18 0 0) 15 (ip4 a b c d) <-> a = 198 /\ 18 <= b <= 19.
Proof. block. Qed.
Lemma in_240_4 : in_block 32 (ip4 240 0 0 0) 4 (ip4 a b c d) <-> 240 <= a.
Proof. block. Qed.
End V4Blocks.

Lemma is_safe_ipv4_spec ip : v4_ok ip -> is_safe_ipv4 ip = true <-> allowed_v4 (u32_of ip).
Proof.
  destruct ip as [a b c d]. unfold v4_ok. cbn [o0 o1 o2 o3]. intros (Ha & Hb & Hc & Hd).
  unfold allowed_v4, denied_v4. rewrite !List.Forall_cons_iff, List.Forall_nil_iff.
  change (u32_of (Ipv4 a b c d)) with (ip4 a b c d).
  rewrite in_0_8, in_10_8, in_100_64_10, in_127_8, in_169_254_16, in_172_16_12, in_192_168_16,
    in_198_18_15, in_240_4 by done.
  unfold is_safe_ipv4, v4_is_loopback, v4_is_private, v4_is_link_local, v4_is_broadcast,
    v4_is_unspecified, is_u8 in *. cbn [o0 o1 o2 o3].
  split.
  - intros H. bsplit. split_and!; try done; lia.
  - intros (H1 & H2 & H3 & H4 & H5 & H6 & H7 & H8 & H9 & _).
    repeat (apply andb_true_iff; split); try apply negb_true_iff; lia.
Qed.

(** ** IPv6 *)

(** Checking a property of all values below [n] by evaluation. *)
Lemma check_below n (f : Z -> bool) x : forallb f (seqZ 0 n) = true -> 0 <= x < n -> f x = true.
Proof.
  intros H Hx. rewrite forallb_forall in H. apply H, list_elem_of_In, elem_of_seqZ. lia.
Qed.

(** Masking all but the low [k] bits of a 16-bit integer. *)
Lemma land_high s k : is_uint 16 s -> 0 <= k ->
  Z.land s (Z.ldiff (Z.ones 16) (Z.ones k)) = s / 2 ^ k * 2 ^ k.
Proof.
  intros Hs Hk. replace (Z.land s _) with (Z.ldiff (Z.land s (Z.ones 16)) (Z.ones k)).
  2:{ apply Z.bits_inj'. intros n Hn. rewrite Z.ldiff_spec, !Z.land_spec, Z.ldiff_spec. by rewrite andb_assoc. }
  rewrite Z.land_ones, Z.mod_small by (done || lia).
  by rewrite Z.ldiff_ones_r, Z.shiftl_mul_pow2, Z.shiftr_div_pow2 by lia.
Qed.

Lemma link_local_div s : is_uint 16 s -> Z.land s 0xffc0 = 0xfe80 <-> s / 2 ^ 6 = 0xfe80 / 2 ^ 6.
Proof.
  intros Hs. change 0xffc0 with (Z.ldiff (Z.ones 16) (Z.ones 6)). rewrite land_high by done || lia.
  change (0xfe80 / 2 ^ 6) with 1018. change (2 ^ 6) with 64. lia.
Qed.

Lemma unique_local_div s : is_uint 16 s -> Z.land s 0xfe00 = 0xfc00 <-> s / 2 ^ 9 = 0xfc00 / 2 ^ 9.
Proof.
  intros Hs. change 0xfe00 with (Z.ldiff (Z.ones 16) (Z.ones 9)). rewrite land_high by done || lia.
  change (0xfc00 / 2 ^ 9) with 126. change (2 ^ 9) with 512. lia.
Qed.

Lemma lxor_ff b : is_u8 b -> Z.lxor b 0xff = 255 - b.
Proof.
  intros Hb. apply Z.eqb_eq. by apply (check_below 256 (fun b => Z.lxor b 0xff =? 255 - b)); [vm_compute|].
Qed.

Lemma v4_of_segments_spec hi lo : is_uint 16 hi -> is_uint 16 lo ->
  v4_ok (v4_of_segments hi lo) /\ u32_of (v4_of_segments hi lo) = 65536 * hi + lo.
Proof.
  intros Hh Hl. pose proof (be16_bytes_inv hi Hh). pose proof (be16_bytes_inv lo Hl).
  split; [split_and!; apply wrap8_u8|]. unfold u32_of, v4_of_segments, be32, be16 in *.
  cbn [o0 o1 o2 o3]. lia.
Qed.

(** Numbers in base 65536. *)
Local Infix "▹" := seg (at level 45, left associativity).

Lemma seg_div n s : is_uint 16 s -> (n ▹ s) / 65536 = n.
Proof. unfold is_uint, seg. intros. symmetry. apply Z.div_unique with s; lia. Qed.

Lemma seg_eq n s m t : is_uint 16 s -> is_uint 16 t -> (n ▹ s) = (m ▹ t) <-> n = m /\ s = t.
Proof. unfold is_uint, seg. intros. lia. Qed.

Section V6Blocks.
Context (x : Ipv6Addr) (Hx : v6_ok x).

Lemma div_32 : u128_of x / 2 ^ 32 = 0 ▹ s0 x ▹ s1 x ▹ s2 x ▹ s3 x ▹ s4 x ▹ s5 x.
Proof.
  destruct Hx as (? & ? & ? & ? & ? & ? & ? & ?). change (2 ^ 32) with (65536 * 65536).
  rewrite <- Z.div_div by lia. unfold u128_of, ip6. cbn [fold_left]. by rewrite !seg_div.
Qed.
Lemma div_80 : u128_of x / 2 ^ 80 = 0 ▹ s0 x ▹ s1 x ▹ s2 x.
Proof.
  destruct Hx as (? & ? & ? & ? & ? & ? & ? & ?). change (2 ^ 80) with (2 ^ 32 * (65536 * 65536 * 65536)).
  rewrite <- Z.div_div, div_32, <- !Z.div_div by lia. by rewrite !seg_div.
Qed.
Lemma div_96 : u128_of x / 2 ^ 96 = 0 ▹ s0 x ▹ s1 x.
Proof.
  destruct Hx as (? & ? & ? & ? & ? & ? & ? & ?). change (2 ^ 96) with (2 ^ 80 * 65536).
  rewrite <- Z.div_div, div_80 by lia. by rewrite seg_div.
Qed.
Lemma div_112 : u128_of x / 2 ^ 112 = s0 x.
Proof.
  destruct Hx as (? & ? & ? & ? & ? & ? & ? & ?). change (2 ^ 112) with (2 ^ 96 * 65536).
  rewrite <- Z.div_div, div_96, seg_div by lia || done. done.
Qed.

(** Where the IPv4 address is. *)
Lemma low_32 : u128_of x mod 2 ^ 32 = 65536 * s6 x + s7 x.
Proof.
  destruct Hx as (? & ? & ? & ? & ? & ? & Hg & Hh). symmetry.
  apply Z.mod_unique with (0 ▹ s0 x ▹ s1 x ▹ s2 x ▹ s3 x ▹ s4 x ▹ s5 x).
  - unfold is_uint in *. lia.
  - unfold u128_of, ip6. cbn [fold_left]. generalize (0 ▹ s0 x ▹ s1 x ▹ s2 x ▹ s3 x ▹ s4 x ▹ s5 x).
    intros z. unfold seg. lia.
Qed.
Lemma bits_80 : (u128_of x / 2 ^ 80) mod 2 ^ 32 = 65536 * s1 x + s2 x.
Proof.
  rewrite div_80. destruct Hx as (? & Hb & Hc & _). symmetry.
  apply Z.mod_unique with (s0 x); unfold seg, is_uint in *; lia.
Qed.
End V6Blocks.

(** Membership in a block, by segments. *)
Lemma in_block_96 p x : v6_ok p -> v6_ok x -> in_block 128 (u128_of p) 96 (u128_of x) <->
  s0 x = s0 p /\ s1 x = s1 p /\ s2 x = s2 p /\ s3 x = s3 p /\ s4 x = s4 p /\ s5 x = s5 p.
Proof.
  intros Hp Hx. unfold in_block. change (128 - 96) with 32. rewrite !div_32 by done.
  destruct Hp as (? & ? & ? & ? & ? & ? & ? & ?), Hx as (? & ? & ? & ? & ? & ? & ? & ?).
  rewrite !seg_eq by done. tauto.
Qed.
Lemma in_block_48 p x : v6_ok p -> v6_ok x -> in_block 128 (u128_of p) 48 (u128_of x) <->
  s0 x = s0 p /\ s1 x = s1 p /\ s2 x = s2 p.
Proof.
  intros Hp Hx. unfold in_block. change (128 - 48) with 80. rewrite !div_80 by done.
  destruct Hp as (? & ? & ? & ? & ? & ? & ? & ?), Hx as (? & ? & ? & ? & ? & ? & ? & ?).
  rewrite !seg_eq by done. tauto.
Qed.
Lemma in_block_32 p x : v6_ok p -> v6_ok x -> in_block 128 (u128_of p) 32 (u128_of x) <->
  s0 x = s0 p /\ s1 x = s1 p.
Proof.
  intros Hp Hx. unfold in_block. change (128 - 32) with 96. rewrite !div_96 by done.
  destruct Hp as (? & ? & ? & ? & ? & ? & ? & ?), Hx as (? & ? & ? & ? & ? & ? & ? & ?).
  rewrite !seg_eq by done. tauto.
Qed.
(** A block within the first segment. *)
Lemma in_block_short p x k : v6_ok p -> v6_ok x -> 0 <= k <= 16 ->
  in_block 128 (u128_of p) k (u128_of x) <-> s0 x / 2 ^ (16 - k) = s0 p / 2 ^ (16 - k).
Proof.
  intros Hp Hx Hk. unfold in_block. replace (128 - k) with (112 + (16 - k)) by lia.
  rewrite !Z.pow_add_r, <- !Z.div_div, !div_112 by (done || lia). done.
Qed.

(** ** The exact set of addresses that can be reached *)

(** The IPv4 addresses extracted by the code are the embedded ones. *)
Lemma embedded_low x : v6_ok x ->
  is_safe_ipv4 (v4_of_segments (s6 x) (s7 x)) = true <-> allowed_v4 (u128_of x mod 2 ^ 32).
Proof.
  intros Hx. rewrite low_32 by done. destruct Hx as (? & ? & ? & ? & ? & ? & Hg & Hh).
  destruct (v4_of_segments_spec _ _ Hg Hh) as [Hv <-]. by apply is_safe_ipv4_spec.
Qed.
Lemma embedded_6to4 x : v6_ok x ->
  is_safe_ipv4 (v4_of_segments (s1 x) (s2 x)) = true <-> allowed_v4 ((u128_of x / 2 ^ 80) mod 2 ^ 32).
Proof.
  intros Hx. rewrite bits_80 by done. destruct Hx as (? & Hg & Hh & _).
  destruct (v4_of_segments_spec _ _ Hg Hh) as [Hv <-]. by apply is_safe_ipv4_spec.
Qed.
Lemma embedded_teredo x ip : v6_ok x -> teredo_embedded_ipv4 x = Some ip ->
  is_safe_ipv4 ip = true <-> allowed_v4 (2 ^ 32 - 1 - u128_of x mod 2 ^ 32).
Proof.
  intros Hx. rewrite low_32 by done. unfold teredo_embedded_ipv4. bcase; [|done]. intros [= <-].
  destruct Hx as (? & ? & ? & ? & ? & ? & Hg & Hh).
  rewrite !lxor_ff by apply wrap8_u8.
  pose proof (be16_bytes_inv _ Hg). pose proof (be16_bytes_inv _ Hh).
  pose proof (wrap8_u8 (Z.shiftr (s6 x) 8)). pose proof (wrap8_u8 (s6 x)).
  pose proof (wrap8_u8 (Z.shiftr (s7 x) 8)). pose proof (wrap8_u8 (s7 x)).
  rewrite is_safe_ipv4_spec by (unfold v4_ok, is_u8 in *; cbn [o0 o1 o2 o3]; lia).
  replace (u32_of _) with (2 ^ 32 - 1 - (65536 * s6 x + s7 x)); [done|].
  unfold u32_of, be32, be16 in *. cbn [o0 o1 o2 o3]. lia.
Qed.

(** Membership in the blocks of [denied_v6] and [embeddings]. *)
Definition is_mapped_or_compat (x : Ipv6Addr) : Prop :=
  s0 x = 0 /\ s1 x = 0 /\ s2 x = 0 /\ s3 x = 0 /\ s4 x = 0 /\ (s5 x = 0 \/ s5 x = 0xffff).

Lemma allowed_v6_segments x : v6_ok x -> allowed_v6 (u128_of x) <->
  ~ (s0 x = 0x64 /\ s1 x = 0xff9b /\ s2 x = 1) /\
  Z.land (s0 x) 0xffc0 <> 0xfe80 /\ Z.land (s0 x) 0xfe00 <> 0xfc00 /\
  (is_mapped_or_compat x -> allowed_v4 (u128_of x mod 2 ^ 32)) /\
  (s0 x = 0x64 /\ s1 x = 0xff9b /\ s2 x = 0 /\ s3 x = 0 /\ s4 x = 0 /\ s5 x = 0 ->
     allowed_v4 (u128_of x mod 2 ^ 32)) /\
  (s0 x = 0x2002 -> allowed_v4 ((u128_of x / 2 ^ 80) mod 2 ^ 32)) /\
  (s0 x = 0x2001 /\ s1 x = 0 -> allowed_v4 (2 ^ 32 - 1 - u128_of x mod 2 ^ 32)).
Proof.
  intros Hx. unfold allowed_v6, denied_v6, embeddings, is_mapped_or_compat.
  rewrite !List.Forall_cons_iff, !List.Forall_nil_iff.
  change (ip6 ?a ?b ?c ?d ?e ?f ?g ?h) with (u128_of (Ipv6 a b c d e f g h)).
  rewrite !in_block_96, in_block_48, in_block_32, !in_block_short by (done || by_eval || lia).
  destruct Hx as (Hx & _). rewrite link_local_div, unique_local_div by done.
  cbn [s0 s1 s2 s3 s4 s5]. change (16 - 16) with 0. rewrite !Z.pow_0_r, !Z.div_1_r.
  change (16 - 10) with 6. change (16 - 7) with 9. tauto.
Qed.

Lemma not_link_local s : is_uint 16 s -> s < 0xfc00 ->
  Z.land s 0xffc0 <> 0xfe80 /\ Z.land s 0xfe00 <> 0xfc00.
Proof.
  intros Hs Hl. rewrite link_local_div, unique_local_div by done.
  change (0xfe80 / 2 ^ 6) with 1018. change (0xfc00 / 2 ^ 9) with 126. change (2 ^ 6) with 64. change (2 ^ 9) with 512.
  unfold is_uint in Hs. split; Z.to_euclidean_division_equations; lia.
Qed.

Lemma is_safe_v6_spec x : v6_ok x -> is_safe_resolved_ip (V6 x) = true <-> allowed_v6 (u128_of x).
Proof.
  intros Hx. rewrite allowed_v6_segments by done.
  pose proof (embedded_low x Hx) as HL. pose proof (embedded_6to4 x Hx) as H6.
  pose proof (fun ip => embedded_teredo x ip Hx) as HT. pose proof (not_link_local (s0 x) (proj1 Hx)) as HN.
  cbn [is_safe_resolved_ip]. unfold to_ipv4, is_mapped_or_compat.
  match goal with |- context [if ?c then Some _ else None] => destruct c eqn:E1 end.
  { rewrite HL. assert (s0 x = 0 /\ s1 x = 0 /\ s2 x = 0 /\ s3 x = 0 /\ s4 x = 0 /\ (s5 x = 0 \/ s5 x = 0xffff)) by lia.
    clear E1 HL H6 HT. intuition lia. }
  unfold nat64_embedded_ipv4. fold (v4_of_segments (s6 x) (s7 x)).
  match goal with |- context [if ?c then Some _ else None] => destruct c eqn:E2 end.
  { rewrite HL. bsplit. clear HL H6 HT. intuition lia. }
  unfold is_nat64_local.
  match goal with |- context [if ?c then false else _] => destruct c eqn:E3 end.
  { bsplit. clear HL H6 HT. split; [done|]. intuition lia. }
  unfold sixto4_embedded_ipv4. fold (v4_of_segments (s1 x) (s2 x)). destruct (s0 x =? 0x2002) eqn:E4; bsplit.
  { rewrite H6. clear HL H6 HT. intuition lia. }
  destruct (teredo_embedded_ipv4 x) as [ip|] eqn:ET.
  { rewrite (HT ip) by done. unfold teredo_embedded_ipv4 in ET. bcase; [|done]. clear HL H6 HT. intuition lia. }
  unfold teredo_embedded_ipv4 in ET.
  destruct ((s0 x =? 0x2001) && (s1 x =? 0)) eqn:E5; [done|].
  assert (HZ : v6_is_loopback x = false /\ v6_is_unspecified x = false).
  { unfold v6_is_loopback, v6_is_unspecified. split; apply bool_decide_eq_false; intros ->; done. }
  destruct HZ as [-> ->]. unfold is_ipv6_link_local, is_ipv6_unique_local. cbn [negb andb].
  rewrite andb_true_iff, !negb_true_iff, !Z.eqb_neq. clear HL H6 HT HN ET. intuition lia.
Qed.

(** C26: the proxy's address check is exact: an address passes if and only if
    it is outside the denied IPv4 blocks (loopback, private, link-local,
    carrier-grade NAT, benchmarking, "this network", reserved), for IPv6
    outside the link-local, unique-local and local-NAT64 blocks, and no IPv6
    transition mechanism (mapped, compatible, NAT64, 6to4, Teredo) carries a
    denied IPv4 address in it. *)
Theorem is_safe_resolved_ip_spec a : ip_ok a -> is_safe_resolved_ip a = true <-> allowed_ip a.
Proof. destruct a; [apply is_safe_ipv4_spec|apply is_safe_v6_spec]. Qed.

Lemma is_safe_resolved_ip_spec_witness :
  ip_ok (V6 (Ipv6 0x64 0xff9b 0 0 0 0 0x0808 0x0808)) /\
  allowed_ip (V6 (Ipv6 0x64 0xff9b 0 0 0 0 0x0808 0x0808)).
Proof.
  assert (H : ip_ok (V6 (Ipv6 0x64 0xff9b 0 0 0 0 0x0808 0x0808))).
  { unfold ip_ok. by_eval. }
  split; [exact H|]. apply (is_safe_resolved_ip_spec _ H). vm_compute. reflexivity.
Defined.
