(* ===== verification/Proxy.v ===== *)
(** * Proxy: the CONNECT proxy and its connection limit

    The host-side proxy of [bridge.rs]: allowlist rules, the parser of a
    CONNECT request, the handler of one connection and the accept loop with
    its connection counter; also the accept loop of the in-namespace relay
    and [close_fds_except], with which the forked helpers shed inherited
    descriptors. *)

From S2P Require Import Prelude Text Json Protocol Env Ip.

(** ** Allowlist rules *)

Definition new (host : bytes) (port : Z) : AllowedHost := {| host := host; port := port |}.

Definition matches (self : AllowedHost) (h : bytes) (p : Z) : bool :=
  if negb (port self =? p) then false
  else if starts_with (bs ".") (host self)
  then ends_with (host self) h || bool_decide (h = drop 1 (host self))
  else bool_decide (host self = h).

(** ** Parsing a CONNECT request *)

Definition MAX_CONNECT_REQUEST : nat := 2048.
Definition CRLF2 : bytes := [13; 10; 13; 10].

(** The reading loop, one byte per iteration: [n] more iterations, the request
    read so far and the stream. *)
Fixpoint read_request (n : nat) (buf stream : bytes) : io (bytes * bytes) :=
  match n with
  | O => invalid "CONNECT request too large or missing terminator"
  | S n =>
    '(byte, stream) ← read_exact 1 stream;
    let buf := buf ++ byte in
    if (4 <=? len buf) && bool_decide (drop (length buf - 4) buf = CRLF2)
    then Ok (buf, stream)
    else read_request n buf stream
  end.

Definition eq_ignore_ascii_case (a b : bytes) : bool :=
  bool_decide (to_ascii_lowercase a = to_ascii_lowercase b).

(** The characters allowed in a host name; all of them are ASCII, so that
    [chars().all(..)] is a check of the bytes. *)
Definition connect_host_char (c : Z) : bool :=
  is_ascii_alphanumeric c || (c =? ch "-") || (c =? ch ".").

(** From the request line's target to host and port. *)
Definition parse_target (target : bytes) : io (bytes * Z) :=
  '(h, port_str) ← ok_or (IoError InvalidData "CONNECT target missing port: {target}")
                     (rsplit_once (ch ":") target);
  if decide (h = []) then invalid "CONNECT target has empty host"
  else
    p ← ok_or (IoError InvalidData "invalid CONNECT port: {port_str}") (parse_u16 port_str);
    if p =? 0 then invalid "CONNECT port must be 1-65535"
    else if negb (forallb connect_host_char h) then invalid "invalid hostname characters: {host}"
    else
      let h := default h (strip_suffix (bs ".") h) in
      if bool_decide (h = []) || starts_with (bs ".") h || contains_sub (bs "..") h
      then invalid "invalid hostname: {host}"
      else Ok (to_ascii_lowercase h, p).

Definition parse_connect_request (stream : bytes) : io ((bytes * Z) * bytes) :=
  '(buf, stream) ← read_request MAX_CONNECT_REQUEST [] stream;
  if negb (Utf8.valid buf) then invalid "CONNECT request not valid UTF-8"
  else
    match split_whitespace (first_line buf) with
    | [m; target; version] =>
      if negb (eq_ignore_ascii_case m (bs "CONNECT")) then invalid "expected CONNECT method, got: {}"
      else if negb (bool_decide (version = bs "HTTP/1.0") || bool_decide (version = bs "HTTP/1.1"))
      then invalid "unsupported HTTP version: {}"
      else
        hp ← parse_target target;
        Ok (hp, stream)
    | _ => invalid "malformed CONNECT request line: {first_line}"
    end.

(** ** Handling one connection *)

(** The system calls [handle_connect] makes: name resolution (the addresses
    of a host; [to_socket_addrs] pairs them with the port), the outbound
    connection, and the calls on the client's socket that can fail. *)
Record Net : Type := {
  resolve : bytes -> io (list IpAddr);
  connect_timeout : IpAddr * Z -> io unit;
  set_handshake_timeout : io unit;
  write_established : io unit;
  clear_timeout : io unit;
  relay_connected : io unit;
}.

(** Its effects, in order. *)
Inductive ConnectEffect : Type :=
| Reply (msg : string)
| Resolve (host : bytes) (port : Z)
| Connect (addr : IpAddr * Z)
| Relay (addr : IpAddr * Z).

Definition FORBIDDEN : ConnectEffect := Reply "HTTP/1.1 403 Forbidden".
Definition BAD_GATEWAY : ConnectEffect := Reply "HTTP/1.1 502 Bad Gateway".
Definition ESTABLISHED : ConnectEffect := Reply "HTTP/1.1 200 Connection Established".

Definition handle_connect (net : Net) (uds : bytes) (allowlist : list AllowedHost)
  : list ConnectEffect * io unit :=
  match set_handshake_timeout net with
  | Err e => ([], Err e)
  | Ok _ =>
  match parse_connect_request uds with
  | Err e => ([], Err e)
  | Ok ((h, p), _) =>
    let host_normalized := default h (strip_suffix (bs ".") h) in
    if negb (existsb (fun a => matches a host_normalized p) allowlist)
    then ([FORBIDDEN], Ok tt)
    else
      match resolve net h with
      | Err e => ([Resolve h p; BAD_GATEWAY], Err e)
      | Ok ips =>
        let addrs := map (fun ip => (ip, p)) ips in
        match List.find (fun a => is_safe_resolved_ip (fst a)) addrs with
        | None =>
          ([Resolve h p; FORBIDDEN],
           Err (IoError PermissionDenied "all resolved IPs for {host}:{port} are in denied ranges"))
        | Some target_addr =>
          match connect_timeout net target_addr with
          | Err e => ([Resolve h p; Connect target_addr; BAD_GATEWAY], Err e)
          | Ok _ =>
            let effects := [Resolve h p; Connect target_addr; ESTABLISHED] in
            match write_established net with
            | Err e => (effects, Err e)
            | Ok _ =>
              match clear_timeout net with
              | Err e => (effects, Err e)
              | Ok _ => (effects ++ [Relay target_addr], relay_connected net)
              end
            end
          end
        end
      end
  end
  end.

(** ** The allowlist *)

(** What a rule stands for: [.d] for [d] and everything below it, any other
    rule for itself. *)
Definition covers (rule h : bytes) : Prop :=
  (exists d, rule = ch "." :: d /\ (h = d \/ exists sub, h = sub ++ rule)) \/
  (h = rule /\ head rule <> Some (ch ".")).

Lemma matches_spec r h p : matches r h p = true <-> port r = p /\ covers (host r) h.
Proof.
  unfold matches, covers. destruct (port r =? p) eqn:Ep; bsplit; cbn [negb]; [|split; [done|tauto]].
  destruct (starts_with (bs ".") (host r)) eqn:E.
  - apply starts_with_spec in E as [d E]. change (bs "." ++ d) with (ch "." :: d) in E. rewrite E.
    rewrite orb_true_iff, bool_decide_eq_true, ends_with_spec. cbn [drop]. rewrite drop_0. split.
    + intros H. split; [done|]. left. exists d. tauto.
    + intros [_ [(d' & [= <-] & H)|[_ H]]]; [tauto|done].
  - apply not_true_iff_false in E. rewrite starts_with_spec in E. rewrite bool_decide_eq_true. split.
    + intros <-. split; [done|]. right. split; [done|]. intros Hh. apply E.
      destruct (host r) as [|c t]; [done|]. injection Hh as ->. by exists t.
    + intros [_ [(d & Hd & _)|[-> _]]]; [|done]. destruct E. by exists d.
Qed.

(** ** Requests *)

(** [ends_header r]: [r] ends with an empty line. *)
Definition ends_header (r : bytes) : Prop := exists l, r = l ++ CRLF2.

(** The first header of a stream. *)
Definition first_header (req : bytes) : Prop :=
  ends_header req /\ forall r t, req = r ++ t -> t <> [] -> ~ ends_header r.

Lemma ends_header_bool buf :
  ((4 <=? len buf) && bool_decide (drop (length buf - 4) buf = CRLF2)) = true <-> ends_header buf.
Proof.
  rewrite andb_true_iff, bool_decide_eq_true, Z.leb_le. unfold ends_header, len. split.
  - intros [Hl H]. exists (take (length buf - 4) buf). by rewrite <- H, take_drop.
  - intros [l ->]. rewrite length_app. change (length CRLF2) with 4%nat. split; [lia|].
    by rewrite drop_app_length' by lia.
Qed.

Lemma read_exact_1 c s : read_exact 1 (c :: s) = Ok ([c], s).
Proof. apply (read_exact_app [c] s). Qed.

Lemma read_request_sound n buf s req rest :
  (forall r t, buf = r ++ t -> ~ ends_header r) ->
  read_request n buf s = Ok (req, rest) ->
  exists t, req = buf ++ t /\ s = t ++ rest /\ (length t <= n)%nat /\ first_header req.
Proof.
  revert buf s. induction n as [|n IH]; intros buf s Hb H; [done|]. cbn [read_request] in H.
  destruct s as [|c s]; [done|]. rewrite read_exact_1 in H. cbn [mbind result_bind] in H.
  assert (Hr : forall r t, buf ++ [c] = r ++ t -> t <> [] -> ~ ends_header r).
  { intros r t E Ht. destruct t as [|x t _] using rev_ind; [done|]. rewrite app_assoc in E.
    apply app_inj_tail in E as [E _]. by apply (Hb r t). }
  destruct ((4 <=? _) && _) eqn:E.
  - apply ends_header_bool in E. injection H as <- <-. exists [c]. split_and!; [done|done|simpl; lia|]. by split.
  - apply IH in H as (t & -> & -> & Hl & Hf).
    + exists (c :: t). rewrite <- app_assoc in *. split_and!; [done|done|simpl; lia|done].
    + intros r t Et. destruct (decide (t = [])) as [->|Ht]; [|by apply (Hr r t)].
      rewrite app_nil_r in Et. subst r. intros H'. apply ends_header_bool in H'. congruence.
Qed.

Lemma read_request_complete n buf t rest : first_header (buf ++ t) -> t <> [] -> (length t <= n)%nat ->
  read_request n buf (t ++ rest) = Ok (buf ++ t, rest).
Proof.
  revert buf t. induction n as [|n IH]; intros buf [|c t] Hf Ht Hn; simpl in Hn; try done; [lia|].
  cbn [read_request app]. rewrite read_exact_1. cbn [mbind result_bind].
  destruct ((4 <=? _) && _) eqn:E.
  - apply ends_header_bool in E. destruct t as [|d t]; [done|].
    destruct Hf as [_ Hf]. by destruct (Hf (buf ++ [c]) (d :: t)); [rewrite <- app_assoc|..].
  - destruct t as [|d t].
    + destruct Hf as [Hf _]. apply ends_header_bool in Hf. congruence.
    + change (buf ++ c :: d :: t) with (buf ++ [c] ++ d :: t) in *. rewrite app_assoc in *.
      apply IH; [done|done|simpl in *; lia].
Qed.

(** A normalised host name, as the proxy compares it with the rules. *)
Definition host_ok (h : bytes) : Prop :=
  h <> [] /\ head h <> Some (ch ".") /\ contains_sub (bs "..") h = false /\
  forallb (fun c => connect_host_char c && negb (is_ascii_upper c)) h = true.

Lemma lower_dot c : (46 =? ascii_lower c) = (46 =? c).
Proof. unfold ascii_lower, is_ascii_upper. bcase; [|done]. apply bool_eq_iff. rewrite !Z.eqb_eq. lia. Qed.

Lemma lower_dots h : contains_sub (bs "..") (to_ascii_lowercase h) = contains_sub (bs "..") h.
Proof.
  induction h as [|c h IH]; [done|]. cbn [to_ascii_lowercase map contains_sub]. unfold to_ascii_lowercase in IH.
  rewrite IH. f_equal. unfold starts_with. change (bs "..") with [46; 46]. cbn [strip_prefix].
  rewrite lower_dot. destruct (46 =? c); [|done]. destruct h as [|d h]; [done|]. cbn [map].
  rewrite lower_dot. by destruct (46 =? d).
Qed.

Lemma lower_host_char c : connect_host_char c = true ->
  (connect_host_char (ascii_lower c) && negb (is_ascii_upper (ascii_lower c))) = true.
Proof.
  unfold connect_host_char, ascii_lower, is_ascii_alphanumeric, is_ascii_upper, is_ascii_lower, is_ascii_digit.
  change (ch "-") with 45. change (ch ".") with 46. intros H. bcase; lia.
Qed.

Lemma lower_host h : forallb connect_host_char h = true ->
  forallb (fun c => connect_host_char c && negb (is_ascii_upper c)) (to_ascii_lowercase h) = true.
Proof.
  induction h as [|c h IH]; [done|]. cbn [forallb]. intros H. apply andb_true_iff in H as [Hc Hh].
  cbn [to_ascii_lowercase map forallb]. rewrite lower_host_char by done. by apply IH.
Qed.

Lemma head_lower h : head (to_ascii_lowercase h) = Some (ch ".") -> starts_with (bs ".") h = true.
Proof.
  destruct h as [|c h]; [done|]. intros [= H]. apply starts_with_spec. exists h.
  change (bs "." ++ h) with (46 :: h). f_equal. apply Z.eqb_eq. rewrite Z.eqb_sym, <- lower_dot.
  apply Z.eqb_eq. change (ch ".") with 46 in H. lia.
Qed.

Lemma parse_u16_range s p : parse_u16 s = Some p -> 0 <= p <= 65535.
Proof.
  intros H. split; [|by apply parse_radix_range in H].
  unfold parse_u16, parse_radix in H. destruct (strip_plus s); [done|].
  destruct (digits_val _ _ _) eqn:E; [|done]. apply digits_val_nonneg in E; [|lia..]. bcase; [by simplify_eq|done].
Qed.

Lemma parse_target_sound target h p : parse_target target = Ok (h, p) -> host_ok h /\ 1 <= p <= 65535.
Proof.
  unfold parse_target. destruct (rsplit_once _ _) as [[h0 ps]|]; [|done]. cbn [ok_or mbind result_bind].
  case_decide; [done|]. destruct (parse_u16 ps) as [q|] eqn:Eq; [|done]. cbn [ok_or mbind result_bind].
  apply parse_u16_range in Eq. bcase; [done|]. destruct (forallb connect_host_char h0) eqn:Ec; [|done]. cbn [negb].
  set (h1 := default h0 (strip_suffix (bs ".") h0)).
  assert (Hc : forallb connect_host_char h1 = true).
  { subst h1. destruct (strip_suffix (bs ".") h0) as [r|] eqn:Es; [|done]. apply strip_suffix_Some in Es as ->.
    rewrite forallb_app in Ec. by apply andb_true_iff in Ec as []. }
  clearbody h1. destruct (bool_decide _ || _ || _) eqn:E2; [done|]. intros [= <- <-]. bsplit.
  split; [|lia]. split_and!.
  - by destruct h1.
  - intros Hh. apply head_lower in Hh. congruence.
  - by rewrite lower_dots.
  - by apply lower_host.
Qed.

(** What the proxy accepts as a CONNECT request.  On success it has read
    exactly the first header of the stream (up to and including the first
    empty line, at most 2048 bytes), so that no byte of the tunnelled data
    is consumed; the host is a non-empty lower-case name in [[a-z0-9.-]]
    without a leading dot or two consecutive dots, the port is not zero. *)
Theorem parse_connect_request_sound stream h p rest :
  parse_connect_request stream = Ok ((h, p), rest) ->
  exists req, stream = req ++ rest /\ len req <= 2048 /\ first_header req /\
    host_ok h /\ 1 <= p <= 65535.
Proof.
  unfold parse_connect_request. intros H. apply bind_ok in H as ([buf s] & Hr & H).
  apply read_request_sound in Hr as (t & -> & -> & Hl & Hf).
  2:{ intros r t E. symmetry in E. apply app_nil in E as [-> ->]. by intros [[|? []] ?]. }
  bcase; [done|]. destruct (split_whitespace _) as [|m [|target [|version [|]]]]; try done.
  bcase; [done|]. bcase; [done|]. apply bind_ok in H as ([h' p'] & Ht & [= -> -> ->]).
  apply parse_target_sound in Ht as [Hh Hp]. exists t. split_and!; try done; try lia.
  unfold len, MAX_CONNECT_REQUEST in *. lia.
Qed.

Definition demo_request_text : bytes :=
  bs "CONNECT Example.com:443 HTTP/1.1" ++ [13; 10] ++ bs "Host: evil" ++ CRLF2.

Lemma parse_connect_request_sound_witness : exists rest,
  parse_connect_request (demo_request_text ++ [22; 3; 1]) = Ok ((bs "example.com", 443), rest) /\
  host_ok (bs "example.com").
Proof.
  exists [22; 3; 1]. assert (H : parse_connect_request (demo_request_text ++ [22; 3; 1])
    = Ok ((bs "example.com", 443), [22; 3; 1])) by (vm_compute; reflexivity).
  split; [exact H|]. destruct (parse_connect_request_sound _ _ _ _ H) as (req & _ & _ & _ & Hh & _). exact Hh.
Defined.

(** Words separated by single spaces. *)
Definition visible (w : bytes) : Prop := Forall (fun c => 32 < c < 127) w.

Lemma visible_ascii w : visible w -> Forall (fun c => 0 <= c < 128) w.
Proof. intros H. eapply Forall_impl; [|exact H]. cbn. lia. Qed.

Lemma of_chars_ascii w : Forall (fun c => 0 <= c < 128) w -> Utf8.of_chars w = w.
Proof. intros H. by apply Utf8.of_chars_decode, Utf8.decode_ascii. Qed.

Lemma words_chars_word cur w r : visible w -> words_chars cur (w ++ r) = words_chars (cur ++ w) r.
Proof.
  intros H. revert cur. induction H as [|c w Hc _ IH]; intros cur; [by rewrite app_nil_r|].
  cbn [app words_chars]. destruct (is_whitespace c) eqn:E; [unfold is_whitespace in E; lia|].
  rewrite IH. by rewrite <- app_assoc.
Qed.

Lemma split_whitespace_3 a b c : visible a -> visible b -> visible c -> a <> [] -> b <> [] -> c <> [] ->
  split_whitespace (a ++ [32] ++ b ++ [32] ++ c) = [a; b; c].
Proof.
  intros Ha Hb Hc Na Nb Nc. unfold split_whitespace, Utf8.chars.
  rewrite Utf8.decode_ascii by (repeat (apply Forall_app; split); auto using visible_ascii; by_eval).
  change (default [] (Some ?l)) with l. rewrite words_chars_word by done. cbn [app words_chars].
  change (is_whitespace 32) with true. cbn match. destruct a as [|x a]; [done|].
  cbn [map]. rewrite words_chars_word by done. cbn [app words_chars].
  change (is_whitespace 32) with true. cbn match. destruct b as [|y b]; [done|].
  rewrite <- (app_nil_r c) at 1. rewrite words_chars_word by done. destruct c as [|z c]; [done|]. cbn [app words_chars map].
  by rewrite !of_chars_ascii by (by apply visible_ascii).
Qed.

Lemma visible_no_newline w : visible w -> Forall (fun c => c <> 10) w.
Proof. intros H. eapply Forall_impl; [|exact H]. cbn. lia. Qed.

Lemma first_line_crlf l r : Forall (fun c => c <> 10) l -> first_line (l ++ [13; 10] ++ r) = l.
Proof.
  intros Hl. unfold first_line. assert (E : split_once 10 (l ++ [13; 10] ++ r) = Some (l ++ [13], r)).
  { apply split_once_Some. split; [by rewrite <- app_assoc|]. apply Forall_app. split; [done|by_eval]. }
  rewrite E. assert (Es : strip_suffix [13] (l ++ [13]) = Some l) by by apply strip_suffix_Some. by rewrite Es.
Qed.

Lemma host_char_visible h : forallb connect_host_char h = true -> visible h.
Proof.
  rewrite forallb_forall. intros H. apply List.Forall_forall. intros c Hc. specialize (H c Hc).
  unfold connect_host_char, is_ascii_alphanumeric, is_ascii_upper, is_ascii_lower, is_ascii_digit in H.
  change (ch "-") with 45 in H. change (ch ".") with 46 in H. cbn beta. lia.
Qed.

(** A host name as a client may write it. *)
Definition client_host (h : bytes) : Prop :=
  h <> [] /\ forallb connect_host_char h = true /\ starts_with (bs ".") h = false /\
  ends_with (bs ".") h = false /\ contains_sub (bs "..") h = false.

Lemma parse_target_complete h p : client_host h -> 1 <= p <= 65535 ->
  parse_target (h ++ ch ":" :: dec p) = Ok (to_ascii_lowercase h, p).
Proof.
  intros (Hne & Hc & Hs & He & Hd) Hp. unfold parse_target.
  assert (E : rsplit_once (ch ":") (h ++ ch ":" :: dec p) = Some (h, dec p)).
  { apply rsplit_once_Some. split; [done|]. eapply Forall_impl; [|apply (dec_digits p); lia].
    change (ch ":") with 58. cbn. lia. }
  rewrite E. cbn [ok_or mbind result_bind]. rewrite decide_False by done. unfold parse_u16.
  rewrite parse_dec by lia. cbn [ok_or mbind result_bind]. bcase; [lia|]. rewrite Hc. cbn [negb].
  unfold ends_with in He. destruct (strip_suffix (bs ".") h); [done|]. cbn [default from_option].
  rewrite bool_decide_eq_false_2, Hs, Hd by done. done.
Qed.

(** Every well-formed CONNECT request is accepted, whatever headers follow
    the request line: the result is the host of the request line in lower
    case (never one from a [Host] header) and its port, and the stream is
    left at the first byte after the header. *)
Theorem parse_connect_request_complete h p v hdr rest :
  let req := (bs "CONNECT " ++ (h ++ ch ":" :: dec p) ++ [32] ++ v) ++ [13; 10] ++ hdr in
  client_host h -> 1 <= p <= 65535 -> v = bs "HTTP/1.0" \/ v = bs "HTTP/1.1" ->
  first_header req -> len req <= 2048 -> Utf8.valid req = true ->
  parse_connect_request (req ++ rest) = Ok ((to_ascii_lowercase h, p), rest).
Proof.
  intros req Hh Hp Hv Hf Hl Hu. unfold parse_connect_request.
  rewrite (read_request_complete _ []); [|done|by destruct h| unfold len, MAX_CONNECT_REQUEST in *; lia].
  cbn [mbind result_bind app]. rewrite Hu. cbn [negb].
  assert (Vv : visible v) by (destruct Hv as [-> | ->]; by_eval).
  assert (Vh : visible (h ++ ch ":" :: dec p)).
  { apply Forall_app. split; [by apply host_char_visible, Hh|]. apply Forall_cons; [done|].
    eapply Forall_impl; [|apply (dec_digits p); lia]. cbn. lia. }
  assert (E : split_whitespace (first_line req) = [bs "CONNECT"; h ++ ch ":" :: dec p; v]).
  { subst req. rewrite first_line_crlf.
    - change (bs "CONNECT " ++ ?x) with (bs "CONNECT" ++ [32] ++ x).
      apply split_whitespace_3; try done; [by_eval|by destruct h|by destruct Hv as [-> | ->]].
    - apply Forall_app. split; [by_eval|]. apply Forall_app. split; [by apply visible_no_newline|].
      apply Forall_app. split; [by_eval|by apply visible_no_newline]. }
  rewrite E. replace (eq_ignore_ascii_case (bs "CONNECT") (bs "CONNECT")) with true by done. cbn [negb].
  replace (bool_decide _ || bool_decide _) with true by (by destruct Hv as [-> | ->]). cbn [negb].
  by rewrite parse_target_complete.
Qed.

Lemma first_header_bool req : ends_header req ->
  forallb (fun n => negb ((4 <=? len (take n req)) &&
    bool_decide (drop (length (take n req) - 4) (take n req) = CRLF2))) (seq 0 (length req)) = true ->
  first_header req.
Proof.
  intros He H. split; [done|]. intros r t -> Ht Hr. rewrite forallb_forall in H.
  specialize (H (length r)). rewrite take_app_length in H. apply ends_header_bool in Hr. rewrite Hr in H.
  assert (In (length r) (seq 0 (length (r ++ t)))); [|by specialize (H H0)].
  apply in_seq. rewrite length_app. destruct t; [done|]. simpl. lia.
Qed.

Lemma parse_connect_request_complete_witness :
  parse_connect_request (demo_request_text ++ [22; 3; 1]) = Ok ((bs "example.com", 443), [22; 3; 1]).
Proof.
  refine (parse_connect_request_complete (bs "Example.com") 443 (bs "HTTP/1.1") (bs "Host: evil" ++ CRLF2)
    [22; 3; 1] _ _ _ _ _ _).
  - split_and!; [discriminate|reflexivity..].
  - lia.
  - right. reflexivity.
  - apply first_header_bool; [by exists (bs "CONNECT Example.com:443 HTTP/1.1" ++ [13; 10] ++ bs "Host: evil")|].
    vm_compute. reflexivity.
  - vm_compute. discriminate.
  - vm_compute. reflexivity.
Defined.

(** A host with two trailing dots passes with one of them: only one dot is
    stripped and the check for two consecutive dots comes after it, so
    that the parser's result is not the normalised name it promises. *)
Theorem parse_connect_trailing_dot : exists stream rest,
  parse_connect_request stream = Ok ((bs "example.com.", 443), rest).
Proof.
  exists (bs "CONNECT example.com..:443 HTTP/1.1" ++ CRLF2), []. vm_compute. reflexivity.
Qed.

(** ** The handler *)

(** When an effect is allowed, in the run with the given effects. *)
Definition effect_allowed (net : Net) (uds : bytes) (allowlist : list AllowedHost)
    (effects : list ConnectEffect) (eff : ConnectEffect) : Prop :=
  match eff with
  | Reply _ => True
  | Resolve h p => exists rest rule, parse_connect_request uds = Ok ((h, p), rest) /\
      rule ∈ allowlist /\ port rule = p /\ covers (host rule) (default h (strip_suffix (bs ".") h))
  | Connect (ip, p) => is_safe_resolved_ip ip = true /\
      exists h ips, Resolve h p ∈ effects /\ resolve net h = Ok ips /\ ip ∈ ips
  | Relay a => connect_timeout net a = Ok tt /\ exists h,
      effects = [Resolve h (snd a); Connect a; ESTABLISHED; Relay a] /\ write_established net = Ok tt
  end.

(** C14: what a connection handler does to the network.  Whatever the client
    sends and however the resolver and the target behave: a name is only
    resolved, and an address only connected to, for a request whose host and
    port an allowlist rule covers; the address is one the resolver returned for
    the host, with that port, outside the denied ranges (so that a rebinding
    answer cannot reach an internal host); bytes are only relayed to the
    address that was connected, after the client was told so. *)
Theorem handle_connect_safe net uds allowlist effects r :
  handle_connect net uds allowlist = (effects, r) ->
  Forall (effect_allowed net uds allowlist effects) effects.
Proof.
  unfold handle_connect. destruct (set_handshake_timeout net); [|intros [= <- _]; constructor].
  destruct (parse_connect_request uds) as [[[h p] rest]|] eqn:Eq; [|intros [= <- _]; constructor].
  destruct (existsb _ allowlist) eqn:Ea; cbn [negb]; [|intros [= <- _]; by repeat constructor].
  apply existsb_exists in Ea as (rule & Hin & Hm). apply matches_spec in Hm as [Hp Hc].
  apply list_elem_of_In in Hin.
  assert (HR : forall es, effect_allowed net uds allowlist es (Resolve h p)) by by exists rest, rule.
  destruct (resolve net h) as [ips|] eqn:Er.
  2:{ intros [= <- _]. by apply Forall_cons; [apply HR|repeat constructor]. }
  destruct (List.find _ _) as [[ip q]|] eqn:Ef.
  2:{ intros [= <- _]. by apply Forall_cons; [apply HR|repeat constructor]. }
  apply List.find_some in Ef as [Hin' Hs]. apply in_map_iff in Hin' as (ip' & [= -> ->] & Hip).
  apply list_elem_of_In in Hip. cbn [fst] in Hs.
  assert (HC : forall l, effect_allowed net uds allowlist (Resolve h q :: l) (Connect (ip, q))).
  { intros l. split; [done|]. exists h, ips. split_and!; [by left|done|done]. }
  destruct (connect_timeout net (ip, q)) as [[]|] eqn:Et;
    [destruct (write_established net) as [[]|] eqn:Ew; [destruct (clear_timeout net)|]|];
    intros [= <- _]; (apply Forall_cons; [apply HR|]); (apply Forall_cons; [apply HC|]);
    (apply Forall_cons; [done|]); try apply Forall_nil_2.
  apply Forall_cons; [|apply Forall_nil_2]. split; [done|]. by exists h.
Qed.

Definition demo_net (ips : list IpAddr) : Net :=
  {| resolve := fun _ => Ok ips; connect_timeout := fun _ => Ok tt; set_handshake_timeout := Ok tt;
     write_established := Ok tt; clear_timeout := Ok tt; relay_connected := Ok tt |}.

Lemma handle_connect_safe_witness :
  let net := demo_net [V4 (Ipv4 127 0 0 1); V4 (Ipv4 93 184 216 34)] in
  let rules := [new (bs ".com") 443] in
  handle_connect net demo_request_text rules =
    ([Resolve (bs "example.com") 443; Connect (V4 (Ipv4 93 184 216 34), 443); ESTABLISHED;
      Relay (V4 (Ipv4 93 184 216 34), 443)], Ok tt) /\
  Forall (effect_allowed net demo_request_text rules
    [Resolve (bs "example.com") 443; Connect (V4 (Ipv4 93 184 216 34), 443); ESTABLISHED;
     Relay (V4 (Ipv4 93 184 216 34), 443)])
    [Resolve (bs "example.com") 443; Connect (V4 (Ipv4 93 184 216 34), 443); ESTABLISHED;
     Relay (V4 (Ipv4 93 184 216 34), 443)].
Proof.
  intros net rules. assert (H : handle_connect net demo_request_text rules =
    ([Resolve (bs "example.com") 443; Connect (V4 (Ipv4 93 184 216 34), 443); ESTABLISHED;
      Relay (V4 (Ipv4 93 184 216 34), 443)], Ok tt)) by (vm_compute; reflexivity).
  split; [exact H|]. exact (handle_connect_safe _ _ _ _ _ H).
Defined.
