(* ===== verification/Bridge.v ===== *)
(** * Bridge: the accept loops and the descriptors of the forked helpers

    [ConnectionGuard] and the accept loops of [bridge.rs] as a transition
    system over the shared atomic counter, and [close_fds_except], which the
    forked helper processes run to shed the descriptors they inherited. *)

From S2P Require Import Prelude Text.

(** ** The connection limit *)

Definition MAX_CONNECTIONS : Z := 64.

(** [AtomicUsize::fetch_add] and [fetch_sub]: the new value. *)
Definition fetch_add (v : Z) : Z := wrap 64 (v + 1).
Definition fetch_sub (v : Z) : Z := wrap 64 (v - 1).

(** The accept loop between two atomic operations: waiting in [accept], or
    after the [fetch_add] of [ConnectionGuard::new] that returned [prev]. *)
Inductive Phase : Type := Accepting | Counted (prev : Z).

(** [active] is the shared counter; [handlers] the threads that own a guard. *)
Record Pool : Type := { active : Z; phase : Phase; handlers : nat }.

Definition pool_init : Pool := {| active := 0; phase := Accepting; handlers := 0 |}.

(** One atomic operation of the accept loop or of a handler thread, in any
    interleaving.  A refused connection gives its count back
    ([prev >= MAX_CONNECTIONS]); so does a thread that cannot be spawned (the
    closure that owns the guard is dropped), and a handler that ends. *)
Inductive pool_step : Pool -> Pool -> Prop :=
| accept_failed a n :
    pool_step {| active := a; phase := Accepting; handlers := n |}
              {| active := a; phase := Accepting; handlers := n |}
| accepted a n :
    pool_step {| active := a; phase := Accepting; handlers := n |}
              {| active := fetch_add a; phase := Counted a; handlers := n |}
| refused a prev n :
    (MAX_CONNECTIONS <=? prev) = true ->
    pool_step {| active := a; phase := Counted prev; handlers := n |}
              {| active := fetch_sub a; phase := Accepting; handlers := n |}
| spawned a prev n :
    (MAX_CONNECTIONS <=? prev) = false ->
    pool_step {| active := a; phase := Counted prev; handlers := n |}
              {| active := a; phase := Accepting; handlers := S n |}
| spawn_failed a prev n :
    (MAX_CONNECTIONS <=? prev) = false ->
    pool_step {| active := a; phase := Counted prev; handlers := n |}
              {| active := fetch_sub a; phase := Accepting; handlers := n |}
| handler_ended a ph n :
    pool_step {| active := a; phase := ph; handlers := S n |}
              {| active := fetch_sub a; phase := ph; handlers := n |}.

(** The counter counts the guards that exist. *)
Definition pool_inv (s : Pool) : Prop :=
  match phase s with
  | Accepting => active s = Z.of_nat (handlers s) /\ Z.of_nat (handlers s) <= MAX_CONNECTIONS
  | Counted prev => active s = Z.of_nat (handlers s) + 1 /\ Z.of_nat (handlers s) <= prev <= MAX_CONNECTIONS
  end.

Lemma pool_step_inv s t : pool_step s t -> pool_inv s -> pool_inv t.
Proof.
  assert (W : forall z, 0 <= z < 2 ^ 64 -> wrap 64 z = z) by (intros; by apply wrap_small).
  unfold pool_inv, fetch_add, fetch_sub, MAX_CONNECTIONS. intros [] Hi; cbn [active phase handlers] in *; bsplit.
  all: repeat match goal with ph : Phase |- _ => destruct ph end; unfold fetch_add, fetch_sub, MAX_CONNECTIONS in *; rewrite ?W by lia; first [done|lia].
Qed.

(** The connection limit holds in every interleaving of the accept loop
    and the handler threads: at most 64 handlers run at any time, the counter
    never wraps around and never leaks (it is the number of live handlers, one
    more while a connection is being admitted), and a connection is refused
    only if 64 handlers were running when it was counted. *)
Theorem pool_limit s : rtc pool_step pool_init s ->
  Z.of_nat (handlers s) <= MAX_CONNECTIONS /\
  active s = Z.of_nat (handlers s) + (match phase s with Accepting => 0 | Counted _ => 1 end) /\
  (phase s = Accepting -> (MAX_CONNECTIONS <=? active s) = true -> Z.of_nat (handlers s) = MAX_CONNECTIONS).
Proof.
  intros H. assert (Hi : pool_inv s).
  { assert (H0 : pool_inv pool_init) by (vm_compute; intuition discriminate).
    induction H; [done|]. eauto using pool_step_inv. }
  unfold pool_inv in Hi. destruct (phase s); (split_and!; [lia|lia|intros; bsplit; lia || done]).
Qed.

Lemma pool_limit_witness :
  let s := {| active := 1; phase := Accepting; handlers := 1 |} in
  rtc pool_step pool_init s /\ Z.of_nat (handlers s) <= MAX_CONNECTIONS.
Proof.
  intros s. assert (H : rtc pool_step pool_init s).
  { eapply rtc_l; [apply accepted|]. eapply rtc_l; [by apply spawned|]. apply rtc_refl. }
  split; [exact H|]. exact (proj1 (pool_limit s H)).
Defined.

(** ** Closing descriptors *)

(** What the kernel and the file system do for [close_fds_except]: whether a
    [close_range(2)] call succeeds, the names in [/proc/self/fd] ([None]: it
    cannot be read), and [sysconf(_SC_OPEN_MAX)].  The state is the set of the
    open descriptors. *)
Record FdKernel : Type := {
  close_range_ok : Z -> Z -> bool;
  read_proc_fd : gset Z -> option (list bytes);
  open_max : Z;
}.

Definition close_range (first last : Z) (fds : gset Z) : gset Z :=
  filter (fun fd => ~ (first <= fd <= last)) fds.

(** [sort] and [dedup]. *)
Fixpoint insert_sorted (x : Z) (l : list Z) : list Z :=
  match l with
  | [] => [x]
  | y :: r => if x <=? y then x :: l else y :: insert_sorted x r
  end.
Definition sort (l : list Z) : list Z := foldr insert_sorted [] l.
Fixpoint dedup (l : list Z) : list Z :=
  match l with
  | x :: ((y :: _) as r) => if x =? y then dedup r else x :: dedup r
  | l => l
  end.

(** The loop over the kept descriptors: the next [start], [all_ok], and the
    open descriptors. *)
Fixpoint close_gaps (k : FdKernel) (sorted : list Z) (start : Z) (fds : gset Z)
  : Z * bool * gset Z :=
  match sorted with
  | [] => (start, true, fds)
  | fd :: r =>
    if start <? fd then
      if close_range_ok k start (fd - 1)
      then close_gaps k r (fd + 1) (close_range start (fd - 1) fds)
      else (start, false, fds)
    else close_gaps k r (fd + 1) fds
  end.

Definition close_all (l : list Z) (fds : gset Z) : gset Z :=
  foldr (fun fd s => s ∖ {[fd]}) fds l.

Definition U32_MAX : Z := 4294967295.

Definition close_fds_except (k : FdKernel) (keep : list Z) (fds : gset Z) : gset Z :=
  let sorted := dedup (sort (filter (fun fd => 3 <= fd) keep)) in
  let '(start, all_ok, fds) := close_gaps k sorted 3 fds in
  if all_ok && close_range_ok k start U32_MAX then close_range start U32_MAX fds
  else
    match read_proc_fd k fds with
    | Some names =>
      let fds_to_close :=
        filter (fun fd => 3 <= fd /\ fd ∉ keep) (omap (fun n => parse_i32 (Utf8.lossy n)) names) in
      close_all fds_to_close fds
    | None =>
      let limit := if 0 <? open_max k then Z.min (open_max k) 65536 else 4096 in
      close_all (filter (fun fd => fd ∉ keep) (seqZ 3 (limit - 3))) fds
    end.

Lemma elem_of_insert_sorted x y l : y ∈ insert_sorted x l <-> y = x \/ y ∈ l.
Proof.
  induction l as [|z l IH]; simpl; rewrite ?elem_of_cons; [tauto|].
  destruct (x <=? z); rewrite !elem_of_cons, ?IH; tauto.
Qed.

Lemma elem_of_sort y l : y ∈ sort l <-> y ∈ l.
Proof. induction l as [|x l IH]; simpl; [done|]. rewrite elem_of_insert_sorted, elem_of_cons, IH. tauto. Qed.

Lemma dedup_cons x y l :
  dedup (x :: y :: l) = if x =? y then dedup (y :: l) else x :: dedup (y :: l).
Proof. done. Qed.

Lemma elem_of_dedup y l : y ∈ dedup l <-> y ∈ l.
Proof.
  induction l as [|x l IH]; [done|]. destruct l as [|z l]; [done|].
  rewrite dedup_cons. destruct (x =? z) eqn:E; bsplit.
  - subst. rewrite IH, !elem_of_cons. tauto.
  - rewrite !(elem_of_cons _ y x), IH. done.
Qed.

(** Ascending order, as a boolean of neighbours. *)
Definition above (b : Z) (l : list Z) : Prop := Forall (fun y => b <= y) l.

Inductive ascending : list Z -> Prop :=
| asc_nil : ascending []
| asc_cons x l : above (x + 1) l -> ascending l -> ascending (x :: l).

Inductive weakly_ascending : list Z -> Prop :=
| wasc_nil : weakly_ascending []
| wasc_cons x l : above x l -> weakly_ascending l -> weakly_ascending (x :: l).

Lemma above_elem b l : above b l <-> forall y, y ∈ l -> b <= y.
Proof. unfold above. rewrite List.Forall_forall. by setoid_rewrite list_elem_of_In. Qed.

Lemma sort_ascending l : weakly_ascending (sort l).
Proof.
  induction l as [|x l IH]; simpl; [constructor|]. generalize (sort l), IH. clear. intros l H.
  induction H as [|y l Hy Hl IH]; simpl; [repeat constructor|]. destruct (x <=? y) eqn:E; bsplit.
  - constructor; [|by constructor]. apply above_elem. intros z Hz. apply elem_of_cons in Hz as [->|Hz]; [done|].
    rewrite above_elem in Hy. specialize (Hy z Hz). lia.
  - constructor; [|done]. apply above_elem. intros z Hz. apply elem_of_insert_sorted in Hz as [->|Hz]; [lia|].
    rewrite above_elem in Hy. by apply Hy.
Qed.

Lemma dedup_ascending l : weakly_ascending l -> ascending (dedup l).
Proof.
  induction 1 as [|x l Hx Hl IH]; [constructor|]. destruct l as [|y l]; [constructor; [constructor|done]|].
  rewrite dedup_cons. destruct (x =? y) eqn:E; bsplit; [done|].
  constructor; [|done]. apply above_elem. intros z Hz. rewrite elem_of_dedup in Hz.
  inv Hl. match goal with H : above y l |- _ => rewrite above_elem in H; rename H into Hy end.
  rewrite above_elem in Hx. pose proof (Hx y ltac:(by left)).
  apply elem_of_cons in Hz as [->|Hz]; [lia|]. specialize (Hy z Hz). lia.
Qed.

Lemma elem_of_close_range fd a b fds : fd ∈ close_range a b fds <-> fd ∈ fds /\ ~ (a <= fd <= b).
Proof. unfold close_range. rewrite elem_of_filter. tauto. Qed.

(** The gaps: nothing that is kept is closed, and if all calls succeed
    everything else up to the new [start] is. *)
Lemma close_gaps_spec k l start fds start' ok fds' : ascending l -> above start l ->
  close_gaps k l start fds = (start', ok, fds') ->
  (forall fd, fd ∈ fds' -> fd ∈ fds) /\
  (forall fd, fd ∈ fds -> fd < start \/ fd ∈ l -> fd ∈ fds') /\
  (ok = true -> start <= start' /\ (forall fd, fd ∈ l -> fd < start') /\
     (forall fd, fd ∈ fds' -> start <= fd < start' -> fd ∈ l) /\
     (forall fd, fd ∈ fds -> start' <= fd -> fd ∈ fds')).
Proof.
  intros Hl. revert start fds. induction Hl as [|x l Hx Hl IH]; intros start fds Ha H; cbn [close_gaps] in H.
  { injection H as <- <- <-. split_and!; [done|done|]. intros _. split_and!; [lia| |lia|done].
    intros fd Hfd. by apply elem_of_nil in Hfd. }
  rewrite above_elem in Ha. pose proof (Ha x ltac:(by left)) as Hsx. rewrite above_elem in Hx.
  assert (Hrec : forall fds1, (forall fd, fd ∈ fds1 <-> fd ∈ fds /\ ~ (start <= fd < x)) ->
    close_gaps k l (x + 1) fds1 = (start', ok, fds') ->
    (forall fd, fd ∈ fds' -> fd ∈ fds) /\
    (forall fd, fd ∈ fds -> fd < start \/ fd ∈ x :: l -> fd ∈ fds') /\
    (ok = true -> start <= start' /\ (forall fd, fd ∈ x :: l -> fd < start') /\
       (forall fd, fd ∈ fds' -> start <= fd < start' -> fd ∈ x :: l) /\
       (forall fd, fd ∈ fds -> start' <= fd -> fd ∈ fds'))).
  { intros fds1 E Hg. apply IH in Hg as (H1 & H2 & H3); [|by apply above_elem]. split_and!.
    - intros fd Hfd. by apply E, H1.
    - intros fd Hfd Hc. rewrite elem_of_cons in Hc. destruct (decide (fd ∈ l)) as [Hin|Hin].
      + apply H2; [|by right]. apply E. split; [done|]. specialize (Hx fd Hin). lia.
      + apply H2; [apply E; split; [done|]|left]; destruct Hc as [Hc|[->|Hc]]; done || lia.
    - intros Hok. destruct (H3 Hok) as (G1 & G2 & G3 & G4). split_and!.
      + lia.
      + intros fd Hfd. apply elem_of_cons in Hfd as [->|Hfd]; [lia|]. by apply G2.
      + intros fd Hfd Hr. rewrite elem_of_cons. pose proof (H1 fd Hfd) as Hf1. apply E in Hf1 as [_ Hf1].
        destruct (decide (fd = x)); [by left|]. right. apply G3; [done|lia].
      + intros fd Hfd Hr. apply G4; [|done]. apply E. split; [done|lia]. }
  destruct (start <? x) eqn:Es; bsplit.
  - destruct (close_range_ok k start (x - 1)).
    + apply (Hrec _) in H; [done|]. intros fd. rewrite elem_of_close_range. split; intros []; split; try done; lia.
    + injection H as <- <- <-. done.
  - apply (Hrec _) in H; [done|]. intros fd. split; [|tauto]. intros. split; [done|lia].
Qed.

Lemma elem_of_close_all fd l fds : fd ∈ close_all l fds <-> fd ∈ fds /\ fd ∉ l.
Proof.
  induction l as [|x l IH]; simpl; [set_solver|].
  rewrite elem_of_difference, elem_of_singleton, IH, not_elem_of_cons. tauto.
Qed.

(** What has to work: [close_range(2)], or a complete listing of
    [/proc/self/fd] (proc(5): one entry per open descriptor, named by its
    number). *)
Definition fd_kernel_ok (k : FdKernel) : Prop :=
  (forall a b, close_range_ok k a b = true) \/
  (forall fds, exists names, read_proc_fd k fds = Some names /\ forall fd, fd ∈ fds -> dec fd ∈ names).

Definition fds_ok (fds : gset Z) : Prop := forall fd, fd ∈ fds -> 0 <= fd < 2 ^ 31.

Lemma lossy_dec n : 0 <= n -> Utf8.lossy (dec n) = dec n.
Proof.
  intros Hn. eapply Utf8.lossy_decode, Utf8.decode_ascii. eapply Forall_impl; [|apply (dec_digits n Hn)]. cbn. lia.
Qed.

Lemma close_gaps_ok k l start fds : (forall a b, close_range_ok k a b = true) ->
  snd (fst (close_gaps k l start fds)) = true.
Proof.
  intros Hk. revert start fds. induction l as [|x l IH]; intros start fds; [done|]. cbn [close_gaps].
  rewrite Hk. destruct (start <? x); apply IH.
Qed.

(** The fallback over [/proc/self/fd]. *)
Lemma close_listed (names : list bytes) (keep : list Z) (fds : gset Z) fd : (forall fd, fd ∈ fds -> dec fd ∈ names) -> fds_ok fds ->
  fd ∈ close_all (filter (fun fd => 3 <= fd /\ fd ∉ keep) (omap (fun n => parse_i32 (Utf8.lossy n)) names)) fds
  <-> fd ∈ fds /\ (fd < 3 \/ fd ∈ keep).
Proof.
  intros Hn Hf. rewrite elem_of_close_all, list_elem_of_filter, list_elem_of_omap. split.
  - intros [Hin Hc]. split; [done|]. destruct (decide (fd < 3)) as [|Hl]; [by left|right].
    destruct (decide (fd ∈ keep)) as [|Hk]; [done|]. destruct Hc. split; [split; [lia|done]|].
    specialize (Hf fd Hin). exists (dec fd). split; [by apply Hn|]. rewrite lossy_dec by lia.
    assert (E : dec_signed fd = dec fd) by (unfold dec_signed; bcase; [lia|done]).
    rewrite <- E. apply parse_i32_dec. lia.
  - intros [Hin Hc]. split; [done|]. intros [[Hl Hk] _]. destruct Hc; [lia|done].
Qed.

(** The kept descriptors and the standard ones stay open. *)
Lemma close_fds_except_filter k keep fds : fd_kernel_ok k -> fds_ok fds ->
  close_fds_except k keep fds = filter (fun fd => fd < 3 \/ fd ∈ keep) fds.
Proof.
  intros Hk Hf. apply set_eq. intros fd. rewrite elem_of_filter. unfold close_fds_except.
  set (sorted := dedup (sort (filter (fun fd => 3 <= fd) keep))).
  assert (Hs : forall x, x ∈ sorted <-> 3 <= x /\ x ∈ keep).
  { intros x. subst sorted. rewrite elem_of_dedup, elem_of_sort, list_elem_of_filter. done. }
  assert (Ha : ascending sorted) by (apply dedup_ascending, sort_ascending).
  destruct (close_gaps k sorted 3 fds) as [[start ok] fds'] eqn:E. pose proof E as E0.
  apply close_gaps_spec in E as (H1 & H2 & H3); [|done|].
  2:{ apply above_elem. intros y Hy. by apply Hs in Hy as []. }
  pose proof (H1 fd) as H1'. pose proof (Hf fd) as Hf'.
  assert (HP : (exists names, read_proc_fd k fds' = Some names /\ forall fd, fd ∈ fds' -> dec fd ∈ names) ->
    fd ∈ match read_proc_fd k fds' with
         | Some names => close_all (filter (fun fd => 3 <= fd /\ fd ∉ keep)
                           (omap (fun n => parse_i32 (Utf8.lossy n)) names)) fds'
         | None => close_all (filter (fun fd => fd ∉ keep) (seqZ 3
             ((if 0 <? open_max k then Z.min (open_max k) 65536 else 4096) - 3))) fds'
         end <-> (fd < 3 \/ fd ∈ keep) /\ fd ∈ fds).
  { intros (names & -> & Hn). rewrite close_listed; [|done|intros x Hx; by apply Hf, H1].
    split; [intros []; auto|]. intros [Hc Hin]. split; [|done]. apply H2; [done|].
    destruct (decide (fd < 3)); [by left|]. right. apply Hs. split; [lia|tauto]. }
  destruct (ok && close_range_ok k start U32_MAX) eqn:Ec.
  - bsplit. rewrite elem_of_close_range. destruct (H3 ltac:(done)) as (G1 & G2 & G3 & G4). unfold U32_MAX. split.
    + intros [Hin Hr]. specialize (Hf' (H1' Hin)). split; [|auto]. destruct (decide (fd < 3)); [by left|right].
      apply Hs, G3; [done|lia].
    + intros [Hc Hin]. assert (Hin' : fd ∈ sorted \/ fd < 3)
        by (destruct (decide (fd < 3)); [by right|left; apply Hs; split; [lia|tauto]]).
      split; [apply H2; tauto|]. destruct Hin' as [Hin'|]; [specialize (G2 fd Hin')|]; lia.
  - destruct Hk as [Hk|Hk]; [|apply HP, Hk].
    pose proof (close_gaps_ok k sorted 3 fds Hk) as Hok. rewrite E0 in Hok. cbn in Hok.
    by rewrite Hok, Hk in Ec.
Qed.

(** After [close_fds_except] exactly the standard descriptors and the
    kept ones that were open are still open, whether the kernel has
    [close_range] or the fallback over [/proc/self/fd] is taken, and also when
    [close_range] fails half-way. *)
Theorem close_fds_except_spec k keep fds : fd_kernel_ok k -> fds_ok fds ->
  close_fds_except k keep fds = filter (fun fd => fd < 3 \/ fd ∈ keep) fds.
Proof. apply close_fds_except_filter. Qed.

Lemma close_fds_except_spec_witness :
  let k := {| close_range_ok := fun a _ => a =? 3; read_proc_fd := fun fds => Some (dec <$> elements fds);
              open_max := -1 |} in
  close_fds_except k [7; 5; 7; -1] {[0; 1; 2; 3; 4; 5; 6; 7; 9]} =
    filter (fun fd => fd < 3 \/ fd ∈ [7; 5; 7; -1]) ({[0; 1; 2; 3; 4; 5; 6; 7; 9]} : gset Z).
Proof.
  intros k. apply close_fds_except_spec.
  - right. intros fds. eexists. split; [reflexivity|]. intros fd Hfd.
    apply list_elem_of_fmap. exists fd. split; [reflexivity|]. by apply elem_of_elements.
  - intros fd Hfd. rewrite !elem_of_union, !elem_of_singleton in Hfd. lia.
Defined.
