(* ===== verification/Seccomp.v ===== *)
(** * Seccomp: the system-call filters of [seccomp.rs]

    The strict and baseline filters as the code builds and installs them,
    against an interface to the [seccompiler] crate ([Seccompiler], with the
    documented behaviour as [SeccompilerLaws]) and to the target ([Target]:
    architecture, C library, the syscall numbers of the [libc] crate).  A run
    of the code is a state transformer on the kernel's stack of installed
    filters.  The policies are tables of denied calls in terms of the meaning of
    the arguments; the refinement theorems say that the kernel's verdict with
    the installed filters is the policy's. *)

From S2P Require Import Prelude Text Env.

(** ** The interface to [seccompiler] and the kernel *)

Inductive TargetArch : Type := x86_64 | aarch64.
Inductive SeccompAction : Type :=
| Allow | Errno (e : Z) | KillProcess | KillThread | Log | Trace (v : Z) | Trap.
Inductive SeccompCmpArgLen : Type := Dword | Qword.
Inductive SeccompCmpOp : Type := Eq | Ne | MaskedEq (mask : Z).

#[export] Instance TargetArch_eq_dec : EqDecision TargetArch.
Proof. solve_decision. Defined.
#[export] Instance SeccompAction_eq_dec : EqDecision SeccompAction.
Proof. solve_decision. Defined.

(** A system call as a filter sees it ([struct seccomp_data]). *)
Record SeccompData : Type := { sd_arch : option TargetArch; sd_nr : Z; sd_args : list Z }.

(** An argument register (64 bits). *)
Definition arg (d : SeccompData) (i : Z) : Z := wrap 64 (nth (Z.to_nat i) (sd_args d) 0).

(** The comparisons, as documented: [Dword] looks at the low 32 bits. *)
Definition cmp_len (l : SeccompCmpArgLen) (z : Z) : Z :=
  match l with Dword => wrap 32 z | Qword => wrap 64 z end.
Definition cmp (l : SeccompCmpArgLen) (op : SeccompCmpOp) (a v : Z) : bool :=
  match op with
  | Eq => cmp_len l a =? cmp_len l v
  | Ne => negb (cmp_len l a =? cmp_len l v)
  | MaskedEq m => Z.land (cmp_len l a) (cmp_len l m) =? Z.land (cmp_len l v) (cmp_len l m)
  end.

Class Seccompiler : Type := {
  SeccompCondition : Type;
  SeccompRule : Type;
  SeccompFilter : Type;
  BpfProgram : Type;
  BackendError : Type;
  Condition_new : Z -> SeccompCmpArgLen -> SeccompCmpOp -> Z -> result BackendError SeccompCondition;
  Rule_new : list SeccompCondition -> result BackendError SeccompRule;
  Filter_new : gmap Z (list SeccompRule) -> SeccompAction -> SeccompAction -> TargetArch ->
    result BackendError SeccompFilter;
  try_into : SeccompFilter -> result BackendError BpfProgram;
  (** The verdict of the kernel's BPF machine. *)
  run : BpfProgram -> SeccompData -> SeccompAction;
  condition_holds : SeccompCondition -> SeccompData -> bool;
  rule_holds : SeccompRule -> SeccompData -> bool;
}.

(** The verdict of a filter, as documented: another architecture is killed; a
    call without an entry gets the mismatch action; an empty vector of rules
    matches unconditionally; rules are or-ed, the conditions of a rule and-ed. *)
Definition filter_verdict `{Seccompiler} (rules : gmap Z (list SeccompRule))
    (mismatch matched : SeccompAction) (a : TargetArch) (d : SeccompData) : SeccompAction :=
  if decide (sd_arch d = Some a) then
    match rules !! sd_nr d with
    | None => mismatch
    | Some [] => matched
    | Some rs => if existsb (fun r => rule_holds r d) rs then matched else mismatch
    end
  else KillProcess.

Class SeccompilerLaws (S : Seccompiler) : Prop := {
  condition_law i l op v c : Condition_new i l op v = Ok c ->
    forall d, condition_holds c d = cmp l op (arg d i) v;
  rule_law cs r : Rule_new cs = Ok r ->
    forall d, rule_holds r d = forallb (fun c => condition_holds c d) cs;
  filter_law rules mismatch matched a f p :
    Filter_new rules mismatch matched a = Ok f -> try_into f = Ok p ->
    forall d, run p d = filter_verdict rules mismatch matched a d;
  (** When the constructors succeed: argument numbers are at most 5, a rule is
      not empty, the two actions differ. *)
  condition_ok i l op v : 0 <= i <= 5 -> is_ok (Condition_new i l op v) = true;
  rule_ok cs : cs <> [] -> is_ok (Rule_new cs) = true;
  filter_ok rules mismatch matched a : mismatch <> matched ->
    is_ok (Filter_new rules mismatch matched a) = true;
}.

(** seccomp(2): the most restrictive verdict wins; of verdicts with the same
    action value the one of the most recently installed filter. *)
Definition rank (a : SeccompAction) : Z :=
  match a with
  | Allow => 0 | Log => 1 | Trace _ => 2 | Errno _ => 4 | Trap => 5 | KillThread => 6 | KillProcess => 7
  end.

Definition combine (ret cur : SeccompAction) : SeccompAction :=
  if rank ret <? rank cur then cur else ret.

(** The verdict with the filters [installed] (most recent first). *)
Definition kernel_verdict `{Seccompiler} (installed : list BpfProgram) (d : SeccompData) : SeccompAction :=
  fold_left (fun ret p => combine ret (run p d)) installed Allow.

(** ** The target *)

Class Target : Type := {
  target_cpu : option TargetArch; (* [None]: any other *)
  env_gnu : bool;
  SYS : string -> Z;
}.
Arguments SYS {_} _%_string_scope.

Definition SYS_LSM_GET_SELF_ATTR : Z := 459.
Definition SYS_LSM_SET_SELF_ATTR : Z := 460.
Definition SYS_LSM_LIST_MODULES : Z := 461.

(** ABI constants of the [libc] crate. *)
Definition AF_UNIX : Z := 1.
Definition AF_INET : Z := 2.
Definition AF_INET6 : Z := 10.
Definition PR_SET_PDEATHSIG : Z := 1.
Definition PR_SET_DUMPABLE : Z := 4.
Definition AT_EMPTY_PATH : Z := 0x1000.
Definition EPERM : Z := 1.
Definition ENOSYS : Z := 38.
Definition TIOCSTI : Z := 0x5412.
Definition TIOCLINUX : Z := 0x541C.

Section Filters.
Context `{T : Target} `{SC : Seccompiler}.

(** Code that installs filters: a state transformer on the installed filters
    that can fail.  [accepts] is the kernel's answer to [apply_filter]. *)
Definition M (A : Type) : Type := list BpfProgram -> list BpfProgram * Result A.

#[export] Instance M_ret : MRet M := fun A a k => (k, Ok a).
#[export] Instance M_bind : MBind M := fun A B f m k =>
  match m k with (k, Ok a) => f a k | (k, Err e) => (k, Err e) end.

Definition lift {A} (r : Result A) : M A := fun k => (k, r).
Definition map_err {E A} (e : Error) (r : result E A) : Result A :=
  match r with Ok a => Ok a | Err _ => Err e end.

Context (accepts : list BpfProgram -> BpfProgram -> bool).

Definition apply_filter (msg : string) (p : BpfProgram) : M unit := fun k =>
  if accepts k p then (p :: k, Ok tt) else (k, Err (Seccomp msg)).

(** The constructors with their [map_err]. *)
Definition condition (msg : string) i l op v : Result SeccompCondition :=
  map_err (Seccomp msg) (Condition_new i l op v).
Definition rule (msg : string) cs : Result SeccompRule := map_err (Seccomp msg) (Rule_new cs).
Definition new_filter (msg : string) rules mismatch matched a : Result SeccompFilter :=
  map_err (Seccomp msg) (Filter_new rules mismatch matched a).
Definition compile (msg : string) f : Result BpfProgram := map_err (Seccomp msg) (try_into f).

(** A rule of one condition. *)
Definition rule1 (cmsg rmsg : string) i l op v : Result SeccompRule :=
  c ← condition cmsg i l op v;
  rule rmsg [c].

Abbreviation Rules := (gmap Z (list SeccompRule)).

Definition insert_all (l : list Z) (m : Rules) : Rules := foldl (fun m nr => <[nr := []]> m) m l.

Definition target_arch : Result TargetArch :=
  match target_cpu with Some a => Ok a | None => Err (Seccomp "unsupported architecture: {}") end.

Definition is_x86_64 : bool := bool_decide (target_cpu = Some x86_64).

Definition tier1_kill_syscalls : list Z :=
  map SYS ["ptrace"; "mount"; "umount2"; "reboot"; "kexec_load"]%string
  ++ (if is_x86_64 || env_gnu then [SYS "kexec_file_load"] else [])
  ++ map SYS ["pivot_root"; "chroot"; "init_module"; "finit_module"; "delete_module"; "unshare";
      "setns"; "personality"; "memfd_create"; "process_vm_readv"; "process_vm_writev";
      "userfaultfd"; "kcmp"; "bpf"; "mount_setattr"; "move_mount"; "open_tree"; "fsopen";
      "fsconfig"; "fsmount"; "fspick"; "pidfd_getfd"; "pidfd_send_signal"; "process_madvise";
      "memfd_secret"; "landlock_create_ruleset"; "landlock_add_rule"; "landlock_restrict_self";
      "quotactl"; "quotactl_fd"; "swapon"; "swapoff"; "acct"; "add_key"; "request_key";
      "keyctl"]%string
  ++ [SYS_LSM_GET_SELF_ATTR; SYS_LSM_SET_SELF_ATTR; SYS_LSM_LIST_MODULES].

Definition tier2_eperm_syscalls : list Z :=
  let v := map SYS ["symlinkat"; "linkat"; "perf_event_open"]%string in
  if is_x86_64 then v ++ [SYS "symlink"] ++ [SYS "link"] else v.

Definition baseline_kill_syscalls : list Z :=
  map SYS ["ptrace"; "mount"; "umount2"; "pivot_root"; "chroot"; "mount_setattr"; "move_mount";
      "open_tree"; "fsopen"; "fsconfig"; "fsmount"; "fspick"; "unshare"; "setns"; "personality";
      "init_module"; "finit_module"; "delete_module"; "kexec_load"]%string
  ++ (if is_x86_64 || env_gnu then [SYS "kexec_file_load"] else [])
  ++ map SYS ["reboot"; "bpf"; "process_vm_readv"; "process_vm_writev"; "landlock_create_ruleset";
      "landlock_add_rule"; "landlock_restrict_self"; "userfaultfd"]%string
  ++ [SYS_LSM_SET_SELF_ATTR]
  ++ map SYS ["memfd_create"; "pidfd_getfd"; "pidfd_send_signal"; "kcmp"; "process_madvise";
      "memfd_secret"; "quotactl"; "quotactl_fd"; "swapon"; "swapoff"; "acct"; "add_key";
      "request_key"; "keyctl"]%string
  ++ [SYS_LSM_GET_SELF_ATTR; SYS_LSM_LIST_MODULES].

Definition clone_ns_flags : list Z :=
  [0x00020000; 0x02000000; 0x04000000; 0x08000000; 0x10000000; 0x20000000; 0x40000000; 0x00000080].

(** The loop that makes one rule per namespace flag. *)
Fixpoint clone_rules_loop (cmsg rmsg : string) (flags : list Z) : Result (list SeccompRule) :=
  match flags with
  | [] => Ok []
  | flag :: flags =>
    r ← rule1 cmsg rmsg 0 Qword (MaskedEq flag) flag;
    rs ← clone_rules_loop cmsg rmsg flags;
    Ok (r :: rs)
  end.

Definition enosys_rules : Rules :=
  insert_all [SYS "clone3"; SYS "io_uring_setup"; SYS "io_uring_enter"; SYS "io_uring_register"] ∅.

Definition build_filter : M BpfProgram :=
  a ← lift target_arch;
  let rules := insert_all tier1_kill_syscalls ∅ in
  kill_filter ← lift (new_filter "build kill filter: {e}" rules Allow KillProcess a);
  kill_prog ← lift (compile "compile kill filter: {e}" kill_filter);
  let eperm_rules := insert_all tier2_eperm_syscalls ∅ in
  socket_inet ← lift (rule1 "socket AF_INET condition: {e}" "socket AF_INET rule: {e}" 0 Dword Eq AF_INET);
  socket_inet6 ← lift (rule1 "socket AF_INET6 condition: {e}" "socket AF_INET6 rule: {e}" 0 Dword Eq AF_INET6);
  let eperm_rules := <[SYS "socket" := [socket_inet; socket_inet6]]> eperm_rules in
  prctl_block_pdeathsig ← lift (rule1 "prctl condition: {e}" "prctl rule: {e}" 0 Dword Eq PR_SET_PDEATHSIG);
  c0 ← lift (condition "prctl condition: {e}" 0 Dword Eq PR_SET_DUMPABLE);
  c1 ← lift (condition "prctl arg condition: {e}" 1 Dword Ne 0);
  prctl_set_dumpable ← lift (rule "prctl rule: {e}" [c0; c1]);
  let eperm_rules := <[SYS "prctl" := [prctl_block_pdeathsig; prctl_set_dumpable]]> eperm_rules in
  execveat_empty_path ← lift (rule1 "execveat condition: {e}" "execveat rule: {e}" 4 Dword
                                (MaskedEq AT_EMPTY_PATH) AT_EMPTY_PATH);
  let eperm_rules := <[SYS "execveat" := [execveat_empty_path]]> eperm_rules in
  ioctl_tiocsti ← lift (rule1 "ioctl TIOCSTI condition: {e}" "ioctl TIOCSTI rule: {e}" 1 Dword Eq TIOCSTI);
  ioctl_tioclinux ← lift (rule1 "ioctl TIOCLINUX condition: {e}" "ioctl TIOCLINUX rule: {e}" 1 Dword Eq TIOCLINUX);
  let eperm_rules := <[SYS "ioctl" := [ioctl_tiocsti; ioctl_tioclinux]]> eperm_rules in
  kill_zero ← lift (rule1 "kill zero condition: {e}" "kill zero rule: {e}" 0 Dword Eq 0);
  kill_negative ← lift (rule1 "kill negative condition: {e}" "kill negative rule: {e}" 0 Dword
                          (MaskedEq 0x80000000) 0x80000000);
  let eperm_rules := <[SYS "kill" := [kill_zero; kill_negative]]> eperm_rules in
  let eperm_rules := <[SYS "tkill" := []]> eperm_rules in
  clone_rules ← lift (clone_rules_loop "clone {name} condition: {e}" "clone {name} rule: {e}" clone_ns_flags);
  let eperm_rules := <[SYS "clone" := clone_rules]> eperm_rules in
  enosys_filter ← lift (new_filter "build enosys filter: {e}" enosys_rules Allow (Errno ENOSYS) a);
  enosys_prog ← lift (compile "compile enosys filter: {e}" enosys_filter);
  eperm_filter ← lift (new_filter "build eperm filter: {e}" eperm_rules Allow (Errno EPERM) a);
  eperm_prog ← lift (compile "compile eperm filter: {e}" eperm_filter);
  _ ← apply_filter "install enosys filter: {e}" enosys_prog;
  _ ← apply_filter "install eperm filter: {e}" eperm_prog;
  mret kill_prog.

Definition build_baseline_filter : M BpfProgram :=
  a ← lift target_arch;
  let deny := insert_all baseline_kill_syscalls ∅ in
  main_filter ← lift (new_filter "build baseline filter: {e}" deny Allow KillProcess a);
  main_prog ← lift (compile "compile baseline: {e}" main_filter);
  clone_rules ← lift (clone_rules_loop "clone flag condition: {e}" "clone flag rule: {e}" clone_ns_flags);
  let clone_deny := <[SYS "clone" := clone_rules]> ∅ in
  clone_filter ← lift (new_filter "build baseline clone filter: {e}" clone_deny Allow (Errno EPERM) a);
  clone_prog ← lift (compile "compile baseline clone filter: {e}" clone_filter);
  enosys_filter ← lift (new_filter "build baseline enosys filter: {e}" enosys_rules Allow (Errno ENOSYS) a);
  enosys_prog ← lift (compile "compile baseline enosys filter: {e}" enosys_filter);
  _ ← apply_filter "install baseline enosys filter: {e}" enosys_prog;
  _ ← apply_filter "install baseline clone filter: {e}" clone_prog;
  baseline_prctl_pdeathsig ← lift (rule1 "baseline prctl condition: {e}" "baseline prctl rule: {e}"
                                     0 Dword Eq PR_SET_PDEATHSIG);
  c0 ← lift (condition "baseline prctl condition: {e}" 0 Dword Eq PR_SET_DUMPABLE);
  c1 ← lift (condition "baseline prctl arg condition: {e}" 1 Dword Ne 0);
  baseline_prctl_dumpable ← lift (rule "baseline prctl rule: {e}" [c0; c1]);
  let eperm_rules := <[SYS "prctl" := [baseline_prctl_pdeathsig; baseline_prctl_dumpable]]> ∅ in
  execveat_rule ← lift (rule1 "baseline execveat condition: {e}" "baseline execveat rule: {e}" 4 Dword
                          (MaskedEq AT_EMPTY_PATH) AT_EMPTY_PATH);
  let eperm_rules := <[SYS "execveat" := [execveat_rule]]> eperm_rules in
  ioctl_tiocsti ← lift (rule1 "baseline ioctl condition: {e}" "baseline ioctl rule: {e}" 1 Dword Eq 0x5412);
  ioctl_tioclinux ← lift (rule1 "baseline ioctl condition: {e}" "baseline ioctl rule: {e}" 1 Dword Eq 0x541C);
  let eperm_rules := <[SYS "ioctl" := [ioctl_tiocsti; ioctl_tioclinux]]> eperm_rules in
  kill_zero ← lift (rule1 "baseline kill zero condition: {e}" "baseline kill zero rule: {e}" 0 Dword Eq 0);
  kill_negative ← lift (rule1 "baseline kill negative condition: {e}" "baseline kill negative rule: {e}"
                          0 Dword (MaskedEq 0x80000000) 0x80000000);
  let eperm_rules := <[SYS "kill" := [kill_zero; kill_negative]]> eperm_rules in
  let eperm_rules := <[SYS "tkill" := []]> eperm_rules in
  let eperm_rules := <[SYS "perf_event_open" := []]> eperm_rules in
  eperm_filter ← lift (new_filter "build baseline eperm filter: {e}" eperm_rules Allow (Errno EPERM) a);
  eperm_prog ← lift (compile "compile baseline eperm filter: {e}" eperm_filter);
  _ ← apply_filter "install baseline eperm filter: {e}" eperm_prog;
  mret main_prog.

Definition apply (profile : SeccompProfile) : M unit :=
  match profile with
  | Strict => p ← build_filter; apply_filter "{e}" p
  | Baseline => p ← build_baseline_filter; apply_filter "{e}" p
  end.

(** The summary reported in the audit record. *)
Record SeccompSummary : Type := {
  tier1_kill_count : Z;
  tier2_eperm_count : Z;
  socket_filter : bool;
  prctl_filter : bool;
  clone_ns_filter : bool;
  clone3_enosys : bool;
  io_uring_enosys : bool;
  execveat_filter : bool;
  kill_filter : bool;
}.

Definition summary (profile : SeccompProfile) : SeccompSummary :=
  match profile with
  | Strict =>
    {| tier1_kill_count := len tier1_kill_syscalls; tier2_eperm_count := len tier2_eperm_syscalls;
       socket_filter := true; prctl_filter := true; clone_ns_filter := true; clone3_enosys := true;
       io_uring_enosys := true; execveat_filter := true; kill_filter := true |}
  | Baseline =>
    {| tier1_kill_count := len baseline_kill_syscalls; tier2_eperm_count := 2;
       socket_filter := false; prctl_filter := true; clone_ns_filter := true; clone3_enosys := true;
       io_uring_enosys := true; execveat_filter := true; kill_filter := true |}
  end.

(** ** The policies

    A table lists denied calls: the number, and when the arguments make the
    call a denied one.  [int] is an argument of type [int]. *)

Definition int (z : Z) : Z := let w := wrap 32 z in if w <? 2 ^ 31 then w else w - 2 ^ 32.

Definition Table : Type := list (Z * (SeccompData -> bool)).

Definition always (nr : Z) : Z * (SeccompData -> bool) := (nr, fun _ => true).

Definition denied (t : Table) (d : SeccompData) : bool :=
  existsb (fun '(nr, c) => (nr =? sd_nr d) && c d) t.

(** All the flags of [clone] that create a namespace. *)
Definition CLONE_NEW_ANY : Z := 0x7E020080.

Definition clone_entry : Z * (SeccompData -> bool) :=
  (SYS "clone", fun d => negb (Z.land (arg d 0) CLONE_NEW_ANY =? 0)).

(** Calls denied for some arguments, in both profiles: signals to other than a
    single process, becoming dumpable or changing the parent-death signal,
    execution of an unnamed file, injection of terminal input. *)
Definition common_entries : Table :=
  [ (SYS "prctl", fun d => (wrap 32 (arg d 0) =? PR_SET_PDEATHSIG)
                           || ((wrap 32 (arg d 0) =? PR_SET_DUMPABLE) && negb (wrap 32 (arg d 1) =? 0)));
    (SYS "execveat", fun d => Z.testbit (arg d 4) 12);
    (SYS "ioctl", fun d => (wrap 32 (arg d 1) =? TIOCSTI) || (wrap 32 (arg d 1) =? TIOCLINUX));
    (SYS "kill", fun d => int (arg d 0) <=? 0);
    always (SYS "tkill") ].

Definition enosys_table : Table :=
  map always (map SYS ["clone3"; "io_uring_setup"; "io_uring_enter"; "io_uring_register"]%string).

Definition strict_kill : Table := map always tier1_kill_syscalls.
Definition strict_eperm : Table :=
  map always tier2_eperm_syscalls
  ++ [ (SYS "socket", fun d => (wrap 32 (arg d 0) =? AF_INET) || (wrap 32 (arg d 0) =? AF_INET6)) ]
  ++ common_entries ++ [clone_entry].

Definition baseline_kill : Table := map always baseline_kill_syscalls.
Definition baseline_eperm : Table := common_entries ++ [always (SYS "perf_event_open"); clone_entry].

(** What a profile promises for a system call. *)
Definition policy (kill eperm : Table) (d : SeccompData) : SeccompAction :=
  if decide (sd_arch d = target_cpu) then
    if denied kill d then KillProcess
    else if denied eperm d then Errno EPERM
    else if denied enosys_table d then Errno ENOSYS
    else Allow
  else KillProcess.

Definition seccomp_policy (profile : SeccompProfile) : SeccompData -> SeccompAction :=
  match profile with
  | Strict => policy strict_kill strict_eperm
  | Baseline => policy baseline_kill baseline_eperm
  end.

(** The numbers of the [libc] crate are those of the target's kernel: in
    particular different calls have different numbers. *)
Definition all_numbers : list Z :=
  tier1_kill_syscalls ++ tier2_eperm_syscalls
  ++ map SYS ["socket"; "prctl"; "execveat"; "ioctl"; "kill"; "tkill"; "clone"; "clone3";
              "io_uring_setup"; "io_uring_enter"; "io_uring_register"]%string.

Definition numbers_distinct : Prop := NoDup all_numbers.

(** ** Rules mean what the table says *)

Context {L : SeccompilerLaws SC}.

Lemma map_err_ok {E A} e (r : result E A) a : map_err e r = Ok a -> r = Ok a.
Proof. destruct r; [by intros [= ->]|done]. Qed.

Lemma rule1_holds m1 m2 i l op v r : rule1 m1 m2 i l op v = Ok r ->
  forall d, rule_holds r d = cmp l op (arg d i) v.
Proof.
  unfold rule1, condition, rule. intros H d. apply bind_ok in H as (c & Hc & Hr).
  apply map_err_ok in Hc, Hr. rewrite (rule_law _ _ Hr). cbn [forallb].
  by rewrite (condition_law _ _ _ _ _ Hc), andb_true_r.
Qed.

Lemma rule2_holds m1 m2 m3 i l op v j l' op' v' c c' r :
  condition m1 i l op v = Ok c -> condition m2 j l' op' v' = Ok c' -> rule m3 [c; c'] = Ok r ->
  forall d, rule_holds r d = cmp l op (arg d i) v && cmp l' op' (arg d j) v'.
Proof.
  intros Hc Hc' Hr d. apply map_err_ok in Hc, Hc', Hr. rewrite (rule_law _ _ Hr). cbn [forallb].
  by rewrite (condition_law _ _ _ _ _ Hc), (condition_law _ _ _ _ _ Hc'), andb_true_r.
Qed.

Lemma clone_rules_hold m1 m2 flags rs : clone_rules_loop m1 m2 flags = Ok rs ->
  (flags <> [] -> rs <> []) /\
  forall d, existsb (fun r => rule_holds r d) rs
          = existsb (fun flag => cmp Qword (MaskedEq flag) (arg d 0) flag) flags.
Proof.
  revert rs. induction flags as [|f flags IH]; intros rs H; [by injection H as <-|].
  cbn [clone_rules_loop] in H. apply bind_ok in H as (r & Hr & H). apply bind_ok in H as (rs' & Hrs & H).
  injection H as <-. destruct (IH rs' Hrs) as [_ IH']. split; [done|]. intros d. cbn [existsb].
  by rewrite (rule1_holds _ _ _ _ _ _ _ Hr), IH'.
Qed.

(** [represents m t]: the rule map [m] matches the calls in the table [t]. *)
Definition matched (m : Rules) (d : SeccompData) : bool :=
  match m !! sd_nr d with
  | None => false
  | Some [] => true
  | Some rs => existsb (fun r => rule_holds r d) rs
  end.

Definition represents (m : Rules) (t : Table) : Prop :=
  (forall d, matched m d = denied t d).

Lemma represents_empty : represents ∅ [].
Proof. intros d. unfold matched. by rewrite lookup_empty. Qed.

Lemma denied_app t u d : denied (t ++ u) d = denied t d || denied u d.
Proof. apply existsb_app. Qed.

Lemma denied_fresh nr t d : nr ∉ map fst t -> sd_nr d = nr -> denied t d = false.
Proof.
  intros H <-. unfold denied. apply not_true_iff_false. intros E. apply existsb_exists in E as ([k c] & Hin & E).
  bsplit. apply H. subst. apply list_elem_of_In, in_map_iff. by exists (sd_nr d, c).
Qed.

(** A new entry. *)
Lemma represents_insert m t nr rs c : represents m t -> nr ∉ map fst t ->
  (forall d, match rs with [] => true | _ => existsb (fun r => rule_holds r d) rs end = c d) ->
  represents (<[nr := rs]> m) (t ++ [(nr, c)]).
Proof.
  intros Hm Hn Hc d. rewrite denied_app. unfold denied at 2. cbn [existsb]. rewrite orb_false_r.
  unfold matched. destruct (nr =? sd_nr d) eqn:E; bsplit; cbn [andb].
  - subst nr. rewrite lookup_insert_eq, (denied_fresh (sd_nr d)) by done. cbn [orb]. rewrite <- Hc. by destruct rs.
  - rewrite lookup_insert_ne by done. fold (matched m d). by rewrite Hm, orb_false_r.
Qed.

Lemma represents_always m t nr : represents m t -> nr ∉ map fst t ->
  represents (<[nr := []]> m) (t ++ [always nr]).
Proof. intros Hm Hn. by apply represents_insert. Qed.

Lemma represents_insert_all l m t : represents m t -> NoDup (map fst t ++ l) ->
  represents (insert_all l m) (t ++ map always l).
Proof.
  revert m t. induction l as [|nr l IH]; intros m t Hm Hn; [by rewrite app_nil_r|].
  cbn [insert_all foldl map]. change (t ++ always nr :: map always l) with (t ++ [always nr] ++ map always l).
  rewrite app_assoc. apply IH.
  - apply represents_always; [done|]. intros H. apply list.NoDup_app in Hn as (_ & Hn & _).
    by apply (Hn nr H); left.
  - rewrite map_app. cbn [map always fst]. by rewrite <- app_assoc.
Qed.

(** A filter over such a map, on the native architecture. *)
Lemma verdict_represents m t act a d : represents m t -> sd_arch d = Some a ->
  filter_verdict m Allow act a d = if denied t d then act else Allow.
Proof.
  intros Hm Ha. unfold filter_verdict. rewrite decide_True by done. rewrite <- (Hm d). unfold matched.
  destruct (m !! sd_nr d) as [[|r rs]|]; done.
Qed.

Lemma verdict_foreign m mis act a d : sd_arch d <> Some a -> filter_verdict m mis act a d = KillProcess.
Proof. intros Ha. unfold filter_verdict. by rewrite decide_False. Qed.

(** ** What the comparisons mean *)

Lemma masked_bit n a : 0 <= n -> (Z.land a (2 ^ n) =? 2 ^ n) = Z.testbit a n.
Proof.
  intros Hn. assert (E : Z.land a (2 ^ n) = if Z.testbit a n then 2 ^ n else 0).
  { apply Z.bits_inj'. intros k Hk. rewrite Z.land_spec. destruct (decide (k = n)) as [->|Hne].
    - rewrite Z.pow2_bits_true by done. destruct (Z.testbit a n) eqn:E; [by rewrite Z.pow2_bits_true|by rewrite Z.bits_0].
    - rewrite Z.pow2_bits_false, andb_false_r by lia.
      destruct (Z.testbit a n); [by rewrite Z.pow2_bits_false by lia|by rewrite Z.bits_0]. }
  rewrite E. destruct (Z.testbit a n); apply bool_eq_iff; rewrite Z.eqb_eq; pose proof (Z.pow_pos_nonneg 2 n ltac:(lia) Hn);
    split; try done; lia.
Qed.

Lemma wrap_testbit w a n : 0 <= n < w -> Z.testbit (wrap w a) n = Z.testbit a n.
Proof. intros Hn. unfold wrap. by rewrite Z.mod_pow2_bits_low by lia. Qed.

Lemma cmp_bit l i d n w : 0 <= n < w -> cmp_len l (arg d i) = wrap w (arg d i) ->
  cmp_len l (2 ^ n) = 2 ^ n ->
  cmp l (MaskedEq (2 ^ n)) (arg d i) (2 ^ n) = Z.testbit (arg d i) n.
Proof.
  intros Hn Hl Hm. unfold cmp. rewrite Hl, Hm, Z.land_diag, masked_bit by lia. by apply wrap_testbit.
Qed.

Lemma arg_range d i : 0 <= arg d i < 2 ^ 64.
Proof. apply wrap_range. lia. Qed.

Lemma wrap64_arg d i : wrap 64 (arg d i) = arg d i.
Proof. apply wrap_small, arg_range. Qed.

Lemma execveat_cond d : cmp Dword (MaskedEq AT_EMPTY_PATH) (arg d 4) AT_EMPTY_PATH = Z.testbit (arg d 4) 12.
Proof. by apply (cmp_bit Dword 4 d 12 32). Qed.

(** A signal to [pid <= 0]: zero, or the sign bit is set. *)
Lemma kill_cond d :
  cmp Dword Eq (arg d 0) 0 || cmp Dword (MaskedEq 0x80000000) (arg d 0) 0x80000000 = (int (arg d 0) <=? 0).
Proof.
  change 0x80000000 with (2 ^ 31). rewrite (cmp_bit Dword 0 d 31 32) by done. unfold cmp, cmp_len, int. rewrite <- (wrap_testbit 32) by lia.
  pose proof (wrap_range 32 (arg d 0) ltac:(lia)) as Hw. set (w := wrap 32 (arg d 0)) in *. clearbody w.
  change (wrap 32 0) with 0. rewrite Z.testbit_odd, shiftr_div by lia. change (2 ^ 31) with 2147483648.
  change (2 ^ 32) with 4294967296 in *. destruct (w <? 2147483648) eqn:E; bsplit.
  - rewrite Z.div_small by lia. cbn [Z.odd]. rewrite orb_false_r. apply bool_eq_iff. rewrite Z.eqb_eq, Z.leb_le. lia.
  - replace (w / 2147483648) with 1 by (Z.to_euclidean_division_equations; lia).
    cbn [Z.odd]. rewrite orb_true_r. symmetry. apply Z.leb_le. lia.
Qed.

(** Any namespace flag. *)
Lemma clone_cond d : existsb (fun flag => cmp Qword (MaskedEq flag) (arg d 0) flag) clone_ns_flags
  = negb (Z.land (arg d 0) CLONE_NEW_ANY =? 0).
Proof.
  set (bits := [17; 25; 26; 27; 28; 29; 30; 7]).
  assert (E : existsb (fun flag => cmp Qword (MaskedEq flag) (arg d 0) flag) clone_ns_flags
    = existsb (Z.testbit (arg d 0)) bits).
  { change clone_ns_flags with (map (fun n => 2 ^ n) bits). subst bits. cbn [map existsb].
    by rewrite !(cmp_bit Qword 0 d _ 64). }
  rewrite E. apply bool_eq_iff. rewrite negb_true_iff, Z.eqb_neq, existsb_exists. split.
  - intros (n & Hn & Hb) H0. assert (Hm : Z.testbit CLONE_NEW_ANY n = true /\ 0 <= n).
    { assert (K : forallb (fun n => Z.testbit CLONE_NEW_ANY n && (0 <=? n)) bits = true) by (vm_compute; reflexivity).
      rewrite forallb_forall in K. specialize (K n Hn). bsplit. done. }
    assert (Ht : Z.testbit (Z.land (arg d 0) CLONE_NEW_ANY) n = true) by (rewrite Z.land_spec, Hb; apply Hm).
    by rewrite H0, Z.bits_0 in Ht.
  - intros H. destruct (existsb (Z.testbit (arg d 0)) bits) eqn:Eb; [by apply existsb_exists in Eb|].
    exfalso. apply H. rewrite <- not_true_iff_false, existsb_exists in Eb.
    assert (EC : CLONE_NEW_ANY = fold_right (fun n m => Z.lor (2 ^ n) m) 0 bits) by (vm_compute; reflexivity).
    rewrite EC. assert (Hb : forall n, In n bits -> 0 <= n) by (subst bits; intros n Hn; simpl in Hn; lia).
    clear -Eb Hb. clearbody bits. induction bits as [|n bits IH]; cbn [fold_right]; [apply Z.land_0_r|].
    rewrite Z.land_lor_distr_r, IH, Z.lor_0_r.
    2:{ intros (x & ? & ?). apply Eb. exists x. split; [by right|done]. }
    2:{ intros. apply Hb. by right. }
    apply land_pow2_0; [apply Hb; by left|]. rewrite <- shiftr_div by (apply Hb; by left).
    rewrite <- Z.bit0_odd, Z.shiftr_spec, Z.add_0_l by lia.
    apply not_true_iff_false. intros Ht. apply Eb. exists n. split; [by left|done].
Qed.

(** ** Refinement *)

Lemma M_bind_ok {A B} (m : M A) (f : A -> M B) k k' b : (m ≫= f) k = (k', Ok b) ->
  exists a k1, m k = (k1, Ok a) /\ f a k1 = (k', Ok b).
Proof. unfold mbind, M_bind. destruct (m k) as [k1 [a|e]]; [eauto|done]. Qed.

Lemma lift_ok {A} (r : Result A) k k' a : lift r k = (k', Ok a) -> k' = k /\ r = Ok a.
Proof. by intros [= <- <-]. Qed.

Lemma apply_filter_ok msg p k k' u : apply_filter msg p k = (k', Ok u) -> k' = p :: k.
Proof. unfold apply_filter. destruct (accepts k p); [by intros [= <- _]|done]. Qed.

(** Peel the steps of a successful run. *)
Ltac step H x Hx :=
  let k1 := fresh "k" in let E := fresh in
  apply M_bind_ok in H as (x & k1 & Hx & H);
  first [apply lift_ok in Hx as [-> Hx] | apply apply_filter_ok in Hx as ->].

Lemma program_verdict m1 m2 rules act a f p d : new_filter m1 rules Allow act a = Ok f ->
  compile m2 f = Ok p -> run p d = filter_verdict rules Allow act a d.
Proof. intros Hf Hp. apply map_err_ok in Hf, Hp. by apply (filter_law _ _ _ _ f). Qed.

Lemma prctl_rules m1 m2 m3 m4 m5 r1 c0 c1 r2 d :
  rule1 m1 m2 0 Dword Eq PR_SET_PDEATHSIG = Ok r1 ->
  condition m3 0 Dword Eq PR_SET_DUMPABLE = Ok c0 -> condition m4 1 Dword Ne 0 = Ok c1 ->
  rule m5 [c0; c1] = Ok r2 ->
  existsb (fun r => rule_holds r d) [r1; r2]
  = (wrap 32 (arg d 0) =? PR_SET_PDEATHSIG)
    || ((wrap 32 (arg d 0) =? PR_SET_DUMPABLE) && negb (wrap 32 (arg d 1) =? 0)).
Proof.
  intros H1 H2 H3 H4. cbn [existsb]. rewrite orb_false_r.
  by rewrite (rule1_holds _ _ _ _ _ _ _ H1), (rule2_holds _ _ _ _ _ _ _ _ _ _ _ _ _ _ H2 H3 H4).
Qed.

(** Two rules that compare the same argument with two values. *)
Lemma either_rules m1 m2 m3 m4 i v w r1 r2 d :
  rule1 m1 m2 i Dword Eq v = Ok r1 -> rule1 m3 m4 i Dword Eq w = Ok r2 ->
  wrap 32 v = v -> wrap 32 w = w ->
  existsb (fun r => rule_holds r d) [r1; r2] = (wrap 32 (arg d i) =? v) || (wrap 32 (arg d i) =? w).
Proof.
  intros H1 H2 Hv Hw. cbn [existsb]. rewrite orb_false_r.
  rewrite (rule1_holds _ _ _ _ _ _ _ H1), (rule1_holds _ _ _ _ _ _ _ H2). unfold cmp, cmp_len. by rewrite Hv, Hw.
Qed.

Lemma kill_rules m1 m2 m3 m4 r1 r2 d :
  rule1 m1 m2 0 Dword Eq 0 = Ok r1 -> rule1 m3 m4 0 Dword (MaskedEq 0x80000000) 0x80000000 = Ok r2 ->
  existsb (fun r => rule_holds r d) [r1; r2] = (int (arg d 0) <=? 0).
Proof.
  intros H1 H2. cbn [existsb]. rewrite orb_false_r.
  rewrite (rule1_holds _ _ _ _ _ _ _ H1), (rule1_holds _ _ _ _ _ _ _ H2). apply kill_cond.
Qed.

Lemma clone_rules_spec m1 m2 rs : clone_rules_loop m1 m2 clone_ns_flags = Ok rs ->
  forall d, match rs with [] => true | _ => existsb (fun r => rule_holds r d) rs end
    = negb (Z.land (arg d 0) CLONE_NEW_ANY =? 0).
Proof.
  intros H d. apply clone_rules_hold in H as [Hne H]. rewrite <- clone_cond, <- H.
  specialize (Hne ltac:(done)). by destruct rs.
Qed.

Lemma enosys_represents : NoDup (map SYS ["clone3"; "io_uring_setup"; "io_uring_enter"; "io_uring_register"]%string) ->
  represents enosys_rules enosys_table.
Proof. intros H. apply (represents_insert_all _ ∅ []); [apply represents_empty|done]. Qed.

(** The verdict of the filters [kill], then [eperm], then [enosys]. *)
Lemma verdict_stack (bk be bn : bool) :
  combine (combine (combine Allow (if bk then KillProcess else Allow)) (if be then Errno EPERM else Allow))
    (if bn then Errno ENOSYS else Allow)
  = if bk then KillProcess else if be then Errno EPERM else if bn then Errno ENOSYS else Allow.
Proof. by destruct bk, be, bn. Qed.

(** [entry es t]: the rules [es] of a call implement the entry [t] of a table. *)
Definition entry (e : Z * list SeccompRule) (t : Z * (SeccompData -> bool)) : Prop :=
  e.1 = t.1 /\ forall d, match e.2 with [] => true | _ => existsb (fun r => rule_holds r d) e.2 end = t.2 d.

Definition insert_list (es : list (Z * list SeccompRule)) (m : Rules) : Rules :=
  foldl (fun m '(nr, rs) => <[nr := rs]> m) m es.

Lemma represents_list es t' m t : represents m t -> Forall2 entry es t' ->
  NoDup (map fst t ++ map fst t') -> represents (insert_list es m) (t ++ t').
Proof.
  intros Hm He. revert m t Hm. induction He as [|[nr rs] [nr' c] es t' [Hnr Hc] He IH]; intros m t Hm Hn.
  - by rewrite app_nil_r.
  - cbn [fst snd] in Hnr, Hc. subst nr'. cbn [insert_list foldl map fst] in *.
    change (t ++ (nr, c) :: t') with (t ++ [(nr, c)] ++ t'). rewrite app_assoc. apply IH.
    + apply represents_insert; [done| |done]. intros H. apply list.NoDup_app in Hn as (_ & Hn & _).
      by apply (Hn nr H); left.
    + rewrite map_app, <- app_assoc. done.
Qed.

(** The parts of [numbers_distinct] that the tables need. *)
Lemma distinct_parts : numbers_distinct ->
  NoDup tier1_kill_syscalls /\
  NoDup (tier2_eperm_syscalls ++ map SYS ["socket"; "prctl"; "execveat"; "ioctl"; "kill"; "tkill"; "clone"]%string) /\
  NoDup (map SYS ["clone3"; "io_uring_setup"; "io_uring_enter"; "io_uring_register"]%string).
Proof.
  unfold numbers_distinct, all_numbers. intros H. apply list.NoDup_app in H as (H1 & _ & H).
  change (map SYS ["socket"; "prctl"; "execveat"; "ioctl"; "kill"; "tkill"; "clone"; "clone3";
    "io_uring_setup"; "io_uring_enter"; "io_uring_register"]%string) with
    (map SYS ["socket"; "prctl"; "execveat"; "ioctl"; "kill"; "tkill"; "clone"]%string
     ++ map SYS ["clone3"; "io_uring_setup"; "io_uring_enter"; "io_uring_register"]%string) in H.
  rewrite app_assoc in H. apply list.NoDup_app in H as (H2 & _ & H3). done.
Qed.

Lemma strict_verdict k0 k d : numbers_distinct -> apply Strict k0 = (k, Ok tt) ->
  exists pk pe pn, k = pk :: pe :: pn :: k0 /\
    kernel_verdict [pk; pe; pn] d = policy strict_kill strict_eperm d.
Proof.
  intros Hn H. apply distinct_parts in Hn as (N1 & N2 & N3). unfold apply in H.
  apply M_bind_ok in H as (pk & k1 & H & Hk). apply apply_filter_ok in Hk as ->. unfold build_filter in H.
  step H a Ha. step H fk Hfk. step H pk' Hpk.
  step H r1 H1. step H r2 H2. step H r3 H3. step H c0 H4. step H c1 H5. step H r4 H6. step H r5 H7.
  step H r6 H8. step H r7 H9. step H r8 H10. step H r9 H11. step H rs H12.
  step H fn Hfn. step H pn Hpn. step H fe Hfe. step H pe Hpe.
  step H u1 Hi1. step H u2 Hi2. injection H as <- <-.
  exists pk', pe, pn. split; [done|]. unfold kernel_verdict. cbn [fold_left].
  rewrite (program_verdict _ _ _ _ _ _ _ _ Hfk Hpk), (program_verdict _ _ _ _ _ _ _ _ Hfn Hpn),
    (program_verdict _ _ _ _ _ _ _ _ Hfe Hpe).
  unfold target_arch in Ha. destruct target_cpu as [a'|] eqn:Et; [|done]. injection Ha as ->.
  unfold policy. rewrite Et. destruct (decide (sd_arch d = Some a)) as [Ea|Ea].
  2:{ by rewrite !verdict_foreign. }
  rewrite (verdict_represents _ strict_kill), (verdict_represents _ strict_eperm),
    (verdict_represents _ enosys_table); [apply verdict_stack|by apply enosys_represents|done| |done| |done].
  - change (<[SYS "clone" := rs]> _) with (insert_list [(SYS "socket", [r1; r2]); (SYS "prctl", [r3; r4]);
      (SYS "execveat", [r5]); (SYS "ioctl", [r6; r7]); (SYS "kill", [r8; r9]); (SYS "tkill", []);
      (SYS "clone", rs)] (insert_all tier2_eperm_syscalls ∅)).
    apply represents_list.
    + apply (represents_insert_all _ ∅ []); [apply represents_empty|]. by apply list.NoDup_app in N2 as (? & _).
    + repeat constructor; try done; intros d'; cbn [fst snd].
      * by eapply either_rules.
      * by eapply prctl_rules.
      * cbn [existsb]. by rewrite orb_false_r, (rule1_holds _ _ _ _ _ _ _ H7), execveat_cond.
      * by eapply either_rules.
      * by eapply kill_rules.
      * by eapply clone_rules_spec.
    + rewrite map_map. rewrite (map_ext _ (fun x => x)), map_id by done. exact N2.
  - apply (represents_insert_all _ ∅ []); [apply represents_empty|done].
Qed.

(** Both profiles kill the same calls. *)
Definition tier1_names : list string :=
  ["ptrace"; "mount"; "umount2"; "reboot"; "kexec_load"; "pivot_root"; "chroot"; "init_module";
   "finit_module"; "delete_module"; "unshare"; "setns"; "personality"; "memfd_create";
   "process_vm_readv"; "process_vm_writev"; "userfaultfd"; "kcmp"; "bpf"; "mount_setattr";
   "move_mount"; "open_tree"; "fsopen"; "fsconfig"; "fsmount"; "fspick"; "pidfd_getfd";
   "pidfd_send_signal"; "process_madvise"; "memfd_secret"; "landlock_create_ruleset";
   "landlock_add_rule"; "landlock_restrict_self"; "quotactl"; "quotactl_fd"; "swapon"; "swapoff";
   "acct"; "add_key"; "request_key"; "keyctl"]%string.

Lemma names_permutation (l k : list string) : bool_decide (l ⊆+ k) = true -> length l = length k ->
  map SYS l ≡ₚ map SYS k.
Proof.
  intros H Hl. apply Permutation_map. apply bool_decide_eq_true in H.
  apply submseteq_length_Permutation; [done|lia].
Qed.

Lemma kill_tables_permutation : baseline_kill_syscalls ≡ₚ tier1_kill_syscalls.
Proof.
  unfold baseline_kill_syscalls, tier1_kill_syscalls.
  generalize (if is_x86_64 || env_gnu then [SYS "kexec_file_load"] else []). intros c.
  transitivity (c ++ map SYS tier1_names ++ [SYS_LSM_GET_SELF_ATTR; SYS_LSM_SET_SELF_ATTR; SYS_LSM_LIST_MODULES]).
  - match goal with |- map SYS ?A ++ c ++ map SYS ?B ++ ?x ++ map SYS ?D ++ ?y ≡ₚ _ =>
      transitivity (c ++ (map SYS A ++ map SYS B ++ map SYS D) ++ x ++ y);
        [generalize (map SYS A), (map SYS B), (map SYS D), x, y; intros; solve_Permutation|] end.
    apply Permutation_app_head, Permutation_app; [|cbn [app]; solve_Permutation].
    rewrite <- !map_app. apply names_permutation; [vm_compute; reflexivity|reflexivity].
  - match goal with |- _ ≡ₚ map SYS ?A ++ c ++ map SYS ?B ++ ?x =>
      transitivity (c ++ (map SYS A ++ map SYS B) ++ x);
        [|generalize (map SYS A), (map SYS B), x; intros; solve_Permutation] end.
    rewrite <- map_app. done.
Qed.

Lemma verdict_stack4 (bk be bc bn : bool) :
  combine (combine (combine (combine Allow (if bk then KillProcess else Allow))
    (if be then Errno EPERM else Allow)) (if bc then Errno EPERM else Allow))
    (if bn then Errno ENOSYS else Allow)
  = if bk then KillProcess else if be || bc then Errno EPERM else if bn then Errno ENOSYS else Allow.
Proof. by destruct bk, be, bc, bn. Qed.

Lemma denied_permutation l k d : l ≡ₚ k -> denied (map always l) d = denied (map always k) d.
Proof.
  intros H. unfold denied. apply bool_eq_iff. rewrite !existsb_exists.
  split; intros (x & Hx & Ht); exists x; (split; [|done]); rewrite in_map_iff in *; destruct Hx as (y & ? & Hy);
    exists y; (split; [done|]); by rewrite ?(Permutation_in H), H in *.
Qed.

Lemma baseline_distinct :
  NoDup (tier2_eperm_syscalls ++ map SYS ["socket"; "prctl"; "execveat"; "ioctl"; "kill"; "tkill"; "clone"]%string) ->
  NoDup (map SYS ["prctl"; "execveat"; "ioctl"; "kill"; "tkill"; "perf_event_open"]%string).
Proof.
  intros H. apply list.NoDup_app in H as (H1 & Hd & H2). cbn [map] in *.
  change [SYS "prctl"; SYS "execveat"; SYS "ioctl"; SYS "kill"; SYS "tkill"; SYS "perf_event_open"]
    with ([SYS "prctl"; SYS "execveat"; SYS "ioctl"; SYS "kill"; SYS "tkill"] ++ [SYS "perf_event_open"]).
  apply list.NoDup_app. split_and!.
  - apply list.NoDup_cons in H2 as [_ H2].
    by apply (list.NoDup_app [SYS "prctl"; SYS "execveat"; SYS "ioctl"; SYS "kill"; SYS "tkill"] [SYS "clone"]) in H2 as (? & _).
  - intros x Hx Hp. apply list_elem_of_singleton in Hp as ->. apply (Hd (SYS "perf_event_open")).
    + unfold tier2_eperm_syscalls. cbn [map]. destruct is_x86_64; rewrite ?elem_of_app, !elem_of_cons; tauto.
    + rewrite !elem_of_cons in *. tauto.
  - apply list.NoDup_singleton.
Qed.

Lemma baseline_verdict k0 k d : numbers_distinct -> apply Baseline k0 = (k, Ok tt) ->
  exists pk pe pc pn, k = pk :: pe :: pc :: pn :: k0 /\
    kernel_verdict [pk; pe; pc; pn] d = policy baseline_kill baseline_eperm d.
Proof.
  intros Hn H. apply distinct_parts in Hn as (N1 & N2 & N3). unfold apply in H.
  apply M_bind_ok in H as (pk & k1 & H & Hk). apply apply_filter_ok in Hk as ->. unfold build_baseline_filter in H.
  step H a Ha. step H fk Hfk. step H pk' Hpk. step H rs H1. step H fc Hfc. step H pc Hpc.
  step H fn Hfn. step H pn Hpn. step H u1 Hi1. step H u2 Hi2.
  step H r3 H3. step H c0 H4. step H c1 H5. step H r4 H6. step H r5 H7. step H r6 H8. step H r7 H9.
  step H r8 H10. step H r9 H11. step H fe Hfe. step H pe Hpe. step H u3 Hi3. injection H as <- <-.
  exists pk', pe, pc, pn. split; [done|]. unfold kernel_verdict. cbn [fold_left].
  rewrite (program_verdict _ _ _ _ _ _ _ _ Hfk Hpk), (program_verdict _ _ _ _ _ _ _ _ Hfn Hpn),
    (program_verdict _ _ _ _ _ _ _ _ Hfe Hpe), (program_verdict _ _ _ _ _ _ _ _ Hfc Hpc).
  unfold target_arch in Ha. destruct target_cpu as [a'|] eqn:Et; [|done]. injection Ha as ->.
  unfold policy. rewrite Et. destruct (decide (sd_arch d = Some a)) as [Ea|Ea].
  2:{ by rewrite !verdict_foreign. }
  unfold baseline_eperm. change (common_entries ++ [always (SYS "perf_event_open"); clone_entry])
    with ((common_entries ++ [always (SYS "perf_event_open")]) ++ [clone_entry]). rewrite denied_app.
  rewrite (verdict_represents _ baseline_kill), (verdict_represents _ (common_entries ++ [always (SYS "perf_event_open")])),
    (verdict_represents _ [clone_entry]), (verdict_represents _ enosys_table);
    [apply verdict_stack4|by apply enosys_represents|done| |done| |done| |done].
  - apply (represents_insert ∅ []); [apply represents_empty|by apply not_elem_of_nil|]. by eapply clone_rules_spec.
  - change (<[SYS "perf_event_open" := []]> _) with (insert_list [(SYS "prctl", [r3; r4]);
      (SYS "execveat", [r5]); (SYS "ioctl", [r6; r7]); (SYS "kill", [r8; r9]); (SYS "tkill", []);
      (SYS "perf_event_open", [])] ∅).
    apply (represents_list _ (common_entries ++ [always (SYS "perf_event_open")]) ∅ []); [apply represents_empty| |].
    + repeat constructor; try done; intros d'; cbn [fst snd].
      * by eapply prctl_rules.
      * cbn [existsb]. by rewrite orb_false_r, (rule1_holds _ _ _ _ _ _ _ H7), execveat_cond.
      * by eapply either_rules.
      * by eapply kill_rules.
    + by apply baseline_distinct.
  - apply (represents_insert_all _ ∅ []); [apply represents_empty|].
    cbn [map app]. by rewrite kill_tables_permutation.
Qed.

Lemma combine_rank a b : rank a <= rank (combine a b) /\ rank b <= rank (combine a b).
Proof. unfold combine. destruct (rank a <? rank b) eqn:E; bsplit; lia. Qed.

Lemma verdict_grows k d a : rank a <= rank (fold_left (fun ret p => combine ret (run p d)) k a).
Proof.
  revert a. induction k as [|p k IH]; intros a; [done|]. cbn [fold_left].
  etransitivity; [apply (combine_rank a (run p d))|]. apply IH.
Qed.

Lemma verdict_app added k d : rank (kernel_verdict added d) <= rank (kernel_verdict (added ++ k) d).
Proof. unfold kernel_verdict. rewrite fold_left_app. apply verdict_grows. Qed.

Lemma apply_verdict profile k0 k d : numbers_distinct -> apply profile k0 = (k, Ok tt) ->
  exists added, k = added ++ k0 /\ kernel_verdict added d = seccomp_policy profile d.
Proof.
  intros Hn H. destruct profile; [apply (strict_verdict _ _ d) in H as (a & b & c & -> & H); [|done]; by exists [a; b; c]|].
  apply (baseline_verdict _ _ d) in H as (a & b & c & e & -> & H); [|done]. by exists [a; b; c; e].
Qed.

(** C13: the installed filters implement the profile's policy exactly.  When
    [apply] succeeds, whatever filters were installed before, the kernel's verdict
    of the filters it added is, for every system call and all its arguments, the
    verdict the policy table gives (KILL, EPERM, ENOSYS or ALLOW; KILL for a
    foreign architecture); the total verdict is at least that restrictive. *)
Theorem apply_enforces profile k0 k d : numbers_distinct -> apply profile k0 = (k, Ok tt) ->
  (exists added, k = added ++ k0 /\ kernel_verdict added d = seccomp_policy profile d) /\
  rank (seccomp_policy profile d) <= rank (kernel_verdict k d).
Proof.
  intros Hn H. pose proof (apply_verdict profile k0 k d Hn H) as K.
  split; [done|]. destruct K as (added & -> & <-). apply verdict_app.
Qed.

Lemma denied_sub t u d : (forall e, e ∈ t -> e ∈ u) -> denied t d = true -> denied u d = true.
Proof.
  unfold denied. rewrite !existsb_exists. intros Hs (e & He & Ht). exists e. split; [|done].
  by apply list_elem_of_In, Hs, list_elem_of_In.
Qed.

(** The strict profile is at least as restrictive as the baseline one, for
    every system call and all its arguments. *)
Theorem strict_at_least_baseline d :
  rank (seccomp_policy Baseline d) <= rank (seccomp_policy Strict d).
Proof.
  unfold seccomp_policy, policy, baseline_kill, strict_kill. case_decide; [|done].
  rewrite (denied_permutation _ _ d kill_tables_permutation).
  destruct (denied (map always tier1_kill_syscalls) d); [done|].
  destruct (denied baseline_eperm d) eqn:Eb; [|by destruct (denied strict_eperm d), (denied enosys_table d)].
  rewrite (denied_sub baseline_eperm strict_eperm d); [done| |done].
  intros e He. unfold baseline_eperm, strict_eperm, tier2_eperm_syscalls in *.
  rewrite !elem_of_app, !elem_of_cons in *. destruct He as [He|[->|[->|He]]]; [tauto| |tauto|by apply elem_of_nil in He].
  left. cbn [map]. destruct is_x86_64; cbn [map app]; rewrite !elem_of_cons; tauto.
Qed.

(** ** Success *)

Lemma is_ok_ex {E A} (r : result E A) : is_ok r = true -> exists a, r = Ok a.
Proof. destruct r; [eauto|done]. Qed.

Lemma rule1_ok m1 m2 i l op v : 0 <= i <= 5 -> exists r, rule1 m1 m2 i l op v = Ok r.
Proof.
  intros Hi. unfold rule1, condition, rule.
  destruct (is_ok_ex _ (condition_ok i l op v Hi)) as [c ->]. cbn [map_err mbind result_bind].
  destruct (is_ok_ex _ (rule_ok [c] ltac:(done))) as [r ->]. by exists r.
Qed.

Lemma clone_rules_ok m1 m2 flags : exists rs, clone_rules_loop m1 m2 flags = Ok rs.
Proof.
  induction flags as [|f flags [rs IH]]; [by eexists|]. cbn [clone_rules_loop].
  destruct (rule1_ok m1 m2 0 Qword (MaskedEq f) f ltac:(lia)) as [r ->]. cbn [mbind result_bind]. rewrite IH. by eexists.
Qed.

Section Success.
Context (Hcompile : forall f, is_ok (try_into f) = true) (Haccept : forall k p, accepts k p = true).

Lemma lift_bind {A B} (r : Result A) (f : A -> M B) a k : r = Ok a -> (lift r ≫= f) k = f a k.
Proof. by intros ->. Qed.

Lemma install_bind {B} msg p (f : unit -> M B) k : (apply_filter msg p ≫= f) k = f tt (p :: k).
Proof. unfold mbind, M_bind, apply_filter. by rewrite Haccept. Qed.

Lemma new_filter_ok msg rules act a : act <> Allow -> exists f, new_filter msg rules Allow act a = Ok f.
Proof. intros Ha. unfold new_filter. destruct (is_ok_ex _ (filter_ok rules Allow act a ltac:(done))) as [f ->]. by exists f. Qed.

Lemma compile_ok msg f : exists p, compile msg f = Ok p.
Proof. unfold compile. destruct (is_ok_ex _ (Hcompile f)) as [p ->]. by exists p. Qed.

Lemma condition_ok' msg i l op v : 0 <= i <= 5 -> exists c, condition msg i l op v = Ok c.
Proof. intros Hi. unfold condition. destruct (is_ok_ex _ (condition_ok i l op v Hi)) as [c ->]. by exists c. Qed.

Lemma rule_ok' msg c cs : exists r, rule msg (c :: cs) = Ok r.
Proof. unfold rule. destruct (is_ok_ex _ (rule_ok (c :: cs) ltac:(done))) as [r ->]. by exists r. Qed.

Ltac lifted lem := let r := fresh "r" in let H := fresh in destruct lem as [r H]; rewrite (lift_bind _ _ r _ H).
Ltac run_step :=
  match goal with
  | |- context [(lift (rule1 ?m ?n ?i ?l ?op ?v) ≫= _) _] => lifted (rule1_ok m n i l op v ltac:(lia))
  | |- context [(lift (clone_rules_loop ?m ?n ?l) ≫= _) _] => lifted (clone_rules_ok m n l)
  | |- context [(lift (condition ?m ?i ?l ?op ?v) ≫= _) _] => lifted (condition_ok' m i l op v ltac:(lia))
  | |- context [(lift (rule ?m (?c :: ?cs)) ≫= _) _] => lifted (rule_ok' m c cs)
  | |- context [(lift (new_filter ?m ?rules _ ?act ?t) ≫= _) _] => lifted (new_filter_ok m rules act t ltac:(done))
  | |- context [(lift (compile ?m ?f) ≫= _) _] => lifted (compile_ok m f)
  | |- context [(apply_filter ?m ?p ≫= _) _] => rewrite (install_bind m p)
  end.

(** [apply] succeeds on a supported architecture if the library compiles
    the filters and the kernel accepts them: none of the conditions, rules
    and filters it constructs is one that [seccompiler] rejects. *)
Theorem apply_succeeds profile k0 a : target_cpu = Some a ->
  exists k, apply profile k0 = (k, Ok tt) /\
    length k = (match profile with Strict => 3 | Baseline => 4 end + length k0)%nat.
Proof.
  intros Ht. assert (Ha : target_arch = Ok a) by (unfold target_arch; by rewrite Ht).
  destruct profile; unfold apply.
  - unfold mbind at 1, M_bind at 1. unfold build_filter. rewrite (lift_bind _ _ a _ Ha). repeat run_step.
    unfold mret, M_ret, apply_filter. rewrite Haccept. by eexists.
  - unfold mbind at 1, M_bind at 1. unfold build_baseline_filter. rewrite (lift_bind _ _ a _ Ha). repeat run_step.
    unfold mret, M_ret, apply_filter. rewrite Haccept. by eexists.
Qed.
End Success.
End Filters.

(** ** A model of the interface

    An implementation of the interface that keeps the rules as data, and the
    numbers of the system calls of Linux on the two architectures: the laws can
    be satisfied. *)
Module Reference.

Definition rule_data : Type := list (Z * SeccompCmpArgLen * SeccompCmpOp * Z).

Definition data_holds (r : rule_data) (d : SeccompData) : bool :=
  forallb (fun '(i, l, op, v) => cmp l op (arg d i) v) r.

Definition rules_verdict (rules : gmap Z (list rule_data)) (mismatch matched : SeccompAction)
    (a : TargetArch) (d : SeccompData) : SeccompAction :=
  if decide (sd_arch d = Some a) then
    match rules !! sd_nr d with
    | None => mismatch
    | Some [] => matched
    | Some rs => if existsb (fun r => data_holds r d) rs then matched else mismatch
    end
  else KillProcess.

#[local] Instance seccompiler : Seccompiler := {|
  SeccompCondition := Z * SeccompCmpArgLen * SeccompCmpOp * Z;
  SeccompRule := rule_data;
  SeccompFilter := gmap Z (list rule_data) * SeccompAction * SeccompAction * TargetArch;
  BpfProgram := gmap Z (list rule_data) * SeccompAction * SeccompAction * TargetArch;
  BackendError := unit;
  Condition_new i l op v := if (0 <=? i) && (i <=? 5) then Ok (i, l, op, v) else Err tt;
  Rule_new cs := match cs with [] => Err tt | _ => Ok cs end;
  Filter_new rules mismatch matched a :=
    if decide (mismatch = matched) then Err tt else Ok (rules, mismatch, matched, a);
  try_into f := Ok f;
  run f d := let '(rules, mismatch, matched, a) := f in rules_verdict rules mismatch matched a d;
  condition_holds c d := let '(i, l, op, v) := c in cmp l op (arg d i) v;
  rule_holds := data_holds;
|}.

#[local] Instance laws : SeccompilerLaws seccompiler.
Proof.
  split; cbn.
  - intros i l op v c. destruct (_ && _); [by intros [= <-]|done].
  - intros [|c cs] r; [done|]. intros [= <-] d. reflexivity.
  - intros rules m1 m2 a f p. case_decide; [done|]. by intros [= <-] [= <-].
  - intros i l op v Hi. rewrite (proj2 (Z.leb_le 0 i)), (proj2 (Z.leb_le i 5)) by lia. done.
  - by intros [].
  - intros. by case_decide.
Qed.

Fixpoint number (t : list (string * Z)) (s : string) : Z :=
  match t with [] => -1 | (n, z) :: t => if decide (n = s) then z else number t s end.

(** [asm/unistd_64.h] and [asm-generic/unistd.h] of Linux. *)
Definition numbers_x86_64 : list (string * Z) :=
  [
    ("read", 0); ("write", 1); ("open", 2); ("close", 3); ("stat", 4); ("fstat", 5); ("lstat", 6);
    ("poll", 7); ("lseek", 8); ("mmap", 9); ("mprotect", 10); ("munmap", 11); ("brk", 12);
    ("rt_sigaction", 13); ("rt_sigprocmask", 14); ("rt_sigreturn", 15); ("ioctl", 16);
    ("pread64", 17); ("writev", 20); ("access", 21); ("pipe", 22); ("select", 23);
    ("sched_yield", 24); ("mremap", 25); ("madvise", 28); ("dup", 32); ("dup2", 33);
    ("nanosleep", 35); ("getpid", 39); ("socket", 41); ("connect", 42); ("accept", 43);
    ("sendto", 44); ("recvfrom", 45); ("sendmsg", 46); ("recvmsg", 47); ("shutdown", 48);
    ("bind", 49); ("listen", 50); ("getsockname", 51); ("getpeername", 52); ("socketpair", 53);
    ("setsockopt", 54); ("getsockopt", 55); ("clone", 56); ("fork", 57); ("vfork", 58);
    ("execve", 59); ("exit", 60); ("wait4", 61); ("kill", 62); ("uname", 63); ("fcntl", 72);
    ("ftruncate", 77); ("getcwd", 79); ("chdir", 80); ("link", 86); ("symlink", 88);
    ("readlink", 89); ("getrlimit", 97); ("ptrace", 101); ("getuid", 102); ("getgid", 104);
    ("geteuid", 107); ("getegid", 108); ("getppid", 110); ("sigaltstack", 131); ("personality", 135);
    ("statfs", 137); ("prctl", 157); ("arch_prctl", 158); ("acct", 163); ("chroot", 161);
    ("mount", 165); ("umount2", 166); ("swapon", 167); ("swapoff", 168); ("reboot", 169);
    ("init_module", 175); ("delete_module", 176); ("quotactl", 179); ("pivot_root", 155);
    ("gettid", 186); ("tkill", 200); ("futex", 202); ("sched_setaffinity", 203);
    ("sched_getaffinity", 204); ("getdents64", 217); ("set_tid_address", 218);
    ("clock_gettime", 228); ("clock_nanosleep", 230); ("exit_group", 231); ("epoll_wait", 232);
    ("epoll_ctl", 233); ("tgkill", 234); ("kexec_load", 246); ("waitid", 247); ("add_key", 248);
    ("request_key", 249); ("keyctl", 250); ("openat", 257); ("newfstatat", 262); ("unlinkat", 263);
    ("linkat", 265); ("symlinkat", 266); ("readlinkat", 267); ("faccessat", 269); ("pselect6", 270);
    ("ppoll", 271); ("unshare", 272); ("set_robust_list", 273); ("get_robust_list", 274);
    ("epoll_pwait", 281); ("accept4", 288); ("eventfd2", 290); ("epoll_create1", 291); ("dup3", 292);
    ("pipe2", 293); ("perf_event_open", 298); ("recvmmsg", 299); ("prlimit64", 302);
    ("name_to_handle_at", 303); ("sendmmsg", 307); ("setns", 308); ("getcpu", 309);
    ("process_vm_readv", 310); ("process_vm_writev", 311); ("kcmp", 312); ("finit_module", 313);
    ("seccomp", 317); ("getrandom", 318); ("memfd_create", 319); ("kexec_file_load", 320);
    ("bpf", 321); ("execveat", 322); ("userfaultfd", 323); ("membarrier", 324); ("statx", 332);
    ("rseq", 334); ("pidfd_send_signal", 424); ("io_uring_setup", 425); ("io_uring_enter", 426);
    ("io_uring_register", 427); ("open_tree", 428); ("move_mount", 429); ("fsopen", 430);
    ("fsconfig", 431); ("fsmount", 432); ("fspick", 433); ("pidfd_open", 434); ("clone3", 435);
    ("close_range", 436); ("openat2", 437); ("pidfd_getfd", 438); ("process_madvise", 440);
    ("mount_setattr", 442); ("quotactl_fd", 443); ("landlock_create_ruleset", 444);
    ("landlock_add_rule", 445); ("landlock_restrict_self", 446); ("memfd_secret", 447)
  ]%string.

Definition numbers_aarch64 : list (string * Z) :=
  [
    ("getcwd", 17); ("eventfd2", 19); ("epoll_create1", 20); ("epoll_ctl", 21); ("epoll_pwait", 22);
    ("dup", 23); ("dup3", 24); ("fcntl", 25); ("ioctl", 29); ("unlinkat", 35); ("symlinkat", 36);
    ("linkat", 37); ("umount2", 39); ("mount", 40); ("pivot_root", 41); ("statfs", 43);
    ("ftruncate", 46); ("faccessat", 48); ("chdir", 49); ("chroot", 51); ("openat", 56);
    ("close", 57); ("pipe2", 59); ("quotactl", 60); ("getdents64", 61); ("lseek", 62); ("read", 63);
    ("write", 64); ("writev", 66); ("pread64", 67); ("pselect6", 72); ("ppoll", 73);
    ("readlinkat", 78); ("newfstatat", 79); ("fstat", 80); ("acct", 89); ("personality", 92);
    ("exit", 93); ("exit_group", 94); ("waitid", 95); ("set_tid_address", 96); ("unshare", 97);
    ("futex", 98); ("set_robust_list", 99); ("get_robust_list", 100); ("nanosleep", 101);
    ("kexec_load", 104); ("init_module", 105); ("delete_module", 106); ("clock_gettime", 113);
    ("clock_nanosleep", 115); ("ptrace", 117); ("sched_setaffinity", 122);
    ("sched_getaffinity", 123); ("sched_yield", 124); ("kill", 129); ("tkill", 130); ("tgkill", 131);
    ("sigaltstack", 132); ("rt_sigaction", 134); ("rt_sigprocmask", 135); ("rt_sigreturn", 139);
    ("reboot", 142); ("uname", 160); ("getrlimit", 163); ("prctl", 167); ("getcpu", 168);
    ("getpid", 172); ("getppid", 173); ("getuid", 174); ("geteuid", 175); ("getgid", 176);
    ("getegid", 177); ("gettid", 178); ("msgget", 186); ("socket", 198); ("socketpair", 199);
    ("bind", 200); ("listen", 201); ("accept", 202); ("connect", 203); ("getsockname", 204);
    ("getpeername", 205); ("sendto", 206); ("recvfrom", 207); ("setsockopt", 208);
    ("getsockopt", 209); ("shutdown", 210); ("sendmsg", 211); ("recvmsg", 212); ("brk", 214);
    ("munmap", 215); ("mremap", 216); ("add_key", 217); ("request_key", 218); ("keyctl", 219);
    ("clone", 220); ("execve", 221); ("mmap", 222); ("swapon", 224); ("swapoff", 225);
    ("mprotect", 226); ("mlock", 228); ("madvise", 233); ("perf_event_open", 241); ("accept4", 242);
    ("recvmmsg", 243); ("wait4", 260); ("prlimit64", 261); ("setns", 268); ("sendmmsg", 269);
    ("process_vm_readv", 270); ("process_vm_writev", 271); ("kcmp", 272); ("finit_module", 273);
    ("seccomp", 277); ("getrandom", 278); ("memfd_create", 279); ("bpf", 280); ("execveat", 281);
    ("userfaultfd", 282); ("membarrier", 283); ("statx", 291); ("rseq", 293);
    ("kexec_file_load", 294); ("pidfd_send_signal", 424); ("io_uring_setup", 425);
    ("io_uring_enter", 426); ("io_uring_register", 427); ("open_tree", 428); ("move_mount", 429);
    ("fsopen", 430); ("fsconfig", 431); ("fsmount", 432); ("fspick", 433); ("pidfd_open", 434);
    ("clone3", 435); ("close_range", 436); ("openat2", 437); ("pidfd_getfd", 438);
    ("process_madvise", 440); ("mount_setattr", 442); ("quotactl_fd", 443);
    ("landlock_create_ruleset", 444); ("landlock_add_rule", 445); ("landlock_restrict_self", 446);
    ("memfd_secret", 447)
  ]%string.

Definition linux (a : TargetArch) : Target := {|
  target_cpu := Some a;
  env_gnu := true;
  SYS := number (match a with x86_64 => numbers_x86_64 | aarch64 => numbers_aarch64 end);
|}.

(** A kernel that accepts every program. *)
Definition accepting (_ : list BpfProgram) (_ : BpfProgram) : bool := true.

(** [clone] with CLONE_NEWUSER and SIGCHLD. *)
Definition clone_newuser : SeccompData :=
  {| sd_arch := Some x86_64; sd_nr := 56; sd_args := [0x10000011; 0; 0; 0; 0; 0] |}.
End Reference.

Lemma apply_enforces_witness :
  let T := Reference.linux x86_64 in
  exists k, @apply T Reference.seccompiler Reference.accepting Strict [] = (k, Ok tt) /\
    Errno EPERM = @seccomp_policy T Strict Reference.clone_newuser /\
    rank (Errno EPERM) <= rank (@kernel_verdict Reference.seccompiler k Reference.clone_newuser).
Proof.
  set (r := @apply (Reference.linux x86_64) Reference.seccompiler Reference.accepting Strict []).
  exists (fst r). split; [by vm_compute|]. split; [by vm_compute|].
  exact (proj2 (@apply_enforces (Reference.linux x86_64) Reference.seccompiler Reference.accepting Reference.laws
    Strict [] (fst r) Reference.clone_newuser ltac:(by_eval) ltac:(by vm_compute))).
Defined.

Lemma apply_succeeds_witness :
  exists k, @apply (Reference.linux aarch64) Reference.seccompiler Reference.accepting Baseline [] = (k, Ok tt) /\
    length k = (4 + 0)%nat.
Proof.
  exact (@apply_succeeds (Reference.linux aarch64) Reference.seccompiler Reference.accepting Reference.laws
    ltac:(done) ltac:(done) Baseline [] aarch64 eq_refl).
Defined.

(** The audit summary of the strict profile counts five calls that always fail
    with EPERM; there are six ([tkill] is not counted). *)
Theorem summary_omits_tkill :
  let T := Reference.linux x86_64 in
  let eperm := map SYS ["symlinkat"; "linkat"; "perf_event_open"; "symlink"; "link"; "tkill"]%string in
  tier2_eperm_count (summary Strict) = 5 /\ NoDup eperm /\ length eperm = 6%nat /\
  forall nr args, nr ∈ eperm ->
    seccomp_policy Strict {| sd_arch := Some x86_64; sd_nr := nr; sd_args := args |} = Errno EPERM.
Proof.
  cbv zeta. split; [by vm_compute|]. split; [by_eval|]. split; [done|]. intros nr args.
  rewrite list_elem_of_In. cbn [map In]. intros H. repeat destruct H as [<-|H]; [by vm_compute..|done].
Qed.
