(* ===== verification/SeccompDebug.v ===== *)
(** * SeccompDebug: the SIGSYS handler of [seccomp.rs]

    In debug mode the filters trap instead of killing, and the handler prints
    the number and the name of the blocked call once per number.  The handler
    is a function on its static state (the re-entrance flag and the 512-bit set
    of reported numbers) that returns the bytes it writes.  The theorems give
    its output exactly, the bound of its stack buffer included, and what it
    reports over a sequence of signals. *)

From S2P Require Import Prelude Text Seccomp.

(** ** Names of system calls: the arms of the [match], and its default *)

Definition names_x86_64 : list (Z * string) :=
  [
    (0, "read"); (1, "write"); (2, "open"); (3, "close"); (4, "stat"); (5, "fstat"); (6, "lstat");
    (7, "poll"); (8, "lseek"); (9, "mmap"); (10, "mprotect"); (11, "munmap"); (12, "brk");
    (13, "rt_sigaction"); (14, "rt_sigprocmask"); (15, "rt_sigreturn"); (16, "ioctl");
    (17, "pread64"); (20, "writev"); (23, "select"); (24, "sched_yield"); (25, "mremap");
    (28, "madvise"); (35, "nanosleep"); (39, "getpid"); (41, "socket"); (42, "connect");
    (43, "accept"); (44, "sendto"); (45, "recvfrom"); (46, "sendmsg"); (47, "recvmsg");
    (48, "shutdown"); (49, "bind"); (51, "getsockname"); (52, "getpeername"); (54, "setsockopt");
    (55, "getsockopt"); (56, "clone"); (59, "execve"); (60, "exit"); (63, "uname"); (72, "fcntl");
    (79, "getcwd"); (97, "getrlimit"); (102, "getuid"); (104, "getgid"); (107, "geteuid");
    (108, "getegid"); (131, "sigaltstack"); (157, "prctl"); (186, "gettid"); (202, "futex");
    (203, "sched_setaffinity"); (204, "sched_getaffinity"); (217, "getdents64");
    (218, "set_tid_address"); (228, "clock_gettime"); (230, "clock_nanosleep");
    (231, "exit_group"); (232, "epoll_wait"); (233, "epoll_ctl"); (234, "tgkill"); (257, "openat");
    (262, "newfstatat"); (270, "pselect6"); (281, "epoll_create1"); (288, "accept4");
    (291, "epoll_pwait"); (299, "recvmmsg"); (302, "prlimit64"); (303, "sendmmsg");
    (309, "getcpu"); (318, "getrandom"); (332, "statx"); (334, "rseq"); (435, "clone3");
    (437, "openat2")
  ]%string.

Definition names_aarch64 : list (Z * string) :=
  [
    (25, "fcntl"); (29, "ioctl"); (35, "unlinkat"); (43, "statfs"); (46, "ftruncate");
    (48, "faccessat"); (49, "chdir"); (56, "openat"); (57, "close"); (61, "getdents64");
    (62, "lseek"); (63, "read"); (64, "write"); (66, "writev"); (67, "pread64"); (72, "pselect6");
    (73, "ppoll"); (78, "readlinkat"); (79, "newfstatat"); (80, "fstat"); (93, "exit");
    (94, "exit_group"); (96, "set_tid_address"); (98, "futex"); (99, "set_robust_list");
    (100, "get_robust_list"); (101, "nanosleep"); (113, "clock_gettime"); (115, "clock_nanosleep");
    (117, "ptrace"); (123, "sched_getaffinity"); (124, "sched_yield"); (129, "kill");
    (130, "tkill"); (131, "tgkill"); (132, "sigaltstack"); (134, "rt_sigaction");
    (135, "rt_sigprocmask"); (139, "rt_sigreturn"); (160, "uname"); (167, "prctl");
    (172, "getpid"); (175, "getuid"); (176, "getgid"); (177, "geteuid"); (178, "getegid");
    (186, "gettid"); (198, "socket"); (200, "bind"); (202, "accept"); (203, "connect");
    (204, "getsockname"); (205, "getpeername"); (206, "sendto"); (207, "recvfrom");
    (208, "setsockopt"); (209, "getsockopt"); (210, "shutdown"); (211, "sendmsg");
    (212, "recvmsg"); (214, "brk"); (215, "munmap"); (216, "mremap"); (220, "clone");
    (221, "execve"); (222, "mmap"); (226, "mprotect"); (228, "madvise"); (233, "accept4");
    (242, "recvmmsg"); (243, "sendmmsg"); (261, "prlimit64"); (270, "process_vm_readv");
    (271, "getcpu"); (278, "getrandom"); (281, "epoll_create1"); (282, "epoll_ctl");
    (283, "epoll_pwait"); (291, "statx"); (293, "rseq"); (435, "clone3"); (437, "openat2")
  ]%string.

Fixpoint name_of (t : list (Z * string)) (nr : Z) : string :=
  match t with [] => "unknown" | (k, n) :: t => if k =? nr then n else name_of t nr end.

Section Handler.
Context `{T : Target}.

Definition syscall_name (nr : Z) : string :=
  match target_cpu with
  | Some x86_64 => name_of names_x86_64 nr
  | Some aarch64 => name_of names_aarch64 nr
  | None => "unknown"
  end.

(** ** The handler *)

Record Statics : Type := { HANDLER_ACTIVE : bool; REPORTED_SYSCALLS : list Z }.

Definition statics_init : Statics :=
  {| HANDLER_ACTIVE := false; REPORTED_SYSCALLS := [0; 0; 0; 0; 0; 0; 0; 0] |}.

Definition DIGITS_LEN : nat := 20.
Definition BUF_LEN : Z := 128.

(** The digits, least significant first; [None]: the index is out of the
    array (a panic).  One step per digit. *)
Fixpoint digits_loop (fuel : nat) (n : Z) (digits : bytes) : option bytes :=
  if n =? 0 then Some digits
  else
    match fuel with
    | O => None
    | S fuel => digits_loop fuel (n / 10) (digits ++ [48 + n mod 10])
    end.

(** [for i in (0..dpos).rev()]: a byte that does not fit is dropped. *)
Definition push_digit (buf : bytes) (d : Z) : bytes := if len buf <? BUF_LEN then buf ++ [d] else buf.

(** The line; the buffer is its written prefix ([pos] bytes). *)
Definition format_line (nr : Z) : option bytes :=
  let name := bs (syscall_name nr) in
  let buf := bs "seccomp: blocked syscall " in
  let nr_abs := wrap 64 (if nr <? 0 then - nr else nr) in
  let buf := if nr <? 0 then buf ++ [ch "-"] else buf in
  digits ← (if nr_abs =? 0 then Some [48] else digits_loop DIGITS_LEN nr_abs []);
  let buf := fold_left push_digit (rev digits) buf in
  let suffix_len := 2 + len name + 2 in
  Some (if len buf + suffix_len <=? BUF_LEN then buf ++ bs " (" ++ name ++ bs ")" ++ [10]
        else if len buf <? BUF_LEN then buf ++ [10] else buf).

(** One delivery of the signal: [info] is the number at offset 0x18 of the
    [siginfo_t] (an [i32]), [None] the null pointer.  The result is the new
    state and the bytes written to file descriptor 2; [None] is a panic. *)
Definition sigsys_handler (info : option Z) (st : Statics) : option (Statics * bytes) :=
  if HANDLER_ACTIVE st then Some (st, [])
  else
    match info with
    | None => Some (st, [])
    | Some nr =>
      let nr_u := wrap 64 nr in
      let idx := nr_u / 64 in
      let bit := Z.shiftl 1 (nr_u mod 64) in
      match (if idx <? len (REPORTED_SYSCALLS st) then REPORTED_SYSCALLS st !! Z.to_nat idx else None) with
      | Some prev =>
        let st := {| HANDLER_ACTIVE := false;
                     REPORTED_SYSCALLS := <[Z.to_nat idx := Z.lor prev bit]> (REPORTED_SYSCALLS st) |} in
        if negb (Z.land prev bit =? 0) then Some (st, [])
        else line ← format_line nr; Some (st, line)
      | None => line ← format_line nr; Some (st, line)
      end
    end.

(** A sequence of deliveries, none of them nested. *)
Fixpoint signals (nrs : list Z) (st : Statics) : option (Statics * list bytes) :=
  match nrs with
  | [] => Some (st, [])
  | nr :: nrs =>
    '(st, line) ← sigsys_handler (Some nr) st;
    '(st, lines) ← signals nrs st;
    Some (st, line :: lines)
  end.

(** ** What the handler prints *)

Definition report_line (nr : Z) : bytes :=
  bs "seccomp: blocked syscall " ++ dec_signed nr ++ bs " (" ++ bs (syscall_name nr) ++ bs ")" ++ [10].

Definition is_i32 (z : Z) : Prop := - 2 ^ 31 <= z < 2 ^ 31.

Lemma digits_loop_dec k n acc : 0 < n < 10 ^ Z.of_nat k ->
  digits_loop k n acc = Some (acc ++ rev (dec n)).
Proof.
  revert n acc. induction k as [|k IH]; intros n acc Hn; [lia|]. cbn [digits_loop].
  rewrite Nat2Z.inj_succ, Z.pow_succ_r in Hn by lia. destruct (Z.eqb_spec n 0); [lia|].
  destruct (Z_lt_ge_dec n 10).
  - rewrite dec_small, Z.mod_small by lia. rewrite (Z.div_small n 10) by lia. by destruct k.
  - rewrite IH by (split; [apply Z.div_str_pos; lia|apply Z.div_lt_upper_bound; lia]).
    by rewrite (dec_step n), rev_unit, <- app_assoc by lia.
Qed.

Lemma push_digits l buf : len buf + len l <= BUF_LEN -> fold_left push_digit l buf = buf ++ l.
Proof.
  revert buf. induction l as [|d l IH]; intros buf H; [by rewrite app_nil_r|]. cbn [fold_left].
  rewrite len_cons in H. pose proof (len_nonneg l). 
  assert (push_digit buf d = buf ++ [d]) as -> by (unfold push_digit; bcase; [done|lia]).
  rewrite IH, <- app_assoc; [done|]. autorewrite with arapuca. lia.
Qed.

Lemma name_of_len t nr : forallb (fun '(_, n) => len (bs n) <=? 20) t = true -> len (bs (name_of t nr)) <= 20.
Proof.
  induction t as [|[k n] t IH]; cbn [forallb name_of]; [by intros _; vm_compute|]. intros H. bsplit.
  destruct (k =? nr); [lia|by apply IH].
Qed.

Lemma syscall_name_len nr : len (bs (syscall_name nr)) <= 20.
Proof.
  unfold syscall_name. destruct target_cpu as [[]|]; [apply name_of_len; by vm_compute..|by vm_compute].
Qed.

Lemma format_line_spec nr : is_i32 nr -> format_line nr = Some (report_line nr) /\ len (report_line nr) <= BUF_LEN.
Proof.
  unfold is_i32. intros Hnr. pose proof (syscall_name_len nr) as Hl.
  assert (Hd : forall n, 0 <= n <= 2 ^ 31 -> (if n =? 0 then Some [48] else digits_loop DIGITS_LEN n []) = Some (rev (dec n))).
  { intros n Hn. destruct (Z.eqb_spec n 0) as [->|]; [done|]. apply (digits_loop_dec 20). cbn. lia. }
  unfold format_line, report_line, dec_signed. rewrite wrap_small by (unfold is_uint; destruct (Z.ltb_spec nr 0); lia).
  rewrite Hd by (destruct (Z.ltb_spec nr 0); lia). cbn [mbind option_bind]. rewrite rev_involutive.
  set (pre := bs "seccomp: blocked syscall "). assert (Hpre : len pre = 25) by by vm_compute.
  assert (len (bs " (") = 2 /\ len (bs ")") = 1) as [H1 H2] by by vm_compute.
  set (name := bs (syscall_name nr)) in *.
  destruct (Z.ltb_spec nr 0).
  - pose proof (len_dec (- nr) 9 ltac:(cbn; lia)). unfold BUF_LEN.
    rewrite push_digits by (unfold BUF_LEN; rewrite len_app; change (len [ch "-"]) with 1; lia).
    autorewrite with arapuca. rewrite Hpre, H1, H2. change (ch "-") with 45. bcase; [|lia].
    split; [by rewrite <- !app_assoc|lia].
  - pose proof (len_dec nr 9 ltac:(cbn; lia)). unfold BUF_LEN.
    rewrite push_digits by (unfold BUF_LEN; lia).
    autorewrite with arapuca. rewrite Hpre, H1, H2. bcase; [|lia]. split; [by rewrite <- !app_assoc|lia].
Qed.

(** ** The set of reported numbers *)

(** The words hold the numbers below 512 of [seen]. *)
Definition bitset (words : list Z) (seen : list Z) : Prop :=
  length words = 8%nat /\
  forall n, 0 <= n < 512 -> exists w, words !! Z.to_nat (n / 64) = Some w /\ Z.testbit w (n mod 64) = bool_decide (n ∈ seen).

(** What a sequence of signals prints: a line for each number, except for one
    in the range of the set that was signalled before. *)
Fixpoint report (seen nrs : list Z) : list bytes :=
  match nrs with
  | [] => []
  | nr :: nrs =>
    (if bool_decide (0 <= nr < 512 /\ nr ∈ seen) then [] else report_line nr) :: report (nr :: seen) nrs
  end.

Lemma bitset_init : bitset (REPORTED_SYSCALLS statics_init) [].
Proof.
  split; [done|]. intros n Hn. exists 0.
  assert (H : (Z.to_nat (n / 64) < 8)%nat).
  { pose proof (Z.div_lt_upper_bound n 64 8 ltac:(lia) ltac:(lia)). pose proof (Z.div_pos n 64 ltac:(lia) ltac:(lia)). lia. }
  rewrite Z.testbit_0_l, (bool_decide_eq_false_2 _ (not_elem_of_nil n)). split; [|done].
  cbn [REPORTED_SYSCALLS statics_init]. generalize dependent (Z.to_nat (n / 64)). intros i Hi.
  do 8 (destruct i as [|i]; [done|]). lia.
Qed.

Lemma bitset_skip words seen nr : ~ (0 <= nr < 512) -> bitset words seen -> bitset words (nr :: seen).
Proof.
  intros Hnr [Hl H]. split; [done|]. intros n Hn. destruct (H n Hn) as (w & Hw & E). exists w. split; [done|].
  rewrite E. apply bool_decide_ext. rewrite elem_of_cons. intuition lia.
Qed.

Lemma bitset_add words seen nr prev : 0 <= nr < 512 -> words !! Z.to_nat (nr / 64) = Some prev ->
  bitset words seen -> bitset (<[Z.to_nat (nr / 64) := Z.lor prev (Z.shiftl 1 (nr mod 64))]> words) (nr :: seen).
Proof.
  intros Hnr Hprev [Hl H]. split; [by rewrite length_insert|]. intros n Hn. destruct (H n Hn) as (w & Hw & E).
  pose proof (Z.mod_pos_bound nr 64 ltac:(lia)). pose proof (Z.mod_pos_bound n 64 ltac:(lia)).
  assert (Hx : n = nr <-> nr / 64 = n / 64 /\ n mod 64 = nr mod 64).
  { split; [by intros ->|]. intros [E1 E2]. rewrite (Z.div_mod n 64), (Z.div_mod nr 64) by lia. by rewrite E1, E2. }
  destruct (decide (nr / 64 = n / 64)) as [Ed|Ed].
  - rewrite <- Ed in *. rewrite Hprev in Hw. injection Hw as <-. eexists. split.
    { apply list_lookup_insert_eq. apply lookup_lt_Some in Hprev. done. }
    rewrite Z.lor_spec, E, Z.shiftl_spec by lia.
    destruct (decide (n mod 64 = nr mod 64)) as [Em|Em].
    + rewrite Em, Z.sub_diag, orb_true_r. symmetry. apply bool_decide_eq_true_2, elem_of_cons. tauto.
    + replace (Z.testbit 1 _) with false; [|symmetry; destruct (Z.testbit 1 _) eqn:Et; [|done]].
      { rewrite orb_false_r. apply bool_decide_ext. rewrite elem_of_cons. tauto. }
      exfalso. destruct (Z_lt_ge_dec (n mod 64 - nr mod 64) 0).
      * by rewrite Z.testbit_neg_r in Et.
      * rewrite (Z.bits_above_log2 1) in Et; [done|lia|cbn; lia].
  - rewrite list_lookup_insert_ne.
    + exists w. split; [done|]. rewrite E. apply bool_decide_ext. rewrite elem_of_cons. intuition congruence.
    + intros Ex. apply Ed. apply Z2Nat.inj in Ex; [done|apply Z.div_pos; lia..].
Qed.

Lemma land_bit prev i : 0 <= i -> (Z.land prev (Z.shiftl 1 i) =? 0) = negb (Z.testbit prev i).
Proof.
  intros Hi. rewrite Z.shiftl_1_l. destruct (Z.testbit prev i) eqn:E; cbn.
  - apply Z.eqb_neq. intros H. apply (f_equal (fun z => Z.testbit z i)) in H.
    rewrite Z.land_spec, E, Z.pow2_bits_true, Z.testbit_0_l in H by done. done.
  - apply Z.eqb_eq, Z.bits_inj'. intros k Hk. rewrite Z.land_spec, Z.testbit_0_l.
    destruct (decide (i = k)) as [->|]; [by rewrite E|]. by rewrite Z.pow2_bits_false, andb_false_r.
Qed.

Lemma wrap_range_512 nr : is_i32 nr -> wrap 64 nr / 64 < 8 <-> 0 <= nr < 512.
Proof.
  unfold is_i32, wrap. intros H. destruct (Z_lt_ge_dec nr 0).
  - replace (nr mod 2 ^ 64) with (nr + 2 ^ 64) by (rewrite <- (Z.mod_unique_pos nr (2 ^ 64) (-1) (nr + 2 ^ 64)); lia).
    split; [|lia]. intros Hd. assert (8 <= (nr + 2 ^ 64) / 64) by (apply Z.div_le_lower_bound; lia). lia.
  - rewrite Z.mod_small by lia. split; intros Hd; [|apply Z.div_lt_upper_bound; lia].
    destruct (Z_lt_ge_dec nr 512); [lia|]. assert (8 <= nr / 64) by (apply Z.div_le_lower_bound; lia). lia.
Qed.

Lemma sigsys_handler_step nr words seen : is_i32 nr -> bitset words seen ->
  exists words', sigsys_handler (Some nr) {| HANDLER_ACTIVE := false; REPORTED_SYSCALLS := words |}
    = Some ({| HANDLER_ACTIVE := false; REPORTED_SYSCALLS := words' |},
            if bool_decide (0 <= nr < 512 /\ nr ∈ seen) then [] else report_line nr) /\
    bitset words' (nr :: seen).
Proof.
  intros Hnr Hb. unfold sigsys_handler. cbn [HANDLER_ACTIVE REPORTED_SYSCALLS].
  assert (len words = 8) as -> by (unfold len; by rewrite (proj1 Hb)).
  destruct (format_line_spec nr Hnr) as [-> _]. pose proof (wrap_range_512 nr Hnr) as Hr.
  destruct (Z.ltb_spec (wrap 64 nr / 64) 8) as [Hi|Hi].
  - apply Hr in Hi. rewrite (wrap_small 64 nr) by (unfold is_uint; lia).
    destruct (proj2 Hb nr Hi) as (w & Hw & E). rewrite Hw.
    rewrite land_bit, E, negb_involutive by (apply Z.mod_pos_bound; lia).
    exists (<[Z.to_nat (nr / 64) := Z.lor w (Z.shiftl 1 (nr mod 64))]> words). split; [|by apply bitset_add].
    destruct (decide (nr ∈ seen)).
    + by rewrite !bool_decide_eq_true_2.
    + rewrite !bool_decide_eq_false_2; [done|tauto|done].
  - exists words. rewrite bool_decide_eq_false_2 by lia. split; [done|]. apply bitset_skip; [lia|done].
Qed.

(** Over any sequence of trapped calls the handler never panics and never
    overruns its 128-byte buffer; it prints exactly the line
    "seccomp: blocked syscall N (name)" for each call, except that a number from
    0 to 511 that was trapped before is not reported again. *)
Theorem signals_report nrs : Forall is_i32 nrs ->
  exists st, signals nrs statics_init = Some (st, report [] nrs) /\
    HANDLER_ACTIVE st = false /\ Forall (fun line => len line <= BUF_LEN) (report [] nrs).
Proof.
  assert (K : forall words seen, bitset words seen -> Forall is_i32 nrs ->
    exists st, signals nrs {| HANDLER_ACTIVE := false; REPORTED_SYSCALLS := words |} = Some (st, report seen nrs) /\
      HANDLER_ACTIVE st = false /\ Forall (fun line => len line <= BUF_LEN) (report seen nrs)).
  { induction nrs as [|nr nrs IH]; intros words seen Hb HF; [by eexists|]. inv HF. cbn [signals report].
    destruct (sigsys_handler_step nr words seen) as (words' & -> & Hb'); [done..|]. cbn [mbind option_bind].
    destruct (IH words' _ Hb') as (st & -> & Ha & HF); [done|]. exists st. split; [done|]. split; [done|].
    constructor; [|done]. case_bool_decide; [done|]. by apply format_line_spec. }
  apply K, bitset_init.
Qed.
End Handler.

Lemma signals_report_witness :
  exists st, @signals (Seccomp.Reference.linux x86_64) [59; 59; -1; 41] statics_init
    = Some (st, [bs "seccomp: blocked syscall 59 (execve)" ++ [10]; [];
                 bs "seccomp: blocked syscall -1 (unknown)" ++ [10]; bs "seccomp: blocked syscall 41 (socket)" ++ [10]]).
Proof.
  destruct (@signals_report (Seccomp.Reference.linux x86_64) [59; 59; -1; 41]) as (st & E & _);
    [repeat constructor; by vm_compute|].
  exists st. rewrite E. by vm_compute.
Defined.

(** The entries of the name tables that are not the kernel's numbers. *)
Definition misnamed (a : TargetArch) : list (Z * string) :=
  let t := match a with x86_64 => names_x86_64 | aarch64 => names_aarch64 end in
  List.filter (fun '(nr, n) => negb (@SYS (Seccomp.Reference.linux a) n =? nr)) t.

(** The name tables agree with the numbers of Linux, except for these
    entries, whose numbers are other calls'. *)
Theorem syscall_name_misnamed :
  misnamed x86_64 = [(281, "epoll_create1"); (291, "epoll_pwait"); (303, "sendmmsg")]%string /\
  misnamed aarch64 =
    [(175, "getuid"); (177, "geteuid"); (178, "getegid"); (186, "gettid"); (228, "madvise");
     (233, "accept4"); (242, "recvmmsg"); (243, "sendmmsg"); (271, "getcpu"); (281, "epoll_create1");
     (282, "epoll_ctl"); (283, "epoll_pwait")]%string.
Proof. by vm_compute. Qed.
