(* ===== verification/Unotify.v ===== *)
(** * Unotify: the seccomp user-notification supervisor of [unotify.rs]

    The BPF program that sends system calls to the supervisor, with the
    instructions of the kernel's machine that it uses; the supervisor's handler,
    a function of the notification, the target's memory and the kernel's answers
    on the drop counter, the audit stream and the responses sent; and the
    supervisor's loop.  The theorems: the program selects exactly the configured
    calls; in enforcement mode a call continues only if its destinations are
    allowed; the audit lines fit in [PIPE_BUF] and losses are accounted for.

    The memory of the target does not change while one notification is handled.
    Addresses are added with wrap-around, as in a release build. *)

From S2P Require Import Prelude Text Env Json Dns Ip Seccomp.

(** ** The ioctl numbers *)

Definition IOC_WRITE : Z := 1.
Definition IOC_READ : Z := 2.
Definition IOC_TYPE : Z := ch "!".

Definition ioc (dir nr size : Z) : Z :=
  Z.lor (Z.lor (Z.lor (wrap 32 (Z.shiftl dir 30)) (wrap 32 (Z.shiftl IOC_TYPE 8))) nr)
        (wrap 32 (Z.shiftl size 16)).

Definition SECCOMP_IOCTL_NOTIF_RECV : Z := ioc (Z.lor IOC_WRITE IOC_READ) 0 80.
Definition SECCOMP_IOCTL_NOTIF_SEND : Z := ioc (Z.lor IOC_WRITE IOC_READ) 1 24.
Definition SECCOMP_IOCTL_NOTIF_ID_VALID_NEW : Z := ioc IOC_WRITE 2 8.
Definition SECCOMP_IOCTL_NOTIF_ID_VALID_OLD : Z := ioc IOC_READ 2 8.

(** ** The BPF program *)

Definition BPF_LD : Z := 0x00.
Definition BPF_W : Z := 0x00.
Definition BPF_ABS : Z := 0x20.
Definition BPF_JMP : Z := 0x05.
Definition BPF_JEQ : Z := 0x10.
Definition BPF_K : Z := 0x00.
Definition BPF_RET : Z := 0x06.

Record sock_filter : Type := { code : Z; jt : Z; jf : Z; k : Z }.

Definition bpf_stmt (code k : Z) : sock_filter := {| code := code; jt := 0; jf := 0; k := k |}.
Definition bpf_jump (code k jt jf : Z) : sock_filter := {| code := code; jt := jt; jf := jf; k := k |}.

(** [libc]'s constants. *)
Definition SECCOMP_RET_USER_NOTIF : Z := 0x7fc00000.
Definition SECCOMP_RET_ALLOW : Z := 0x7fff0000.
Definition ECONNREFUSED : Z := 111.
Definition ENOTTY : Z := 25.
Definition EINVAL : Z := 22.
Definition EINTR : Z := 4.
Definition SECCOMP_USER_NOTIF_FLAG_CONTINUE : Z := 1.
(** O_WRONLY, O_RDWR, O_CREAT, O_TRUNC. *)
Definition WRITE_FLAGS : Z := Z.lor (Z.lor (Z.lor 1 2) 64) 512.

Section Supervisor.
Context `{T : Target}.

(** The module is only compiled for the two architectures. *)
Definition AUDIT_ARCH : Z :=
  match target_cpu with Some x86_64 => 0xc000003e | Some aarch64 => 0xc00000b7 | None => 0 end.

Definition build_unotify_bpf (syscalls : list Z) : Result (list sock_filter) :=
  if 127 <? len syscalls then Err (Seccomp "unotify BPF: too many syscalls ({}, max 127)")
  else
    let prog := [bpf_stmt (Z.lor (Z.lor BPF_LD BPF_W) BPF_ABS) 4] in
    let allow_offset := wrap 8 (len syscalls * 2) in
    let prog := prog ++ [bpf_jump (Z.lor (Z.lor BPF_JMP BPF_JEQ) BPF_K) AUDIT_ARCH 0 (wrap 8 (allow_offset + 1))] in
    let prog := prog ++ [bpf_stmt (Z.lor (Z.lor BPF_LD BPF_W) BPF_ABS) 0] in
    let prog := foldl (fun prog nr =>
      prog ++ [bpf_jump (Z.lor (Z.lor BPF_JMP BPF_JEQ) BPF_K) (wrap 32 nr) 0 1]
           ++ [bpf_stmt (Z.lor BPF_RET BPF_K) SECCOMP_RET_USER_NOTIF]) prog syscalls in
    Ok (prog ++ [bpf_stmt (Z.lor BPF_RET BPF_K) SECCOMP_RET_ALLOW]).

Definition target_syscalls (audit_file_access audit_network : bool) : list Z :=
  (if audit_file_access then
     [SYS "openat"] ++ [437] ++ (if is_x86_64 then [SYS "open"] else [])
     ++ [SYS "execve"] ++ [SYS "execveat"]
   else [])
  ++ (if audit_network then
        [SYS "connect"] ++ [SYS "sendto"] ++ [SYS "sendmsg"] ++ [SYS "sendmmsg"]
      else []).

(** The kernel's machine, for the instructions above: the offsets 0 and 4 of
    [struct seccomp_data] are the number and the architecture.  [None]: a jump
    out of the program, or an instruction that is not modelled. *)
Definition fetch (prog : list sock_filter) (pc : Z) : option sock_filter :=
  if pc <? 0 then None else prog !! Z.to_nat pc.

Fixpoint run_bpf (fuel : nat) (prog : list sock_filter) (pc acc nr arch : Z) : option Z :=
  match fuel with
  | O => None
  | S fuel =>
    match fetch prog pc with
    | None => None
    | Some i =>
      if code i =? 0x20 then
        if k i =? 0 then run_bpf fuel prog (pc + 1) (wrap 32 nr) nr arch
        else if k i =? 4 then run_bpf fuel prog (pc + 1) arch nr arch
        else None
      else if code i =? 0x15 then
        run_bpf fuel prog (pc + 1 + (if acc =? k i then jt i else jf i)) acc nr arch
      else if code i =? 0x06 then Some (k i)
      else None
    end
  end.

(** Every instruction is executed at most once: jumps only go forward. *)
Definition bpf_verdict (prog : list sock_filter) (nr arch : Z) : option Z :=
  run_bpf (length prog) prog 0 0 nr arch.

(** ** The program selects the given calls *)

Definition bpf_body (syscalls : list Z) : list sock_filter :=
  flat_map (fun nr => [bpf_jump 0x15 (wrap 32 nr) 0 1; bpf_stmt 0x06 SECCOMP_RET_USER_NOTIF]) syscalls.

Definition selected (syscalls : list Z) (nr : Z) : bool := existsb (fun s => wrap 32 nr =? wrap 32 s) syscalls.

Lemma build_loop syscalls prog :
  foldl (fun prog nr =>
      prog ++ [bpf_jump (Z.lor (Z.lor BPF_JMP BPF_JEQ) BPF_K) (wrap 32 nr) 0 1]
           ++ [bpf_stmt (Z.lor BPF_RET BPF_K) SECCOMP_RET_USER_NOTIF]) prog syscalls = prog ++ bpf_body syscalls.
Proof.
  revert prog. induction syscalls as [|nr l IH]; intros prog; [by rewrite app_nil_r|].
  cbn [foldl bpf_body flat_map]. rewrite IH. by rewrite <- !app_assoc.
Qed.

Lemma bpf_body_len l : length (bpf_body l) = (2 * length l)%nat.
Proof. induction l as [|x l IH]; [done|]. cbn [bpf_body flat_map app length] in *. fold (bpf_body l). lia. Qed.

Lemma fetch_at prog pre i rest pc : prog = pre ++ i :: rest -> pc = Z.of_nat (length pre) -> fetch prog pc = Some i.
Proof. intros -> ->. unfold fetch. bcase; [lia|]. by rewrite Nat2Z.id, list_lookup_middle. Qed.

Lemma run_load fuel prog pre rest pc acc nr arch off : (off = 0 \/ off = 4) ->
  prog = pre ++ bpf_stmt 0x20 off :: rest -> pc = Z.of_nat (length pre) ->
  run_bpf (S fuel) prog pc acc nr arch = run_bpf fuel prog (pc + 1) (if off =? 0 then wrap 32 nr else arch) nr arch.
Proof. intros H Hp Hc. cbn [run_bpf]. rewrite (fetch_at _ _ _ _ _ Hp Hc). by destruct H as [-> | ->]. Qed.

Lemma run_jump fuel prog pre rest pc acc nr arch v t f :
  prog = pre ++ bpf_jump 0x15 v t f :: rest -> pc = Z.of_nat (length pre) ->
  run_bpf (S fuel) prog pc acc nr arch = run_bpf fuel prog (pc + 1 + if acc =? v then t else f) acc nr arch.
Proof. intros Hp Hc. cbn [run_bpf]. by rewrite (fetch_at _ _ _ _ _ Hp Hc). Qed.

Lemma run_ret fuel prog pre rest pc acc nr arch v :
  prog = pre ++ bpf_stmt 0x06 v :: rest -> pc = Z.of_nat (length pre) ->
  run_bpf (S fuel) prog pc acc nr arch = Some v.
Proof. intros Hp Hc. cbn [run_bpf]. by rewrite (fetch_at _ _ _ _ _ Hp Hc). Qed.

Lemma run_body prog pre l fuel pc nr arch : (2 * length l < fuel)%nat ->
  prog = pre ++ bpf_body l ++ [bpf_stmt 0x06 SECCOMP_RET_ALLOW] -> pc = Z.of_nat (length pre) ->
  run_bpf fuel prog pc (wrap 32 nr) nr arch
  = Some (if selected l nr then SECCOMP_RET_USER_NOTIF else SECCOMP_RET_ALLOW).
Proof.
  revert pre fuel pc. induction l as [|s l IH]; intros pre fuel pc Hf Hp Hc.
  - destruct fuel; [cbn in Hf; lia|]. exact (run_ret _ _ pre [] _ _ _ _ _ Hp Hc).
  - destruct fuel as [|[|fuel]]; [cbn in Hf; lia..|]. cbn [length] in Hf.
    set (j := bpf_jump 0x15 (wrap 32 s) 0 1) in *. set (r := bpf_stmt 0x06 SECCOMP_RET_USER_NOTIF) in *.
    change (bpf_body (s :: l) ++ _) with (j :: r :: bpf_body l ++ [bpf_stmt 0x06 SECCOMP_RET_ALLOW]) in Hp.
    rewrite (run_jump _ _ _ _ _ _ _ _ _ _ _ Hp Hc). cbn [selected existsb]. fold (selected l nr).
    destruct (wrap 32 nr =? wrap 32 s); cbn [orb].
    + eapply (run_ret _ _ (pre ++ [j])); [by rewrite Hp, <- app_assoc|]. rewrite length_app. cbn [length]. lia.
    + apply (IH (pre ++ [j; r])); [lia|by rewrite Hp, <- app_assoc|]. rewrite length_app. cbn [length]. lia.
Qed.

(** For up to 127 calls the notification filter exists, and the kernel's
    machine ends on every call with the verdict USER_NOTIF exactly for the given
    numbers on the native architecture, ALLOW otherwise: the 8-bit jump over the
    whole program does not wrap around.  More than 127 calls are refused. *)
Theorem build_unotify_bpf_spec syscalls :
  match build_unotify_bpf syscalls with
  | Ok prog => len syscalls <= 127 /\
      forall nr arch, bpf_verdict prog nr arch
        = Some (if (arch =? AUDIT_ARCH) && selected syscalls nr then SECCOMP_RET_USER_NOTIF else SECCOMP_RET_ALLOW)
  | Err _ => 127 < len syscalls
  end.
Proof.
  unfold build_unotify_bpf. destruct (Z.ltb_spec 127 (len syscalls)) as [|Hl]; [done|]. split; [done|].
  intros nr arch. rewrite build_loop. unfold bpf_verdict. pose proof (len_nonneg syscalls).
  rewrite (wrap_small 8 (len syscalls * 2)), (wrap_small 8 (_ + 1)) by (unfold is_uint; lia).
  rewrite <- !app_assoc. set (prog := [_] ++ _).
  set (i0 := bpf_stmt 0x20 4). set (i1 := bpf_jump 0x15 AUDIT_ARCH 0 (len syscalls * 2 + 1)). set (i2 := bpf_stmt 0x20 0).
  set (ret := bpf_stmt 0x06 SECCOMP_RET_ALLOW).
  assert (Hp : prog = [i0; i1; i2] ++ bpf_body syscalls ++ [ret]) by done.
  assert (length prog = S (S (S (S (2 * length syscalls))))) as ->.
  { rewrite Hp, !length_app, bpf_body_len. cbn [length]. lia. }
  rewrite (run_load _ _ [] _ _ _ _ _ 4 ltac:(lia) Hp eq_refl). cbn [Z.eqb].
  rewrite (run_jump _ _ [i0] _ _ _ _ _ _ _ _ Hp eq_refl).
  destruct (arch =? AUDIT_ARCH); cbn [andb].
  - rewrite (run_load _ _ [i0; i1] _ _ _ _ _ 0 ltac:(lia) Hp eq_refl). cbn [Z.eqb].
    apply (run_body prog [i0; i1; i2]); [lia|done|done].
  - eapply (run_ret _ _ ([i0; i1; i2] ++ bpf_body syscalls)); [by rewrite Hp, <- app_assoc|].
    rewrite length_app, bpf_body_len. unfold len. cbn [length]. lia.
Qed.

(** ** Reading the target's memory

    [pread addr n]: the bytes read at [addr], at most [n]; [None] is an error. *)

Definition MemFd : Type := Z -> Z -> option bytes.

Definition read_string (mem : MemFd) (addr max_len : Z) : option bytes :=
  if addr =? 0 then None
  else
    let cap := Z.min max_len 4096 in
    match mem addr cap with
    | None => None
    | Some [] => None
    | Some buf =>
      let end_ := take_while (fun b => negb (b =? 0)) buf in
      Some (Utf8.lossy end_)
    end.

Definition read_u64 (mem : MemFd) (addr : Z) : option Z :=
  if addr =? 0 then None
  else match mem addr 8 with
       | Some buf => if len buf =? 8 then Some (le_int buf) else None
       | None => None
       end.

Definition read_u32 (mem : MemFd) (addr : Z) : option Z :=
  if addr =? 0 then None
  else match mem addr 4 with
       | Some buf => if len buf =? 4 then Some (le_int buf) else None
       | None => None
       end.

(** [Display] of the addresses. *)
Definition show_v4 (ip : Ipv4Addr) : bytes :=
  dec (o0 ip) ++ bs "." ++ dec (o1 ip) ++ bs "." ++ dec (o2 ip) ++ bs "." ++ dec (o3 ip).

Fixpoint hex_aux (fuel : nat) (n : Z) (acc : bytes) : bytes :=
  match fuel with
  | O => acc
  | S f => if n <? 16 then hex_digit n :: acc else hex_aux f (n / 16) (hex_digit (n mod 16) :: acc)
  end.
(** [{:x}] of a [u16]. *)
Definition hex16 (n : Z) : bytes := hex_aux 4 n [].

(** The longest run of zero segments, the first one of that length: start and
    length.  [i] is the index of the head of the list, [cur] the run before it. *)
Fixpoint longest_run (i : nat) (cur best : nat * nat) (l : list Z) : nat * nat :=
  match l with
  | [] => best
  | s :: l =>
    if s =? 0 then
      let cur := ((if decide (snd cur = 0%nat) then i else fst cur), S (snd cur)) in
      longest_run (S i) cur (if decide (snd best < snd cur)%nat then cur else best) l
    else longest_run (S i) (0, 0)%nat best l
  end.

Definition show_segments (l : list Z) : bytes := join (bs ":") (map hex16 l).

Definition segments (ip : Ipv6Addr) : list Z := [s0 ip; s1 ip; s2 ip; s3 ip; s4 ip; s5 ip; s6 ip; s7 ip].

Definition show_v6 (ip : Ipv6Addr) : bytes :=
  if (s0 ip =? 0) && (s1 ip =? 0) && (s2 ip =? 0) && (s3 ip =? 0) && (s4 ip =? 0) && (s5 ip =? 0xffff)
  then bs "::ffff:" ++ show_v4 (v4_of_segments (s6 ip) (s7 ip))
  else
    let '(start, n) := longest_run 0 (0, 0)%nat (0, 0)%nat (segments ip) in
    if decide (1 < n)%nat
    then show_segments (take start (segments ip)) ++ bs "::" ++ show_segments (drop (start + n) (segments ip))
    else show_segments (segments ip).

Record SockaddrInfo : Type := { family : Z; destination : bytes; si_port : Z }.
Inductive SockaddrResult : Type := Inet (info : SockaddrInfo) | NonInet (family : Z) | ReadFailed.

(** [sockaddr_in] is 16 bytes: family, port, address; [sockaddr_in6] is 28:
    family, port, flow information, address, scope. *)
Definition read_sockaddr (mem : MemFd) (addr addrlen : Z) : SockaddrResult :=
  if (addr =? 0) || (addrlen <? 2) then ReadFailed
  else
    match mem addr 2 with
    | Some [f0; f1] =>
      let family := le_int [f0; f1] in
      if (family =? AF_INET) && (16 <=? addrlen) then
        match mem addr 16 with
        | Some [_; _; p0; p1; a0; a1; a2; a3; _; _; _; _; _; _; _; _] =>
          let port := be16 p0 p1 in
          Inet {| family := family; destination := show_v4 (Ipv4 a0 a1 a2 a3) ++ bs ":" ++ dec port;
                  si_port := port |}
        | _ => ReadFailed
        end
      else if (family =? AF_INET6) && (28 <=? addrlen) then
        match mem addr 28 with
        | Some [_; _; p0; p1; _; _; _; _; a0; a1; a2; a3; a4; a5; a6; a7; a8; a9; a10; a11; a12; a13; a14; a15;
                _; _; _; _] =>
          let port := be16 p0 p1 in
          let ip := Ipv6 (be16 a0 a1) (be16 a2 a3) (be16 a4 a5) (be16 a6 a7)
                         (be16 a8 a9) (be16 a10 a11) (be16 a12 a13) (be16 a14 a15) in
          Inet {| family := family; destination := bs "[" ++ show_v6 ip ++ bs "]:" ++ dec port; si_port := port |}
        | _ => ReadFailed
        end
      else if (family =? AF_INET) || (family =? AF_INET6) then ReadFailed
      else NonInet family
    | _ => ReadFailed
    end.

Definition is_bridge_addr (info : SockaddrInfo) (config : UnotifyConfig) : bool :=
  if negb (starts_with (bs "127.0.0.1:") (destination info)) then false
  else bool_decide (cfg_bridge_port config = Some (si_port info))
       || bool_decide (cfg_dns_port config = Some (si_port info)).

Definition sendmsg_should_block (mem : MemFd) (msghdr_addr : Z) (config : UnotifyConfig) : bool :=
  match read_u64 mem msghdr_addr, read_u32 mem (wrap 64 (msghdr_addr + 8)) with
  | Some name_addr, Some namelen =>
    if negb (name_addr =? 0) && (0 <? namelen) then
      match read_sockaddr mem name_addr namelen with
      | Inet info => negb (is_bridge_addr info config)
      | NonInet _ => false
      | ReadFailed => cfg_enforce_network config
      end
    else false
  | _, _ => false
  end.

(** ** Audit lines and responses *)

Definition MAX_ESCAPED : Z := 3900.

(** [while end > 0 && !escaped.is_char_boundary(end) { end -= 1; }] *)
Fixpoint boundary_below (s : bytes) (n : nat) : nat :=
  match n with
  | O => O
  | S m => if Utf8.is_char_boundary s (Z.of_nat n) then n else boundary_below s m
  end.

Definition escape_for_audit (s : bytes) : bytes :=
  let escaped := json_escape s in
  if len escaped <=? MAX_ESCAPED then escaped
  else take (boundary_below escaped (Z.to_nat MAX_ESCAPED)) escaped ++ bs "...".

(** The members of an audit object. *)
Definition str_member (name : string) (v : bytes) : bytes := key name ++ [dquote] ++ v ++ [dquote].
Definition raw_member (name : string) (v : bytes) : bytes := key name ++ v.
Definition object (members : list bytes) : bytes := [ch "{"] ++ join (bs ",") members ++ [ch "}"].
Definition show_bool (b : bool) : bytes := if b then bs "true" else bs "false".

Definition file_access_line (pid : Z) (path : bytes) (flags : Z) (is_write : bool) : bytes :=
  object [str_member "type" (bs "file_access"); raw_member "pid" (dec pid);
          str_member "path" (escape_for_audit path); raw_member "flags" (dec flags);
          raw_member "is_write" (show_bool is_write)].
Definition process_spawn_line (pid : Z) (binary : bytes) : bytes :=
  object [str_member "type" (bs "process_spawn"); raw_member "pid" (dec pid);
          str_member "binary" (escape_for_audit binary)].
Definition network_blocked_line (pid : Z) (dest : bytes) (syscall : string) : bytes :=
  object [str_member "type" (bs "network_blocked"); raw_member "pid" (dec pid);
          str_member "dest" (escape_for_audit dest); str_member "syscall" (bs syscall)].
Definition dropped_line (count : Z) : bytes :=
  object [str_member "type" (bs "dropped"); raw_member "count" (dec count)] ++ [10].

(** [struct seccomp_notif_resp]. *)
Record Resp : Type := { r_id : Z; r_val : Z; r_error : Z; r_flags : Z }.

(** The supervisor's state: its drop counter, and what it did so far: the
    writes to the audit pipe (of a line, or of the summary of lost lines) with
    their outcomes, the responses that the kernel took. *)
Inductive Entry : Type := Line (line : bytes) | Summary (count : Z).
Definition entry_data (e : Entry) : bytes :=
  match e with Line line => line ++ [10] | Summary count => dropped_line count end.

Record State : Type := { dropped : Z; log : list (Entry * WriteOutcome); sent : list Resp }.

Definition set_dropped (n : Z) (st : State) : State := {| dropped := n; log := log st; sent := sent st |}.

(** The audit pipe: the outcome of the n-th write. *)
Context (pipe : nat -> WriteOutcome).

Definition raw_write (data : Entry) (st : State) : WriteOutcome * State :=
  let o := pipe (length (log st)) in
  (o, {| dropped := dropped st; log := log st ++ [(data, o)]; sent := sent st |}).

Definition write_audit_line (line : bytes) (st : State) : State :=
  let st :=
    if 0 <? dropped st then
      match raw_write (Summary (dropped st)) st with
      | (Written, st) => set_dropped 0 st
      | (_, st) => st
      end
    else st in
  if 4095 <? len line then set_dropped (wrap 64 (dropped st + 1)) st
  else
    match raw_write (Line line) st with
    | (WouldBlock, st) => set_dropped (wrap 64 (dropped st + 1)) st
    | (_, st) => st
    end.

(** [struct seccomp_notif]. *)
Record Notif : Type := { n_id : Z; n_pid : Z; n_nr : Z; n_args : list Z }.
Definition narg (n : Notif) (i : nat) : Z := nth i (n_args n) 0.

(** What the kernel does for a notification: opening and reading the target's
    memory, the two encodings of the ioctl that checks the identifier ([Some] is
    an error number), sending. *)
Record Kernel : Type := {
  open_mem : Z -> option MemFd;
  id_valid_new : Z -> option Z;
  id_valid_old : Z -> option Z;
  notif_send : Resp -> bool;
}.

Definition notif_id_valid (kn : Kernel) (id : Z) : bool :=
  match id_valid_new kn id with
  | None => true
  | Some errno =>
    if (errno =? ENOTTY) || (errno =? EINVAL)
    then match id_valid_old kn id with None => true | Some _ => false end
    else false
  end.

Definition respond (kn : Kernel) (notif : Notif) (resp : Resp) (st : State) : bool * State :=
  if negb (notif_id_valid kn (n_id notif)) then (false, st)
  else if notif_send kn resp
  then (true, {| dropped := dropped st; log := log st; sent := sent st ++ [resp] |})
  else (false, st).

Definition continue_resp (notif : Notif) : Resp :=
  {| r_id := n_id notif; r_val := 0; r_error := 0; r_flags := SECCOMP_USER_NOTIF_FLAG_CONTINUE |}.
Definition errno_resp (notif : Notif) (errno : Z) : Resp :=
  {| r_id := n_id notif; r_val := 0; r_error := - errno; r_flags := 0 |}.

Definition respond_continue (kn : Kernel) (notif : Notif) : State -> bool * State :=
  respond kn notif (continue_resp notif).
Definition respond_errno (kn : Kernel) (notif : Notif) (errno : Z) : State -> bool * State :=
  respond kn notif (errno_resp notif errno).

(** ** The handler *)

Definition refuse_or_continue (kn : Kernel) (notif : Notif) (refuse : bool) : State -> bool * State :=
  if refuse then respond_errno kn notif ECONNREFUSED else respond_continue kn notif.

Definition handle_connect (kn : Kernel) (notif : Notif) (mem : MemFd) (config : UnotifyConfig)
    (addr addrlen : Z) (syscall : string) (st : State) : bool * State :=
  match read_sockaddr mem addr addrlen with
  | Inet info =>
    if is_bridge_addr info config then respond_continue kn notif st
    else
      let st := write_audit_line (network_blocked_line (n_pid notif) (destination info) syscall) st in
      refuse_or_continue kn notif (cfg_enforce_network config) st
  | NonInet _ => respond_continue kn notif st
  | ReadFailed => refuse_or_continue kn notif (cfg_enforce_network config) st
  end.

Definition handle_sendmsg (kn : Kernel) (notif : Notif) (mem : MemFd) (config : UnotifyConfig)
    (msghdr_addr : Z) (syscall : string) (st : State) : bool * State :=
  match read_u64 mem msghdr_addr, read_u32 mem (wrap 64 (msghdr_addr + 8)) with
  | Some name_addr, Some namelen =>
    if negb (name_addr =? 0) && (0 <? namelen)
    then handle_connect kn notif mem config name_addr namelen syscall st
    else respond_continue kn notif st
  | _, _ => respond_continue kn notif st
  end.

Definition MAX_SENDMMSG_INSPECT : Z := 64.
Definition MMSGHDR_SIZE : Z := 64.

(** The audit event of a message of a batch that should be blocked. *)
Definition audit_blocked (notif : Notif) (mem : MemFd) (msghdr_addr : Z) (st : State) : State :=
  match read_u64 mem msghdr_addr, read_u32 mem (wrap 64 (msghdr_addr + 8)) with
  | Some addr, Some n =>
    if negb (addr =? 0) && (0 <? n) then
      match read_sockaddr mem addr n with
      | Inet info => write_audit_line (network_blocked_line (n_pid notif) (destination info) "sendmmsg") st
      | _ => st
      end
    else st
  | _, _ => st
  end.

(** The loop over the messages from the [i]-th on, [n] of them. *)
Fixpoint sendmmsg_loop (notif : Notif) (mem : MemFd) (config : UnotifyConfig) (n : nat) (i : Z)
    (block : bool) (st : State) : bool * State :=
  match n with
  | O => (block, st)
  | S n =>
    let msghdr_addr := wrap 64 (narg notif 1 + wrap 64 (i * MMSGHDR_SIZE)) in
    if sendmsg_should_block mem msghdr_addr config
    then sendmmsg_loop notif mem config n (i + 1) true (audit_blocked notif mem msghdr_addr st)
    else sendmmsg_loop notif mem config n (i + 1) block st
  end.

Definition SYS_OPENAT2 : Z := 437.

Definition is_write_flags (flags : Z) : bool := negb (Z.land flags WRITE_FLAGS =? 0).

Definition handle_notification (kn : Kernel) (notif : Notif) (config : UnotifyConfig) (st : State) : bool * State :=
  let pid := n_pid notif in
  let nr := n_nr notif in
  let args := narg notif in
  match open_mem kn pid with
  | None => respond_continue kn notif st
  | Some mem =>
    if (nr =? SYS "openat") || (nr =? SYS_OPENAT2) then
      let flags := if nr =? SYS_OPENAT2 then wrap 32 (default 0 (read_u64 mem (args 2%nat)))
                   else wrap 32 (args 2%nat) in
      let path := default [] (read_string mem (args 1%nat) 2000) in
      respond_continue kn notif (write_audit_line (file_access_line pid path flags (is_write_flags flags)) st)
    else if is_x86_64 && (nr =? SYS "open") then
      let flags := wrap 32 (args 1%nat) in
      let path := default [] (read_string mem (args 0%nat) 2000) in
      respond_continue kn notif (write_audit_line (file_access_line pid path flags (is_write_flags flags)) st)
    else if (nr =? SYS "execve") || (nr =? SYS "execveat") then
      let path_addr := if nr =? SYS "execveat" then args 1%nat else args 0%nat in
      let binary := default [] (read_string mem path_addr 2000) in
      respond_continue kn notif (write_audit_line (process_spawn_line pid binary) st)
    else if nr =? SYS "connect" then handle_connect kn notif mem config (args 1%nat) (args 2%nat) "connect" st
    else if nr =? SYS "sendto" then
      if args 4%nat =? 0 then respond_continue kn notif st
      else handle_connect kn notif mem config (args 4%nat) (args 5%nat) "sendto" st
    else if nr =? SYS "sendmsg" then handle_sendmsg kn notif mem config (args 1%nat) "sendmsg" st
    else if nr =? SYS "sendmmsg" then
      if (MAX_SENDMMSG_INSPECT <? args 2%nat) && cfg_enforce_network config
      then respond_errno kn notif ECONNREFUSED st
      else
        let vlen := Z.min (args 2%nat) MAX_SENDMMSG_INSPECT in
        let '(block, st) := sendmmsg_loop notif mem config (Z.to_nat vlen) 0 false st in
        refuse_or_continue kn notif (block && cfg_enforce_network config) st
    else respond_continue kn notif st
  end.

(** ** The loop *)

(** What [notif_recv] returns. *)
Inductive Recv : Type := Received (notif : Notif) (kn : Kernel) | RecvFailed (errno : Z).

Definition flush_dropped (st : State) : State :=
  if 0 <? dropped st then snd (raw_write (Summary (dropped st)) st) else st.

(** The loop on a sequence of results: the state, and whether the process has
    left the loop ([_exit] after the flush). *)
Fixpoint supervisor_loop (config : UnotifyConfig) (st : State) (inputs : list Recv) : State * bool :=
  match inputs with
  | [] => (st, false)
  | Received notif kn :: inputs => supervisor_loop config (snd (handle_notification kn notif config st)) inputs
  | RecvFailed errno :: inputs =>
    if errno =? EINTR then supervisor_loop config st inputs else (flush_dropped st, true)
  end.

Definition state_init : State := {| dropped := 0; log := []; sent := [] |}.

(** ** Audit lines fit *)

Definition printable (l : bytes) : Prop := Forall (fun b => 32 <= b < 256) l.

#[local] Instance printable_dec l : Decision (printable l) := _.

Definition line_ok (line : bytes) : Prop := printable line /\ len line <= 4095.

Lemma boundary_below_le s n : (boundary_below s n <= n)%nat.
Proof. induction n as [|n IH]; [done|]. cbn [boundary_below]. destruct (Utf8.is_char_boundary _ _); lia. Qed.

(** The cut is at a character boundary: slicing does not panic. *)
Lemma boundary_below_boundary s n : Utf8.is_char_boundary s (Z.of_nat (boundary_below s n)) = true.
Proof. induction n as [|n IH]; [done|]. cbn [boundary_below]. by destruct (Utf8.is_char_boundary _ (Z.of_nat (S n))) eqn:E. Qed.

Lemma escape_for_audit_ok s : is_str s -> printable (escape_for_audit s) /\ len (escape_for_audit s) <= 3903.
Proof.
  intros Hs. pose proof (json_escape_printable s Hs) as Hp. unfold escape_for_audit, MAX_ESCAPED.
  destruct (Z.leb_spec (len (json_escape s)) 3900); [split; [done|lia]|]. split.
  - apply Forall_app. split; [by apply Forall_take|by_eval].
  - rewrite len_app. change (len (bs "...")) with 3. unfold len. rewrite length_take.
    pose proof (boundary_below_le (json_escape s) (Z.to_nat 3900)). lia.
Qed.

Lemma printable_dec_num n : 0 <= n -> printable (dec n).
Proof. intros Hn. destruct (dec_digits n Hn) as [HF _]. revert HF. apply List.Forall_impl. intros c; lia. Qed.

Lemma printable_join sep l : printable sep -> Forall printable l -> printable (join sep l).
Proof.
  intros Hs. induction 1 as [|x l Hx Hl IH]; [constructor|]. destruct l; [done|].
  cbn [join] in *. unfold printable in *. rewrite !Forall_app. done.
Qed.

Lemma len_dec_u32 n : is_uint 32 n -> len (dec n) <= 10.
Proof. intros H. apply (len_dec n 9). unfold is_uint in H. cbn. lia. Qed.

Lemma printable_app l l' : printable l -> printable l' -> printable (l ++ l').
Proof. intros. by apply Forall_app. Qed.

Lemma printable_object l : Forall printable l -> printable (object l).
Proof.
  intros Hl. unfold object. apply printable_app; [by_eval|]. apply printable_app; [|by_eval].
  apply printable_join; [by_eval|done].
Qed.

Lemma printable_str name v : printable (key name) -> printable v -> printable (str_member name v).
Proof. intros Hk Hv. unfold str_member. repeat (apply printable_app; [done || by_eval|]). by_eval. Qed.

Lemma printable_raw name v : printable (key name) -> printable v -> printable (raw_member name v).
Proof. intros Hk Hv. by apply printable_app. Qed.

(** The members of an object are printable. *)
Ltac members :=
  match goal with
  | |- Forall printable [] => apply Forall_nil_2
  | |- Forall printable (str_member _ _ :: _) => apply Forall_cons_2; [apply printable_str; [by_eval|]|members]
  | |- Forall printable (raw_member _ _ :: _) => apply Forall_cons_2; [apply printable_raw; [by_eval|]|members]
  end.

Lemma file_access_line_ok pid path flags w : is_uint 32 pid -> is_str path -> is_uint 32 flags ->
  line_ok (file_access_line pid path flags w).
Proof.
  intros Hp Hs Hf. destruct (escape_for_audit_ok path Hs) as [He Hl].
  pose proof (len_dec_u32 _ Hp). pose proof (len_dec_u32 _ Hf). split.
  - apply printable_object. members; [by_eval| | |..]; try done; [apply printable_dec_num..|]; unfold is_uint in *; [lia..|].
    destruct w; by_eval.
  - unfold file_access_line, object, str_member, raw_member, join. rewrite !len_app.
    assert (len (show_bool w) <= 5) by (by destruct w; vm_compute).
    change (len (key "type")) with 7. change (len (key "pid")) with 6. change (len (key "path")) with 7.
    change (len (key "flags")) with 8. change (len (key "is_write")) with 11. change (len (bs "file_access")) with 11.
    change (len (bs ",")) with 1. change (len [_]) with 1. lia.
Qed.

Lemma process_spawn_line_ok pid binary : is_uint 32 pid -> is_str binary -> line_ok (process_spawn_line pid binary).
Proof.
  intros Hp Hs. destruct (escape_for_audit_ok binary Hs) as [He Hl]. pose proof (len_dec_u32 _ Hp). split.
  - apply printable_object. members; [by_eval| |done]. apply printable_dec_num. unfold is_uint in *. lia.
  - unfold process_spawn_line, object, str_member, raw_member, join. rewrite !len_app.
    change (len (key "type")) with 7. change (len (key "pid")) with 6. change (len (key "binary")) with 9.
    change (len (bs "process_spawn")) with 13. change (len (bs ",")) with 1. change (len [_]) with 1. lia.
Qed.

Lemma network_blocked_line_ok pid dest syscall : is_uint 32 pid -> is_str dest ->
  printable (bs syscall) -> len (bs syscall) <= 20 -> line_ok (network_blocked_line pid dest syscall).
Proof.
  intros Hp Hs Hc Hn. destruct (escape_for_audit_ok dest Hs) as [He Hl]. pose proof (len_dec_u32 _ Hp). split.
  - apply printable_object. members; [by_eval| |done|done]. apply printable_dec_num. unfold is_uint in *. lia.
  - unfold network_blocked_line, object, str_member, raw_member, join. rewrite !len_app.
    change (len (key "type")) with 7. change (len (key "pid")) with 6. change (len (key "dest")) with 7.
    change (len (key "syscall")) with 10. change (len (bs "network_blocked")) with 15.
    change (len (bs ",")) with 1. change (len [_]) with 1. lia.
Qed.

(** ** Destinations are ASCII text *)

Definition ascii (l : bytes) : Prop := Forall (fun c => 0 <= c < 128) l.

Lemma ascii_str l : ascii l -> is_str l.
Proof. apply Utf8.valid_ascii. Qed.

Lemma ascii_dec n : 0 <= n -> ascii (dec n).
Proof. intros Hn. destruct (dec_digits n Hn) as [HF _]. revert HF. apply List.Forall_impl. intros c; lia. Qed.

Lemma ascii_app l l' : ascii l -> ascii l' -> ascii (l ++ l').
Proof. intros. by apply Forall_app. Qed.

Lemma ascii_v4 ip : 0 <= o0 ip -> 0 <= o1 ip -> 0 <= o2 ip -> 0 <= o3 ip -> ascii (show_v4 ip).
Proof. intros. unfold show_v4. repeat (apply ascii_app; [by apply ascii_dec || by_eval|]). by apply ascii_dec. Qed.

Lemma ascii_hex_aux fuel n acc : 0 <= n < 16 ^ Z.of_nat fuel -> ascii acc -> ascii (hex_aux fuel n acc).
Proof.
  revert n acc. induction fuel as [|f IH]; intros n acc Hn Ha; [done|]. cbn [hex_aux].
  rewrite Nat2Z.inj_succ, Z.pow_succ_r in Hn by lia. unfold hex_digit.
  destruct (Z.ltb_spec n 16); [apply Forall_cons_2; [bcase; lia|done]|]. apply IH.
  - split; [apply Z.div_pos; lia|apply Z.div_lt_upper_bound; lia].
  - pose proof (Z.mod_pos_bound n 16 ltac:(lia)). apply Forall_cons_2; [bcase; lia|done].
Qed.

Lemma ascii_segments l : Forall (is_uint 16) l -> ascii (show_segments l).
Proof.
  unfold show_segments. induction 1 as [|x l Hx Hl IH]; [constructor|].
  assert (ascii (hex16 x)) by (apply (ascii_hex_aux 4); [unfold is_uint in Hx; cbn; lia|constructor]).
  destruct l; [done|]. cbn [map join] in *. apply ascii_app; [done|]. by apply ascii_app; [by_eval|].
Qed.

Lemma ascii_v6 ip : Forall (is_uint 16) (segments ip) -> ascii (show_v6 ip).
Proof.
  intros H. unfold show_v6. destruct (_ && _).
  - apply ascii_app; [by_eval|]. apply ascii_v4; cbn [v4_of_segments o0 o1 o2 o3]; apply wrap8_u8.
  - destruct (longest_run _ _ _ _) as [start n]. case_decide; [|by apply ascii_segments].
    apply ascii_app; [by apply ascii_segments, Forall_take|]. apply ascii_app; [by_eval|].
    by apply ascii_segments, Forall_drop.
Qed.

(** ** Destinations *)

Inductive Dest : Type := DestIp (ip : IpAddr) (port : Z) | DestOther | DestUnreadable.

(** The destination that the socket address at [addr] stands for: the address
    and port of an Internet address that is long enough and can be read. *)
Definition dest_of (mem : MemFd) (addr addrlen : Z) : Dest :=
  if (addr =? 0) || (addrlen <? 2) then DestUnreadable
  else match mem addr 2 with
  | Some [f0; f1] =>
    if le_int [f0; f1] =? AF_INET then
      match (if 16 <=? addrlen then mem addr 16 else None) with
      | Some [_; _; p0; p1; a0; a1; a2; a3; _; _; _; _; _; _; _; _] => DestIp (V4 (Ipv4 a0 a1 a2 a3)) (be16 p0 p1)
      | _ => DestUnreadable
      end
    else if le_int [f0; f1] =? AF_INET6 then
      match (if 28 <=? addrlen then mem addr 28 else None) with
      | Some [_; _; p0; p1; _; _; _; _; a0; a1; a2; a3; a4; a5; a6; a7; a8; a9; a10; a11; a12; a13; a14; a15;
              _; _; _; _] =>
        DestIp (V6 (Ipv6 (be16 a0 a1) (be16 a2 a3) (be16 a4 a5) (be16 a6 a7)
                         (be16 a8 a9) (be16 a10 a11) (be16 a12 a13) (be16 a14 a15))) (be16 p0 p1)
      | _ => DestUnreadable
      end
    else DestOther
  | _ => DestUnreadable
  end.

Definition show_dest (ip : IpAddr) (port : Z) : bytes :=
  match ip with
  | V4 ip => show_v4 ip ++ bs ":" ++ dec port
  | V6 ip => bs "[" ++ show_v6 ip ++ bs "]:" ++ dec port
  end.

Definition mem_ok (mem : MemFd) : Prop :=
  forall addr n buf, mem addr n = Some buf -> Forall is_u8 buf /\ len buf <= n.

Lemma dec_inj a b : 0 <= a -> 0 <= b -> dec a = dec b -> a = b.
Proof. intros Ha Hb E. pose proof (digits_val_dec a Ha) as H. rewrite E, (digits_val_dec b Hb) in H. congruence. Qed.

Lemma split_show_v4 a b c d : 0 <= a -> 0 <= b -> 0 <= c -> 0 <= d ->
  split (ch ".") (show_v4 (Ipv4 a b c d)) = [dec a; dec b; dec c; dec d].
Proof.
  intros. unfold show_v4. change (bs ".") with [ch "."]. cbn [app o0 o1 o2 o3].
  rewrite !split_app, split_no_sep by (apply dec_no; [done|change (ch ".") with 46; lia]). done.
Qed.

(** The code's result and the destination. *)
Lemma read_sockaddr_dest mem addr addrlen : mem_ok mem ->
  match dest_of mem addr addrlen with
  | DestUnreadable => read_sockaddr mem addr addrlen = ReadFailed
  | DestOther => exists f, read_sockaddr mem addr addrlen = NonInet f
  | DestIp ip port => (exists f, read_sockaddr mem addr addrlen
      = Inet {| family := f; destination := show_dest ip port; si_port := port |}) /\ ip_ok ip /\ is_uint 16 port
  end.
Proof.
  intros Hm. unfold read_sockaddr, dest_of. destruct (_ || _); [done|].
  destruct (mem addr 2) as [[|f0 [|f1 [|]]]|]; try done. cbv zeta.
  destruct (le_int [f0; f1] =? AF_INET) eqn:E4; cbn [andb orb].
  - destruct (16 <=? addrlen); [|apply Z.eqb_eq in E4; by rewrite E4].
    destruct (mem addr 16) as [l|] eqn:Em; [|done]. destruct (Hm _ _ _ Em) as [Hu _].
    do 16 (destruct l as [|? l]; [done|]). destruct l; [|done]. split; [by eexists|].
    repeat (apply Forall_cons_1 in Hu as [? Hu]). split; [done|by apply be16_range].
  - destruct (le_int [f0; f1] =? AF_INET6) eqn:E6; cbn [andb]; [|by eexists].
    destruct (28 <=? addrlen); [|done].
    destruct (mem addr 28) as [l|] eqn:Em; [|done]. destruct (Hm _ _ _ Em) as [Hu _].
    do 28 (destruct l as [|? l]; [done|]). destruct l; [|done]. split; [by eexists|].
    repeat (apply Forall_cons_1 in Hu as [? Hu]). split; [split_and!|]; by apply be16_range.
Qed.

(** What a call may reach in enforcement mode: sockets that are not Internet
    sockets, and the bridge and the DNS server on the loopback address. *)
Definition permitted (config : UnotifyConfig) (d : Dest) : bool :=
  match d with
  | DestIp ip port =>
    bool_decide (ip = V4 (Ipv4 127 0 0 1)) &&
    (bool_decide (cfg_bridge_port config = Some port) || bool_decide (cfg_dns_port config = Some port))
  | DestOther => true
  | DestUnreadable => false
  end.

Lemma loopback_prefix ip port : ip_ok ip -> is_uint 16 port ->
  starts_with (bs "127.0.0.1:") (show_dest ip port) = bool_decide (ip = V4 (Ipv4 127 0 0 1)).
Proof.
  intros Hip Hp. apply bool_eq_iff. rewrite starts_with_spec, bool_decide_eq_true. split.
  - intros [r Hr]. destruct ip as [[a b c d]|ip]; [|done]. destruct Hip as (Ha & Hb & Hc & Hd).
    unfold is_u8 in *. cbn [o0 o1 o2 o3 show_dest] in *.
    assert (E : split_once (ch ":") (show_v4 (Ipv4 a b c d) ++ bs ":" ++ dec port) = Some (bs "127.0.0.1", r)).
    { rewrite Hr. apply split_once_Some. split; [done|by_eval]. }
    assert (E' : split_once (ch ":") (show_v4 (Ipv4 a b c d) ++ bs ":" ++ dec port) = Some (show_v4 (Ipv4 a b c d), dec port)).
    { apply split_once_Some. split; [done|]. unfold show_v4. cbn [o0 o1 o2 o3]. change (ch ":") with 58.
      rewrite !Forall_app. split_and!; try by_eval; apply dec_no; lia. }
    rewrite E in E'. injection E' as E' _.
    pose proof (split_show_v4 a b c d ltac:(lia) ltac:(lia) ltac:(lia) ltac:(lia)) as Es. rewrite <- E' in Es.
    change (split (ch ".") (bs "127.0.0.1")) with [dec 127; dec 0; dec 0; dec 1] in Es.
    injection Es as E1 E2 E3 E4. apply dec_inj in E1, E2, E3, E4; [|lia..]. congruence.
  - intros ->. by exists (dec port).
Qed.

(** The check of the code, on the text of the destination, is the check of the
    destination. *)
Lemma is_bridge_addr_spec config f ip port : ip_ok ip -> is_uint 16 port ->
  is_bridge_addr {| family := f; destination := show_dest ip port; si_port := port |} config
  = permitted config (DestIp ip port).
Proof.
  intros Hip Hp. unfold is_bridge_addr, permitted. cbn [destination si_port]. rewrite loopback_prefix by done.
  by case_bool_decide.
Qed.

(** ** The response to a notification *)

(** The destination of a message: none if the header names none, and also none if the header cannot be read, so
    that such a message continues; a header that names an unreadable address has the destination
    [DestUnreadable]. *)
Definition msg_dests (mem : MemFd) (msghdr_addr : Z) : list Dest :=
  match read_u64 mem msghdr_addr, read_u32 mem (wrap 64 (msghdr_addr + 8)) with
  | Some a, Some n => if negb (a =? 0) && (0 <? n) then [dest_of mem a n] else []
  | _, _ => []
  end.

Definition mmsg_addr (notif : Notif) (i : Z) : Z := wrap 64 (narg notif 1 + wrap 64 (i * MMSGHDR_SIZE)).

Definition batch_dests (notif : Notif) (mem : MemFd) : list Dest :=
  flat_map (fun i => msg_dests mem (mmsg_addr notif i)) (seqZ 0 (narg notif 2)).

Definition is_file_call (nr : Z) : bool :=
  (nr =? SYS "openat") || (nr =? SYS_OPENAT2) || (is_x86_64 && (nr =? SYS "open"))
  || (nr =? SYS "execve") || (nr =? SYS "execveat").

(** All the destinations of a call, every message of a batch included. *)
Definition dests (notif : Notif) (mem : MemFd) : list Dest :=
  let nr := n_nr notif in
  if is_file_call nr then []
  else if nr =? SYS "connect" then [dest_of mem (narg notif 1) (narg notif 2)]
  else if nr =? SYS "sendto" then
    if narg notif 4 =? 0 then [] else [dest_of mem (narg notif 4) (narg notif 5)]
  else if nr =? SYS "sendmsg" then msg_dests mem (narg notif 1)
  else if nr =? SYS "sendmmsg" then batch_dests notif mem
  else [].

(** A batch too long to be inspected. *)
Definition oversized (notif : Notif) : bool :=
  let nr := n_nr notif in
  negb (is_file_call nr) && negb (nr =? SYS "connect") && negb (nr =? SYS "sendto") && negb (nr =? SYS "sendmsg")
  && (nr =? SYS "sendmmsg") && (MAX_SENDMMSG_INSPECT <? narg notif 2).

(** The response: without enforcement every call continues; with it a call is
    refused exactly if one of its destinations is not permitted (an unreadable
    address is not), or there are too many.  When the memory of the target cannot
    be opened the call continues, with enforcement too. *)
Definition response (config : UnotifyConfig) (notif : Notif) (mem : option MemFd) : Resp :=
  match mem with
  | None => continue_resp notif
  | Some mem =>
    if cfg_enforce_network config && (negb (forallb (permitted config) (dests notif mem)) || oversized notif)
    then errno_resp notif ECONNREFUSED else continue_resp notif
  end.

(** [responds kn notif r st res]: the result of sending [r] once. *)
Definition responds (kn : Kernel) (notif : Notif) (r : Resp) (st : State) (res : bool * State) : Prop :=
  let ok := notif_id_valid kn (n_id notif) && notif_send kn r in
  fst res = ok /\ sent (snd res) = sent st ++ (if ok then [r] else []).

Lemma respond_responds kn notif r st st' : sent st = sent st' -> responds kn notif r st (respond kn notif r st').
Proof.
  intros E. unfold responds, respond. destruct (notif_id_valid _ _); cbn [negb andb]; [|by rewrite app_nil_r].
  destruct (notif_send kn r); cbn [fst snd sent]; [by rewrite E|by rewrite app_nil_r].
Qed.

Lemma write_audit_line_sent line st : sent (write_audit_line line st) = sent st.
Proof.
  unfold write_audit_line, raw_write. cbv zeta. destruct (0 <? dropped st); [destruct (pipe (length (log st)))|];
    (destruct (4095 <? _); [done|]); cbn [set_dropped log]; match goal with |- context [pipe ?n] => by destruct (pipe n) end.
Qed.

Lemma refuse_responds kn notif (b : bool) st st' : sent st = sent st' ->
  responds kn notif (if b then errno_resp notif ECONNREFUSED else continue_resp notif) st (refuse_or_continue kn notif b st').
Proof. intros E. unfold refuse_or_continue. destruct b; by apply respond_responds. Qed.

Lemma handle_connect_responds kn notif mem config addr addrlen name st : mem_ok mem ->
  responds kn notif
    (if cfg_enforce_network config && negb (permitted config (dest_of mem addr addrlen))
     then errno_resp notif ECONNREFUSED else continue_resp notif) st
    (handle_connect kn notif mem config addr addrlen name st).
Proof.
  intros Hm. pose proof (read_sockaddr_dest mem addr addrlen Hm) as H. unfold handle_connect.
  destruct (dest_of mem addr addrlen) as [ip port| |].
  - destruct H as ([f ->] & Hip & Hp). rewrite is_bridge_addr_spec by done.
    destruct (permitted config (DestIp ip port)); [rewrite andb_false_r; by apply respond_responds|].
    rewrite andb_true_r. apply refuse_responds. by rewrite write_audit_line_sent.
  - destruct H as [f ->]. cbn [permitted negb]. rewrite andb_false_r. by apply respond_responds.
  - rewrite H. cbn [permitted negb]. rewrite andb_true_r. by apply refuse_responds.
Qed.

Lemma should_block_spec mem config a : mem_ok mem -> cfg_enforce_network config = true ->
  sendmsg_should_block mem a config = negb (forallb (permitted config) (msg_dests mem a)).
Proof.
  intros Hm He. unfold sendmsg_should_block, msg_dests.
  destruct (read_u64 mem a) as [x|]; [|done]. destruct (read_u32 _ _) as [n|]; [|done].
  destruct (_ && _); [|done]. pose proof (read_sockaddr_dest mem x n Hm) as H. cbn [forallb]. rewrite andb_true_r.
  destruct (dest_of mem x n) as [ip port| |].
  - destruct H as ([f ->] & Hip & Hp). by rewrite is_bridge_addr_spec.
  - by destruct H as [f ->].
  - rewrite H. by rewrite He.
Qed.

Lemma sendmmsg_loop_sent notif mem config n i b st : sent (snd (sendmmsg_loop notif mem config n i b st)) = sent st.
Proof.
  revert i b st. induction n as [|n IH]; intros i b st; [done|]. cbn [sendmmsg_loop].
  destruct (sendmsg_should_block _ _ _); rewrite IH; [|done]. unfold audit_blocked.
  destruct (read_u64 _ _); [|done]. destruct (read_u32 _ _); [|done]. destruct (_ && _); [|done].
  destruct (read_sockaddr _ _ _); [apply write_audit_line_sent|done|done].
Qed.

Lemma sendmmsg_loop_block notif mem config n i b st : mem_ok mem -> cfg_enforce_network config = true ->
  fst (sendmmsg_loop notif mem config n i b st)
  = b || negb (forallb (permitted config) (flat_map (fun i => msg_dests mem (mmsg_addr notif i)) (seqZ i (Z.of_nat n)))).
Proof.
  intros Hm He. revert i b st. induction n as [|n IH]; intros i b st; [by rewrite orb_false_r|].
  cbn [sendmmsg_loop]. fold (mmsg_addr notif i). rewrite should_block_spec by done.
  replace (Z.of_nat (S n)) with (Z.succ (Z.of_nat n)) by lia. rewrite seqZ_cons by lia. rewrite Z.pred_succ.
  cbn [flat_map]. rewrite forallb_app.
  replace (Z.succ i) with (i + 1) by lia.
  destruct (forallb (permitted config) (msg_dests mem (mmsg_addr notif i))); cbn [negb andb]; rewrite IH; [done|].
  by rewrite orb_true_r.
Qed.

Lemma handle_sendmsg_responds kn notif mem config a name st : mem_ok mem ->
  responds kn notif
    (if cfg_enforce_network config && negb (forallb (permitted config) (msg_dests mem a))
     then errno_resp notif ECONNREFUSED else continue_resp notif) st
    (handle_sendmsg kn notif mem config a name st).
Proof.
  intros Hm. unfold handle_sendmsg, msg_dests.
  destruct (read_u64 _ _); [|cbn; rewrite andb_false_r; by apply respond_responds].
  destruct (read_u32 _ _); [|cbn; rewrite andb_false_r; by apply respond_responds].
  destruct (negb (_ =? 0) && (0 <? _)); cbn [forallb]; [rewrite andb_true_r; by apply handle_connect_responds|].
  rewrite andb_false_r. by apply respond_responds.
Qed.

Lemma sendmmsg_responds kn notif mem config st : mem_ok mem ->
  responds kn notif
    (if cfg_enforce_network config
        && (negb (forallb (permitted config) (batch_dests notif mem)) || (MAX_SENDMMSG_INSPECT <? narg notif 2))
     then errno_resp notif ECONNREFUSED else continue_resp notif) st
    (if (MAX_SENDMMSG_INSPECT <? narg notif 2) && cfg_enforce_network config
     then respond_errno kn notif ECONNREFUSED st
     else
       let '(block, st) :=
         sendmmsg_loop notif mem config (Z.to_nat (Z.min (narg notif 2) MAX_SENDMMSG_INSPECT)) 0 false st in
       refuse_or_continue kn notif (block && cfg_enforce_network config) st).
Proof.
  intros Hm. set (n := Z.to_nat (Z.min (narg notif 2) MAX_SENDMMSG_INSPECT)).
  pose proof (sendmmsg_loop_sent notif mem config n 0 false st) as Hs.
  pose proof (sendmmsg_loop_block notif mem config n 0 false st Hm) as Hb.
  destruct (sendmmsg_loop _ _ _ _ _ _ _) as [b st']. cbn [fst snd orb] in Hs, Hb.
  destruct (cfg_enforce_network config); cbn [andb]; [|rewrite !andb_false_r; by apply respond_responds].
  rewrite !andb_true_r. destruct (Z.ltb_spec MAX_SENDMMSG_INSPECT (narg notif 2)); [rewrite orb_true_r; by apply respond_responds|].
  rewrite orb_false_r. unfold batch_dests.
  replace (seqZ 0 (narg notif 2)) with (seqZ 0 (Z.of_nat n)); [rewrite <- Hb by done; by apply refuse_responds|].
  subst n. rewrite Z.min_l by done. unfold seqZ. by rewrite Nat2Z.id.
Qed.

(** C15: the supervisor's response is the specified one, the cases in which it
    fails open included.  For every call, every memory of the target and every
    configuration, it sends exactly one response (none only if the notification is
    stale or the kernel does not take it): ECONNREFUSED exactly when network
    enforcement is on, the memory of the target can be opened, and either a
    destination of the call - any message of a [sendmmsg] batch included - is an
    Internet address other than 127.0.0.1 with the bridge's or the DNS server's
    port, or an address that the call or a readable message header points to
    cannot be read, or the batch is too long.  Otherwise the call continues: so
    also under enforcement when the memory of the target cannot be opened, and a
    message whose header cannot be read counts as one without a destination. *)
Theorem handle_notification_response kn notif config st :
  (forall mem, open_mem kn (n_pid notif) = Some mem -> mem_ok mem) ->
  responds kn notif (response config notif (open_mem kn (n_pid notif))) st (handle_notification kn notif config st).
Proof.
  intros Hmem. unfold handle_notification, response. destruct (open_mem kn (n_pid notif)) as [mem|]; [|by apply respond_responds].
  specialize (Hmem mem eq_refl). unfold dests, oversized, is_file_call. cbv zeta.
  set (nr := n_nr notif).
  destruct ((nr =? SYS "openat") || (nr =? SYS_OPENAT2)); cbn [orb negb andb].
  { rewrite andb_false_r. apply respond_responds. by rewrite write_audit_line_sent. }
  destruct (is_x86_64 && (nr =? SYS "open")); cbn [orb negb andb].
  { rewrite andb_false_r. apply respond_responds. by rewrite write_audit_line_sent. }
  destruct ((nr =? SYS "execve") || (nr =? SYS "execveat")); cbn [orb negb andb].
  { rewrite andb_false_r. apply respond_responds. by rewrite write_audit_line_sent. }
  destruct (nr =? SYS "connect"); cbn [negb andb forallb].
  { rewrite orb_false_r, andb_true_r. by apply handle_connect_responds. }
  destruct (nr =? SYS "sendto"); cbn [negb andb].
  { rewrite orb_false_r. destruct (narg notif 4 =? 0); cbn [forallb negb]; [rewrite andb_false_r; by apply respond_responds|].
    rewrite andb_true_r. by apply handle_connect_responds. }
  destruct (nr =? SYS "sendmsg"); cbn [negb andb].
  { rewrite orb_false_r. by apply handle_sendmsg_responds. }
  destruct (nr =? SYS "sendmmsg"); [by apply sendmmsg_responds|]. rewrite andb_false_r. by apply respond_responds.
Qed.

(** ** What holds of the supervisor's state in every run *)

Definition notif_ok (kn : Kernel) (notif : Notif) : Prop :=
  is_uint 32 (n_pid notif) /\ forall mem, open_mem kn (n_pid notif) = Some mem -> mem_ok mem.

Lemma read_string_str mem a n : is_str (default [] (read_string mem a n)).
Proof.
  unfold read_string. destruct (a =? 0); [done|]. destruct (mem a _) as [[|b l]|]; [done| |done].
  cbn [default from_option id]. apply Utf8.valid_decode, Utf8.decode_lossy.
Qed.

Lemma show_dest_str ip port : ip_ok ip -> is_uint 16 port -> is_str (show_dest ip port).
Proof.
  intros Hip Hp. assert (ascii (dec port)) by (apply ascii_dec; unfold is_uint in Hp; lia). apply ascii_str.
  destruct ip as [ip|ip]; cbn [show_dest].
  - destruct Hip as (? & ? & ? & ?). unfold is_u8 in *. apply ascii_app; [apply ascii_v4; lia|]. by apply ascii_app; [by_eval|].
  - destruct Hip as (? & ? & ? & ? & ? & ? & ? & ?).
    apply ascii_app; [by_eval|]. apply ascii_app; [apply ascii_v6; do 8 (apply Forall_cons_2; [done|]); apply Forall_nil_2|]. by apply ascii_app; [by_eval|].
Qed.

Lemma blocked_line_ok mem a n info pid name : mem_ok mem -> is_uint 32 pid ->
  printable (bs name) -> len (bs name) <= 20 ->
  read_sockaddr mem a n = Inet info -> line_ok (network_blocked_line pid (destination info) name).
Proof.
  intros Hm Hp Hn Hl H. pose proof (read_sockaddr_dest mem a n Hm) as K.
  destruct (dest_of mem a n) as [ip port| |]; [|by destruct K as [? K]; congruence|congruence].
  destruct K as ([f E] & Hip & Hport). rewrite E in H. injection H as <-. cbn [destination].
  apply network_blocked_line_ok; [done|by apply show_dest_str|done|done].
Qed.

Section Preservation.
Context (Inv : State -> Prop).
Context (Hwrite : forall line st, line_ok line -> Inv st -> Inv (write_audit_line line st)).
Context (Hsent : forall st l, Inv st -> Inv {| dropped := dropped st; log := log st; sent := l |}).

Lemma respond_inv kn notif r st : Inv st -> Inv (snd (respond kn notif r st)).
Proof. intros H. unfold respond. destruct (negb _); [done|]. destruct (notif_send kn r); [by apply Hsent|done]. Qed.

Lemma refuse_inv kn notif b st : Inv st -> Inv (snd (refuse_or_continue kn notif b st)).
Proof. intros H. unfold refuse_or_continue. destruct b; by apply respond_inv. Qed.

Lemma handle_connect_inv kn notif mem config a n name st : mem_ok mem -> is_uint 32 (n_pid notif) ->
  printable (bs name) -> len (bs name) <= 20 -> Inv st ->
  Inv (snd (handle_connect kn notif mem config a n name st)).
Proof.
  intros Hm Hp Hn Hl H. unfold handle_connect. destruct (read_sockaddr mem a n) eqn:E.
  - destruct (is_bridge_addr _ _); [by apply respond_inv|].
    apply refuse_inv, Hwrite; [by eapply blocked_line_ok|done].
  - by apply respond_inv.
  - by apply refuse_inv.
Qed.

Lemma audit_blocked_inv notif mem a st : mem_ok mem -> is_uint 32 (n_pid notif) -> Inv st ->
  Inv (audit_blocked notif mem a st).
Proof.
  intros Hm Hp H. unfold audit_blocked. destruct (read_u64 _ _); [|done]. destruct (read_u32 _ _); [|done].
  destruct (_ && _); [|done]. destruct (read_sockaddr _ _ _) eqn:E; [|done|done].
  apply Hwrite; [|done]. eapply blocked_line_ok; try done. by_eval.
Qed.

Lemma sendmmsg_loop_inv notif mem config n i b st : mem_ok mem -> is_uint 32 (n_pid notif) -> Inv st ->
  Inv (snd (sendmmsg_loop notif mem config n i b st)).
Proof.
  intros Hm Hp. revert i b st. induction n as [|n IH]; intros i b st H; [done|]. cbn [sendmmsg_loop].
  destruct (sendmsg_should_block _ _ _); apply IH; [by apply audit_blocked_inv|done].
Qed.

Lemma handle_notification_inv kn notif config st : notif_ok kn notif -> Inv st ->
  Inv (snd (handle_notification kn notif config st)).
Proof.
  intros [Hp Hm] H. unfold handle_notification. destruct (open_mem kn (n_pid notif)) as [mem|]; [|by apply respond_inv].
  specialize (Hm mem eq_refl). cbv zeta.
  assert (Hw : forall z, is_uint 32 (wrap 32 z)) by (intros z; apply wrap_range; lia).
  destruct (_ || _); [apply respond_inv, Hwrite; [|done]; apply file_access_line_ok; [done|apply read_string_str|]; by destruct (_ =? _)|].
  destruct (is_x86_64 && _); [apply respond_inv, Hwrite; [|done]; apply file_access_line_ok; [done|apply read_string_str|done]|].
  destruct (_ || _); [apply respond_inv, Hwrite; [|done]; apply process_spawn_line_ok; [done|apply read_string_str]|].
  destruct (_ =? SYS "connect"); [apply handle_connect_inv; try done; by_eval|].
  destruct (_ =? SYS "sendto"); [destruct (_ =? 0); [by apply respond_inv|]; apply handle_connect_inv; try done; by_eval|].
  destruct (_ =? SYS "sendmsg").
  { unfold handle_sendmsg. destruct (read_u64 _ _); [|by apply respond_inv]. destruct (read_u32 _ _); [|by apply respond_inv].
    destruct (_ && _); [apply handle_connect_inv; try done; by_eval|by apply respond_inv]. }
  destruct (_ =? SYS "sendmmsg"); [|by apply respond_inv].
  destruct (_ && _); [by apply respond_inv|].
  pose proof (sendmmsg_loop_inv notif mem config (Z.to_nat (Z.min (narg notif 2) MAX_SENDMMSG_INSPECT)) 0 false st Hm Hp H) as K.
  destruct (sendmmsg_loop _ _ _ _ _ _ _). by apply refuse_inv.
Qed.
End Preservation.

(** *** Lines and losses *)

(** A write is one line of printable bytes that the pipe takes at once. *)
Definition one_line (e : Entry) : Prop :=
  len (entry_data e) <= 4096 /\ exists l, entry_data e = l ++ [10] /\ printable l.

(** Lines that were not written because the pipe was full, and the losses that
    the written summaries report. *)
Definition lost1 (x : Entry * WriteOutcome) : Z := match x with (Line _, WouldBlock) => 1 | _ => 0 end.
Definition reported1 (x : Entry * WriteOutcome) : Z := match x with (Summary n, Written) => n | _ => 0 end.
Definition sum (f : Entry * WriteOutcome -> Z) (l : list (Entry * WriteOutcome)) : Z := foldr (fun x n => f x + n) 0 l.
Definition lost (st : State) : Z := sum lost1 (log st).
Definition reported (st : State) : Z := sum reported1 (log st).

Lemma sum_app f l l' : sum f (l ++ l') = sum f l + sum f l'.
Proof. induction l as [|x l IH]; [done|]. cbn [sum foldr app] in *. unfold sum in *. cbn. lia. Qed.

Definition audit_inv (st : State) : Prop :=
  Forall (fun x => one_line (fst x)) (log st) /\ is_uint 64 (dropped st) /\
  0 <= reported st /\ (lost st < 2 ^ 64 -> reported st + dropped st = lost st).

Lemma one_line_line line : line_ok line -> one_line (Line line).
Proof.
  intros [Hp Hl]. split; [|by exists line]. cbn [entry_data]. rewrite len_app. change (len [10]) with 1. lia.
Qed.

Lemma one_line_summary n : is_uint 64 n -> one_line (Summary n).
Proof.
  intros Hn. unfold is_uint in Hn. cbn [Z.pow Z.pow_pos] in Hn. pose proof (len_dec n 19 ltac:(cbn; lia)). split.
  - cbn [entry_data]. unfold dropped_line, object, str_member, raw_member, join. rewrite !len_app.
    change (len (key "type")) with 7. change (len (key "count")) with 8. change (len (bs "dropped")) with 7.
    change (len (bs ",")) with 1. change (len [_]) with 1. lia.
  - eexists. split; [reflexivity|]. apply printable_object. members; [by_eval|]. apply printable_dec_num. lia.
Qed.

Lemma raw_write_inv e st : one_line e -> is_uint 64 (dropped st) -> Forall (fun x => one_line (fst x)) (log st) ->
  let '(o, st') := raw_write e st in
  Forall (fun x => one_line (fst x)) (log st') /\ dropped st' = dropped st /\
  lost st' = lost st + lost1 (e, o) /\ reported st' = reported st + reported1 (e, o).
Proof.
  intros He Hd Hl. unfold raw_write, lost, reported. cbn [log dropped]. rewrite !sum_app. cbn [sum foldr].
  rewrite Forall_app. split_and!; [done|by repeat constructor; apply He|done|lia|lia].
Qed.

Lemma write_audit_line_inv line st : line_ok line -> audit_inv st -> audit_inv (write_audit_line line st).
Proof.
  intros Hline (Hl & Hd & Hr & Ha). unfold write_audit_line. cbv zeta.
  set (st1 := if 0 <? dropped st then _ else st).
  assert (H1 : audit_inv st1 /\ lost st1 = lost st).
  { subst st1. destruct (Z.ltb_spec 0 (dropped st)); [|by split].
    pose proof (raw_write_inv (Summary (dropped st)) st (one_line_summary _ Hd) Hd Hl) as K.
    destruct (raw_write (Summary (dropped st)) st) as [o s1]. destruct K as (K1 & K2 & K3 & K4).
    unfold audit_inv, lost, reported, is_uint in *. destruct o; cbn [lost1 reported1 set_dropped log dropped] in *;
      (split; [|lia]); (split; [done|]); rewrite ?K2, ?K3, ?K4; split_and!; try lia; intros; specialize (Ha ltac:(lia)); lia. }
  destruct H1 as [(H1 & H2 & H3 & H4) E1]. destruct Hline as [Hp Hn]. destruct (Z.ltb_spec 4095 (len line)); [lia|].
  pose proof (raw_write_inv (Line line) st1 (one_line_line line (conj Hp Hn)) H2 H1) as K.
  destruct (raw_write (Line line) st1) as [o s1]. destruct K as (K1 & K2 & K3 & K4).
  pose proof (wrap_range 64 (dropped s1 + 1) ltac:(lia)).
  unfold audit_inv, lost, reported, is_uint in *. destruct o; cbn [lost1 reported1 set_dropped log dropped] in *;
    (split; [done|]); rewrite ?K3, ?K4; split_and!; try lia; intros; specialize (H4 ltac:(lia)); rewrite ?wrap_small; unfold is_uint; lia.
Qed.

Lemma audit_inv_sent st l : audit_inv st -> audit_inv {| dropped := dropped st; log := log st; sent := l |}.
Proof. done. Qed.

Definition recv_ok (i : Recv) : Prop := match i with Received notif kn => notif_ok kn notif | RecvFailed _ => True end.

(** C30: the audit stream.  On every run of the supervisor, whatever the targets
    do and however the pipe behaves, each write is one line of printable bytes
    of at most 4096 bytes ([PIPE_BUF], so that it is written as a whole); and no
    loss is forgotten: the losses reported by the written summaries and the
    current drop counter add up to the lines that a full pipe refused.  When the
    supervisor exits, the losses are all reported, unless the last write, the
    summary of the rest, failed. *)
Theorem supervisor_audit config inputs st exited : Forall recv_ok inputs ->
  supervisor_loop config state_init inputs = (st, exited) ->
  Forall (fun x => one_line (fst x)) (log st) /\
  (lost st < 2 ^ 64 ->
   if exited then
     lost st = reported st \/
     exists n o l, log st = l ++ [(Summary n, o)] /\ o <> Written /\ lost st = reported st + n
   else lost st = reported st + dropped st).
Proof.
  intros Hin. assert (H0 : audit_inv state_init) by (split; [constructor|by_eval]).
  revert H0. generalize state_init. induction Hin as [|i inputs Hi _ IH]; intros s0 H0 E; cbn [supervisor_loop] in E.
  - injection E as <- <-. destruct H0 as (Hl & _ & _ & Ha). split; [done|]. intros H. specialize (Ha H). lia.
  - destruct i as [notif kn|errno].
    { eapply IH; [|exact E]. apply handle_notification_inv; [apply write_audit_line_inv|apply audit_inv_sent|done|done]. }
    destruct (errno =? EINTR); [by eapply IH|]. injection E as <- <-. destruct H0 as (Hl & Hd & Hr & Ha). unfold flush_dropped.
    destruct (Z.ltb_spec 0 (dropped s0)).
    2:{ split; [done|]. intros H1. left. specialize (Ha H1). unfold is_uint in Hd. lia. }
    pose proof (raw_write_inv (Summary (dropped s0)) s0 (one_line_summary _ Hd) Hd Hl) as K.
    destruct (raw_write (Summary (dropped s0)) s0) as [o s1] eqn:Ew. destruct K as (K1 & K2 & K3 & K4). cbn [snd]. split; [done|].
    rewrite K3, K4. cbn [lost1]. intros H1. specialize (Ha ltac:(lia)).
    unfold raw_write in Ew. injection Ew as Eo <-. rewrite Eo. cbn [log].
    destruct o; cbn [reported1]; [left; lia|right; eexists _, _, _; (split; [reflexivity|]); (split; [done|]); lia..].
Qed.

(** ** What is recorded *)

Definition lines (st : State) : list bytes :=
  omap (fun x => match fst x with Line l => Some l | Summary _ => None end) (log st).

(** A record for each destination that is not permitted. *)
Definition blocked_lines (config : UnotifyConfig) (pid : Z) (name : string) (ds : list Dest) : list bytes :=
  omap (fun d => match d with
                 | DestIp ip port =>
                   if permitted config d then None else Some (network_blocked_line pid (show_dest ip port) name)
                 | _ => None
                 end) ds.

Lemma write_audit_line_lines line st : line_ok line -> lines (write_audit_line line st) = lines st ++ [line].
Proof.
  intros [_ Hl]. unfold write_audit_line. cbv zeta. set (st1 := if 0 <? dropped st then _ else st).
  assert (E1 : lines st1 = lines st).
  { subst st1. destruct (0 <? dropped st); [|done]. unfold raw_write. destruct (pipe _);
      unfold lines; cbn [set_dropped log]; rewrite omap_app; cbn; by rewrite app_nil_r. }
  destruct (Z.ltb_spec 4095 (len line)); [lia|]. rewrite <- E1. unfold raw_write.
  destruct (pipe _); unfold lines; cbn [set_dropped log]; by rewrite omap_app.
Qed.

Lemma respond_lines kn notif r st : lines (snd (respond kn notif r st)) = lines st.
Proof. unfold respond. destruct (negb _); [done|]. by destruct (notif_send kn r). Qed.

Lemma refuse_lines kn notif b st : lines (snd (refuse_or_continue kn notif b st)) = lines st.
Proof. unfold refuse_or_continue. destruct b; apply respond_lines. Qed.

Lemma handle_connect_lines kn notif mem config a n name st : mem_ok mem -> is_uint 32 (n_pid notif) ->
  printable (bs name) -> len (bs name) <= 20 ->
  lines (snd (handle_connect kn notif mem config a n name st))
  = lines st ++ blocked_lines config (n_pid notif) name [dest_of mem a n].
Proof.
  intros Hm Hp Hn Hl. pose proof (read_sockaddr_dest mem a n Hm) as H. unfold handle_connect.
  destruct (dest_of mem a n) as [ip port| |]; cbn [blocked_lines omap list_omap].
  - destruct H as ([f ->] & Hip & Hport). rewrite is_bridge_addr_spec by done.
    destruct (permitted config (DestIp ip port)); [by cbn [blocked_lines omap list_omap]; rewrite app_nil_r; apply respond_lines|].
    rewrite refuse_lines. apply write_audit_line_lines, network_blocked_line_ok; [done|by apply show_dest_str|done|done].
  - destruct H as [f ->]. rewrite app_nil_r. apply respond_lines.
  - rewrite H, app_nil_r. apply refuse_lines.
Qed.

Lemma blocked_lines_app config pid name ds ds' :
  blocked_lines config pid name (ds ++ ds') = blocked_lines config pid name ds ++ blocked_lines config pid name ds'.
Proof. apply omap_app. Qed.

(** A message of a batch: what [sendmsg_should_block] and the audit of it do. *)
Lemma audit_blocked_lines notif mem config a st : mem_ok mem -> is_uint 32 (n_pid notif) ->
  lines (if sendmsg_should_block mem a config then audit_blocked notif mem a st else st)
  = lines st ++ blocked_lines config (n_pid notif) "sendmmsg" (msg_dests mem a).
Proof.
  intros Hm Hp. unfold sendmsg_should_block, audit_blocked, msg_dests.
  destruct (read_u64 mem a) as [x|]; [|by rewrite app_nil_r]. destruct (read_u32 _ _) as [n|]; [|by rewrite app_nil_r].
  destruct (_ && _); [|by rewrite app_nil_r]. pose proof (read_sockaddr_dest mem x n Hm) as H.
  destruct (dest_of mem x n) as [ip port| |]; cbn [blocked_lines omap list_omap].
  - destruct H as ([f ->] & Hip & Hport). rewrite is_bridge_addr_spec by done. cbn [destination].
    destruct (permitted config (DestIp ip port)); cbn [negb]; [by rewrite app_nil_r|].
    apply write_audit_line_lines, network_blocked_line_ok; [done|by apply show_dest_str|by_eval|done].
  - destruct H as [f ->]. by rewrite app_nil_r.
  - rewrite H, app_nil_r. by destruct (cfg_enforce_network config).
Qed.

Lemma sendmmsg_loop_lines notif mem config n i b st : mem_ok mem -> is_uint 32 (n_pid notif) ->
  lines (snd (sendmmsg_loop notif mem config n i b st))
  = lines st ++ blocked_lines config (n_pid notif) "sendmmsg"
      (flat_map (fun i => msg_dests mem (mmsg_addr notif i)) (seqZ i (Z.of_nat n))).
Proof.
  intros Hm Hp. revert i b st. induction n as [|n IH]; intros i b st; [by rewrite app_nil_r|].
  replace (Z.of_nat (S n)) with (Z.succ (Z.of_nat n)) by lia. rewrite seqZ_cons, Z.pred_succ by lia.
  cbn [flat_map sendmmsg_loop]. fold (mmsg_addr notif i). rewrite blocked_lines_app, app_assoc.
  rewrite <- (audit_blocked_lines notif mem config) by done. replace (Z.succ i) with (i + 1) by lia.
  destruct (sendmsg_should_block mem (mmsg_addr notif i) config); apply IH.
Qed.

Definition call_name (nr : Z) : string :=
  if nr =? SYS "connect" then "connect" else if nr =? SYS "sendto" then "sendto"
  else if nr =? SYS "sendmsg" then "sendmsg" else "sendmmsg".

(** Network auditing is complete and exact.  For a network call the
    supervisor records, in order, each destination that is an Internet address
    other than the bridge's and the DNS server's, with the process and the call,
    and nothing else (for a batch of at most 64 messages). *)
Theorem network_audit kn notif config st mem : notif_ok kn notif ->
  open_mem kn (n_pid notif) = Some mem -> is_file_call (n_nr notif) = false -> oversized notif = false ->
  lines (snd (handle_notification kn notif config st))
  = lines st ++ blocked_lines config (n_pid notif) (call_name (n_nr notif)) (dests notif mem).
Proof.
  intros [Hp Hm] Hopen. specialize (Hm mem Hopen). unfold handle_notification, dests, oversized, is_file_call, call_name.
  rewrite Hopen. cbv zeta. set (nr := n_nr notif). intros Hf Ho. rewrite Hf. rewrite Hf in Ho.
  apply orb_false_iff in Hf as [Hf H5]. apply orb_false_iff in Hf as [Hf H4]. apply orb_false_iff in Hf as [H1 H3].
  rewrite H1, H3, H4, H5. cbn [orb negb andb] in *.
  destruct (nr =? SYS "connect"); [apply handle_connect_lines; try done; by_eval|].
  destruct (nr =? SYS "sendto").
  { destruct (narg notif 4 =? 0); [cbn [blocked_lines omap list_omap]; rewrite app_nil_r; apply respond_lines|]. apply handle_connect_lines; try done; by_eval. }
  destruct (nr =? SYS "sendmsg").
  { unfold handle_sendmsg, msg_dests. destruct (read_u64 _ _); [|cbn [blocked_lines omap list_omap]; rewrite app_nil_r; apply respond_lines].
    destruct (read_u32 _ _); [|cbn [blocked_lines omap list_omap]; rewrite app_nil_r; apply respond_lines].
    destruct (negb (_ =? 0) && (0 <? _)); [|cbn [blocked_lines omap list_omap]; rewrite app_nil_r; apply respond_lines]. apply handle_connect_lines; try done; by_eval. }
  destruct (nr =? SYS "sendmmsg"); [|cbn [blocked_lines omap list_omap]; rewrite app_nil_r; apply respond_lines].
  cbn [negb andb] in Ho. rewrite Ho. cbn [andb]. apply Z.ltb_ge in Ho. rewrite Z.min_l by done.
  pose proof (sendmmsg_loop_lines notif mem config (Z.to_nat (narg notif 2)) 0 false st Hm Hp) as K.
  destruct (sendmmsg_loop _ _ _ _ _ _ _) as [b st']. rewrite refuse_lines. cbn [snd] in K. rewrite K. unfold batch_dests.
  replace (seqZ 0 (Z.of_nat _)) with (seqZ 0 (narg notif 2)) by (unfold seqZ; by rewrite Nat2Z.id). done.
Qed.
End Supervisor.

(** ** Instances *)

(** A target that connects to 10.0.0.1:443, with the address at 0x1000, and a
    kernel that answers. *)
Module Demo.
Definition sockaddr : bytes := [2; 0; 1; 187; 10; 0; 0; 1; 0; 0; 0; 0; 0; 0; 0; 0].
Definition mem : MemFd := fun addr n => if (addr =? 0x1000) && (0 <=? n) then Some (take (Z.to_nat n) sockaddr) else None.
Definition kernel : Kernel := {|
  open_mem _ := Some mem; id_valid_new _ := Some EINVAL; id_valid_old _ := None; notif_send _ := true |}.
Definition notif : Notif := {| n_id := 7; n_pid := 1234; n_nr := 42; n_args := [3; 0x1000; 16; 0; 0; 0] |}.
Definition config : UnotifyConfig := {|
  cfg_file_access := false; cfg_network := true; cfg_bridge_port := Some 18080; cfg_dns_port := None;
  cfg_enforce_network := true |}.
(** A pipe that is full at the second write. *)
Definition pipe (n : nat) : WriteOutcome := if decide (n = 1%nat) then WouldBlock else Written.

Lemma mem_is_ok : mem_ok mem.
Proof.
  intros addr n buf. unfold mem. destruct (addr =? 0x1000); [|done]. cbn [andb]. destruct (Z.leb_spec 0 n); [|done].
  intros [= <-]. split; [apply Forall_take; by_eval|].
  unfold len. rewrite length_take. cbn [length sockaddr]. lia.
Qed.

Lemma notif_is_ok : notif_ok kernel notif.
Proof. split; [by_eval|]. intros m [= <-]. apply mem_is_ok. Qed.
End Demo.

Lemma handle_notification_response_witness :
  let T := Seccomp.Reference.linux x86_64 in
  sent (snd (handle_notification Demo.pipe Demo.kernel Demo.notif Demo.config state_init))
  = [errno_resp Demo.notif ECONNREFUSED].
Proof.
  cbv zeta. destruct (@handle_notification_response (Seccomp.Reference.linux x86_64) Demo.pipe Demo.kernel Demo.notif
    Demo.config state_init) as [_ ->]; [intros m [= <-]; apply Demo.mem_is_ok|]. by vm_compute.
Defined.

Lemma supervisor_audit_witness :
  let T := Seccomp.Reference.linux x86_64 in
  exists st, supervisor_loop Demo.pipe Demo.config state_init
      [Received Demo.notif Demo.kernel; Received Demo.notif Demo.kernel; RecvFailed 2] = (st, true) /\
    lost st = 1 /\ Forall (fun x => one_line (fst x)) (log st).
Proof.
  cbv zeta. set (i := [_; _; _]).
  destruct (@supervisor_loop (Seccomp.Reference.linux x86_64) Demo.pipe Demo.config state_init i) as [st b] eqn:E.
  assert (b = true /\ lost st = 1) as [-> Hl].
  { apply (f_equal (fun r => (snd r, lost (fst r)))) in E. vm_compute in E. by injection E. }
  exists st. split_and!; [done|done|].
  apply (@supervisor_audit (Seccomp.Reference.linux x86_64) Demo.pipe Demo.config i st true); [|done].
  repeat (apply Forall_cons_2; [exact Demo.notif_is_ok || exact I|]). apply Forall_nil_2.
Defined.

Lemma network_audit_witness :
  let T := Seccomp.Reference.linux x86_64 in
  lines (snd (handle_notification Demo.pipe Demo.kernel Demo.notif Demo.config state_init))
  = [network_blocked_line 1234 (bs "10.0.0.1:443") "connect"].
Proof.
  cbv zeta. rewrite (@network_audit (Seccomp.Reference.linux x86_64) Demo.pipe Demo.kernel Demo.notif Demo.config
    state_init Demo.mem); [by vm_compute|exact Demo.notif_is_ok|done|by vm_compute|by vm_compute].
Defined.

(** A long text is cut after [MAX_ESCAPED] bytes of its escaped form, possibly
    within an escape sequence: the record is then not a JSON text.  Here the path
    is an "a" and 1950 quotation marks; the reader of [vm/protocol.rs] rejects the
    resulting string. *)
Theorem escape_for_audit_breaks_json :
  let path := ch "a" :: repeat dquote 1950 in
  is_str path /\ len path <= 2000 /\
  parse_string (dquote :: escape_for_audit path ++ [dquote]) = Err (IoError InvalidData "invalid escape: \{}").
Proof. cbv zeta. split_and!; by vm_compute. Qed.
