(* ===== verification/Allowlists.v ===== *)
(** * Allowlists: the seccomp filters of the helper processes

    The bridge and the CONNECT proxy ([bridge.rs]) and the notification
    supervisor ([unotify.rs]) run under default-deny filters: the code that builds
    and installs them, on the monad and the interface of [Seccomp], and for each a
    table of the calls it allows, in terms of the meaning of the arguments.  The
    theorem says that the kernel's verdict is the table's.  The installation of
    the SIGSYS handler in debug mode is not part of the state here. *)

From S2P Require Import Prelude Text Env Seccomp Unotify.

(** ** Constants of the [libc] crate *)

Definition CLONE_VM : Z := 0x100.
Definition CLONE_FS : Z := 0x200.
Definition CLONE_FILES : Z := 0x400.
Definition CLONE_SIGHAND : Z := 0x800.
Definition CLONE_THREAD : Z := 0x10000.
Definition CLONE_NEWNS : Z := 0x20000.
Definition CLONE_NEWCGROUP : Z := 0x2000000.
Definition CLONE_NEWUTS : Z := 0x4000000.
Definition CLONE_NEWIPC : Z := 0x8000000.
Definition CLONE_NEWUSER : Z := 0x10000000.
Definition CLONE_NEWPID : Z := 0x20000000.
Definition CLONE_NEWNET : Z := 0x40000000.
Definition PROT_EXEC : Z := 4.
Definition PR_SET_NAME : Z := 15.

(** ** [bridge.rs] *)

Definition CLONE_THREAD_FLAGS : Z :=
  Z.lor (Z.lor (Z.lor (Z.lor CLONE_VM CLONE_FS) CLONE_FILES) CLONE_SIGHAND) CLONE_THREAD.

Definition CLONE_NS_FLAGS : Z :=
  Z.lor (Z.lor (Z.lor (Z.lor (Z.lor (Z.lor (Z.lor CLONE_NEWNS CLONE_NEWCGROUP) CLONE_NEWUTS) CLONE_NEWIPC)
    CLONE_NEWUSER) CLONE_NEWPID) CLONE_NEWNET) 0x80.

Definition PR_SET_VMA : Z := 0x53564d41.
Definition IOCTL_FIONREAD : Z := 0x541B.
Definition IOCTL_FIONBIO : Z := 0x5421.

Section Helpers.
Context `{T : Target} `{SC : Seccompiler}.
Context (accepts : list BpfProgram -> BpfProgram -> bool).

Abbreviation Rules := (gmap Z (list SeccompRule)).

(** The lists of [bridge.rs] (shared lists are written out in the source). *)
Definition io_calls : list string :=
  ["accept4"; "connect"; "read"; "write"; "writev"; "recvfrom"; "sendto"; "close"; "shutdown"; "ppoll";
   "epoll_pwait"; "epoll_ctl"; "epoll_create1"]%string.
Definition poll_calls : list string := ["poll"; "epoll_wait"]%string.
Definition thread_calls : list string :=
  ["futex"; "set_robust_list"; "sched_yield"; "sched_getaffinity"; "gettid"; "getpid"; "tgkill"]%string.
Definition memory_calls : list string := ["mmap"; "munmap"; "brk"; "mremap"; "madvise"]%string.
Definition signal_calls : list string := ["rt_sigaction"; "rt_sigprocmask"; "rt_sigreturn"; "sigaltstack"]%string.
Definition exit_calls : list string := ["exit"; "exit_group"]%string.
Definition file_calls : list string := ["openat"; "newfstatat"; "fstat"; "lseek"; "pread64"]%string.
Definition misc_calls : list string :=
  ["getrandom"; "clock_gettime"; "clock_nanosleep"; "nanosleep"; "setsockopt"; "getsockopt"; "fcntl";
   "prlimit64"; "rseq"]%string.

(** The rules that allow a call for some arguments. *)
Definition clone_thread_rule : Result SeccompRule :=
  c0 ← condition "clone condition: {e}" 0 Qword (MaskedEq CLONE_THREAD_FLAGS) CLONE_THREAD_FLAGS;
  c1 ← condition "clone ns deny condition: {e}" 0 Qword (MaskedEq CLONE_NS_FLAGS) 0;
  rule "clone rule: {e}" [c0; c1].

Definition prctl_naming_rules : Result (list SeccompRule) :=
  prctl_set_vma ← rule1 "prctl PR_SET_VMA condition: {e}" "prctl PR_SET_VMA rule: {e}" 0 Dword Eq PR_SET_VMA;
  prctl_set_name ← rule1 "prctl PR_SET_NAME condition: {e}" "prctl PR_SET_NAME rule: {e}" 0 Dword Eq PR_SET_NAME;
  Ok [prctl_set_vma; prctl_set_name].

(** The map [allow] of [build_bridge_filters]. *)
Definition bridge_allow : Result Rules :=
  let allow := insert_all (map SYS io_calls) ∅ in
  let allow := if is_x86_64 then insert_all (map SYS poll_calls) allow else allow in
  let allow := insert_all (map SYS thread_calls) allow in
  clone_rule ← clone_thread_rule;
  let allow := <[SYS "clone" := [clone_rule]]> allow in
  let allow := <[SYS "clone3" := []]> allow in
  let allow := insert_all (map SYS memory_calls) allow in
  mprotect_rule ← rule1 "mprotect condition: {e}" "mprotect rule: {e}" 2 Dword (MaskedEq PROT_EXEC) 0;
  let allow := <[SYS "mprotect" := [mprotect_rule]]> allow in
  let allow := insert_all (map SYS signal_calls) allow in
  let allow := insert_all (map SYS exit_calls) allow in
  socket_unix_rule ← rule1 "socket condition: {e}" "socket rule: {e}" 0 Dword Eq AF_UNIX;
  let allow := <[SYS "socket" := [socket_unix_rule]]> allow in
  let allow := insert_all (map SYS file_calls) allow in
  let allow := insert_all (map SYS misc_calls) allow in
  prctl_rules ← prctl_naming_rules;
  Ok (<[SYS "prctl" := prctl_rules]> allow).

Definition clone3_deny : Rules := <[SYS "clone3" := []]> ∅.

Definition mismatch_action (debug : bool) : SeccompAction := if debug then Trap else KillProcess.

Definition build_bridge_filters (debug : bool) : Result (BpfProgram * BpfProgram) :=
  a ← target_arch;
  allow ← bridge_allow;
  clone3_filter ← new_filter "build clone3 filter: {e}" clone3_deny Allow (Errno ENOSYS) a;
  clone3_prog ← compile "compile clone3 filter: {e}" clone3_filter;
  filter ← new_filter "build bridge filter: {e}" allow (mismatch_action debug) Allow a;
  main_prog ← compile "compile bridge filter: {e}" filter;
  Ok (clone3_prog, main_prog).

Definition apply_bridge_seccomp (debug : bool) : M unit :=
  '(clone3_prog, main_prog) ← lift (build_bridge_filters debug);
  _ ← apply_filter accepts "install clone3 filter: {e}" clone3_prog;
  apply_filter accepts "install bridge filter: {e}" main_prog.

(** The map [allow] of [build_connect_proxy_filters]. *)
Definition dns_calls : list string :=
  ["sendmmsg"; "recvmmsg"; "recvmsg"; "bind"; "getsockname"; "getpeername"]%string.
Definition proxy_misc_calls : list string :=
  ["getrandom"; "clock_gettime"; "clock_nanosleep"; "nanosleep"; "setsockopt"; "getsockopt"; "fcntl";
   "prlimit64"; "rseq"; "getuid"; "getgid"; "geteuid"; "getegid"; "uname"]%string.

Definition connect_proxy_allow : Result Rules :=
  let allow := insert_all (map SYS io_calls) ∅ in
  let allow := if is_x86_64 then insert_all (map SYS poll_calls) allow else allow in
  let allow := insert_all (map SYS dns_calls) allow in
  ioctl_fionread ← rule1 "ioctl FIONREAD condition: {e}" "ioctl FIONREAD rule: {e}" 1 Dword Eq IOCTL_FIONREAD;
  ioctl_fionbio ← rule1 "ioctl FIONBIO condition: {e}" "ioctl FIONBIO rule: {e}" 1 Dword Eq IOCTL_FIONBIO;
  let allow := <[SYS "ioctl" := [ioctl_fionread; ioctl_fionbio]]> allow in
  let allow := insert_all (map SYS file_calls) allow in
  let allow := insert_all (map SYS thread_calls) allow in
  clone_rule ← clone_thread_rule;
  let allow := <[SYS "clone" := [clone_rule]]> allow in
  let allow := <[SYS "clone3" := []]> allow in
  let allow := insert_all (map SYS memory_calls) allow in
  mprotect_rule ← rule1 "mprotect condition: {e}" "mprotect rule: {e}" 2 Dword (MaskedEq PROT_EXEC) 0;
  let allow := <[SYS "mprotect" := [mprotect_rule]]> allow in
  let allow := insert_all (map SYS signal_calls) allow in
  let allow := insert_all (map SYS exit_calls) allow in
  socket_unix ← rule1 "socket AF_UNIX condition: {e}" "socket AF_UNIX rule: {e}" 0 Dword Eq AF_UNIX;
  socket_inet ← rule1 "socket AF_INET condition: {e}" "socket AF_INET rule: {e}" 0 Dword Eq AF_INET;
  socket_inet6 ← rule1 "socket AF_INET6 condition: {e}" "socket AF_INET6 rule: {e}" 0 Dword Eq AF_INET6;
  let allow := <[SYS "socket" := [socket_unix; socket_inet; socket_inet6]]> allow in
  let allow := insert_all (map SYS proxy_misc_calls) allow in
  prctl_rules ← prctl_naming_rules;
  Ok (<[SYS "prctl" := prctl_rules]> allow).

Definition build_connect_proxy_filters (debug : bool) : Result (BpfProgram * BpfProgram) :=
  a ← target_arch;
  allow ← connect_proxy_allow;
  clone3_filter ← new_filter "build clone3 filter: {e}" clone3_deny Allow (Errno ENOSYS) a;
  clone3_prog ← compile "compile clone3 filter: {e}" clone3_filter;
  filter ← new_filter "build connect proxy filter: {e}" allow (mismatch_action debug) Allow a;
  main_prog ← compile "compile connect proxy filter: {e}" filter;
  Ok (clone3_prog, main_prog).

Definition apply_connect_proxy_seccomp (debug : bool) : M unit :=
  '(clone3_prog, main_prog) ← lift (build_connect_proxy_filters debug);
  _ ← apply_filter accepts "install clone3 filter: {e}" clone3_prog;
  apply_filter accepts "install connect proxy filter: {e}" main_prog.

(** ** [unotify.rs] *)

Definition supervisor_io_calls : list string :=
  ["openat"; "read"; "pread64"; "write"; "close"; "writev"; "lseek"; "ppoll"; "fcntl"; "pidfd_open";
   "pidfd_getfd"]%string.
Definition supervisor_runtime_calls : list string :=
  ["futex"; "set_robust_list"; "sched_yield"; "sched_getaffinity"; "gettid"; "getpid"; "tgkill"; "getrandom";
   "clock_gettime"; "prlimit64"; "rseq"; "newfstatat"; "fstat"; "nanosleep"]%string.

Definition allowed_ioctls : list Z :=
  [SECCOMP_IOCTL_NOTIF_RECV; SECCOMP_IOCTL_NOTIF_SEND; SECCOMP_IOCTL_NOTIF_ID_VALID_NEW;
   SECCOMP_IOCTL_NOTIF_ID_VALID_OLD].

Fixpoint ioctl_rules_loop (cmds : list Z) : Result (list SeccompRule) :=
  match cmds with
  | [] => Ok []
  | cmd :: cmds =>
    r ← rule1 "ioctl condition: {e}" "ioctl rule: {e}" 1 Dword Eq cmd;
    rs ← ioctl_rules_loop cmds;
    Ok (r :: rs)
  end.

(** The map [allow] of [apply_supervisor_seccomp]. *)
Definition supervisor_allow : Result Rules :=
  let allow := insert_all (map SYS supervisor_io_calls) ∅ in
  ioctl_rules ← ioctl_rules_loop allowed_ioctls;
  let allow := <[SYS "ioctl" := ioctl_rules]> allow in
  let allow := if is_x86_64 then insert_all (map SYS ["poll"%string]) allow else allow in
  let allow := insert_all (map SYS memory_calls) allow in
  mprotect_rule ← rule1 "supervisor mprotect condition: {e}" "supervisor mprotect rule: {e}"
                    2 Dword (MaskedEq PROT_EXEC) 0;
  let allow := <[SYS "mprotect" := [mprotect_rule]]> allow in
  let allow := insert_all (map SYS signal_calls) allow in
  let allow := insert_all (map SYS exit_calls) allow in
  let allow := insert_all (map SYS supervisor_runtime_calls) allow in
  let allow := <[SYS "clone3" := []]> allow in
  prctl_rules ← prctl_naming_rules;
  Ok (<[SYS "prctl" := prctl_rules]> allow).

Definition apply_supervisor_seccomp (debug : bool) : M unit :=
  a ← lift target_arch;
  allow ← lift supervisor_allow;
  filter ← lift (new_filter "build supervisor filter: {e}" allow (mismatch_action debug) Allow a);
  prog ← lift (compile "compile supervisor filter: {e}" filter);
  clone3_filter ← lift (new_filter "build supervisor clone3 filter: {e}" clone3_deny Allow (Errno ENOSYS) a);
  clone3_prog ← lift (compile "compile supervisor clone3 filter: {e}" clone3_filter);
  _ ← apply_filter accepts "install supervisor clone3 filter: {e}" clone3_prog;
  apply_filter accepts "install supervisor filter: {e}" prog.

(** ** The tables of allowed calls *)

Definition always_all (l : list string) : Table := map always (map SYS l).

(** [clone] that creates a thread and no namespace. *)
Definition thread_entry : Z * (SeccompData -> bool) :=
  (SYS "clone", fun d => (Z.land (arg d 0) CLONE_THREAD_FLAGS =? CLONE_THREAD_FLAGS)
                         && (Z.land (arg d 0) CLONE_NEW_ANY =? 0)).
(** Memory that does not become executable. *)
Definition noexec_entry : Z * (SeccompData -> bool) := (SYS "mprotect", fun d => negb (Z.testbit (arg d 2) 2)).
(** An argument of type [int] that is one of some values. *)
Definition one_of_entry (name : string) (i : Z) (vs : list Z) : Z * (SeccompData -> bool) :=
  (SYS name, fun d => existsb (Z.eqb (wrap 32 (arg d i))) vs).
Definition naming_entry : Z * (SeccompData -> bool) := one_of_entry "prctl" 0 [PR_SET_VMA; PR_SET_NAME].

Definition bridge_table : Table :=
  always_all io_calls ++ (if is_x86_64 then always_all poll_calls else []) ++ always_all thread_calls
  ++ [thread_entry] ++ [always (SYS "clone3")] ++ always_all memory_calls ++ [noexec_entry]
  ++ always_all signal_calls ++ always_all exit_calls ++ [one_of_entry "socket" 0 [AF_UNIX]]
  ++ always_all file_calls ++ always_all misc_calls ++ [naming_entry].

Definition connect_proxy_table : Table :=
  always_all io_calls ++ (if is_x86_64 then always_all poll_calls else []) ++ always_all dns_calls
  ++ [one_of_entry "ioctl" 1 [IOCTL_FIONREAD; IOCTL_FIONBIO]] ++ always_all file_calls ++ always_all thread_calls
  ++ [thread_entry] ++ [always (SYS "clone3")] ++ always_all memory_calls ++ [noexec_entry]
  ++ always_all signal_calls ++ always_all exit_calls ++ [one_of_entry "socket" 0 [AF_UNIX; AF_INET; AF_INET6]]
  ++ always_all proxy_misc_calls ++ [naming_entry].

Definition supervisor_table : Table :=
  always_all supervisor_io_calls ++ [one_of_entry "ioctl" 1 allowed_ioctls]
  ++ (if is_x86_64 then always_all ["poll"%string] else []) ++ always_all memory_calls ++ [noexec_entry]
  ++ always_all signal_calls ++ always_all exit_calls ++ always_all supervisor_runtime_calls
  ++ [always (SYS "clone3")] ++ [naming_entry].

(** What such a process may do: calls of the table, except that [clone3] is
    reported as missing; everything else kills it (or traps, in debug mode). *)
Definition allow_policy (t : Table) (debug : bool) (d : SeccompData) : SeccompAction :=
  if decide (sd_arch d = target_cpu) then
    if negb (denied t d) then mismatch_action debug
    else if sd_nr d =? SYS "clone3" then Errno ENOSYS
    else Allow
  else KillProcess.

Inductive Helper : Type := BridgeProcess | ConnectProxy | Supervisor.

Definition helper_table (h : Helper) : Table :=
  match h with BridgeProcess => bridge_table | ConnectProxy => connect_proxy_table | Supervisor => supervisor_table end.

Definition apply_helper (h : Helper) (debug : bool) : M unit :=
  match h with
  | BridgeProcess => apply_bridge_seccomp debug
  | ConnectProxy => apply_connect_proxy_seccomp debug
  | Supervisor => apply_supervisor_seccomp debug
  end.

(** ** The maps implement the tables *)

Context {L : SeccompilerLaws SC}.

Definition unconditional (l : list Z) : list (Z * list SeccompRule) := map (fun nr => (nr, [])) l.

Lemma insert_all_list l m : insert_all l m = insert_list (unconditional l) m.
Proof. revert m. induction l as [|nr l IH]; intros m; [done|]. apply IH. Qed.

Lemma insert_list_app es es' m : insert_list (es ++ es') m = insert_list es' (insert_list es m).
Proof. apply foldl_app. Qed.

Lemma entries_always l : Forall2 entry (unconditional (map SYS l)) (always_all l).
Proof. induction l as [|n l IH]; constructor; [by split|done]. Qed.

(** Rules that compare one argument with some values. *)
Lemma rules_entry name i vs rs : vs <> [] ->
  Forall2 (fun r v => forall d, rule_holds r d = cmp Dword Eq (arg d i) v) rs vs ->
  Forall (fun v => wrap 32 v = v) vs -> entry (SYS name, rs) (one_of_entry name i vs).
Proof.
  intros Hne H Hv. split; [done|]. intros d. cbn [snd one_of_entry].
  assert (E : existsb (fun r => rule_holds r d) rs = existsb (Z.eqb (wrap 32 (arg d i))) vs).
  { induction H as [|r v rs vs Hr H IH]; [done|]. inv Hv. cbn [existsb]. rewrite Hr. unfold cmp, cmp_len.
    destruct vs; [inv H; cbn; congruence|]. rewrite IH by done. congruence. }
  destruct H; [done|]. exact E.
Qed.

Lemma naming_rules_entry rs : prctl_naming_rules = Ok rs -> entry (SYS "prctl", rs) naming_entry.
Proof.
  intros H. unfold prctl_naming_rules in H. apply bind_ok in H as (r1 & H1 & H). apply bind_ok in H as (r2 & H2 & H).
  injection H as <-. apply rules_entry; [done| |by_eval].
  repeat constructor; intros d; [apply (rule1_holds _ _ _ _ _ _ _ H1)|apply (rule1_holds _ _ _ _ _ _ _ H2)].
Qed.

Lemma ioctl_rules_entry rs : ioctl_rules_loop allowed_ioctls = Ok rs ->
  entry (SYS "ioctl", rs) (one_of_entry "ioctl" 1 allowed_ioctls).
Proof.
  intros H. apply rules_entry; [done| |by_eval]. revert rs H. generalize allowed_ioctls. intros cmds.
  induction cmds as [|c cmds IH]; intros rs H; [injection H as <-; constructor|]. cbn [ioctl_rules_loop] in H.
  apply bind_ok in H as (r & Hr & H). apply bind_ok in H as (rs' & Hrs & H). injection H as <-.
  constructor; [apply (rule1_holds _ _ _ _ _ _ _ Hr)|by apply IH].
Qed.

Lemma clone_thread_entry r : clone_thread_rule = Ok r -> entry (SYS "clone", [r]) thread_entry.
Proof.
  intros H. unfold clone_thread_rule in H. apply bind_ok in H as (c0 & H0 & H). apply bind_ok in H as (c1 & H1 & H).
  split; [done|]. intros d. cbn [snd existsb thread_entry].
  rewrite orb_false_r, (rule2_holds _ _ _ _ _ _ _ _ _ _ _ _ _ _ H0 H1 H). unfold cmp, cmp_len. by rewrite wrap64_arg.
Qed.

Lemma land_bit_zero a n : 0 <= n -> (Z.land a (2 ^ n) =? 0) = negb (Z.testbit a n).
Proof.
  intros Hn. pose proof (masked_bit n a Hn) as E. destruct (Z.testbit a n); cbn [negb].
  - apply Z.eqb_eq in E. rewrite E. apply Z.eqb_neq. pose proof (Z.pow_pos_nonneg 2 n). lia.
  - apply Z.eqb_neq in E. apply Z.eqb_eq. apply land_pow2_0; [done|]. apply not_true_iff_false. intros Ho. apply E.
    apply Z.eqb_eq. rewrite masked_bit by done. by rewrite Z.testbit_odd, shiftr_div.
Qed.

Lemma mprotect_entry m1 m2 r : rule1 m1 m2 2 Dword (MaskedEq PROT_EXEC) 0 = Ok r -> entry (SYS "mprotect", [r]) noexec_entry.
Proof.
  intros H. split; [done|]. intros d. cbn [snd existsb noexec_entry]. rewrite orb_false_r, (rule1_holds _ _ _ _ _ _ _ H).
  unfold cmp, cmp_len. change (wrap 32 PROT_EXEC) with (2 ^ 2). change (Z.land (wrap 32 0) (2 ^ 2)) with 0.
  rewrite land_bit_zero by lia. by rewrite wrap_testbit by lia.
Qed.

(** A map given by a list of entries. *)
Definition listed (m : Rules) (t : Table) : Prop := exists es, m = insert_list es ∅ /\ Forall2 entry es t.

Lemma listed_empty : listed ∅ [].
Proof. by exists []. Qed.

Lemma listed_all m t l : listed m t -> listed (insert_all (map SYS l) m) (t ++ always_all l).
Proof.
  intros (es & -> & H). exists (es ++ unconditional (map SYS l)). rewrite insert_list_app, insert_all_list. split; [done|].
  apply Forall2_app; [done|apply entries_always].
Qed.

Lemma listed_insert m t nr rs e : listed m t -> entry (nr, rs) e -> listed (<[nr := rs]> m) (t ++ [e]).
Proof. intros (es & -> & H) He. exists (es ++ [(nr, rs)]). rewrite insert_list_app. split; [done|]. apply Forall2_app; [done|constructor; [exact He|constructor]]. Qed.

Lemma listed_when (b : bool) m t l : listed m t ->
  listed (if b then insert_all (map SYS l) m else m) (t ++ if b then always_all l else []).
Proof. intros H. destruct b; [by apply listed_all|by rewrite app_nil_r]. Qed.

Lemma listed_always m t nr : listed m t -> listed (<[nr := []]> m) (t ++ [always nr]).
Proof. intros H. by apply listed_insert. Qed.

Lemma listed_represents m t : listed m t -> NoDup (map fst t) -> represents m t.
Proof. intros (es & -> & H) Hn. by apply (represents_list es t ∅ []); [apply represents_empty| |]. Qed.

Lemma listed_first l : listed (insert_all (map SYS l) ∅) (always_all l).
Proof. apply (listed_all ∅ []), listed_empty. Qed.

(** Back through the construction of a map. *)
Ltac listed :=
  lazymatch goal with
  | |- listed (insert_all _ ∅) _ => apply listed_first
  | |- listed (insert_all _ _) _ => apply listed_all; listed
  | |- listed (if _ then _ else _) _ => apply listed_when; listed
  | |- listed (<[_ := []]> _) _ => apply listed_always; listed
  | |- listed (<[_ := _]> _) _ => apply listed_insert; [listed|]
  end.

Lemma bridge_listed m : bridge_allow = Ok m -> listed m bridge_table.
Proof.
  unfold bridge_allow. cbv zeta. intros H. apply bind_ok in H as (r1 & H1 & H). apply bind_ok in H as (r2 & H2 & H).
  apply bind_ok in H as (r3 & H3 & H). apply bind_ok in H as (rs & H4 & H). apply ok_inj in H; rewrite <- H; clear H m.
  unfold bridge_table. rewrite !app_assoc.
  listed; [by apply clone_thread_entry|by eapply mprotect_entry| |by apply naming_rules_entry].
  apply rules_entry; [done| |by_eval]. constructor; [apply (rule1_holds _ _ _ _ _ _ _ H3)|constructor].
Qed.

Lemma connect_proxy_listed m : connect_proxy_allow = Ok m -> listed m connect_proxy_table.
Proof.
  unfold connect_proxy_allow. cbv zeta. intros H. apply bind_ok in H as (r1 & H1 & H). apply bind_ok in H as (r2 & H2 & H).
  apply bind_ok in H as (r3 & H3 & H). apply bind_ok in H as (r4 & H4 & H). apply bind_ok in H as (r5 & H5 & H).
  apply bind_ok in H as (r6 & H6 & H). apply bind_ok in H as (r7 & H7 & H). apply bind_ok in H as (rs & H8 & H). apply ok_inj in H; rewrite <- H; clear H m.
  unfold connect_proxy_table. rewrite !app_assoc.
  listed; [|by apply clone_thread_entry|by eapply mprotect_entry| |by apply naming_rules_entry].
  - apply rules_entry; [done| |by_eval].
    constructor; [apply (rule1_holds _ _ _ _ _ _ _ H1)|constructor; [apply (rule1_holds _ _ _ _ _ _ _ H2)|constructor]].
  - apply rules_entry; [done| |by_eval]. constructor; [apply (rule1_holds _ _ _ _ _ _ _ H5)|].
    constructor; [apply (rule1_holds _ _ _ _ _ _ _ H6)|constructor; [apply (rule1_holds _ _ _ _ _ _ _ H7)|constructor]].
Qed.

Lemma supervisor_listed m : supervisor_allow = Ok m -> listed m supervisor_table.
Proof.
  unfold supervisor_allow. cbv zeta. intros H. apply bind_ok in H as (r1 & H1 & H). apply bind_ok in H as (r2 & H2 & H).
  apply bind_ok in H as (rs & H3 & H). apply ok_inj in H; rewrite <- H; clear H m. unfold supervisor_table. rewrite !app_assoc.
  listed; [by apply ioctl_rules_entry|by eapply mprotect_entry|by apply naming_rules_entry].
Qed.

(** ** The verdict *)

Lemma main_verdict m1 m2 m t debug a f p d : represents m t -> new_filter m1 m (mismatch_action debug) Allow a = Ok f ->
  compile m2 f = Ok p -> sd_arch d = Some a -> run p d = if denied t d then Allow else mismatch_action debug.
Proof.
  intros Hm Hf Hp Ha. apply map_err_ok in Hf, Hp. rewrite (filter_law _ _ _ _ f p Hf Hp). unfold filter_verdict.
  rewrite decide_True by done. rewrite <- (Hm d). unfold matched. destruct (m !! sd_nr d) as [[|r rs]|]; done.
Qed.

Lemma foreign_verdict m1 m2 m mis act a f p d : new_filter m1 m mis act a = Ok f -> compile m2 f = Ok p ->
  sd_arch d <> Some a -> run p d = KillProcess.
Proof.
  intros Hf Hp Ha. apply map_err_ok in Hf, Hp. rewrite (filter_law _ _ _ _ f p Hf Hp). by apply verdict_foreign.
Qed.

Lemma clone3_represents : represents clone3_deny [always (SYS "clone3")].
Proof. apply (represents_always ∅ []); [apply represents_empty|]. by apply not_elem_of_nil. Qed.

(** The two filters together. *)
Lemma allow_verdict n1 n2 n3 n4 m t debug a f p f3 p3 d : target_arch = Ok a -> represents m t ->
  new_filter n1 m (mismatch_action debug) Allow a = Ok f -> compile n2 f = Ok p ->
  new_filter n3 clone3_deny Allow (Errno ENOSYS) a = Ok f3 -> compile n4 f3 = Ok p3 ->
  kernel_verdict [p; p3] d = allow_policy t debug d.
Proof.
  intros Ha Hm Hf Hp Hf3 Hp3. unfold target_arch in Ha. destruct target_cpu as [a'|] eqn:Et; [|done]. injection Ha as ->.
  unfold kernel_verdict, allow_policy. rewrite Et. cbn [fold_left]. destruct (decide (sd_arch d = Some a)) as [Ea|Ea].
  2:{ by rewrite (foreign_verdict _ _ _ _ _ _ _ _ _ Hf Hp Ea), (foreign_verdict _ _ _ _ _ _ _ _ _ Hf3 Hp3 Ea). }
  rewrite (main_verdict _ _ _ _ _ _ _ _ _ Hm Hf Hp Ea), (program_verdict _ _ _ _ _ _ _ _ Hf3 Hp3).
  rewrite (verdict_represents _ _ _ _ _ clone3_represents Ea). unfold denied at 2. cbn [existsb always]. rewrite orb_false_r, andb_true_r.
  rewrite (Z.eqb_sym (SYS "clone3")). by destruct (denied t d), (sd_nr d =? SYS "clone3"), debug.
Qed.

(** The end of [build_bridge_filters] and [build_connect_proxy_filters], and the
    installation. *)
Lemma pair_verdict n1 n2 n3 n4 n5 n6 (mk : Result Rules) t debug k0 k d : (forall m, mk = Ok m -> represents m t) ->
  ('(clone3_prog, main_prog) ← lift (
      a ← target_arch;
      allow ← mk;
      clone3_filter ← new_filter n1 clone3_deny Allow (Errno ENOSYS) a;
      clone3_prog ← compile n2 clone3_filter;
      filter ← new_filter n3 allow (mismatch_action debug) Allow a;
      main_prog ← compile n4 filter;
      Ok (clone3_prog, main_prog));
   _ ← apply_filter accepts n5 clone3_prog;
   apply_filter accepts n6 main_prog) k0 = (k, Ok tt) ->
  exists added, k = added ++ k0 /\ kernel_verdict added d = allow_policy t debug d.
Proof.
  intros Hmk H. apply M_bind_ok in H as ([p3 p] & k1 & H1 & H). apply lift_ok in H1 as [-> H1].
  apply M_bind_ok in H as (u & k2 & H2 & H). apply apply_filter_ok in H2 as ->. apply apply_filter_ok in H as ->.
  apply bind_ok in H1 as (a & Ha & H1). apply bind_ok in H1 as (m & Hm & H1). apply bind_ok in H1 as (f3 & Hf3 & H1).
  apply bind_ok in H1 as (q3 & Hq3 & H1). apply bind_ok in H1 as (f & Hf & H1). apply bind_ok in H1 as (q & Hq & H1).
  injection H1 as -> ->. exists [p; p3]. split; [done|]. eapply allow_verdict; [done|by apply Hmk|done..].
Qed.

Lemma supervisor_verdict debug k0 k d : NoDup (map fst supervisor_table) -> apply_supervisor_seccomp debug k0 = (k, Ok tt) ->
  exists added, k = added ++ k0 /\ kernel_verdict added d = allow_policy supervisor_table debug d.
Proof.
  intros Hn H. unfold apply_supervisor_seccomp in H.
  apply M_bind_ok in H as (a & k1 & Ha & H). apply lift_ok in Ha as [-> Ha].
  apply M_bind_ok in H as (m & k1 & Hm & H). apply lift_ok in Hm as [-> Hm].
  apply M_bind_ok in H as (f & k1 & Hf & H). apply lift_ok in Hf as [-> Hf].
  apply M_bind_ok in H as (p & k1 & Hp & H). apply lift_ok in Hp as [-> Hp].
  apply M_bind_ok in H as (f3 & k1 & Hf3 & H). apply lift_ok in Hf3 as [-> Hf3].
  apply M_bind_ok in H as (p3 & k1 & Hp3 & H). apply lift_ok in Hp3 as [-> Hp3].
  apply M_bind_ok in H as (u & k2 & H2 & H). apply apply_filter_ok in H2 as ->. apply apply_filter_ok in H as ->.
  exists [p; p3]. split; [done|]. eapply allow_verdict; [done| |done..]. by apply listed_represents, Hn; apply supervisor_listed.
Qed.

Lemma helper_verdict h debug k0 k d : NoDup (map fst (helper_table h)) -> apply_helper h debug k0 = (k, Ok tt) ->
  exists added, k = added ++ k0 /\ kernel_verdict added d = allow_policy (helper_table h) debug d.
Proof.
  intros Hn H. destruct h; cbn [apply_helper helper_table] in *.
  - eapply pair_verdict; [|exact H]. intros m Hm. by apply listed_represents, Hn; apply bridge_listed.
  - eapply pair_verdict; [|exact H]. intros m Hm. by apply listed_represents, Hn; apply connect_proxy_listed.
  - by apply supervisor_verdict.
Qed.

(** C16: the helper processes are confined to their allowlists.  When the
    installation succeeds, the verdict of the added filters is, for every call and
    all its arguments, the one of the process's table: a call that is not in the
    table kills the process (SIGSYS in debug mode), [clone3] fails with ENOSYS,
    [clone] only creates threads, [mprotect] does not make memory executable ([mmap] is
    allowed with any protection where the table has it), sockets have the listed
    families; earlier filters only make the verdict stricter. *)
Theorem helper_confined h debug k0 k d : NoDup (map fst (helper_table h)) ->
  apply_helper h debug k0 = (k, Ok tt) ->
  exists added, k = added ++ k0 /\ kernel_verdict added d = allow_policy (helper_table h) debug d /\
    rank (allow_policy (helper_table h) debug d) <= rank (kernel_verdict k d).
Proof.
  intros Hn H. destruct (helper_verdict h debug k0 k d Hn H) as (added & -> & E).
  exists added. split; [done|]. split; [done|]. rewrite <- E. apply verdict_app.
Qed.
End Helpers.

Lemma helper_confined_witness :
  let T := Seccomp.Reference.linux aarch64 in
  exists k, @apply_helper T Seccomp.Reference.seccompiler Seccomp.Reference.accepting BridgeProcess false [] = (k, Ok tt) /\
    @allow_policy T (@helper_table T BridgeProcess) false
      {| sd_arch := Some aarch64; sd_nr := 221; sd_args := [] |} = KillProcess /\
    rank KillProcess <= rank (@kernel_verdict Seccomp.Reference.seccompiler k
      {| sd_arch := Some aarch64; sd_nr := 221; sd_args := [] |}).
Proof.
  cbv zeta.
  set (r := @apply_helper (Seccomp.Reference.linux aarch64) Seccomp.Reference.seccompiler Seccomp.Reference.accepting BridgeProcess false []).
  exists (fst r). split; [by vm_compute|]. split; [by vm_compute|].
  destruct (@helper_confined (Seccomp.Reference.linux aarch64) Seccomp.Reference.seccompiler Seccomp.Reference.accepting
    Seccomp.Reference.laws BridgeProcess false [] (fst r) {| sd_arch := Some aarch64; sd_nr := 221; sd_args := [] |})
    as (added & _ & _ & H); [by_eval|by vm_compute|exact H].
Defined.
