(* ===== verification/Fds.v ===== *)
(** * Fds: the descriptors that a launch passes on ([platform/fd.rs])

    The descriptor table of the child between [fork] and [exec], and the two
    passes of [remap_fds], which moves the caller's descriptors to 3, 4, ... *)

From stdpp Require Import gmap.
From S2P Require Import Prelude.

Definition MAX_EXTRA_FDS : Z := 16.

(** The three fields of [Config] that the check reads. *)
Record StdioConfig : Type := { cfg_stdin : option Z; cfg_stdout : option Z; cfg_stderr : option Z }.

Fixpoint validate_loop (fds : list Z) (i : nat) (rest : list Z) (cfg : StdioConfig) : Result unit :=
  match rest with
  | [] => Ok tt
  | fd :: rest =>
    if fd <? 0 then Err (Validation "extra_fds[{i}]: negative FD {fd}")
    else if fd <=? 2 then
      Err (Validation "extra_fds[{i}]: FD {fd} is stdin/stdout/stderr (use cfg.stdin/stdout/stderr instead)")
    else if bool_decide (fd ∈ take i fds) then Err (Validation "extra_fds[{i}]: duplicate FD {fd}")
    else if bool_decide (Some fd ∈ [cfg_stdin cfg; cfg_stdout cfg; cfg_stderr cfg]) then
      Err (Validation "extra_fds[{i}]: FD {fd} overlaps with stdio config")
    else validate_loop fds (S i) rest cfg
  end.

Definition validate_extra_fds (fds : list Z) (cfg : StdioConfig) : Result unit :=
  if MAX_EXTRA_FDS <? len fds then Err (Validation "extra_fds: too many FDs ({}, max {MAX_EXTRA_FDS})")
  else validate_loop fds 0 fds cfg.

Section Remap.
Context {Desc : Type}.

(** An open file description and the close-on-exec flag of each descriptor. *)
Abbreviation Table := (gmap Z (Desc * bool)).

(** What the kernel decides: the descriptor that F_DUPFD_CLOEXEC returns for a
    lower bound, or that there is none, and whether [dup2] fails. *)
Record DupKernel : Type := {
  dupfd : Table -> Z -> option Z;
  dup2_fails : Table -> Z -> Z -> bool;
}.

(** The manual page of [fcntl]: an available number, not below the argument. *)
Definition dupfd_law (k : DupKernel) : Prop :=
  forall t low fd, dupfd k t low = Some fd -> low <= fd /\ t !! fd = None.

Context (k : DupKernel).

(** The system calls; [None] is the value -1. *)
Definition fcntl_dupfd_cloexec (fd low : Z) : ST Table unit (option Z) := fun t =>
  match t !! fd, dupfd k t low with
  | Some (d, _), Some high => (<[high := (d, true)]> t, Ok (Some high))
  | _, _ => (t, Ok None)
  end.
Definition close (fd : Z) : ST Table unit unit := fun t : Table => (delete fd t, Ok tt).
Definition dup2 (fd target : Z) : ST Table unit (option Z) := fun t =>
  match t !! fd with
  | Some (d, _) =>
    if dup2_fails k t fd target then (t, Ok None) else (<[target := (d, false)]> t, Ok (Some target))
  | None => (t, Ok None)
  end.
Definition fcntl_getfd (fd : Z) : ST Table unit (option Z) := fun t : Table =>
  (t, Ok (match (t !! fd : option (Desc * bool)) with Some (_, c) => Some (if c then 1 else 0) | None => None end)).
Definition fcntl_setfd (fd flags : Z) : ST Table unit (option Z) := fun t =>
  match t !! fd with
  | Some (d, _) => (<[fd := (d, Z.odd flags)]> t, Ok (Some 0))
  | None => (t, Ok None)
  end.

(** [last_os_error] of a failed call. *)
Definition check {A} (r : option A) : ST Table unit A :=
  match r with Some a => mret a | None => stop tt end.

Definition base : Z := 3.

(** Phase 1. *)
Fixpoint evacuate (ceiling : Z) (slots : list Z) : ST Table unit (list Z) :=
  match slots with
  | [] => mret []
  | slot :: slots =>
    slot ← (if (base <=? slot) && (slot <? ceiling) then
              r ← fcntl_dupfd_cloexec slot ceiling;
              high ← check r;
              _ ← close slot;
              mret high
            else mret slot);
    slots ← evacuate ceiling slots;
    mret (slot :: slots)
  end.

(** Phase 2; [i] is the index of the first slot. *)
Fixpoint place (i : Z) (slots : list Z) : ST Table unit unit :=
  match slots with
  | [] => mret tt
  | fd :: slots =>
    let target := base + i in
    _ ← (if negb (fd =? target) then
           r ← dup2 fd target; _ ← check r; close fd
         else mret tt);
    r ← fcntl_getfd target;
    flags ← check r;
    r ← fcntl_setfd target (Z.land flags (Z.lnot 1));
    _ ← check r;
    place (i + 1) slots
  end.

Definition remap_fds (fds : list Z) : ST Table unit unit :=
  slots ← evacuate (base + len fds) fds; place 0 slots.

(** ** Specification *)

(** Only the positions below [c] become inheritable. *)
Definition inert (c : Z) (t t' : Table) : Prop :=
  forall x d, t' !! x = Some (d, false) -> base <= x < c \/ t !! x = Some (d, false).

(** The kernel refused a call. *)
Definition refused : Prop :=
  (exists t low, dupfd k t low = None) \/ (exists t fd target, dup2_fails k t fd target = true).

(** The table after phase 1. *)
Record evacuated (c : Z) (slots : list Z) (t : Table) (slots' : list Z) (t' : Table) : Prop := {
  ev_nodup : NoDup slots';
  ev_range y : y ∈ slots' -> ~ base <= y < c;
  ev_stay x : x ∈ slots -> ~ base <= x < c -> x ∈ slots';
  ev_from y : y ∈ slots' -> y ∈ slots \/ t !! y = None;
  ev_frame x : x ∉ slots -> x ∉ slots' -> t' !! x = t !! x;
  ev_desc : Forall2 (fun fd y => exists d, fst <$> t !! fd = Some d /\ fst <$> t' !! y = Some d) slots slots';
}.

(** The table after phase 2. *)
Record placed (i c : Z) (slots : list Z) (t t' : Table) : Prop := {
  pl_target j fd d b : slots !! j = Some fd -> t !! fd = Some (d, b) -> t' !! (base + i + Z.of_nat j) = Some (d, false);
  pl_closed x : ~ base + i <= x < c -> x ∈ slots -> t' !! x = None;
  pl_frame x : ~ base + i <= x < c -> x ∉ slots -> t' !! x = t !! x;
}.

Lemma validate_loop_ok fds rest i cfg : drop i fds = rest -> validate_loop fds i rest cfg = Ok tt ->
  Forall (fun fd => base <= fd) rest /\ (NoDup (take i fds) -> NoDup fds).
Proof.
  revert i. induction rest as [|fd rest IH]; intros i Hd; simpl.
  - intros _. split; [done|]. rewrite <-(take_drop i fds) at 2. by rewrite Hd, app_nil_r.
  - repeat case_match; try done. intros Hv. bsplit. apply IH in Hv as [Hge Hnd].
    2:{ by rewrite <-(skipn_skipn 1), Hd. }
    split; [constructor; [unfold base; lia|done]|]. intros Ht. apply Hnd.
    rewrite (take_S_r _ _ fd).
    + apply list.NoDup_app. split_and!; [done| |apply NoDup_singleton]. intros x Hx Hs. apply list_elem_of_singleton in Hs as ->.
      done.
    + by rewrite <-(Nat.add_0_r i), <-lookup_drop, Hd.
Qed.

(** One iteration of phase 1 turns the slot [f] into [y]. *)
Record moved (c f : Z) (t t1 : Table) (y : Z) : Prop := {
  mv_same g : g <> f -> g <> y -> t1 !! g = t !! g;
  mv_stay : ~ base <= f < c -> y = f;
  mv_free : y = f \/ t !! y = None;
  mv_desc : exists d, fst <$> t !! f = Some d /\ fst <$> t1 !! y = Some d;
  mv_range : ~ base <= y < c;
}.

Lemma evacuate_cons c f slots t : dupfd_law k -> is_Some (t !! f) ->
  (exists t1 y, moved c f t t1 y /\
     evacuate c (f :: slots) t = match evacuate c slots t1 with
                                 | (t', Ok s) => (t', Ok (y :: s))
                                 | (t', Err e) => (t', Err e)
                                 end) \/
  evacuate c (f :: slots) t = (t, Err tt) /\ refused.
Proof.
  intros Hk [[d b] Hd]. simpl. unfold mbind, ST_bind, mret, ST_ret, fcntl_dupfd_cloexec, check, close.
  destruct ((base <=? f) && (f <? c)) eqn:Hr.
  - rewrite Hd. destruct (dupfd k t c) as [high|] eqn:Hh.
    + left. apply Hk in Hh as [Hlow Hfree]. exists (delete f (<[high := (d, true)]> t)), high. split.
      * split; [|lia|by right| |lia].
        -- intros g Hg Hy. by rewrite lookup_delete_ne, lookup_insert_ne.
        -- exists d. rewrite Hd, lookup_delete_ne, lookup_insert_eq by congruence. done.
      * cbn. unfold mret, ST_ret. by destruct (evacuate c slots (delete f (<[high := (d, true)]> t))) as [? []].
    + right. split; [done|]. left. by exists t, c.
  - left. exists t, f. split; [|by destruct (evacuate c slots t) as [? []]].
    split; [done|done|by left| |lia]. exists d. by rewrite Hd.
Qed.

Lemma evacuate_spec c slots t : dupfd_law k -> NoDup slots -> Forall (fun fd => is_Some (t !! fd)) slots ->
  match evacuate c slots t with
  | (t', Ok slots') => evacuated c slots t slots' t'
  | (_, Err _) => refused
  end.
Proof.
  intros Hk. revert t. induction slots as [|f slots IH]; intros t Hnd Hopen.
  { cbn. by split; [apply NoDup_nil_2|intros y Hy%elem_of_nil..| |constructor]. }
  apply list.NoDup_cons in Hnd as [Hf Hnd]. apply Forall_cons_1 in Hopen as [Hfo Hopen].
  destruct (evacuate_cons c f slots t Hk Hfo) as [(t1 & y & [Hsame Hst Hy Hyo Hyr] & ->)|[-> ?]]; [|done].
  assert (Hsl : forall g, g ∈ slots -> t1 !! g = t !! g).
  { intros g Hg. rewrite list.Forall_forall in Hopen. apply Hopen in Hg as Ho. apply Hsame; [by intros ->|].
    intros ->. destruct Hy as [->|E]; [done|]. rewrite E in Ho. by destruct Ho. }
  assert (Hys : y ∉ slots).
  { intros Hin. rewrite list.Forall_forall in Hopen. apply Hopen in Hin as Ho.
    destruct Hy as [->|E]; [done|]. rewrite E in Ho. by destruct Ho. }
  assert (Ho1 : Forall (fun fd => is_Some (t1 !! fd)) slots).
  { rewrite list.Forall_forall in *. intros g Hg. rewrite Hsl by done. by apply Hopen. }
  specialize (IH t1 Hnd Ho1).
  destruct (evacuate c slots t1) as [t' [slots'|]]; [|done]. destruct IH as [Hn Hr Hsy Hfr Hfm Hde].
  assert (Hys' : y ∉ slots').
  { intros Hin. apply Hfr in Hin as [|E]; [done|]. rewrite E in Hyo. by destruct Hyo as (? & _ & ?). }
  split.
  - by apply list.NoDup_cons.
  - intros z [->|Hz]%elem_of_cons; [done|by apply Hr].
  - intros x [->|Hx]%elem_of_cons Hxr; [rewrite (Hst Hxr); left|right; by apply Hsy].
  - intros z [->|Hz]%elem_of_cons; [destruct Hy as [->|]; [left; left|by right]|].
    destruct (decide (z = f)) as [->|Hzf]; [left; left|]. apply Hfr in Hz as Hz'. destruct Hz' as [?|E]; [left; by right|].
    right. rewrite <-Hsame; [done..|]. by intros ->.
  - intros x [Hxf Hxs]%not_elem_of_cons [Hxy Hxs']%not_elem_of_cons. rewrite Hfm by done. by apply Hsame.
  - constructor; [by rewrite (Hfm y)|]. eapply Forall2_same_length_lookup_2; [by eapply Forall2_length|].
    intros i g z Hg Hz. destruct (Forall2_lookup_lr _ _ _ _ _ _ Hde Hg Hz) as (d & E & ?). exists d.
    by rewrite <-Hsl by (by eapply list_elem_of_lookup_2).
Qed.

(** One iteration of phase 2. *)
Lemma place_cons i fd slots t d b : fd <> base + i -> t !! fd = Some (d, b) ->
  place i (fd :: slots) t = place (i + 1) slots (<[base + i := (d, false)]> (delete fd t)) \/
  place i (fd :: slots) t = (t, Err tt) /\ refused.
Proof.
  intros Hne Hd. cbn [place]. rewrite (proj2 (Z.eqb_neq _ _) Hne). cbn [negb]. unfold mbind, ST_bind, dup2. rewrite Hd.
  destruct (dup2_fails k t fd (base + i)) eqn:Hf.
  - right. split; [done|]. right. eauto.
  - left. cbn. unfold fcntl_getfd, fcntl_setfd, check. rewrite !lookup_delete_ne, !lookup_insert_eq by done. cbn.
    rewrite lookup_delete_ne, lookup_insert_eq by done. cbn. f_equal.
    rewrite delete_insert_ne, insert_insert_eq by done. done.
Qed.

Lemma place_spec i c slots t : base + i + len slots = c -> NoDup slots ->
  Forall (fun fd => is_Some (t !! fd) /\ ~ base + i <= fd < c) slots ->
  match place i slots t with (t', Ok _) => placed i c slots t t' | (_, Err _) => refused end.
Proof.
  revert i t. induction slots as [|fd slots IH]; intros i t Hc Hnd Hopen.
  { cbn. split; [done|by intros x _ Hx%elem_of_nil|done]. }
  apply list.NoDup_cons in Hnd as [Hf Hnd]. apply Forall_cons_1 in Hopen as [[[[d b] Hd] Hr] Hopen].
  rewrite len_cons in Hc. pose proof (len_nonneg slots).
  destruct (place_cons i fd slots t d b ltac:(lia) Hd) as [->|[-> ?]]; [|done].
  set (t1 := <[base + i := (d, false)]> (delete fd t)).
  assert (H1 : forall g, g <> fd -> g <> base + i -> t1 !! g = t !! g).
  { intros g Hg Hi. unfold t1. by rewrite lookup_insert_ne, lookup_delete_ne. }
  assert (Hsl : forall g, g ∈ slots -> t1 !! g = t !! g /\ ~ base + i <= g < c).
  { intros g Hg. rewrite list.Forall_forall in Hopen. destruct (Hopen _ Hg) as [_ ?]. split; [|done].
    apply H1; [by intros ->|lia]. }
  assert (Ho1 : Forall (fun fd => is_Some (t1 !! fd) /\ ~ base + (i + 1) <= fd < c) slots).
  { rewrite list.Forall_forall in *. intros g Hg. destruct (Hsl _ Hg) as [-> ?]. split; [by apply Hopen|lia]. }
  specialize (IH (i + 1) t1 ltac:(lia) Hnd Ho1). destruct (place (i + 1) slots t1) as [t' [[]|]]; [|done].
  destruct IH as [Ht Hcl Hfr]. split.
  - intros [|j] g d' b' Hg Hd'; simpl in Hg.
    + simplify_eq. replace (base + i + Z.of_nat 0) with (base + i) by lia.
      rewrite Hfr; [by apply lookup_insert_eq|lia|]. intros Hin. destruct (Hsl _ Hin). lia.
    + replace (base + i + Z.of_nat (S j)) with (base + (i + 1) + Z.of_nat j) by lia. eapply Ht; [done|].
      rewrite (proj1 (Hsl _ (list_elem_of_lookup_2 _ _ _ Hg))). done.
  - intros x Hx [->|Hin]%elem_of_cons; [|apply Hcl; [lia|done]].
    rewrite Hfr; [|lia|done]. unfold t1. rewrite lookup_insert_ne by lia. apply lookup_delete_eq.
  - intros x Hx [Hxf Hin]%not_elem_of_cons. rewrite Hfr; [|lia|done]. apply H1; [done|lia].
Qed.

(** Both phases make nothing inheritable but the targets, also when they fail. *)
Lemma inert_refl c t : inert c t t.
Proof. intros x d. by right. Qed.

Lemma inert_insert c t t' x d b : inert c t t' -> (b = false -> base <= x < c) -> inert c t (<[x := (d, b)]> t').
Proof.
  intros Hi Hb y e. destruct (decide (y = x)) as [->|Hne].
  - rewrite lookup_insert_eq. intros [= -> ->]. left. by apply Hb.
  - rewrite lookup_insert_ne by done. apply Hi.
Qed.

Lemma inert_delete c t t' x : inert c t t' -> inert c t (delete x t').
Proof. intros Hi y e [_ Hy]%lookup_delete_Some. by apply Hi. Qed.

Definition calm {A} (c : Z) (t : Table) (m : ST Table unit A) : Prop :=
  hoare (inert c t) m (fun _ => inert c t) (fun _ => inert c t).

Lemma calm_bind {A B} c t (m : ST Table unit A) (f : A -> ST Table unit B) :
  calm c t m -> (forall a, calm c t (f a)) -> calm c t (m ≫= f).
Proof. intros Hm Hf. eapply hoare_bind; [exact Hm|exact Hf]. Qed.

Lemma calm_ret {A} c t (a : A) : calm c t (mret a).
Proof. by apply hoare_ret. Qed.

Lemma calm_check {A} c t (r : option A) : calm c t (check r).
Proof. destruct r; [by apply hoare_ret|by apply hoare_stop]. Qed.

Lemma calm_dupfd c t fd low : calm c t (fcntl_dupfd_cloexec fd low).
Proof. intros s Hs. unfold fcntl_dupfd_cloexec. repeat case_match; simplify_eq; try done. by apply inert_insert. Qed.

Lemma calm_close c t fd : calm c t (close fd).
Proof. intros s Hs. by apply inert_delete. Qed.

Lemma calm_dup2 c t fd target : base <= target < c -> calm c t (dup2 fd target).
Proof. intros Ht s Hs. unfold dup2. repeat case_match; simplify_eq; try done. by apply inert_insert. Qed.

Lemma calm_getfd c t fd : calm c t (fcntl_getfd fd).
Proof. by intros s Hs. Qed.

Lemma calm_setfd c t fd flags : base <= fd < c -> calm c t (fcntl_setfd fd flags).
Proof. intros Ht s Hs. unfold fcntl_setfd. repeat case_match; simplify_eq; try done. by apply inert_insert. Qed.

Create HintDb calm.
#[local] Hint Resolve calm_bind calm_ret calm_check calm_dupfd calm_close calm_dup2 calm_getfd calm_setfd : calm.

Lemma evacuate_calm c t slots : calm c t (evacuate c slots).
Proof. induction slots; cbn [evacuate]; [|case_match]; eauto 10 with calm. Qed.

Lemma place_calm c t i slots : 0 <= i -> base + i + len slots = c -> calm c t (place i slots).
Proof.
  revert i. induction slots as [|fd slots IH]; intros i Hi Hc; cbn [place]; [apply calm_ret|].
  rewrite len_cons in Hc. pose proof (len_nonneg slots). assert (base <= base + i < c) by lia.
  specialize (IH (i + 1) ltac:(lia) ltac:(lia)). case_match; eauto 12 with calm.
Qed.

(** The two phases together. *)
Lemma evacuate_length c slots t t' slots' : evacuate c slots t = (t', Ok slots') -> length slots' = length slots.
Proof.
  intros E. assert (H : hoare (fun _ => True) (evacuate c slots) (fun l _ => length l = length slots) (fun _ _ => True)).
  { clear E. induction slots as [|f slots IH]; [by apply hoare_ret|]. cbn [evacuate].
    apply (hoare_bind _ _ (fun _ _ => True)); [|intros y; eapply hoare_bind; [exact IH|]].
    - apply hoare_true.
    - intros l. apply hoare_ret. intros _ Hl. simpl. by rewrite Hl. }
  specialize (H t I). by rewrite E in H.
Qed.

Lemma remap_calm t fds : calm (base + len fds) t (remap_fds fds).
Proof.
  intros s Hs. pose proof (evacuate_calm (base + len fds) t fds s Hs) as He. unfold remap_fds, mbind, ST_bind.
  destruct (evacuate (base + len fds) fds s) as [t1 [slots|]] eqn:E; [|done].
  apply evacuate_length in E. apply (place_calm (base + len fds) t 0 slots); [done|unfold len; lia|done].
Qed.

Lemma evacuated_open c fds t slots t1 : c = base + len fds -> evacuated c fds t slots t1 ->
  base + 0 + len slots = c /\ NoDup slots /\ Forall (fun fd => is_Some (t1 !! fd) /\ ~ base + 0 <= fd < c) slots.
Proof.
  intros -> [Hn Hr _ _ _ Hd]. apply Forall2_length in Hd as Hl. split_and!; [unfold len; lia|done|].
  apply list.Forall_forall. intros y Hy. split; [|rewrite Z.add_0_r; by apply Hr].
  apply list_elem_of_lookup in Hy as [n Hy]. destruct (Forall2_lookup_r _ _ _ _ _ Hd Hy) as (f & _ & d & _ & E).
  destruct (t1 !! y); done.
Qed.

Lemma evacuated_placed c fds t slots t1 t' : evacuated c fds t slots t1 -> placed 0 c slots t1 t' -> placed 0 c fds t t'.
Proof.
  intros [Hn Hr Hst Hf Hfr Hd] [Ht Hc Hx]. split.
  - intros j fd d b Hj Hfd. destruct (Forall2_lookup_l _ _ _ _ _ Hd Hj) as (y & Hy & d' & E1 & E2).
    rewrite Hfd in E1. simplify_eq/=. destruct (t1 !! y) as [[d1 b1]|] eqn:E; simplify_eq/=. by eapply Ht.
  - intros x Hxr Hin. apply Hc, Hst; [done|done|lia].
  - intros x Hxr Hin. destruct (decide (x ∈ slots)) as [Hs|Hs].
    + rewrite Hc by done. apply Hf in Hs as [?|E]; [done|by rewrite E].
    + rewrite Hx by done. by apply Hfr.
Qed.

(** Both phases on distinct open descriptors. *)
Lemma remap_fds_run fds t t' r : dupfd_law k -> NoDup fds -> Forall (fun fd => is_Some (t !! fd)) fds ->
  remap_fds fds t = (t', r) ->
  match r with Ok _ => placed 0 (base + len fds) fds t t' | Err _ => refused end /\ inert (base + len fds) t t'.
Proof.
  intros Hk Hnf Hopen Hrun. set (c := base + len fds) in *. split.
  - unfold remap_fds, mbind, ST_bind in Hrun. fold c in Hrun. pose proof (evacuate_spec c fds t Hk Hnf Hopen) as He.
    destruct (evacuate c fds t) as [t1 [slots|]]; [|by simplify_eq].
    destruct (evacuated_open c fds t slots t1 eq_refl He) as (Hl & Hn & Ho).
    pose proof (place_spec 0 c slots t1 Hl Hn Ho) as Hp. rewrite Hrun in Hp. destruct r as [[]|]; [|done].
    by eapply evacuated_placed.
  - pose proof (remap_calm t fds t (inert_refl _ t)) as Hc. rewrite Hrun in Hc. by destruct r.
Qed.

Lemma validate_extra_fds_ok fds cfg : validate_extra_fds fds cfg = Ok tt -> NoDup fds /\ Forall (fun fd => base <= fd) fds.
Proof.
  unfold validate_extra_fds. case_match; [done|]. intros [? Hn]%validate_loop_ok; [|done]. split; [|done].
  by apply Hn, NoDup_nil_2.
Qed.

(** C39: what a launched command inherits.  Take the caller's list, which has passed the check, followed by the
    launcher's own pipes, all open.  [remap_fds] fails only when the kernel refuses a call, and otherwise leaves
    exactly this table: the i-th descriptor at 3 + i and kept across [exec], whatever overlap there is between the
    sources and the targets; the other source numbers closed; every other descriptor untouched.  Also when it
    fails, nothing outside the targets has become inheritable. *)
Theorem remap_fds_spec extra own cfg t t' r :
  let fds := extra ++ own in
  dupfd_law k -> validate_extra_fds extra cfg = Ok tt -> NoDup own -> (forall fd, fd ∈ own -> fd ∉ extra) ->
  Forall (fun fd => is_Some (t !! fd)) fds -> remap_fds fds t = (t', r) ->
  match r with
  | Ok _ => placed 0 (base + len fds) fds t t'
  | Err _ => refused
  end /\ inert (base + len fds) t t'.
Proof.
  intros fds Hk Hv Hown Hdis Hopen Hrun. apply remap_fds_run; try done. apply validate_extra_fds_ok in Hv as [Hv _].
  apply list.NoDup_app. split_and!; [done| |done]. intros fd He Ho. by apply (Hdis fd).
Qed.

End Remap.
Arguments DupKernel : clear implicits.

(** ** Examples *)

(** The lowest available number, with room for 64 above the bound; [dup2] does not fail. *)
Definition demo_kernel : DupKernel string := {|
  dupfd t low := head (filter (fun fd => t !! fd = None) (seqZ low 64));
  dup2_fails _ _ _ := false;
|}.

(** A swap: the descriptors 4 and 3, and a pipe at 9. *)
Definition demo_table : gmap Z (string * bool) :=
  list_to_map [(0, ("tty", false)); (3, ("data", true)); (4, ("log", true)); (9, ("audit", true))]%string.
Definition demo_stdio : StdioConfig := {| cfg_stdin := None; cfg_stdout := Some 1; cfg_stderr := None |}.

Lemma demo_kernel_law : dupfd_law demo_kernel.
Proof.
  intros t low fd Hh. simpl in Hh. apply head_Some_elem_of, list_elem_of_filter in Hh as [Hn Hin].
  apply elem_of_seqZ in Hin. split; [lia|done].
Qed.

Definition demo_after : gmap Z (string * bool) := (remap_fds demo_kernel [4; 3; 9] demo_table).1.

Lemma remap_fds_spec_witness :
  remap_fds demo_kernel [4; 3; 9] demo_table = (demo_after, Ok tt) /\
  demo_after !! 3 = Some ("log"%string, false) /\ demo_after !! 4 = Some ("data"%string, false) /\
  demo_after !! 5 = Some ("audit"%string, false) /\ demo_after !! 9 = None.
Proof.
  assert (E : remap_fds demo_kernel [4; 3; 9] demo_table = (demo_after, Ok tt)) by (vm_compute; reflexivity).
  split; [exact E|].
  destruct (remap_fds_spec demo_kernel [4; 3] [9] demo_stdio demo_table demo_after (Ok tt) demo_kernel_law) as [[Ht Hc _] _].
  - reflexivity.
  - apply NoDup_singleton.
  - intros fd ->%list_elem_of_singleton. by_eval.
  - repeat constructor; by eexists.
  - exact E.
  - split_and!.
    + by apply (Ht 0%nat 4 _ true).
    + by apply (Ht 1%nat 3 _ true).
    + by apply (Ht 2%nat 9 _ true).
    + apply Hc; by_eval.
Defined.
