(* ===== verification/Cgroup.v ===== *)
(** * Resource limits by cgroups

    [cgroup.rs]: discovery of the launcher's own cgroup, delegation of
    controllers to its children, and the cgroup of a sandbox from its creation to
    its removal.  The cgroup file system is a state; a [CgKernel] decides which
    calls fail and what files are read. *)
From stdpp Require Import gmap.
From S2P Require Import Prelude Text Paths Validate.

(** ** The cgroup file system *)

(** A cgroup: its processes, the controllers of its children, and what was last written to its other files. *)
Record Group : Type := { procs : list Z; subtree : list bytes; knobs : gmap bytes bytes }.

(** All cgroups by path, and the processes killed so far. *)
Record Cgroups : Type := { groups : gmap bytes Group; killed : list Z }.

Definition EBUSY : Z := 16.
Definition ESRCH : Z := 3.
Definition EEXIST : Z := 17.

(** Which calls fail, with the error number, and what is read. *)
Record CgKernel : Type := {
  mkdir_err : Cgroups -> bytes -> option Z;
  rmdir_ok : Cgroups -> bytes -> bool;
  write_err : Cgroups -> bytes -> bytes -> bytes -> option Z;
  read_file : Cgroups -> bytes -> bytes -> option bytes;
  read_dir : Cgroups -> bytes -> option (list (bytes * bool));
  is_dir : Cgroups -> bytes -> bool;
  self_cgroup : option bytes;
}.

Definition empty_group : Group := {| procs := []; subtree := []; knobs := ∅ |}.

Definition leave (pid : Z) (g : Group) : Group :=
  {| procs := List.filter (fun p => negb (p =? pid)) (procs g); subtree := subtree g; knobs := knobs g |}.

Definition kill_pid (pid : Z) (s : Cgroups) : Cgroups :=
  {| groups := leave pid <$> groups s; killed := pid :: killed s |}.

(** The controllers that a text such as [+memory +pids] enables. *)
Definition enables (text : bytes) : list bytes := omap (strip_prefix (bs "+")) (split_whitespace text).

(** What the kernel does when [text] is written to a file of [dir]. *)
Definition write_effect (dir file text : bytes) (s : Cgroups) : Cgroups :=
  if decide (file = bs "cgroup.kill") then
    match (groups s !! dir : option Group) with
    | Some g => foldr kill_pid s (procs g)
    | None => s
    end
  else if decide (file = bs "cgroup.procs") then
    match parse_i32 text with
    | Some pid =>
      {| groups := alter (fun g => {| procs := pid :: procs g; subtree := subtree g; knobs := knobs g |}) dir
                     (leave pid <$> groups s);
         killed := killed s |}
    | None => s
    end
  else if decide (file = bs "cgroup.subtree_control") then
    {| groups := alter (fun g => {| procs := procs g; subtree := subtree g ++ enables text; knobs := knobs g |}) dir
                   (groups s);
       killed := killed s |}
  else
    {| groups := alter (fun g => {| procs := procs g; subtree := subtree g; knobs := <[file := text]> (knobs g) |}) dir
                   (groups s);
       killed := killed s |}.

Section Cgroup.
Context (k : CgKernel).

Abbreviation CG := (ST Cgroups Error).

(** [fs::write], [fs::create_dir] and [fs::remove_dir], with the error number. *)
Definition cg_write (dir file text : bytes) : CG (option Z) := fun s =>
  match write_err k s dir file text with
  | Some e => (s, Ok (Some e))
  | None => (write_effect dir file text s, Ok None)
  end.

Definition create_dir (dir : bytes) : CG (option Z) := fun s =>
  match (groups s !! dir : option Group), mkdir_err k s dir with
  | Some _, _ => (s, Ok (Some EEXIST))
  | None, Some e => (s, Ok (Some e))
  | None, None => ({| groups := <[dir := empty_group]> (groups s); killed := killed s |}, Ok None)
  end.

Definition remove_dir (dir : bytes) : CG bool := fun s =>
  match (groups s !! dir : option Group) with
  | Some g => if bool_decide (procs g = []) && rmdir_ok k s dir
              then ({| groups := delete dir (groups s); killed := killed s |}, Ok true) else (s, Ok false)
  | None => (s, Ok false)
  end.

(** [fs::read_to_string]. *)
Definition read_to_string (s : Cgroups) (dir file : bytes) : option bytes :=
  match read_file k s dir file with
  | Some data => if Utf8.valid data then Some data else None
  | None => None
  end.
Definition cg_read (dir file : bytes) : CG (option bytes) := fun s => (s, Ok (read_to_string s dir file)).

(** ** Limits *)

Definition CGROUP_PREFIX : bytes := bs "arapuca-".
Definition LEAF_NAME : bytes := bs "leaf".
Definition NEEDED_CONTROLLERS : list bytes := map bs ["memory"; "pids"; "cpu"]%string.
Definition DESTROY_RETRIES : nat := 3.
Definition CPU_PERIOD : Z := 100000.

Record CgroupLimits : Type := {
  memory_max_mb : Z;
  pids_max : Z;
  cpu_max_pct : Z;
  pids_overhead : Z;
}.

Definition has_limits (l : CgroupLimits) : bool := (0 <? memory_max_mb l) || (0 <? pids_max l) || (0 <? cpu_max_pct l).

(** [CgroupLimits::validate]: the fields are unsigned. *)
Definition limits_validate (l : CgroupLimits) : Result unit := Ok tt.

Record CgroupManager : Type := { base_path : bytes; controllers : list bytes }.

Definition has_controller (mgr : CgroupManager) (name : string) : bool :=
  existsb (fun c => bool_decide (c = bs name)) (controllers mgr).

Record Status : Type := {
  swap_disabled : bool;
  memory_applied : bool;
  pids_applied : bool;
  cpu_applied : bool;
  degraded : list bytes;
}.

Definition write_cgroup_file (dir : bytes) (name : string) (value : bytes) : CG unit :=
  r ← cg_write dir (bs name) value;
  match r with None => mret tt | Some _ => stop (Cgroup "{path}: {e}") end.

Definition write_memory (mgr : CgroupManager) (cg_path : bytes) (l : CgroupLimits) (status : Status) : CG Status :=
  if 0 <? memory_max_mb l then
    if has_controller mgr "memory" then
      let mem_max := memory_max_mb l * (1024 * 1024) in
      if 18446744073709551615 <? mem_max then stop (Cgroup "memory_max_mb overflow")
      else
        _ ← write_cgroup_file cg_path "memory.max" (dec mem_max);
        let mem_high := mem_max / 10 * 9 in
        _ ← write_cgroup_file cg_path "memory.high" (dec mem_high);
        r ← cg_write cg_path (bs "memory.swap.max") (bs "0");
        mret {| swap_disabled := match r with None => swap_disabled status | Some _ => false end;
                memory_applied := true; pids_applied := pids_applied status; cpu_applied := cpu_applied status;
                degraded := degraded status |}
    else mret {| swap_disabled := swap_disabled status; memory_applied := memory_applied status;
                 pids_applied := pids_applied status; cpu_applied := cpu_applied status;
                 degraded := degraded status ++ [bs "memory"] |}
  else mret status.

Definition write_pids (mgr : CgroupManager) (cg_path : bytes) (l : CgroupLimits) (status : Status) : CG Status :=
  if 0 <? pids_max l then
    if has_controller mgr "pids" then
      let effective_pids := Z.min (pids_max l + pids_overhead l) 4294967295 in
      _ ← write_cgroup_file cg_path "pids.max" (dec effective_pids);
      mret {| swap_disabled := swap_disabled status; memory_applied := memory_applied status; pids_applied := true;
              cpu_applied := cpu_applied status; degraded := degraded status |}
    else mret {| swap_disabled := swap_disabled status; memory_applied := memory_applied status;
                 pids_applied := pids_applied status; cpu_applied := cpu_applied status;
                 degraded := degraded status ++ [bs "pids"] |}
  else mret status.

Definition write_cpu (mgr : CgroupManager) (cg_path : bytes) (l : CgroupLimits) (status : Status) : CG Status :=
  if 0 <? cpu_max_pct l then
    if has_controller mgr "cpu" then
      let quota := cpu_max_pct l * CPU_PERIOD / 100 in
      _ ← write_cgroup_file cg_path "cpu.max" (dec quota ++ bs " " ++ dec CPU_PERIOD);
      mret {| swap_disabled := swap_disabled status; memory_applied := memory_applied status;
              pids_applied := pids_applied status; cpu_applied := true; degraded := degraded status |}
    else mret {| swap_disabled := swap_disabled status; memory_applied := memory_applied status;
                 pids_applied := pids_applied status; cpu_applied := cpu_applied status;
                 degraded := degraded status ++ [bs "cpu"] |}
  else mret status.

Definition write_controller_files (mgr : CgroupManager) (cg_path : bytes) (l : CgroupLimits) : CG Status :=
  status ← write_memory mgr cg_path l
    {| swap_disabled := true; memory_applied := false; pids_applied := false; cpu_applied := false; degraded := [] |};
  status ← write_pids mgr cg_path l status;
  write_cpu mgr cg_path l status.

(** ** The cgroup of a task *)

Record CgroupCreateResult : Type := { path : option bytes; status : Status }.

Definition create (mgr : CgroupManager) (task_id : bytes) (l : CgroupLimits) : CG CgroupCreateResult :=
  clean_id ← (fun s => (s, sanitize_task_id task_id));
  let cg_path := push (base_path mgr) (CGROUP_PREFIX ++ clean_id) in
  r ← create_dir cg_path;
  match r with
  | Some _ => stop (Cgroup "mkdir {path}: {e}")
  | None =>
    fun s =>
      match write_controller_files mgr cg_path l s with
      | (s, Ok status) =>
        let any_applied := memory_applied status || pids_applied status || cpu_applied status in
        if any_applied then (s, Ok {| path := Some cg_path; status := status |})
        else ((remove_dir cg_path s).1, Ok {| path := None; status := status |})
      | (s, Err e) => ((remove_dir cg_path s).1, Err e)
      end
  end.

Definition add_pid (cg_path : bytes) (pid : Z) : CG unit :=
  r ← cg_write cg_path (bs "cgroup.procs") (dec pid);
  match r with None => mret tt | Some _ => stop (Cgroup "write {path}: {e}") end.

Fixpoint kill_lines (l : list bytes) : CG unit :=
  match l with
  | [] => mret tt
  | line :: l =>
    _ ← match parse_i32 (trim line) with
        | Some pid => if 0 <? pid then modify (kill_pid pid) else mret tt
        | None => mret tt
        end;
    kill_lines l
  end.

Definition kill_procs (cg_path : bytes) : CG unit :=
  data ← cg_read cg_path (bs "cgroup.procs");
  match data with Some data => kill_lines (lines data) | None => mret tt end.

Fixpoint rmdir_retry (n : nat) (cg_path : bytes) : CG unit :=
  match n with
  | O => mret tt
  | S n => ok ← remove_dir cg_path; if (ok : bool) then mret tt else rmdir_retry n cg_path
  end.

Definition kill_all (cg_path : bytes) : CG unit :=
  r ← cg_write cg_path (bs "cgroup.kill") (bs "1");
  match r with Some _ => kill_procs cg_path | None => mret tt end.

Definition destroy (cg_path : bytes) : CG unit :=
  _ ← kill_all cg_path;
  rmdir_retry DESTROY_RETRIES cg_path.

(** ** Telemetry *)

Fixpoint oom_lines (l : list bytes) : Z :=
  match l with
  | [] => 0
  | line :: l =>
    match strip_prefix (bs "oom_kill ") line with
    | Some rest => default 0 (parse_u32 (trim rest))
    | None => oom_lines l
    end
  end.

Definition read_oom_events (cg_path : bytes) (s : Cgroups) : Z :=
  match read_to_string s cg_path (bs "memory.events") with Some data => oom_lines (lines data) | None => 0 end.

Record ResourceUsage : Type := {
  memory_current_bytes : Z;
  memory_peak_bytes : Z;
  cpu_usage_usec : Z;
  pid_count : Z;
  io_read_bytes : Z;
  io_write_bytes : Z;
}.

Definition read_i64_file (s : Cgroups) (dir : bytes) (name : string) : option Z :=
  data ← read_to_string s dir (bs name); parse_i64 (trim data).

Fixpoint usage_line (l : list bytes) : Z :=
  match l with
  | [] => 0
  | line :: l =>
    match strip_prefix (bs "usage_usec ") line with
    | Some rest => default 0 (parse_i64 (trim rest))
    | None => usage_line l
    end
  end.

(** [+=] on [i64] without overflow checks. *)
Definition i64_add (a b : Z) : Z := wrap 64 (a + b + 2 ^ 63) - 2 ^ 63.

Definition io_field (acc : Z * Z) (field : bytes) : Z * Z :=
  match strip_prefix (bs "rbytes=") field with
  | Some val => match parse_i64 val with Some v => (i64_add acc.1 v, acc.2) | None => acc end
  | None =>
    match strip_prefix (bs "wbytes=") field with
    | Some val => match parse_i64 val with Some v => (acc.1, i64_add acc.2 v) | None => acc end
    | None => acc
    end
  end.

Definition io_stat (data : bytes) : Z * Z :=
  fold_left (fun acc line => fold_left io_field (split_whitespace line) acc) (lines data) (0, 0).

(** The CPU time in microseconds; the code divides it by a million. *)
Definition read_stats (cg_path : bytes) (s : Cgroups) : ResourceUsage :=
  let io := match read_to_string s cg_path (bs "io.stat") with Some data => io_stat data | None => (0, 0) end in
  {| memory_current_bytes := default 0 (read_i64_file s cg_path "memory.current");
     memory_peak_bytes := default 0 (read_i64_file s cg_path "memory.peak");
     cpu_usage_usec := match read_to_string s cg_path (bs "cpu.stat") with Some data => usage_line (lines data) | None => 0 end;
     pid_count := default 0 (read_i64_file s cg_path "pids.current");
     io_read_bytes := io.1; io_write_bytes := io.2 |}.

(** ** Stale cgroups *)

Definition clean_entry (mgr : CgroupManager) (entry : bytes * bool) : CG unit :=
  let '(name, dir) := entry in
  let name_str := Utf8.lossy name in
  let cg_path := push (base_path mgr) name in
  if negb dir then mret tt
  else if decide (name_str = LEAF_NAME) then
    procs ← cg_read cg_path (bs "cgroup.procs");
    if decide (trim (default [] procs) = []) then _ ← remove_dir cg_path; mret tt else mret tt
  else if negb (starts_with CGROUP_PREFIX name_str) then mret tt
  else
    _ ← kill_all cg_path;
    _ ← remove_dir cg_path;
    mret tt.

Fixpoint clean_entries (mgr : CgroupManager) (l : list (bytes * bool)) : CG unit :=
  match l with
  | [] => mret tt
  | e :: l => _ ← clean_entry mgr e; clean_entries mgr l
  end.

Definition cleanup_stale (mgr : CgroupManager) : CG unit :=
  entries ← get (fun s => read_dir k s (base_path mgr));
  match entries with Some l => clean_entries mgr l | None => mret tt end.

(** ** Discovery *)

Definition trim_start_slashes (s : bytes) : bytes := drop_while (Z.eqb slash) s.

(** [while full_path.file_name() == "leaf" { full_path.pop(); }]. *)
Fixpoint strip_leaf (fuel : nat) (p : bytes) : bytes :=
  match fuel with
  | O => p
  | S fuel =>
    if decide (file_name p = Some LEAF_NAME)
    then match parent p with Some q => strip_leaf fuel q | None => p end
    else p
  end.

Fixpoint discover_lines (l : list bytes) : CG bytes :=
  match l with
  | [] => stop (Cgroup "no cgroups v2 entry in /proc/self/cgroup")
  | line :: l =>
    if negb (Utf8.valid line) then stop (Cgroup "read /proc/self/cgroup: {e}")
    else
      match strip_prefix (bs "0::") line with
      | Some rel_path =>
        let full_path := push (bs "/sys/fs/cgroup") (trim_start_slashes rel_path) in
        let full_path := strip_leaf (length full_path) full_path in
        dir ← get (fun s => is_dir k s full_path);
        if negb (dir : bool) then stop (Cgroup "cgroup path {path} is not a directory") else mret full_path
      | None => discover_lines l
      end
  end.

Definition discover_cgroup_path : CG bytes :=
  match self_cgroup k with
  | None => stop (Cgroup "open /proc/self/cgroup: {e}")
  | Some text => discover_lines (lines text)
  end.

(** ** Delegation *)

Definition read_cgroup_list (dir : bytes) (file : string) : CG (list bytes) :=
  data ← cg_read dir (bs file);
  match data with
  | Some data => mret (split_whitespace data)
  | None => stop (Cgroup "read {path}: {e}")
  end.

(** [r.unwrap_or_default()]. *)
Definition or_default {A} (m : CG (list A)) : CG (list A) := fun s =>
  match m s with (s, Ok l) => (s, Ok l) | (s, Err _) => (s, Ok []) end.

Fixpoint move_pids (leaf_path : bytes) (pids : list bytes) : CG unit :=
  match pids with
  | [] => mret tt
  | pid :: pids => _ ← cg_write leaf_path (bs "cgroup.procs") pid; move_pids leaf_path pids
  end.

Definition pid_lines (data : bytes) : list bytes :=
  List.filter (fun l => negb (bool_decide (l = []))) (map trim (lines data)).

Fixpoint drain (attempts : nat) (base_path leaf_path : bytes) : CG unit :=
  match attempts with
  | O => mret tt
  | S n =>
    data ← cg_read base_path (bs "cgroup.procs");
    let pids := pid_lines (default [] data) in
    if decide (pids = []) then mret tt
    else
      _ ← move_pids leaf_path pids;
      drain n base_path leaf_path
  end.

Definition MAX_DRAIN_ATTEMPTS : nat := 3.

Fixpoint enable_each (base_path : bytes) (missing : list bytes) (enabled : Z) : CG Z :=
  match missing with
  | [] => mret enabled
  | c :: missing =>
    r ← cg_write base_path (bs "cgroup.subtree_control") (bs "+" ++ c);
    enable_each base_path missing (match r with None => enabled + 1 | Some _ => enabled end)
  end.

Definition leaf_dance (base_path batch : bytes) : CG unit :=
  let leaf_path := push base_path LEAF_NAME in
  r ← create_dir leaf_path;
  _ ← match r with
      | Some e => if e =? EEXIST then mret tt else stop (Cgroup "mkdir {path}: {e}")
      | None => mret tt
      end;
  _ ← drain MAX_DRAIN_ATTEMPTS base_path leaf_path;
  r ← cg_write base_path (bs "cgroup.subtree_control") batch;
  match r with None => mret tt | Some _ => stop (Cgroup "enable subtree_control: {retry_err}") end.

Definition enable_subtree_control (base_path : bytes) (available : list bytes) : CG unit :=
  let filtered := List.filter (fun c => bool_decide (c ∈ NEEDED_CONTROLLERS)) available in
  if decide (filtered = []) then mret tt
  else
    current ← or_default (read_cgroup_list base_path "cgroup.subtree_control");
    let missing := List.filter (fun c => negb (bool_decide (c ∈ current))) filtered in
    if decide (missing = []) then mret tt
    else
      let batch := join (bs " ") (map (fun c => bs "+" ++ c) missing) in
      r ← cg_write base_path (bs "cgroup.subtree_control") batch;
      match r with
      | None => mret tt
      | Some e =>
        if e =? EBUSY then leaf_dance base_path batch
        else
          enabled ← enable_each base_path missing 0;
          if enabled =? 0 then stop (Cgroup "per-controller fallback: no controllers enabled") else mret tt
      end.

(** [CgroupManager::new]. *)
Definition new : CG (option CgroupManager) := fun s =>
  match discover_cgroup_path s with
  | (s, Err _) => (s, Ok None)
  | (s, Ok base_path) =>
    match read_cgroup_list base_path "cgroup.controllers" s with
    | (s, Err _) => (s, Ok None)
    | (s, Ok []) => (s, Ok None)
    | (s, Ok available) =>
      let s := (enable_subtree_control base_path available s).1 in
      match or_default (read_cgroup_list base_path "cgroup.subtree_control") s with
      | (s, Ok ((_ :: _) as controllers)) =>
        let mgr := {| base_path := base_path; controllers := controllers |} in
        ((cleanup_stale mgr s).1, Ok (Some mgr))
      | (s, _) => (s, Ok None)
      end
    end
  end.
End Cgroup.

(** ** Creation *)

Section Create.
Context (k : CgKernel) (mgr : CgroupManager) (p : bytes) (s0 : Cgroups).

(** The state in which only the group of [p] differs from [s0]. *)
Definition with_group (g : Group) : Cgroups := {| groups := <[p := g]> (groups s0); killed := killed s0 |}.

Definition knob (name : string) (v : bytes) (g : Group) : Group :=
  {| procs := procs g; subtree := subtree g; knobs := <[bs name := v]> (knobs g) |}.

Definition ordinary (name : string) : Prop :=
  bs name <> bs "cgroup.kill" /\ bs name <> bs "cgroup.procs" /\ bs name <> bs "cgroup.subtree_control".

Lemma write_ordinary name v g : ordinary name -> write_effect p (bs name) v (with_group g) = with_group (knob name v g).
Proof.
  intros (H1 & H2 & H3). unfold write_effect. rewrite !decide_False by done. unfold with_group. cbn.
  by rewrite alter_insert_eq.
Qed.

(** [m] starts with the group [g] and changes nothing but the files of that group, in the relation [Q] if it
    succeeds. *)
Definition ends {A} (m : ST Cgroups Error A) (g : Group) (Q : A -> Group -> Prop) : Prop :=
  exists g' r, m (with_group g) = (with_group g', r) /\ procs g' = procs g /\ match r with Ok a => Q a g' | Err _ => True end.

Lemma ends_bind {A B} (m : ST Cgroups Error A) (f : A -> ST Cgroups Error B) g R Q :
  ends m g R -> (forall a g', R a g' -> ends (f a) g' Q) -> ends (m ≫= f) g Q.
Proof.
  intros (g1 & r & Hm & Hp & Hr) Hf. unfold ends, mbind, ST_bind. rewrite Hm. destruct r as [a|e]; [|by eexists _, _].
  destruct (Hf a g1 Hr) as (g2 & r2 & Hf2 & Hp2 & Hr2). exists g2, r2. by rewrite Hp2, Hp.
Qed.

Lemma ends_ret {A} (a : A) g (Q : A -> Group -> Prop) : Q a g -> ends (mret a) g Q.
Proof. intros HQ. by exists g, (Ok a). Qed.

Lemma ends_stop {A} e g (Q : A -> Group -> Prop) : ends (stop e) g Q.
Proof. by exists g, (Err e). Qed.

Lemma knob_eq name v g : knobs (knob name v g) !! bs name = Some v.
Proof. apply lookup_insert_eq. Qed.

Lemma knob_ne name name' v g : bs name <> bs name' -> knobs (knob name v g) !! bs name' = knobs g !! bs name'.
Proof. intros H. by apply lookup_insert_ne. Qed.

Lemma ends_then {A} name v g (f : unit -> ST Cgroups Error A) Q : ordinary name -> ends (f tt) (knob name v g) Q ->
  ends (write_cgroup_file k p name v ≫= f) g Q.
Proof.
  intros Hn HQ. apply (ends_bind _ _ _ (fun _ g' => g' = knob name v g)); [|by intros [] g' ->].
  unfold ends, write_cgroup_file, mbind, ST_bind, cg_write.
  destruct (write_err k _ _ _ _); [by eexists _, _|]. rewrite write_ordinary by done. by eexists _, _.
Qed.

Lemma ends_try name v g (Q : option Z -> Group -> Prop) : ordinary name -> Q None (knob name v g) ->
  (forall e, Q (Some e) g) -> ends (cg_write k p (bs name) v) g Q.
Proof.
  intros Hn HQ He. unfold ends, cg_write. destruct (write_err k _ _ _ _); [by eexists _, _|].
  rewrite write_ordinary by done. by eexists _, _.
Qed.

Ltac read_knobs := repeat first [rewrite knob_eq | rewrite knob_ne by done].

Definition wants_memory (l : CgroupLimits) : bool := (0 <? memory_max_mb l) && has_controller mgr "memory".
Definition wants_pids (l : CgroupLimits) : bool := (0 <? pids_max l) && has_controller mgr "pids".
Definition wants_cpu (l : CgroupLimits) : bool := (0 <? cpu_max_pct l) && has_controller mgr "cpu".

Definition lacking (b : bool) (name : string) : list bytes := if b then [bs name] else [].

Definition memory_set (l : CgroupLimits) (g : Group) : Prop :=
  memory_max_mb l * 1048576 < 2 ^ 64 /\ knobs g !! bs "memory.max" = Some (dec (memory_max_mb l * 1048576)) /\
  knobs g !! bs "memory.high" = Some (dec (memory_max_mb l * 1048576 / 10 * 9)).

Lemma write_memory_ends l st g : swap_disabled st = true ->
  ends (write_memory k mgr p l st) g (fun st' g' =>
    memory_applied st' = memory_applied st || wants_memory l /\ pids_applied st' = pids_applied st /\
    cpu_applied st' = cpu_applied st /\
    degraded st' = degraded st ++ lacking ((0 <? memory_max_mb l) && negb (has_controller mgr "memory")) "memory" /\
    (wants_memory l = true -> memory_set l g' /\
       (swap_disabled st' = true -> knobs g' !! bs "memory.swap.max" = Some (bs "0")))).
Proof.
  intros Hs. unfold write_memory, wants_memory, lacking. destruct (0 <? memory_max_mb l); cbn [andb].
  2:{ apply ends_ret. rewrite orb_false_r, app_nil_r. naive_solver. }
  destruct (has_controller mgr "memory"); cbn [negb].
  2:{ apply ends_ret. cbn. rewrite orb_false_r. naive_solver. }
  destruct (Z.ltb_spec 18446744073709551615 (memory_max_mb l * (1024 * 1024))) as [|Hlt]; [apply ends_stop|].
  apply ends_then; [by repeat split|].
  apply ends_then; [by repeat split|].
  eapply (ends_bind _ _ _ (fun r g' => memory_set l g' /\
    (r = None -> knobs g' !! bs "memory.swap.max" = Some (bs "0")))).
  - apply ends_try; [by repeat split|split; [|by rewrite knob_eq]|intros e; split; [|done]]; unfold memory_set;
      (split; [lia|]); by read_knobs.
  - intros r g3 [Hm Hr]. apply ends_ret. cbn. rewrite app_nil_r, orb_true_r. split_and!; try done. intros _. split; [done|].
    destruct r; [done|]. intros _. by apply Hr.
Qed.

Lemma write_pids_ends l st g : ends (write_pids k mgr p l st) g (fun st' g' =>
  memory_applied st' = memory_applied st /\ pids_applied st' = pids_applied st || wants_pids l /\
  cpu_applied st' = cpu_applied st /\ swap_disabled st' = swap_disabled st /\
  degraded st' = degraded st ++ lacking ((0 <? pids_max l) && negb (has_controller mgr "pids")) "pids" /\
  g' = if wants_pids l then knob "pids.max" (dec (Z.min (pids_max l + pids_overhead l) 4294967295)) g else g).
Proof.
  unfold write_pids, wants_pids, lacking. destruct (0 <? pids_max l); cbn [andb].
  2:{ apply ends_ret. rewrite orb_false_r, app_nil_r. naive_solver. }
  destruct (has_controller mgr "pids"); cbn [negb].
  2:{ apply ends_ret. cbn. rewrite orb_false_r. naive_solver. }
  apply ends_then; [by repeat split|].
  apply ends_ret. cbn. rewrite app_nil_r, orb_true_r. naive_solver.
Qed.

Lemma write_cpu_ends l st g : ends (write_cpu k mgr p l st) g (fun st' g' =>
  memory_applied st' = memory_applied st /\ pids_applied st' = pids_applied st /\
  cpu_applied st' = cpu_applied st || wants_cpu l /\ swap_disabled st' = swap_disabled st /\
  degraded st' = degraded st ++ lacking ((0 <? cpu_max_pct l) && negb (has_controller mgr "cpu")) "cpu" /\
  g' = if wants_cpu l then knob "cpu.max" (dec (cpu_max_pct l * 1000) ++ bs " 100000") g else g).
Proof.
  unfold write_cpu, wants_cpu, lacking. destruct (0 <? cpu_max_pct l); cbn [andb].
  2:{ apply ends_ret. rewrite orb_false_r, app_nil_r. naive_solver. }
  destruct (has_controller mgr "cpu"); cbn [negb].
  2:{ apply ends_ret. cbn. rewrite orb_false_r. naive_solver. }
  apply ends_then; [by repeat split|].
  apply ends_ret. cbn. rewrite app_nil_r, orb_true_r. split_and!; try done. unfold CPU_PERIOD.
  replace (cpu_max_pct l * 100000) with (cpu_max_pct l * 1000 * 100) by lia. by rewrite Z.div_mul.
Qed.

(** What the files of the group say after all limits are written. *)
Record limited (l : CgroupLimits) (st : Status) (g : Group) : Prop := {
  lim_memory_applied : memory_applied st = wants_memory l;
  lim_pids_applied : pids_applied st = wants_pids l;
  lim_cpu_applied : cpu_applied st = wants_cpu l;
  lim_degraded : degraded st = lacking ((0 <? memory_max_mb l) && negb (has_controller mgr "memory")) "memory"
    ++ lacking ((0 <? pids_max l) && negb (has_controller mgr "pids")) "pids"
    ++ lacking ((0 <? cpu_max_pct l) && negb (has_controller mgr "cpu")) "cpu";
  lim_memory : wants_memory l = true -> memory_set l g;
  lim_swap : wants_memory l = true -> swap_disabled st = true -> knobs g !! bs "memory.swap.max" = Some (bs "0");
  lim_pids : wants_pids l = true ->
    knobs g !! bs "pids.max" = Some (dec (Z.min (pids_max l + pids_overhead l) 4294967295));
  lim_cpu : wants_cpu l = true -> knobs g !! bs "cpu.max" = Some (dec (cpu_max_pct l * 1000) ++ bs " 100000");
}.

Lemma write_controller_files_ends l g : ends (write_controller_files k mgr p l) g (limited l).
Proof.
  eapply ends_bind; [by apply write_memory_ends|]. cbn. intros st1 g1 (Hm1 & Hp1 & Hc1 & Hd1 & Hk1).
  eapply ends_bind; [apply write_pids_ends|]. cbn. intros st2 g2 (Hm2 & Hp2 & Hc2 & Hs2 & Hd2 & ->).
  destruct (write_cpu_ends l st2 (if wants_pids l then knob "pids.max" (dec (Z.min (pids_max l + pids_overhead l) 4294967295)) g1 else g1))
    as (g3 & r & Hr & Hpr & HQ). exists g3, r. split; [done|]. split; [done|]. destruct r as [st3|]; [|done].
  destruct HQ as (Hm3 & Hp3 & Hc3 & Hs3 & Hd3 & ->). unfold memory_set in *.
  constructor; rewrite ?Hm3, ?Hm2, ?Hm1, ?Hp3, ?Hp2, ?Hp1, ?Hc3, ?Hc2, ?Hc1, ?Hd3, ?Hd2, ?Hd1, ?Hs3, ?Hs2, <- ?app_assoc;
    try done.
  - intros H. destruct (Hk1 H) as [(? & ? & ?) _]. split; [done|]. destruct (wants_cpu l), (wants_pids l); by read_knobs.
  - intros H Hs. destruct (Hk1 H) as [_ Hsw]. specialize (Hsw Hs). destruct (wants_cpu l), (wants_pids l); by read_knobs.
  - intros ->. destruct (wants_cpu l); by read_knobs.
  - intros ->. by read_knobs.
Qed.
End Create.

(** The directory of a task. *)
Definition task_path (mgr : CgroupManager) (task_id : bytes) : bytes := push (base_path mgr) (CGROUP_PREFIX ++ task_id).

Lemma remove_empty k p s g : groups s !! p = None -> procs g = [] ->
  (remove_dir k p (with_group p s g)).1 = s \/
  ((remove_dir k p (with_group p s g)).1 = with_group p s g /\ exists s1, rmdir_ok k s1 p = false).
Proof.
  intros Hp Hg. unfold remove_dir, with_group. cbn. rewrite lookup_insert_eq, Hg. cbn.
  destruct (rmdir_ok k _ p) eqn:E; [left|right; split; [done|by eexists]].
  cbn. rewrite delete_insert_id by done. by destruct s.
Qed.

Lemma create_run k mgr task l s s' r : create k mgr task l s = (s', r) ->
  let p := task_path mgr task in
  killed s' = killed s /\ (forall q, q <> p -> groups s' !! q = groups s !! q) /\
  match r with
  | Ok res =>
    sanitize_task_id task = Ok task /\ groups s !! p = None /\ exists g, limited mgr l (status res) g /\
    match path res with
    | Some q => q = p /\ groups s' !! p = Some g /\ procs g = [] /\
        wants_memory mgr l || wants_pids mgr l || wants_cpu mgr l = true
    | None => wants_memory mgr l || wants_pids mgr l || wants_cpu mgr l = false /\
        ((forall s, rmdir_ok k s p = true) -> s' = s)
    end
  | Err _ => (forall s, rmdir_ok k s p = true) -> s' = s
  end.
Proof.
  unfold create. unfold mbind at 1, ST_bind at 1. destruct (sanitize_task_id task) as [id|e] eqn:Es.
  2:{ by intros [= <- <-]. }
  assert (id = task) as -> by (apply sanitize_task_id_spec; by rewrite Es).
  cbn zeta. fold (task_path mgr task). set (p := task_path mgr task). unfold mbind, ST_bind, create_dir at 1.
  destruct (groups s !! p) as [|] eqn:Ep; [by intros [= <- <-]|].
  destruct (mkdir_err k s p); [by intros [= <- <-]|].
  change {| groups := <[p := empty_group]> (groups s); killed := killed s |} with (with_group p s empty_group).
  destruct (write_controller_files_ends k mgr p s l empty_group) as (g & r1 & -> & Hg & Hr).
  destruct r1 as [st|e]; [destruct (memory_applied st || pids_applied st || cpu_applied st) eqn:Ea|]; intros [= <- <-].
  - split; [done|]. split; [intros q Hq; by apply lookup_insert_ne|]. split; [done|]. split; [done|]. exists g.
    split; [done|]. split; [done|]. split; [apply lookup_insert_eq|]. split; [done|].
    by rewrite <- Ea, (lim_memory_applied _ _ _ _ Hr), (lim_pids_applied _ _ _ _ Hr), (lim_cpu_applied _ _ _ _ Hr).
  - assert (Hw : wants_memory mgr l || wants_pids mgr l || wants_cpu mgr l = false).
    { by rewrite <- Ea, (lim_memory_applied _ _ _ _ Hr), (lim_pids_applied _ _ _ _ Hr), (lim_cpu_applied _ _ _ _ Hr). }
    destruct (remove_empty k p s g Ep Hg) as [E|[E [s1 Hs1]]]; rewrite E.
    + split; [done|]. split; [done|]. split; [done|]. split; [done|]. by exists g.
    + split; [done|]. split; [intros q Hq; by apply lookup_insert_ne|]. split; [done|]. split; [done|]. exists g.
      split; [done|]. split; [done|]. intros H. by rewrite H in Hs1.
  - destruct (remove_empty k p s g Ep Hg) as [E|[E [s1 Hs1]]]; rewrite E; [done|].
    split; [done|]. split; [intros q Hq; by apply lookup_insert_ne|]. intros H. by rewrite H in Hs1.
Qed.

(** C35: the cgroup of a task.  [create] makes one directory, named after the checked task identifier, and changes no
    other cgroup and no process.  If it returns a path, the group is empty and its files hold, for each limit that was
    asked for and whose controller is delegated, the value the limit stands for (the memory limit in bytes, computed
    without overflow, and 90 percent of it as the high mark; the process limit plus the helpers, at most the largest
    32-bit number; the CPU share per period of 100 ms); the other limits are the reported degraded controllers, in
    order.  If it returns no path, no limit could be set; then, and after an error, no directory is left behind
    unless the kernel refuses to remove it. *)
Theorem create_spec k mgr task l s s' r : create k mgr task l s = (s', r) ->
  let p := task_path mgr task in
  killed s' = killed s /\ (forall q, q <> p -> groups s' !! q = groups s !! q) /\
  match r with
  | Ok res =>
    sanitize_task_id task = Ok task /\ groups s !! p = None /\ exists g, limited mgr l (status res) g /\
    match path res with
    | Some q => q = p /\ groups s' !! p = Some g /\ procs g = [] /\
        wants_memory mgr l || wants_pids mgr l || wants_cpu mgr l = true
    | None => wants_memory mgr l || wants_pids mgr l || wants_cpu mgr l = false /\
        ((forall s, rmdir_ok k s p = true) -> s' = s)
    end
  | Err _ => (forall s, rmdir_ok k s p = true) -> s' = s
  end.
Proof. apply create_run. Qed.

(** ** Processes stay where they belong *)

Definition owns (s : Cgroups) (pid : Z) (q : bytes) : Prop := exists g, groups s !! q = Some g /\ pid ∈ procs g.

(** A process is in one cgroup. *)
Definition disjoint (s : Cgroups) : Prop := forall pid q q', owns s pid q -> owns s pid q' -> q = q'.

(** The kernel shows the processes of a cgroup in its file, and says that a directory exists only if it does. *)
Record CgLaws (k : CgKernel) : Prop := {
  law_procs s dir text line pid : read_file k s dir (bs "cgroup.procs") = Some text -> line ∈ lines text ->
    parse_i32 (trim line) = Some pid -> owns s pid dir;
  law_mkdir s dir : mkdir_err k s dir <> Some EEXIST;
}.

Lemma leave_id pid g : pid ∉ procs g -> leave pid g = g.
Proof.
  intros H. destruct g as [ps st kn]. unfold leave. cbn in *. f_equal. induction ps as [|x ps IH]; [done|]. cbn.
  destruct (Z.eqb_spec x pid) as [->|Hne]; [set_solver|]. cbn. rewrite IH by set_solver. done.
Qed.

Lemma elem_of_leave pid pid' g : pid' ∈ procs (leave pid g) <-> pid' ∈ procs g /\ pid' <> pid.
Proof.
  unfold leave. cbn. rewrite !list_elem_of_In, List.filter_In, negb_true_iff, Z.eqb_neq. tauto.
Qed.

Lemma elem_of_leaves l pid g : pid ∈ procs (foldr leave g l) <-> pid ∈ procs g /\ pid ∉ l.
Proof. induction l as [|x l IH]; cbn [foldr]; [set_solver|]. rewrite elem_of_leave, IH. set_solver. Qed.

Lemma leaves_id l g : (forall pid, pid ∈ l -> pid ∉ procs g) -> foldr leave g l = g.
Proof.
  induction l as [|x l IH]; cbn [foldr]; intros H; [done|]. rewrite IH by set_solver. apply leave_id. set_solver.
Qed.

Lemma kill_all_state s l : foldr kill_pid s l =
  {| groups := (fun g => foldr leave g l) <$> groups s; killed := l ++ killed s |}.
Proof.
  induction l as [|x l IH]; cbn [foldr]; [rewrite map_fmap_id; by destruct s|]. rewrite IH. unfold kill_pid. cbn.
  by rewrite <- map_fmap_compose.
Qed.

(** An empty group is removed, and nobody is killed. *)
Lemma kill_lines_none l s : (forall line pid, line ∈ l -> parse_i32 (trim line) <> Some pid) ->
  kill_lines l s = (s, Ok tt).
Proof.
  revert s. induction l as [|x l IH]; intros s H; [done|]. cbn. unfold mbind, ST_bind.
  destruct (parse_i32 (trim x)) as [pid|] eqn:E; [exfalso; eapply H; [apply list_elem_of_here|done]|].
  apply IH. intros line pid Hl. apply H. by apply list_elem_of_further.
Qed.

Lemma kill_all_empty k p g s : CgLaws k -> groups s !! p = Some g -> procs g = [] -> kill_all k p s = (s, Ok tt).
Proof.
  intros Hlaw Hp Hg. unfold kill_all, mbind, ST_bind, cg_write. destruct (write_err k s p _ _).
  - unfold kill_procs, mbind, ST_bind, cg_read, read_to_string. destruct (read_file k s p _) as [text|] eqn:E; [|done].
    destruct (Utf8.valid text); [|done]. apply kill_lines_none. intros line pid Hl Hpid.
    destruct (law_procs k Hlaw _ _ _ _ _ E Hl Hpid) as (g' & Hg' & Hin). simplify_eq. rewrite Hg in Hin. set_solver.
  - unfold write_effect. case_decide; [|done]. by rewrite Hp, Hg.
Qed.

Lemma destroy_empty k p g s : CgLaws k -> (forall s, rmdir_ok k s p = true) -> groups s !! p = Some g -> procs g = [] ->
  destroy k p s = ({| groups := delete p (groups s); killed := killed s |}, Ok tt).
Proof.
  intros Hlaw Hr Hp Hg. unfold destroy. unfold mbind, ST_bind. rewrite (kill_all_empty k p g s) by done.
  cbn. unfold mbind, ST_bind, remove_dir. by rewrite Hp, Hg, Hr.
Qed.

(** A process enters a group. *)
Lemma add_pid_run k p pid g s : 0 < pid < 2 ^ 31 -> groups s !! p = Some g ->
  (exists e, add_pid k p pid s = (s, Err e)) \/
  exists s', add_pid k p pid s = (s', Ok tt) /\ killed s' = killed s /\
    groups s' !! p = Some {| procs := pid :: procs (leave pid g); subtree := subtree g; knobs := knobs g |} /\
    forall q, q <> p -> groups s' !! q = leave pid <$> groups s !! q.
Proof.
  intros Hpid Hp. unfold add_pid, mbind, ST_bind, cg_write. destruct (write_err k s p _ _); [left; by eexists|right].
  eexists. split; [done|]. unfold write_effect. rewrite decide_False by by_eval. rewrite decide_True by done.
  replace (dec pid) with (dec_signed pid) by (unfold dec_signed; bcase; [lia|done]).
  rewrite parse_i32_dec by lia. cbn. split; [done|]. rewrite lookup_alter_eq, lookup_fmap, Hp. cbn. split; [done|].
  intros q Hq. by rewrite lookup_alter_ne, lookup_fmap.
Qed.

(** [s'] is [s] with only processes of the cgroups [P] killed and only such cgroups removed or emptied; the group
    [leaf] may be gone if it was empty. *)
Record reaped (P : bytes -> Prop) (leaf : bytes) (s s' : Cgroups) : Prop := {
  reaped_killed pid : pid ∈ killed s' -> pid ∈ killed s \/ exists q, P q /\ owns s pid q;
  reaped_others q : ~ P q -> groups s' !! q = groups s !! q \/
    (q = leaf /\ groups s' !! q = None /\ exists g, groups s !! q = Some g /\ procs g = []);
  reaped_owns pid q : owns s' pid q -> owns s pid q;
}.

Lemma reaped_refl P leaf s : reaped P leaf s s.
Proof. constructor; [tauto|by left|done]. Qed.

Lemma reaped_trans P leaf s1 s2 s3 : reaped P leaf s1 s2 -> reaped P leaf s2 s3 -> reaped P leaf s1 s3.
Proof.
  intros [K1 O1 W1] [K2 O2 W2]. constructor.
  - intros pid [H|(q & Hq & Ho)]%K2; [by apply K1|right; eauto].
  - intros q Hq. destruct (O1 q Hq) as [E1|(-> & E1 & g & Hg)].
    + destruct (O2 q Hq) as [E2|(-> & E2 & g & Hg)]; [left; congruence|right]. rewrite E1 in Hg. eauto.
    + destruct (O2 leaf Hq) as [E2|(_ & E2 & _)]; right; split_and!; eauto; congruence.
  - eauto.
Qed.

Lemma reaped_disjoint P leaf s s' : reaped P leaf s s' -> disjoint s -> disjoint s'.
Proof. intros [_ _ W] Hd pid q q' H1 H2. eauto. Qed.

(** Killing processes of one cgroup of [P]. *)
Lemma reaped_kill (P : bytes -> Prop) leaf s p l : disjoint s -> P p -> (forall pid, pid ∈ l -> owns s pid p) ->
  reaped P leaf s (foldr kill_pid s l).
Proof.
  intros Hd Hp Hl. rewrite kill_all_state. constructor; cbn.
  - intros pid [H|H]%elem_of_app; [right|by left]. eauto.
  - intros q Hq. left. rewrite lookup_fmap. destruct (groups s !! q) as [g|] eqn:E; cbn; [|done]. f_equal.
    apply leaves_id. intros pid Hpid Hin. apply Hq. replace q with p; [done|]. eapply Hd; [by apply Hl|by exists g].
  - intros pid q (g & Hg & Hin). cbn in Hg. rewrite lookup_fmap in Hg. destruct (groups s !! q) as [g0|] eqn:E; [|done].
    cbn in Hg. simplify_eq. apply elem_of_leaves in Hin as [Hin _]. by exists g0.
Qed.

Section Reaping.
Context (k : CgKernel) (P : bytes -> Prop) (leaf : bytes).
Hypothesis Hlaw : CgLaws k.

(** [m] only reaps. *)
Definition reaps {A} (m : ST Cgroups Error A) : Prop := forall s, disjoint s -> reaped P leaf s (m s).1.

Lemma reaps_bind {A B} (m : ST Cgroups Error A) (f : A -> ST Cgroups Error B) :
  reaps m -> (forall a, reaps (f a)) -> reaps (m ≫= f).
Proof.
  intros Hm Hf s Hd. unfold mbind, ST_bind. specialize (Hm s Hd). destruct (m s) as [s1 [a|e]]; [|done].
  eapply reaped_trans; [exact Hm|]. apply Hf. by eapply reaped_disjoint.
Qed.

Lemma reaps_ret {A} (a : A) : reaps (mret a).
Proof. intros s _. apply reaped_refl. Qed.

Lemma reaps_read dir file : reaps (cg_read k dir file).
Proof. intros s _. apply reaped_refl. Qed.

Lemma reaps_rmdir dir : P dir \/ dir = leaf -> reaps (remove_dir k dir).
Proof.
  intros HP s _. unfold remove_dir. destruct (groups s !! dir) as [g|] eqn:E; [|apply reaped_refl].
  case_bool_decide as Hg; [|apply reaped_refl]. destruct (rmdir_ok k s dir); cbn; [|apply reaped_refl]. constructor; cbn.
  - tauto.
  - intros q Hq. destruct (decide (q = dir)) as [->|Hne]; [|left; by apply lookup_delete_ne].
    destruct HP as [| ->]; [done|]. right. split; [done|]. split; [apply lookup_delete_eq|by exists g].
  - intros pid q (h & Hh & Hin). cbn in Hh. apply lookup_delete_Some in Hh as [_ Hh]. by exists h.
Qed.

(** A process that is no longer in its cgroup has been killed. *)
Lemma kill_lines_reaped s0 s dir l : disjoint s0 -> P dir -> reaped P leaf s0 s -> disjoint s ->
  (forall line pid, line ∈ l -> parse_i32 (trim line) = Some pid -> owns s0 pid dir) ->
  reaped P leaf s0 (kill_lines l s).1.
Proof.
  intros Hd0 HP. revert s. induction l as [|line l IH]; intros s Hr Hd Hl; [done|]. cbn [kill_lines].
  unfold mbind, ST_bind. destruct (parse_i32 (trim line)) as [pid|] eqn:Ep; [|apply IH; [done..|]; set_solver].
  destruct (0 <? pid); [|apply IH; [done..|]; set_solver]. cbn. assert (Ho : owns s0 pid dir) by set_solver.
  assert (Hk : reaped P leaf s0 (kill_pid pid s)).
  { destruct Hr as [K O W]. constructor; cbn.
    - intros x [->|Hx]%elem_of_cons; [right; eauto|by apply K].
    - intros q Hq. rewrite lookup_fmap. destruct (O q Hq) as [E|(-> & E & Hg)]; rewrite E; [left|right; eauto].
      destruct (groups s0 !! q) as [g|] eqn:Eg; [|done]. cbn. f_equal. apply leave_id. intros Hin. apply Hq.
      replace q with dir; [done|]. eapply Hd0; [done|by exists g].
    - intros x q (g & Hg & Hin). cbn in Hg. rewrite lookup_fmap in Hg. destruct (groups s !! q) as [h|] eqn:Eh; [|done].
      cbn in Hg. simplify_eq. apply elem_of_leave in Hin as [Hin _]. apply W. by exists h. }
  apply IH; [done|by eapply reaped_disjoint|set_solver].
Qed.

Lemma reaps_kill_all dir : P dir -> reaps (kill_all k dir).
Proof.
  intros HP s Hd. unfold kill_all, mbind, ST_bind, cg_write. destruct (write_err k s dir _ _).
  - unfold kill_procs, mbind, ST_bind, cg_read, read_to_string.
    destruct (read_file k s dir (bs "cgroup.procs")) as [text|] eqn:Et; [|apply reaped_refl].
    destruct (Utf8.valid text); [|apply reaped_refl].
    eapply kill_lines_reaped; [done..|apply reaped_refl|done|]. intros line pid Hin Hp. by eapply (law_procs _ Hlaw).
  - cbn. unfold write_effect. rewrite decide_True by done. destruct (groups s !! dir) as [g|] eqn:Eg; [|apply reaped_refl].
    apply (reaped_kill _ _ _ dir); [done..|]. intros pid Hin. by exists g.
Qed.

Lemma reaps_retry n dir : P dir -> reaps (rmdir_retry k n dir).
Proof.
  intros HP. induction n as [|n IH]; [apply reaps_ret|]. cbn [rmdir_retry].
  apply reaps_bind; [apply reaps_rmdir; by left|]. intros [|]; [apply reaps_ret|done].
Qed.

Lemma reaps_destroy dir : P dir -> reaps (destroy k dir).
Proof. intros HP. apply reaps_bind; [by apply reaps_kill_all|intros _; by apply reaps_retry]. Qed.
End Reaping.

(** The directories of sandboxes below [base]. *)
Definition sandbox_dir (base q : bytes) : Prop := exists name, starts_with CGROUP_PREFIX name = true /\ q = push base name.

Lemma lossy_starts name : starts_with CGROUP_PREFIX (Utf8.lossy name) = true -> starts_with CGROUP_PREFIX name = true.
Proof.
  intros H. apply starts_with_prefix in H. apply starts_with_prefix.
  by rewrite Utf8.lossy_prefix in H by by_eval.
Qed.

Lemma lossy_leaf name : Utf8.lossy name = LEAF_NAME -> name = LEAF_NAME.
Proof.
  intros H. assert (HP : LEAF_NAME `prefix_of` name) by (apply Utf8.lossy_prefix; [by_eval|by rewrite H]).
  destruct HP as [r ->]. destruct r as [|c r]; [done|]. exfalso. change (LEAF_NAME ++ Utf8.lossy (c :: r) = LEAF_NAME) in H.
  apply (f_equal length) in H. rewrite length_app in H. revert H.
  destruct (Utf8.lossy_cases c r) as [[_ ->] | (_ & h & t & -> & _ & _ & (y & z & -> & _) & _)]; cbn; lia.
Qed.

Lemma reaps_clean k mgr : CgLaws k ->
  reaps (sandbox_dir (base_path mgr)) (push (base_path mgr) LEAF_NAME) (cleanup_stale k mgr).
Proof.
  intros Hlaw. apply reaps_bind; [intros s _; apply reaped_refl|]. intros [l|]; [|apply reaps_ret].
  induction l as [|[name dir] l IH]; [apply reaps_ret|]. cbn [clean_entries].
  apply reaps_bind; [|done]. unfold clean_entry. destruct (negb dir); [apply reaps_ret|].
  case_decide as Hn; [|destruct (negb _) eqn:Ep; [apply reaps_ret|]].
  - apply lossy_leaf in Hn as ->. apply reaps_bind; [apply reaps_read|]. intros procs. case_decide; [|apply reaps_ret].
    apply reaps_bind; [apply reaps_rmdir; by right|intros _; apply reaps_ret].
  - bsplit. apply lossy_starts in Ep. assert (sandbox_dir (base_path mgr) (push (base_path mgr) name)) by (by exists name).
    apply reaps_bind; [by apply reaps_kill_all|]. intros _. apply reaps_bind; [apply reaps_rmdir; by left|].
    intros _. apply reaps_ret.
Qed.

(** ** Delegation keeps every process *)

Section Keeping.
Context (k : CgKernel) (base leaf : bytes).
Hypothesis Hlaw : CgLaws k.

Definition within (s : Cgroups) (pid : Z) : Prop := owns s pid base \/ owns s pid leaf.

(** From [s] to [s'] processes only move between [base] and [leaf], and no controller is disabled. *)
Record kept (s s' : Cgroups) : Prop := {
  kept_killed : killed s' = killed s;
  kept_others q : q <> base -> q <> leaf -> groups s' !! q = groups s !! q;
  kept_within pid : within s pid <-> within s' pid;
  kept_disjoint : disjoint s -> disjoint s';
  kept_leaf : is_Some (groups s !! leaf) -> is_Some (groups s' !! leaf);
}.

Lemma kept_refl s : kept s s.
Proof. by constructor. Qed.

Lemma kept_trans s1 s2 s3 : kept s1 s2 -> kept s2 s3 -> kept s1 s3.
Proof.
  intros [K1 O1 W1 D1 L1] [K2 O2 W2 D2 L2].
  constructor; [congruence|intros; rewrite O2, O1; done|intros; by rewrite W1, W2|auto|auto].
Qed.

(** Changing a file of [base]. *)
Lemma kept_alter s f : (forall g, procs (f g) = procs g) ->
  kept s {| groups := alter f base (groups s); killed := killed s |}.
Proof.
  intros Hf. assert (Ho : forall pid q, owns {| groups := alter f base (groups s); killed := killed s |} pid q <-> owns s pid q).
  { intros pid q. unfold owns. cbn. destruct (decide (q = base)) as [->|Hne].
    - rewrite lookup_alter_eq. destruct (groups s !! base) as [g|]; cbn; [|done]. split.
      + intros (h & [= <-] & H). rewrite Hf in H. by exists g.
      + intros (h & [= <-] & H). exists (f g). by rewrite Hf.
    - by rewrite lookup_alter_ne. }
  constructor; cbn.
  - done.
  - intros q Hq _. by apply lookup_alter_ne.
  - intros pid. unfold within. by rewrite !Ho.
  - intros Hd pid q q'. rewrite !Ho. apply Hd.
  - intros Hl. destruct (decide (leaf = base)) as [->|Hne].
    + rewrite lookup_alter_eq. destruct Hl as [g ->]. by eexists.
    + by rewrite lookup_alter_ne.
Qed.

Lemma kept_mkdir s : groups s !! leaf = None ->
  kept s {| groups := <[leaf := empty_group]> (groups s); killed := killed s |}.
Proof.
  intros Hn. assert (Ho : forall pid q, owns {| groups := <[leaf := empty_group]> (groups s); killed := killed s |} pid q <-> owns s pid q).
  { intros pid q. unfold owns. cbn. destruct (decide (q = leaf)) as [->|Hne]; [|by rewrite lookup_insert_ne].
    rewrite lookup_insert_eq, Hn. split; [|by intros (? & ? & _)]. intros (g & [= <-] & H). set_solver. }
  constructor; cbn.
  - done.
  - intros q _ Hq. by apply lookup_insert_ne.
  - intros pid. unfold within. by rewrite !Ho.
  - intros Hd pid q q'. rewrite !Ho. apply Hd.
  - intros _. rewrite lookup_insert_eq. by eexists.
Qed.

Lemma kept_move s pid : disjoint s -> is_Some (groups s !! leaf) -> within s pid ->
  kept s {| groups := alter (fun g => {| procs := pid :: procs g; subtree := subtree g; knobs := knobs g |}) leaf
              (leave pid <$> groups s); killed := killed s |}.
Proof.
  intros Hd [gl Hl] Hw.
  assert (Ho : forall x q, owns {| groups := alter (fun g => {| procs := pid :: procs g; subtree := subtree g; knobs := knobs g |})
      leaf (leave pid <$> groups s); killed := killed s |} x q <-> (owns s x q /\ x <> pid) \/ (x = pid /\ q = leaf)).
  { intros x q. unfold owns. cbn. destruct (decide (q = leaf)) as [->|Hne].
    - rewrite lookup_alter_eq, lookup_fmap, Hl. cbn. split.
      + intros (g & [= <-] & H). cbn in H. apply elem_of_cons in H as [->|H]; [by right|].
        apply elem_of_leave in H as [H ?]. left. split; [by exists gl|done].
      + intros [[(g & [= <-] & H) Hx]|[-> _]]; eexists; (split; [done|]); cbn; [right|by left].
        by apply elem_of_leave.
    - rewrite lookup_alter_ne, lookup_fmap by done. destruct (groups s !! q) as [g|]; cbn; [|naive_solver]. split.
      + intros (h & [= <-] & H). apply elem_of_leave in H as [? ?]. left. split; [by exists g|done].
      + intros [[(h & [= <-] & H) Hx]|[_ ?]]; [|done]. exists (leave pid g). split; [done|]. by apply elem_of_leave. }
  constructor; cbn.
  - done.
  - intros q Hb Hq. rewrite lookup_alter_ne, lookup_fmap by done. destruct (groups s !! q) as [g|] eqn:E; [|done]. cbn.
    f_equal. apply leave_id. intros Hin. destruct Hw as [Hw|Hw]; [apply Hb|apply Hq]; (eapply Hd; [by exists g|done]).
  - intros x. unfold within. rewrite !Ho. destruct (decide (x = pid)) as [->|]; [|tauto]. unfold within in Hw. tauto.
  - intros _ x q q'. rewrite !Ho. intros [[H1 N1]|[-> ->]] [[H2 N2]|[E2 ->]]; try done. by eapply Hd.
  - intros _. rewrite lookup_alter_eq, lookup_fmap, Hl. by eexists.
Qed.

(** [m] keeps every process. *)
Definition keeps {A} (m : ST Cgroups Error A) : Prop := forall s, disjoint s -> kept s (m s).1.

Lemma outside_bind {A B} (m : ST Cgroups Error A) (f : A -> ST Cgroups Error B) :
  keeps m -> (forall a, keeps (f a)) -> keeps (m ≫= f).
Proof.
  intros Hm Hf s Hd. unfold mbind, ST_bind. specialize (Hm s Hd). destruct (m s) as [s1 [a|e]]; [|done].
  eapply kept_trans; [exact Hm|]. apply Hf. by apply Hm.
Qed.

Lemma outside_ret {A} (a : A) : keeps (mret a).
Proof. intros s _. apply kept_refl. Qed.

Lemma keeps_stop {A} e : keeps (stop e : ST Cgroups Error A).
Proof. intros s _. apply kept_refl. Qed.

Lemma keeps_read dir file : keeps (cg_read k dir file).
Proof. intros s _. apply kept_refl. Qed.

Lemma keeps_subtree text : keeps (cg_write k base (bs "cgroup.subtree_control") text).
Proof.
  intros s _. unfold cg_write. destruct (write_err k s _ _ _); [apply kept_refl|]. unfold write_effect.
  rewrite !decide_False, decide_True by done. by apply kept_alter.
Qed.

Lemma move_pids_kept s pids : disjoint s -> is_Some (groups s !! leaf) ->
  (forall text pid, text ∈ pids -> parse_i32 text = Some pid -> within s pid) -> kept s (move_pids k leaf pids s).1.
Proof.
  revert s. induction pids as [|text pids IH]; intros s Hd Hl Hp; [apply kept_refl|]. cbn [move_pids].
  unfold mbind, ST_bind.
  assert (Hk : kept s (cg_write k leaf (bs "cgroup.procs") text s).1).
  { unfold cg_write. destruct (write_err k s _ _ _); [apply kept_refl|]. unfold write_effect.
    rewrite decide_False, decide_True by done. destruct (parse_i32 text) as [pid|] eqn:E; [|apply kept_refl].
    apply kept_move; [done..|]. by apply (Hp text); [left|]. }
  destruct (cg_write k leaf (bs "cgroup.procs") text s) as [s1 [a|e]]; [|done]. cbn in Hk.
  eapply kept_trans; [exact Hk|]. apply IH.
  - by apply Hk.
  - by apply Hk.
  - intros t pid Ht Hpid. apply (kept_within _ _ Hk). by apply (Hp t); [right|].
Qed.

Lemma pid_lines_within s text pid : text ∈ pid_lines (default [] (read_to_string k s base (bs "cgroup.procs"))) ->
  parse_i32 text = Some pid -> within s pid.
Proof.
  unfold pid_lines, read_to_string. intros Ht Hp. apply list_elem_of_In, List.filter_In in Ht as [Ht _].
  apply in_map_iff in Ht as (line & <- & Hin). apply list_elem_of_In in Hin. left.
  destruct (read_file k s base (bs "cgroup.procs")) as [data|] eqn:Er; [|by apply elem_of_nil in Hin].
  destruct (Utf8.valid data); [|by apply elem_of_nil in Hin]. by eapply (law_procs _ Hlaw).
Qed.

Lemma drain_kept n s : disjoint s -> is_Some (groups s !! leaf) -> kept s (drain k n base leaf s).1.
Proof.
  revert s. induction n as [|n IH]; intros s Hd Hl; [apply kept_refl|]. cbn [drain]. unfold mbind, ST_bind, cg_read.
  case_decide; [apply kept_refl|].
  pose proof (move_pids_kept s _ Hd Hl (fun t p => pid_lines_within s t p)) as Hk.
  destruct (move_pids k leaf _ s) as [s1 [a|e]]; [|done].
  eapply kept_trans; [exact Hk|apply IH; by apply Hk].
Qed.

Lemma leaf_dance_keeps batch : leaf = push base LEAF_NAME -> keeps (leaf_dance k base batch).
Proof.
  intros Hleaf s Hd. unfold leaf_dance. rewrite <- Hleaf. unfold mbind at 1, ST_bind at 1.
  assert (Hrest : forall s, disjoint s -> is_Some (groups s !! leaf) -> kept s ((_ ← drain k MAX_DRAIN_ATTEMPTS base leaf;
    r ← cg_write k base (bs "cgroup.subtree_control") batch;
    match r with None => mret tt | Some _ => stop (Cgroup "enable subtree_control: {retry_err}") end) s).1).
  { clear s Hd. intros s Hd Hl. unfold mbind at 1, ST_bind at 1. pose proof (drain_kept MAX_DRAIN_ATTEMPTS s Hd Hl) as Hk.
    destruct (drain _ _ _ _ s) as [s1 [a|e]]; [|done]. eapply kept_trans; [exact Hk|].
    apply outside_bind; [apply keeps_subtree|intros [e|]; [apply keeps_stop|apply outside_ret]|by apply Hk]. }
  unfold create_dir. destruct (groups s !! leaf) as [g|] eqn:El.
  - apply Hrest; [done|]. by eexists.
  - destruct (mkdir_err k s leaf) as [e|] eqn:Em.
    + unfold mbind at 1, ST_bind at 1. destruct (e =? EEXIST) eqn:Ee; [|apply kept_refl].
      apply Z.eqb_eq in Ee as ->. by apply (law_mkdir _ Hlaw) in Em.
    + pose proof (kept_mkdir s El) as Hk. eapply kept_trans; [exact Hk|]. apply Hrest; [by apply Hk|].
      cbn. rewrite lookup_insert_eq. by eexists.
Qed.

Lemma enable_each_keeps missing n : keeps (enable_each k base missing n).
Proof.
  revert n. induction missing as [|c missing IH]; intros n; [apply outside_ret|]. cbn [enable_each].
  apply outside_bind; [apply keeps_subtree|]. intros r. apply IH.
Qed.

Lemma enable_keeps available : leaf = push base LEAF_NAME -> keeps (enable_subtree_control k base available).
Proof.
  intros Hl. unfold enable_subtree_control. case_decide; [apply outside_ret|].
  apply outside_bind.
  { intros s Hd. unfold or_default, read_cgroup_list, mbind, ST_bind, cg_read. by destruct (read_to_string k s _ _); apply kept_refl. }
  intros current. case_decide; [apply outside_ret|]. apply outside_bind; [apply keeps_subtree|]. intros [e|]; [|apply outside_ret].
  destruct (e =? EBUSY); [by apply leaf_dance_keeps|]. apply outside_bind; [apply enable_each_keeps|]. intros n.
  destruct (n =? 0); [apply keeps_stop|apply outside_ret].
Qed.
End Keeping.

(** ** Taking up cgroups *)

(** One step up from a leaf. *)
Definition leaf_below (p q : bytes) : Prop := file_name p = Some LEAF_NAME /\ parent p = Some q.

(** The launcher's own cgroup: the v2 entry of /proc/self/cgroup (the first line that starts with [0::]) below
    /sys/fs/cgroup, without the leaves at its end. *)
Definition own_cgroup (k : CgKernel) (base : bytes) : Prop :=
  exists text pre rel post, self_cgroup k = Some text /\ lines text = pre ++ (bs "0::" ++ rel) :: post /\
    Forall (fun l => starts_with (bs "0::") l = false) pre /\
    rtc leaf_below (push (bs "/sys/fs/cgroup") (trim_start_slashes rel)) base /\ file_name base <> Some LEAF_NAME.

Lemma strip_leaf_spec n p : is_absolute p = true -> (length p <= n)%nat ->
  rtc leaf_below p (strip_leaf n p) /\ file_name (strip_leaf n p) <> Some LEAF_NAME.
Proof.
  revert p. induction n as [|n IH]; intros p Ha Hn; [destruct p; [done|simpl in Hn; lia]|]. cbn [strip_leaf].
  case_decide as Hf; [|split; [apply rtc_refl|done]]. destruct (parent p) as [q|] eqn:Ep.
  - destruct (parent_absolute p q LEAF_NAME Ha Hf Ep). destruct (IH q) as [H1 H2]; [done|lia|].
    split; [|done]. by eapply rtc_l.
  - exfalso. revert Hf Ep. unfold file_name, parent. destruct (path_body p) as [root body]. cbn [snd].
    destruct body; [done|]. destruct (trim_right _); done.
Qed.

Lemma trim_start_relative s : is_absolute (trim_start_slashes s) = false.
Proof.
  unfold trim_start_slashes. induction s as [|c s IH]; [done|]. cbn [drop_while]. destruct (Z.eqb_spec slash c); [done|].
  unfold is_absolute, starts_with. cbn [strip_prefix]. destruct (Z.eqb_spec slash c); done.
Qed.

Lemma discover_spec k s s' r : discover_cgroup_path k s = (s', r) -> s' = s /\
  match r with Ok base => own_cgroup k base /\ is_dir k s base = true | Err _ => True end.
Proof.
  unfold discover_cgroup_path. destruct (self_cgroup k) as [text|] eqn:Et; [|by intros [= <- <-]].
  assert (H : forall l pre, lines text = pre ++ l -> Forall (fun l => starts_with (bs "0::") l = false) pre ->
    discover_lines k l s = (s', r) ->
    s' = s /\ match r with Ok base => own_cgroup k base /\ is_dir k s base = true | Err _ => True end).
  2:{ apply (H _ []); [done|constructor]. }
  induction l as [|line l IH]; intros pre El Hpre; cbn [discover_lines]; [by intros [= <- <-]|].
  destruct (negb _); [by intros [= <- <-]|]. destruct (strip_prefix _ line) as [rel|] eqn:Er.
  2:{ apply (IH (pre ++ [line])); [by rewrite <- app_assoc|]. apply Forall_app. split; [done|].
      constructor; [|constructor]. unfold starts_with. by rewrite Er. }
  apply strip_prefix_Some in Er as ->.
  unfold mbind, ST_bind, get. destruct (is_dir k s _) eqn:Ed; intros [= <- <-]; [|done]. split; [done|]. split; [|done].
  exists text, pre, rel, l. do 3 (split; [done|]). apply strip_leaf_spec; [|done]. unfold push. by rewrite trim_start_relative.
Qed.

Lemma not_sandbox base q : is_absolute q = false -> starts_with CGROUP_PREFIX q = false -> ~ sandbox_dir base (push base q).
Proof.
  intros Ha Hq (name & Hn & E). destruct (proj1 (starts_with_spec _ _) Hn) as [r ->].
  apply (push_inj base q _ Ha) in E; [congruence|done].
Qed.

Lemma base_not_sandbox base : ~ sandbox_dir base base.
Proof.
  intros (name & Hn & E). apply starts_with_spec in Hn as [r ->]. apply (f_equal length) in E. revert E. unfold push.
  change (is_absolute (CGROUP_PREFIX ++ r)) with false. destruct (last base) as [c|] eqn:El.
  - case_match; rewrite ?length_app; cbn; lia.
  - destruct base; [done|]. by rewrite last_cons in El; destruct (last base).
Qed.

(** What happens to a scope whose root is [base]. *)
Record scoped (base : bytes) (s s' : Cgroups) : Prop := {
  scoped_killed pid : pid ∈ killed s' -> pid ∈ killed s \/ exists q, sandbox_dir base q /\ owns s pid q;
  scoped_others q : q <> base -> q <> push base LEAF_NAME -> ~ sandbox_dir base q -> groups s' !! q = groups s !! q;
  scoped_within pid : within base (push base LEAF_NAME) s pid -> within base (push base LEAF_NAME) s' pid;
}.

Lemma kept_scoped base s1 s2 s3 : kept base (push base LEAF_NAME) s1 s2 ->
  reaped (sandbox_dir base) (push base LEAF_NAME) s2 s3 -> scoped base s1 s3.
Proof.
  intros [Kk Ko Kw _ _] [Rk Ro _]. assert (Hl : ~ sandbox_dir base (push base LEAF_NAME)) by (by apply not_sandbox).
  assert (Hs : forall q, sandbox_dir base q -> groups s2 !! q = groups s1 !! q).
  { intros q Hq. apply Ko; intros ->; [by eapply base_not_sandbox|done]. }
  constructor.
  - intros pid [H|(q & Hq & g & Hg & Hin)]%Rk; [left; congruence|right]. exists q. split; [done|]. exists g.
    by rewrite <- (Hs q Hq).
  - intros q H1 H2 H3. destruct (Ro q H3) as [E|(? & _)]; [|done]. by rewrite E, Ko.
  - intros pid [(g & Hg & Hin)|(g & Hg & Hin)]%Kw.
    + left. destruct (Ro base (base_not_sandbox base)) as [E|(_ & _ & h & Hh & Hp)]; [exists g; by rewrite E|].
      simplify_eq. rewrite Hp in Hin. set_solver.
    + right. destruct (Ro _ Hl) as [E|(_ & _ & h & Hh & Hp)]; [exists g; by rewrite E|].
      simplify_eq. rewrite Hp in Hin. set_solver.
Qed.

Lemma read_list_state k dir file s : (read_cgroup_list k dir file s).1 = s.
Proof. unfold read_cgroup_list, mbind, ST_bind, cg_read. by destruct (read_to_string k s _ _). Qed.

(** C36: the scope of taking up cgroups.  [new] always returns.  Whatever it finds, what it does stays in the
    launcher's own cgroup, the v2 entry of /proc/self/cgroup without the leaves at its end, which becomes the
    manager's base: it kills only processes in the directories of sandboxes ([arapuca-*]) directly below, and changes
    no cgroup but these, its own and the leaf below it; every process of its own cgroup or of the leaf is still in
    one of the two afterwards.  The base of a manager is not itself a leaf, and its list of controllers is not empty.
    Without a manager nothing is killed.  The sandboxes below are taken for stale ones; those of another launcher that
    runs in the same cgroup are killed with them ([new_kills_running]). *)
Theorem new_scope k s s' r : CgLaws k -> disjoint s -> new k s = (s', r) ->
  exists o, r = Ok o /\
  match o with
  | Some mgr => own_cgroup k (base_path mgr) /\ scoped (base_path mgr) s s' /\
      file_name (base_path mgr) <> Some LEAF_NAME /\ controllers mgr <> []
  | None => s' = s \/ exists base, own_cgroup k base /\ scoped base s s' /\ killed s' = killed s
  end.
Proof.
  intros Hlaw Hd. unfold new.
  destruct (discover_cgroup_path k s) as [s1 [base|e]] eqn:E1; apply discover_spec in E1 as [-> Hb].
  2:{ intros [= <- <-]. exists None. auto. }
  pose proof (read_list_state k base "cgroup.controllers" s) as E2.
  destruct (read_cgroup_list k base "cgroup.controllers" s) as [s1 r1]. cbn in E2. subst s1.
  destruct r1 as [[|c available]|e]; [intros [= <- <-]; exists None; auto| |intros [= <- <-]; exists None; auto].
  pose proof (enable_keeps k base (push base LEAF_NAME) Hlaw (c :: available) eq_refl s Hd) as Hk.
  destruct (enable_subtree_control k base (c :: available) s) as [s2 r2]. cbn [fst] in *.
  unfold or_default. pose proof (read_list_state k base "cgroup.subtree_control" s2) as E3.
  destruct (read_cgroup_list k base "cgroup.subtree_control" s2) as [s3 r3]. cbn in E3. subst s3.
  assert (HN : scoped base s s2) by (eapply kept_scoped; [done|apply reaped_refl]).
  destruct Hb as [Hb _]. pose proof (kept_killed _ _ _ _ Hk) as Hkd.
  destruct r3 as [[|c' cs]|e]; [intros [= <- <-]; exists None; split; [done|right; by exists base]| |
    intros [= <- <-]; exists None; split; [done|right; by exists base]].
  intros [= <- <-]. eexists (Some _). split; [done|]. cbn [base_path controllers]. split; [done|].
  split; [|split; [by destruct Hb as (? & ? & ? & ? & _ & _ & _ & _ & ?)|done]].
  eapply kept_scoped; [done|]. apply (reaps_clean k {| base_path := base; controllers := c' :: cs |} Hlaw).
  by apply (kept_disjoint _ _ _ _ Hk).
Qed.

(** ** A kernel *)

Definition procs_text (g : Group) : option bytes :=
  let text := concat (map (fun p => dec p ++ [10]) (procs g)) in
  if forallb (fun line => match parse_i32 (trim line) with Some pid => bool_decide (pid ∈ procs g) | None => true end)
       (lines text)
  then Some text else None.

(** A kernel on which everything works, with the directories [entries] below the launcher's cgroup. *)
Definition demo_kernel (entries : list (bytes * bool)) : CgKernel := {|
  mkdir_err _ _ := None;
  rmdir_ok _ _ := true;
  write_err _ _ _ _ := None;
  read_file s dir file :=
    match (groups s !! dir : option Group) with
    | None => None
    | Some g =>
      if decide (file = bs "cgroup.procs") then procs_text g
      else if decide (file = bs "cgroup.controllers") then Some (bs "cpu io memory pids")
      else if decide (file = bs "cgroup.subtree_control") then Some (join (bs " ") (subtree g))
      else None
    end;
  read_dir _ _ := Some entries;
  is_dir s dir := bool_decide (is_Some (groups s !! dir));
  self_cgroup := Some (bs "0::/user.slice/app.scope/leaf");
|}.

Lemma demo_kernel_laws entries : CgLaws (demo_kernel entries).
Proof.
  constructor; [|done]. intros s dir text line pid. cbn. destruct (groups s !! dir) as [g|] eqn:E; [|done].
  case_decide; [|repeat case_decide; done]. unfold procs_text. destruct (forallb _ _) eqn:HF; [|done].
  intros [= <-] Hl Hp. exists g. split; [done|]. rewrite forallb_forall in HF.
  specialize (HF line (proj1 (list_elem_of_In _ _) Hl)). rewrite Hp in HF. by bsplit.
Qed.

Definition demo_scope : bytes := bs "/sys/fs/cgroup/user.slice/app.scope".
Definition demo_group (ps : list Z) : Group := {| procs := ps; subtree := []; knobs := ∅ |}.

(** The launcher, process 10, and a sandbox of another launcher in the same scope, process 77. *)
Definition demo_cgroups : Cgroups :=
  {| groups := <[demo_scope := demo_group [10]]> {[push demo_scope (bs "arapuca-t1") := demo_group [77]]}; killed := [] |}.

Lemma demo_disjoint : disjoint demo_cgroups.
Proof.
  intros pid q q' (g & Hg & Hin) (g' & Hg' & Hin'). unfold demo_cgroups in *. cbn in Hg, Hg'.
  apply lookup_insert_Some in Hg as [[<- <-]|[_ Hg]], Hg' as [[<- <-]|[_ Hg']]; try done;
    repeat match goal with H : {[_ := _]} !! _ = Some _ |- _ => apply lookup_singleton_Some in H as [<- <-] end;
    try done; cbn in *; apply list_elem_of_singleton in Hin, Hin'; lia.
Qed.

Definition demo_new : Cgroups * result Error (option CgroupManager) :=
  new (demo_kernel [(bs "arapuca-t1", true); (bs "other", true)]) demo_cgroups.

Lemma demo_new_manager : demo_new.2 = Ok (Some {| base_path := demo_scope; controllers := map bs ["cpu"; "memory"; "pids"] |}).
Proof. vm_compute. reflexivity. Qed.

Lemma new_scope_witness : scoped demo_scope demo_cgroups demo_new.1.
Proof.
  destruct (new_scope (demo_kernel [(bs "arapuca-t1", true); (bs "other", true)]) demo_cgroups demo_new.1 demo_new.2
    (demo_kernel_laws _) demo_disjoint) as (o & Ho & H).
  - unfold demo_new. destruct (new _ _). reflexivity.
  - rewrite demo_new_manager in Ho. injection Ho as <-. exact (proj1 (proj2 H)).
Defined.

(** The directories that [new] takes for stale may belong to a launcher that is still running: its sandbox is
    killed. *)
Theorem new_kills_running : exists k s, CgLaws k /\ disjoint s /\ killed s = [] /\
  owns s 77 (push demo_scope (bs "arapuca-t1")) /\ 77 ∈ killed (new k s).1.
Proof.
  exists (demo_kernel [(bs "arapuca-t1", true); (bs "other", true)]), demo_cgroups. split_and!.
  - apply demo_kernel_laws.
  - apply demo_disjoint.
  - done.
  - exists (demo_group [77]). split; [by vm_compute|by left].
  - vm_compute. left.
Qed.

Definition demo_limits : CgroupLimits :=
  {| memory_max_mb := 512; pids_max := 100; cpu_max_pct := 150; pids_overhead := 2 |}.
Definition demo_manager : CgroupManager := {| base_path := demo_scope; controllers := map bs ["memory"; "pids"]%string |}.

Lemma create_spec_witness : exists g,
  groups (create (demo_kernel []) demo_manager (bs "t2") demo_limits demo_cgroups).1 !! task_path demo_manager (bs "t2") = Some g /\
  knobs g !! bs "memory.max" = Some (bs "536870912") /\ knobs g !! bs "pids.max" = Some (bs "102").
Proof.
  destruct (create_spec (demo_kernel []) demo_manager (bs "t2") demo_limits demo_cgroups
    (create (demo_kernel []) demo_manager (bs "t2") demo_limits demo_cgroups).1
    (Ok {| path := Some (task_path demo_manager (bs "t2"));
           status := {| swap_disabled := true; memory_applied := true; pids_applied := true; cpu_applied := false;
                        degraded := [bs "cpu"] |} |})) as (_ & _ & _ & _ & g & Hlim & _ & Hg & _).
  - vm_compute. reflexivity.
  - exists g. split; [exact Hg|]. destruct Hlim as [_ _ _ _ Hm _ Hp _]. split; [apply Hm; reflexivity|apply Hp; reflexivity].
Defined.
