(* ===== verification/AuditLog.v ===== *)
(** * AuditLog: events and their sink ([audit.rs])

    The events without their time stamps, the delivery to a sink that may panic,
    and the removal of control characters from texts that enter an event. *)

From stdpp Require Import base list.
From S2P Require Import Prelude Text Env Seccomp Cgroup.

(** ** Events *)

Module Layer.
Inductive SandboxLayer : Type :=
| Landlock | Seccomp | Cgroup | NetworkNamespace | Rlimit | Setsid | Pdeathsig | NoNewPrivs | EnvFilter
| FdSanitization | Pty | ProxyBridge | MicroVm
| Seatbelt | MemoryMonitor | ParentWatchdog
| AppContainer | JobObject | RestrictedToken | IntegrityLevel | MitigationPolicy | DaclGrant
| ProcessSpawn | DnsCapture | PidNamespace | UnotifySupervisor | ConnectProxy.

#[export] Instance SandboxLayer_eq_dec : EqDecision SandboxLayer.
Proof. solve_decision. Defined.
End Layer.

Module Detail.
Inductive LayerDetail : Type :=
| Landlock (abi_version : Z) (fully_enforced : bool)
| Cgroup (path : bytes) (swap_disabled : bool) (degraded : list bytes)
| ProxyBridge (port : Z) (uds_path : bytes)
| MicroVm (image_path : bytes) (cpus mem_mb : Z)
| DnsCapture (port : Z)
| Other (text : bytes).
End Detail.

Inductive SkipReason : Type :=
| NotAvailable
| NotConfigured
| PlatformUnsupported
| ComponentMissing (what : string)
| PartialFailure (what : string).

Inductive InjectReason : Type := ProxyEnv.

Definition SCHEMA_VERSION : Z := 1.

Module Event.
Inductive AuditEvent : Type :=
| SandboxInit (schema_version : Z) (task_id phase command : bytes) (arg_count : Z) (args : option (list bytes))
    (principal correlation_id : option bytes)
| LayerApplied (layer : Layer.SandboxLayer) (detail : option Detail.LayerDetail)
| LayerSkipped (layer : Layer.SandboxLayer) (reason : SkipReason)
| LayerFailed (layer : Layer.SandboxLayer) (error : string)
| EnvPolicy (passed_keys : list bytes) (injected_keys : list (bytes * InjectReason)) (dropped : list (bytes * DropReason))
| FilesystemPolicy (read_paths write_paths : list bytes)
| ResourceLimits (memory_mb cpu_pct max_pids cpu_timeout_secs max_file_size_mb max_open_files : Z) (allow_exec : bool)
| NetworkPolicy (isolated : bool) (proxy_socket : option bytes)
| SeccompPolicy (summary : SeccompSummary) (allow_exec : bool)
| FdInheritance (inherited_fds : list Z) (stdin_redirected stdout_redirected stderr_redirected : bool)
| SandboxReady (applied_layers skipped_layers : list Layer.SandboxLayer)
| ProcessStarted (pid : Z)
| ProcessExited (pid : Z) (exit_code signal : option Z) (oom_kill_count : Z)
| ResourceUsage (usage : Cgroup.ResourceUsage)
| SandboxCleanup (cgroup_destroyed tmpdir_removed : bool) (dacls_restored container_deleted : option bool)
| NetworkBlocked (pid : Z) (destination protocol : bytes) (detail : option bytes)
| FileAccess (pid : Z) (path : bytes) (flags : Z) (is_write : bool)
| ProcessSpawn (pid : Z) (binary : bytes).
End Event.

Inductive AuditVerbosity : Type := Standard | Verbose.

(** ** The sink *)

(** A caller's sink: whether [emit] panics, from the events that it has got, and
    whether it is mandatory. *)
Record AuditSink : Type := {
  sink_panics : list Event.AuditEvent -> Event.AuditEvent -> bool;
  is_mandatory : bool;
}.

(** [AuditContext::emit] on the events that the sink has got. *)
Definition emit (sink : AuditSink) (event : Event.AuditEvent) : ST (list Event.AuditEvent) Error unit := fun got =>
  if sink_panics sink got event then
    (got, if is_mandatory sink then Err (Process "mandatory audit sink panicked") else Ok tt)
  else (got ++ [event], Ok tt).

(** ** Texts *)

(** [char::is_control]: the category Cc. *)
Definition is_control (c : Z) : bool := ((0 <=? c) && (c <=? 31)) || ((127 <=? c) && (c <=? 159)).

Definition is_invisible (c : Z) : bool :=
  ((8203 <=? c) && (c <=? 8205)) || ((8232 <=? c) && (c <=? 8233)) || (c =? 8288) || (c =? 65279)
  || ((8234 <=? c) && (c <=? 8238)) || ((8294 <=? c) && (c <=? 8297)) || (c =? 8206) || (c =? 8207).

Definition kept_char (c : Z) : bool := if is_control c && negb (c =? 10) then false else negb (is_invisible c).

Definition sanitize_audit_string (s : bytes) : bytes := Utf8.of_chars (List.filter kept_char (Utf8.chars s)).

Lemma sanitize_chars s : Utf8.valid s = true ->
  Utf8.valid (sanitize_audit_string s) = true /\
  Utf8.chars (sanitize_audit_string s) = List.filter kept_char (Utf8.chars s).
Proof.
  intros Hv. apply Utf8.valid_chars in Hv as [_ Hs]. unfold sanitize_audit_string. rewrite Utf8.valid_decode.
  assert (E : Utf8.decode (Utf8.of_chars (List.filter kept_char (Utf8.chars s))) = Some (List.filter kept_char (Utf8.chars s))).
  { apply Utf8.decode_of_chars. rewrite List.Forall_forall in *. intros c Hc. apply Hs. by apply List.filter_In in Hc as [? _]. }
  unfold Utf8.chars at 2. rewrite E. split; [by eexists|done].
Qed.

(** A text without such characters is left alone. *)
Lemma sanitize_id s : Utf8.valid s = true -> forallb kept_char (Utf8.chars s) = true -> sanitize_audit_string s = s.
Proof.
  intros Hv Hk. apply Utf8.valid_chars in Hv as [E _]. unfold sanitize_audit_string. by rewrite List.forallb_filter_id.
Qed.

Lemma kept_printable c : 32 <= c < 127 -> kept_char c = true.
Proof. intros Hc. unfold kept_char, is_control, is_invisible. repeat (bcase; try lia). Qed.

Lemma sanitize_printable s : Forall (fun c => 32 <= c < 127) s -> sanitize_audit_string s = s.
Proof.
  intros Hp. assert (Ha : Forall (fun c => 0 <= c < 128) s) by (eapply Forall_impl; [|exact Hp]; cbn; lia).
  apply sanitize_id; [by apply Utf8.valid_ascii|]. unfold Utf8.chars. rewrite Utf8.decode_ascii by done.
  apply forallb_forall. intros c Hc. apply kept_printable. rewrite List.Forall_forall in Hp. by apply Hp.
Qed.

(** Sinks that get every event, or whose failure is accepted. *)
Definition tolerant (sink : option AuditSink) : Prop :=
  match sink with Some s => is_mandatory s = false \/ (forall got e, sink_panics s got e = false) | None => True end.

Lemma emit_tolerant s e got : tolerant (Some s) -> exists got', emit s e got = (got', Ok tt).
Proof. unfold emit. intros [H|H]; [destruct (sink_panics s got e); rewrite ?H|rewrite H]; eauto. Qed.
