(* ===== verification/Landlock.v ===== *)
(** * Landlock: the filesystem restrictions of [landlock.rs]

    The rules that [apply] passes to the [landlock] crate, against an interface
    to the crate and the kernel ([LandlockHost]), and the search of the ELF
    interpreter in a binary ([parse_pt_interp]), whose slices may panic.  The
    theorems bound the rights that the enforced ruleset grants, and give the
    result of the parser. *)

From S2P Require Import Prelude Text Paths Env Json Seccomp.

(** ** Access rights ([AccessFs], [linux/landlock.h]) *)

Definition EXECUTE : Z := 0x1.
Definition READ_FILE : Z := 0x4.
Definition READ_DIR : Z := 0x8.
(** [AccessFs::from_all(ABI::V5)]: the sixteen rights up to IOCTL_DEV. *)
Definition ALL_V5 : Z := 0xffff.

(** ** The ELF interpreter *)

(** [&data[a..b]]: panics out of range. *)
Definition slice (data : bytes) (a b : Z) : io bytes :=
  if (a <=? b) && (b <=? len data) then Ok (take (Z.to_nat (b - a)) (drop (Z.to_nat a) data)) else Err Panic.

(** [checked_add] and [checked_mul] of [usize]. *)
Definition checked (n : Z) : option Z := if n <? 2 ^ 64 then Some n else None.

Definition PT_INTERP : Z := 3.

(** A field read with [from_le_bytes]. *)
Definition field (data : bytes) (a b : Z) : io Z := s ← slice data a b; Ok (le_int s).

(** The program headers from the [i]-th on; [Ok None] is the code's [None]. *)
Fixpoint phdr_loop (n : nat) (i : Z) (data : bytes) (e_phoff e_phentsize : Z) : io (option bytes) :=
  match n with
  | O => Ok None
  | S n =>
    match (x ← checked (i * e_phentsize); checked (e_phoff + x)) with
    | None => Ok None
    | Some off =>
      match checked (off + e_phentsize) with
      | None => Ok None
      | Some e =>
        if len data <? e then Ok None
        else
          p_type ← field data off (off + 4);
          if p_type =? PT_INTERP then
            p_offset ← field data (off + 8) (off + 16);
            p_filesz ← field data (off + 32) (off + 40);
            match checked (p_offset + p_filesz) with
            | None => Ok None
            | Some e =>
              if len data <? e then Ok None
              else
                segment ← slice data p_offset e;
                let s := take_while (fun b => negb (b =? 0)) segment in
                Ok (if Utf8.valid s then Some s else None)
            end
          else phdr_loop n (i + 1) data e_phoff e_phentsize
      end
    end
  end.

Definition ELF_MAGIC : bytes := [0x7f; ch "E"; ch "L"; ch "F"].

Definition parse_pt_interp (data : bytes) : io (option bytes) :=
  if len data <? 64 then Ok None
  else if negb (bool_decide (take 4 data = ELF_MAGIC)) then Ok None
  else if negb (bool_decide (data !! 4%nat = Some 2)) then Ok None
  else if negb (bool_decide (data !! 5%nat = Some 1)) then Ok None
  else
    e_phoff ← field data 32 40;
    e_phentsize ← field data 54 56;
    e_phnum ← field data 56 58;
    phdr_loop (Z.to_nat e_phnum) 0 data e_phoff e_phentsize.

(** ** Applying the ruleset *)

Inductive RulesetStatus : Type := FullyEnforced | PartiallyEnforced | NotEnforced.

(** A [PathBeneath] rule: the path whose descriptor it holds, and the rights. *)
Definition Rule : Type := bytes * Z.

(** The crate, the kernel and the filesystem: the answers of the calls
    ([false] and [None] are errors), which paths [PathFd::new] opens, and what
    [path_beneath_rules] leaves of the rights for a path (a file has fewer
    rights than a directory).  [read_head] is [File::open] and one [read] into
    4096 bytes, no bytes when the [read] fails. *)
Record LandlockHost : Type := {
  handle_access : Z -> bool;
  create : bool;
  path_fd : bytes -> bool;
  valid_access : bytes -> Z -> Z;
  add_rule : Rule -> bool;
  restrict_self : list Rule -> option RulesetStatus;
  read_head : bytes -> option bytes;
  path_exists : bytes -> bool;
}.

(** [path_beneath_rules] never adds a right. *)
Definition access_law (h : LandlockHost) : Prop :=
  forall p a i, Z.testbit (valid_access h p a) i = true -> Z.testbit a i = true.

(** The outcome of [apply]: the rules enforced with [Ok(())], an error, or a
    panic. *)
Inductive Applied : Type := Enforced (rules : list Rule) | Failed (e : Error) | Aborted.

Section Apply.
Context {T : Target} (h : LandlockHost).

Definition elf_fallback : bytes :=
  match target_cpu with
  | Some x86_64 => bs "/lib64/ld-linux-x86-64.so.2"
  | Some aarch64 => bs "/lib/ld-linux-aarch64.so.1"
  | None => []
  end.

Definition resolve_elf_interpreter (target : option bytes) : io (option bytes) :=
  interp ← match target ≫= read_head h with
           | None => Ok None
           | Some buf => parse_pt_interp buf
           end;
  Ok (let fallback := if path_exists h elf_fallback then Some elf_fallback else None in
      match interp with
      | Some p => if path_exists h p then Some p else fallback
      | None => fallback
      end).

Definition path_beneath_rules (paths : list bytes) (access : Z) : list Rule :=
  map (fun p => (p, valid_access h p access)) (List.filter (path_fd h) paths).

(** [add_rules] stops at the first rule that is refused; [what] names the call
    in the error. *)
Fixpoint add_rules (what : string) (rules ruleset : list Rule) : Result (list Rule) :=
  match rules with
  | [] => Ok ruleset
  | r :: rules => if add_rule h r then add_rules what rules (ruleset ++ [r]) else Err (Landlock what)
  end.

Definition read_access (exec : bool) : Z :=
  if exec then Z.lor (Z.lor EXECUTE READ_FILE) READ_DIR else Z.lor READ_FILE READ_DIR.
Definition write_access (exec : bool) : Z :=
  if exec then ALL_V5 else Z.land ALL_V5 (Z.lnot EXECUTE).
Definition exec_read : Z := Z.lor EXECUTE READ_FILE.

(** The rule for the target or for its interpreter, when it can be opened. *)
Definition exec_rule (p : option bytes) : list Rule :=
  match p with
  | Some p => if path_fd h p then [(p, exec_read)] else []
  | None => []
  end.

Definition enforce (ruleset : list Rule) : Applied :=
  match restrict_self h ruleset with
  | None => Failed (Landlock "restrict self")
  | Some NotEnforced => Failed (Landlock "ruleset not enforced")
  | Some _ => Enforced ruleset
  end.

(** The error of a step, or the rest of [apply]. *)
Definition try (r : Result (list Rule)) (k : list Rule -> Applied) : Applied :=
  match r with Err e => Failed e | Ok rs => k rs end.

Definition apply (profile : Profile) (target_binary : option bytes) : Applied :=
  let exec := allow_exec profile in
  if negb (handle_access h ALL_V5) then Failed (Landlock "handle access")
  else if negb (create h) then Failed (Landlock "create ruleset")
  else
    try (add_rules "add read rules" (path_beneath_rules (read_paths profile) (read_access exec)) []) (fun rs =>
    try (add_rules "add write rules" (path_beneath_rules (write_paths profile) (write_access exec)) rs) (fun rs =>
    if negb exec then
      try (add_rules "add exec rule (binary)" (exec_rule target_binary) rs) (fun rs =>
      match resolve_elf_interpreter target_binary with
      | Err _ => Aborted
      | Ok interp => try (add_rules "add exec rule (ld.so)" (exec_rule interp) rs) enforce
      end)
    else enforce rs)).
End Apply.

(** ** What the enforced rules grant

    The kernel grants a right on a file when a rule for one of the directories
    above it, or for the file itself, has the right.  The hierarchy is a
    parameter. *)

Section Grants.
Context {T : Target} (h : LandlockHost) (beneath : bytes -> bytes -> Prop).

Definition granted (rules : list Rule) (p : bytes) (i : Z) : Prop :=
  exists q a, (q, a) ∈ rules /\ beneath q p /\ Z.testbit a i = true.

(** The two paths that may be executed although [allow_exec] is false. *)
Definition exec_path (target : option bytes) (q : bytes) : Prop :=
  target = Some q \/ resolve_elf_interpreter h target = Ok (Some q).

Lemma add_rules_ok what rules rs rs' : add_rules h what rules rs = Ok rs' -> rs' = rs ++ rules.
Proof.
  revert rs. induction rules as [|r rules IH]; simpl; intros rs E.
  - apply ok_inj in E as <-. by rewrite app_nil_r.
  - destruct (add_rule h r); [|done]. rewrite (IH _ E), <- app_assoc. done.
Qed.

Lemma try_ok r k rules : try r k = Enforced rules -> exists rs, r = Ok rs /\ k rs = Enforced rules.
Proof. destruct r; [eauto|done]. Qed.

Lemma enforce_ok rs rules : enforce h rs = Enforced rules -> rules = rs.
Proof. unfold enforce. destruct (restrict_self h rs) as [[]|]; congruence. Qed.

(** The rules of a successful [apply]. *)
Lemma apply_rules profile target rules :
  apply h profile target = Enforced rules ->
  exists exec_rules,
    rules = path_beneath_rules h (read_paths profile) (read_access (allow_exec profile)) ++
            path_beneath_rules h (write_paths profile) (write_access (allow_exec profile)) ++ exec_rules /\
    if allow_exec profile then exec_rules = []
    else exists interp, resolve_elf_interpreter h target = Ok interp /\
                        exec_rules = exec_rule h target ++ exec_rule h interp.
Proof.
  unfold apply. destruct (negb (handle_access h _)); [done|]. destruct (negb (create h)); [done|].
  intros (r1 & E1 & H1)%try_ok. apply add_rules_ok in E1 as ->.
  apply try_ok in H1 as (r2 & E2 & H2). apply add_rules_ok in E2 as ->. simpl in H2.
  destruct (allow_exec profile); simpl in H2.
  - apply enforce_ok in H2 as ->. exists []. by rewrite app_nil_r.
  - apply try_ok in H2 as (r3 & E3 & H3). apply add_rules_ok in E3 as ->.
    destruct (resolve_elf_interpreter h target) as [interp|] eqn:Ei; [|done].
    apply try_ok in H3 as (r4 & E4 & H4). apply add_rules_ok in E4 as ->. apply enforce_ok in H4 as ->.
    exists (exec_rule h target ++ exec_rule h interp). rewrite <- !app_assoc. eauto.
Qed.

Lemma elem_of_beneath_rules q a paths access :
  (q, a) ∈ path_beneath_rules h paths access <->
  a = valid_access h q access /\ q ∈ paths /\ path_fd h q = true.
Proof.
  rewrite (list_elem_of_In _ q). unfold path_beneath_rules. split.
  - intros (x & E & [? ?]%filter_In)%list_elem_of_In%in_map_iff. injection E as <- <-. done.
  - intros (-> & ? & ?). apply list_elem_of_In, in_map_iff. exists q. by rewrite filter_In.
Qed.

Lemma elem_of_exec_rule q a p : (q, a) ∈ exec_rule h p -> p = Some q /\ a = exec_read.
Proof.
  destruct p as [p|]; simpl; [destruct (path_fd h p)|]; rewrite ?list_elem_of_singleton, ?elem_of_nil; try done.
  intros E. injection E as <- <-. done.
Qed.

(** Where a granted right comes from. *)
Lemma granted_from profile target rules p i :
  access_law h -> apply h profile target = Enforced rules -> granted rules p i ->
  exists q, beneath q p /\
    (q ∈ read_paths profile /\ Z.testbit (read_access (allow_exec profile)) i = true \/
     q ∈ write_paths profile /\ Z.testbit (write_access (allow_exec profile)) i = true \/
     allow_exec profile = false /\ exec_path target q /\ Z.testbit exec_read i = true).
Proof.
  intros Hlaw (ex & -> & Hex)%apply_rules (q & a & Hin & Hb & Hi). exists q. split; [done|].
  rewrite !elem_of_app, !elem_of_beneath_rules in Hin.
  destruct Hin as [(-> & ? & _)|[(-> & ? & _)|Hin]]; [left; eauto|right; left; eauto|right; right].
  destruct (allow_exec profile); [by rewrite Hex in Hin; apply elem_of_nil in Hin|].
  destruct Hex as (interp & Ei & ->). rewrite elem_of_app in Hin. unfold exec_path.
  destruct Hin as [[-> ->]%elem_of_exec_rule|[-> ->]%elem_of_exec_rule]; auto.
Qed.
End Grants.

(** ** The ELF interpreter *)

(** The little-endian integer of [n] bytes at [off]. *)
Definition u_at (data : bytes) (off n : Z) : Z :=
  le_int (take (Z.to_nat n) (drop (Z.to_nat off) data)).

Definition elf64_le (data : bytes) : Prop :=
  64 <= len data /\ take 4 data = ELF_MAGIC /\ data !! 4%nat = Some 2 /\ data !! 5%nat = Some 1.

(** [s] is the interpreter that the first [PT_INTERP] header among [n] from the
    [i]-th names, the headers up to it lying in [data]. *)
Definition names_interp (data : bytes) (phoff entsize i n : Z) (s : bytes) : Prop :=
  let off k := phoff + k * entsize in
  exists k, i <= k < i + n /\
    (forall j, i <= j <= k -> off j + entsize <= len data) /\
    (forall j, i <= j < k -> u_at data (off j) 4 <> PT_INTERP) /\
    u_at data (off k) 4 = PT_INTERP /\
    let p_offset := u_at data (off k + 8) 8 in
    let p_filesz := u_at data (off k + 32) 8 in
    p_offset + p_filesz <= len data /\
    s = take_while (fun b => negb (b =? 0)) (take (Z.to_nat p_filesz) (drop (Z.to_nat p_offset) data)) /\
    Utf8.valid s = true.

Lemma le_int_nonneg l : Forall is_u8 l -> 0 <= le_int l.
Proof. induction 1 as [|x l Hx _ IH]; simpl; [lia|]. unfold is_u8 in Hx. lia. Qed.

Lemma u_at_nonneg data off n : Forall is_u8 data -> 0 <= u_at data off n.
Proof. intros H. apply le_int_nonneg, Forall_take, Forall_drop, H. Qed.

Lemma slice_ok data a n : 0 <= n -> a + n <= len data ->
  slice data a (a + n) = Ok (take (Z.to_nat n) (drop (Z.to_nat a) data)).
Proof.
  intros Hn Hl. unfold slice. rewrite (proj2 (Z.leb_le _ _)), (proj2 (Z.leb_le _ _)) by lia. simpl.
  do 3 f_equal. lia.
Qed.

Lemma field_ok data a n : 0 <= n -> a + n <= len data -> field data a (a + n) = Ok (u_at data a n).
Proof. intros ? ?. unfold field. rewrite slice_ok by done. done. Qed.

Lemma checked_spec n : checked n = if decide (n < 2 ^ 64) then Some n else None.
Proof. unfold checked. destruct (Z.ltb_spec n (2 ^ 64)), (decide _); done || lia. Qed.

Section Interp.
Context (data : bytes) (phoff entsize : Z).
Context (Hdata : Forall is_u8 data) (Hlen : len data < 2 ^ 64) (Hphoff : 0 <= phoff) (Hent : 40 <= entsize).

(** The string of a [PT_INTERP] header at [off]. *)
Definition interp_of (off : Z) : option bytes :=
  let p_offset := u_at data (off + 8) 8 in
  let p_filesz := u_at data (off + 32) 8 in
  if len data <? p_offset + p_filesz then None
  else let s := take_while (fun b => negb (b =? 0)) (take (Z.to_nat p_filesz) (drop (Z.to_nat p_offset) data)) in
       if Utf8.valid s then Some s else None.

(** No slice of a header of at least 40 bytes is out of range. *)
Lemma phdr_step n i : 0 <= i ->
  let off := phoff + i * entsize in
  phdr_loop (S n) i data phoff entsize =
    if len data <? off + entsize then Ok None
    else if u_at data off 4 =? PT_INTERP then Ok (interp_of off)
    else phdr_loop n (i + 1) data phoff entsize.
Proof.
  intros Hi off. cbn [phdr_loop]. fold off. unfold off.
  assert (0 <= i * entsize) by nia. destruct (Z.ltb_spec (len data) (phoff + i * entsize + entsize)) as [Hl|Hl].
  - rewrite !checked_spec. destruct (decide _); [|done]. simpl. rewrite !checked_spec.
    destruct (decide _); [|done]. rewrite checked_spec. destruct (decide _); [|done].
    by rewrite (proj2 (Z.ltb_lt _ _)) by lia.
  - rewrite checked_spec, decide_True by lia. simpl. rewrite checked_spec, decide_True by lia.
    rewrite checked_spec, decide_True by lia. rewrite (proj2 (Z.ltb_ge _ _)) by lia.
    rewrite field_ok by lia. cbn [mbind result_bind]. destruct (_ =? PT_INTERP); [|done].
    replace (phoff + i * entsize + 16) with (phoff + i * entsize + 8 + 8) by lia.
    replace (phoff + i * entsize + 40) with (phoff + i * entsize + 32 + 8) by lia.
    rewrite !field_ok by lia. cbn [mbind result_bind]. unfold interp_of.
    pose proof (u_at_nonneg data (phoff + i * entsize + 32) 8 Hdata).
    destruct (Z.ltb_spec (len data) (u_at data (phoff + i * entsize + 8) 8 + u_at data (phoff + i * entsize + 32) 8)).
    + rewrite checked_spec. destruct (decide _); [|done]. by rewrite (proj2 (Z.ltb_lt _ _)) by lia.
    + rewrite checked_spec, decide_True by lia. rewrite (proj2 (Z.ltb_ge _ _)) by lia.
      rewrite slice_ok by lia. done.
Qed.

Lemma interp_of_spec off s : interp_of off = Some s <->
  let p_offset := u_at data (off + 8) 8 in
  let p_filesz := u_at data (off + 32) 8 in
  p_offset + p_filesz <= len data /\
  s = take_while (fun b => negb (b =? 0)) (take (Z.to_nat p_filesz) (drop (Z.to_nat p_offset) data)) /\
  Utf8.valid s = true.
Proof.
  unfold interp_of. cbv zeta. destruct (Z.ltb_spec (len data) (u_at data (off + 8) 8 + u_at data (off + 32) 8)).
  - split; [done|]. intros [? _]. lia.
  - match goal with |- context [Utf8.valid ?x] => generalize x; intros y end.
    destruct (Utf8.valid y) eqn:E; split; [intros [= <-]; done|intros (_ & -> & _); done|done|].
    intros (_ & -> & E'). congruence.
Qed.

Lemma phdr_loop_spec n : forall i, 0 <= i -> exists r, phdr_loop n i data phoff entsize = Ok r /\
  forall s, r = Some s <-> names_interp data phoff entsize i (Z.of_nat n) s.
Proof.
  induction n as [|n IH]; intros i Hi.
  { exists None. split; [done|]. intros s. split; [done|]. intros (k & ? & _). lia. }
  pose proof (phdr_step n i Hi) as E. cbv zeta in E. rewrite E. clear E.
  destruct (Z.ltb_spec (len data) (phoff + i * entsize + entsize)) as [Hl|Hl].
  { exists None. split; [done|]. intros s. split; [done|]. intros (k & ? & Hf & _).
    specialize (Hf i ltac:(lia)). lia. }
  destruct (Z.eqb_spec (u_at data (phoff + i * entsize) 4) PT_INTERP) as [Ht|Ht].
  { eexists. split; [done|]. intros s. rewrite interp_of_spec. split.
    - intros ?. exists i. split; [lia|]. split; [intros j ?; replace j with i by lia; done|].
      split; [intros; lia|]. done.
    - intros (k & ? & _ & Hn & _ & Hs). destruct (decide (k = i)) as [->|]; [done|].
      exfalso. apply (Hn i); [lia|done]. }
  destruct (IH (i + 1) ltac:(lia)) as (r & -> & Hr). exists r. split; [done|]. intros s. rewrite Hr. split.
  - intros (k & ? & Hf & Hn & Hs). exists k. split; [lia|]. split; [|split; [|done]].
    + intros j ?. destruct (decide (j = i)) as [->|]; [done|apply Hf; lia].
    + intros j ?. destruct (decide (j = i)) as [->|]; [done|apply Hn; lia].
  - intros (k & ? & Hf & Hn & Hk & Hs). destruct (decide (k = i)) as [->|]; [done|].
    exists k. split; [lia|]. split; [intros; apply Hf; lia|]. split; [intros; apply Hn; lia|done].
Qed.
End Interp.

(** The program header table of an ELF header. *)
Definition e_phoff (data : bytes) : Z := u_at data 32 8.
Definition e_phentsize (data : bytes) : Z := u_at data 54 2.
Definition e_phnum (data : bytes) : Z := u_at data 56 2.

Lemma parse_header data : 64 <= len data -> take 4 data = ELF_MAGIC -> data !! 4%nat = Some 2 -> data !! 5%nat = Some 1 ->
  parse_pt_interp data = phdr_loop (Z.to_nat (e_phnum data)) 0 data (e_phoff data) (e_phentsize data).
Proof.
  intros Hl Hm H4 H5. unfold parse_pt_interp. rewrite (proj2 (Z.ltb_ge _ _)) by lia.
  rewrite Hm, H4, H5, !bool_decide_true by done. cbn [negb].
  change (field data 32 40) with (field data 32 (32 + 8)). change (field data 54 56) with (field data 54 (54 + 2)).
  change (field data 56 58) with (field data 56 (56 + 2)). by rewrite !field_ok by lia.
Qed.

Lemma parse_other data : ~ elf64_le data -> parse_pt_interp data = Ok None.
Proof.
  unfold elf64_le, parse_pt_interp. intros Hn. destruct (Z.ltb_spec (len data) 64); [done|].
  destruct (bool_decide (take 4 data = ELF_MAGIC)) eqn:E1; [|done].
  destruct (bool_decide (data !! 4%nat = Some 2)) eqn:E2; [|done].
  destruct (bool_decide (data !! 5%nat = Some 1)) eqn:E3; [|done].
  apply bool_decide_eq_true in E1, E2, E3. exfalso. auto.
Qed.

(** C23: when the program headers of the file are at least 40 bytes, [parse_pt_interp] does not panic, and it
    returns a string exactly when the data is a 64-bit little-endian ELF header and the string is the one that
    the first [PT_INTERP] header names: the bytes of its segment up to the first NUL, in UTF-8, the segment and
    every header up to that one lying in the data. *)
Theorem parse_pt_interp_spec data : Forall is_u8 data -> len data < 2 ^ 64 -> 40 <= e_phentsize data ->
  exists r, parse_pt_interp data = Ok r /\
  forall s, r = Some s <->
    elf64_le data /\ names_interp data (e_phoff data) (e_phentsize data) 0 (e_phnum data) s.
Proof.
  intros Hd Hl He.
  destruct (decide (64 <= len data /\ take 4 data = ELF_MAGIC /\ data !! 4%nat = Some 2 /\ data !! 5%nat = Some 1))
    as [Helf|Hn].
  - destruct Helf as (H64 & Hm & H4 & H5). rewrite parse_header by done.
    destruct (phdr_loop_spec data (e_phoff data) (e_phentsize data) Hd Hl (u_at_nonneg _ _ _ Hd) He
                (Z.to_nat (e_phnum data)) 0 ltac:(lia)) as (r & -> & Hr).
    rewrite Z2Nat.id in Hr by apply (u_at_nonneg _ _ _ Hd). exists r. split; [done|]. intros s. rewrite Hr.
    unfold elf64_le. tauto.
  - exists None. split; [by apply parse_other|]. intros s. split; [done|]. by intros [? _].
Qed.

(** A small ELF file: the header, one program header of the given size and
    type, and the name of the interpreter. *)
Definition demo_elf (entsize : Z) : bytes :=
  ELF_MAGIC ++ [2; 1] ++ replicate 26 0 ++ [64; 0; 0; 0; 0; 0; 0; 0] ++ replicate 14 0 ++ [entsize; 0; 1; 0] ++ replicate 6 0
  ++ [3; 0; 0; 0; 4; 0; 0; 0] ++ [120; 0; 0; 0; 0; 0; 0; 0] ++ replicate 16 0 ++ [7; 0; 0; 0; 0; 0; 0; 0] ++ replicate 16 0
  ++ bs "/ld.so" ++ [0].

Lemma parse_pt_interp_spec_witness :
  (exists r, parse_pt_interp (demo_elf 56) = Ok r /\
   forall s, r = Some s <->
     elf64_le (demo_elf 56) /\ names_interp (demo_elf 56) (e_phoff (demo_elf 56)) (e_phentsize (demo_elf 56)) 0
                                 (e_phnum (demo_elf 56)) s) /\
  parse_pt_interp (demo_elf 56) = Ok (Some (bs "/ld.so")).
Proof.
  split; [|vm_compute; reflexivity]. apply (parse_pt_interp_spec (demo_elf 56)); by_eval.
Defined.

(** The size of a program header is not checked: with one of 4 bytes at the end
    of the data, the reads of [p_offset] and [p_filesz] are out of range. *)
Lemma parse_pt_interp_panics : parse_pt_interp (take 68 (demo_elf 4)) = Err Panic.
Proof. vm_compute. reflexivity. Qed.

(** ** The policy *)

(** C21: the rights that the enforced rules grant.  A right other than executing, reading a file and listing a
    directory is granted only beneath a path of [write_paths].  When [allow_exec] is false, executing is granted
    only on the target and on its ELF interpreter.  Nothing is granted outside the listed paths, the target and
    the interpreter.  Every listed path that can be opened has its rule. *)
Theorem apply_confines `{Target} h (beneath : bytes -> bytes -> Prop) profile target rules :
  access_law h -> Landlock.apply h profile target = Enforced rules ->
  (forall p i, granted beneath rules p i ->
     (Z.testbit (read_access true) i = false -> exists q, q ∈ write_paths profile /\ beneath q p) /\
     (allow_exec profile = false -> i = Z.log2 EXECUTE -> exists q, exec_path h target q /\ beneath q p) /\
     exists q, beneath q p /\ (q ∈ read_paths profile \/ q ∈ write_paths profile \/
                              allow_exec profile = false /\ exec_path h target q)) /\
  (forall q, path_fd h q = true ->
     (q ∈ read_paths profile -> (q, valid_access h q (read_access (allow_exec profile))) ∈ rules) /\
     (q ∈ write_paths profile -> (q, valid_access h q (write_access (allow_exec profile))) ∈ rules)).
Proof.
  intros Hlaw E. split.
  - intros p i Hg. destruct (granted_from h beneath _ _ _ _ _ Hlaw E Hg) as (q & Hb & Hq). split_and!.
    + intros Hi. exists q. split; [|done]. destruct Hq as [[_ Ht]|[[? _]|(_ & _ & Ht)]]; [|done|]; exfalso;
        revert Hi Ht; unfold read_access, exec_read; rewrite ?Z.lor_spec; destruct (allow_exec profile);
        rewrite ?Z.lor_spec; repeat destruct (Z.testbit _ i); done.
    + intros Hx ->. rewrite Hx in Hq. exists q. by destruct Hq as [[_ Ht]|[[_ Ht]|(_ & ? & _)]].
    + exists q. split; [done|]. tauto.
  - intros q Hq. apply apply_rules in E as (ex & -> & _).
    split; intros Hin; rewrite !elem_of_app, !elem_of_beneath_rules; auto.
Qed.

(** A host with the directories [/usr] and [/work] and the file [/bin/tool],
    whose rights lose those of directories. *)
Definition demo_host : LandlockHost := {|
  handle_access := fun _ => true; create := true;
  path_fd := fun p => bool_decide (p ∈ [bs "/usr"; bs "/work"; bs "/bin/tool"; bs "/ld.so"]);
  valid_access := fun p a => if bool_decide (p = bs "/bin/tool") then Z.land a 0xc007 else a;
  add_rule := fun _ => true; restrict_self := fun _ => Some FullyEnforced;
  read_head := fun p => if bool_decide (p = bs "/bin/tool") then Some (demo_elf 56) else None;
  path_exists := fun p => bool_decide (p = bs "/ld.so") |}.

Lemma demo_host_law : access_law demo_host.
Proof.
  intros p a i. unfold demo_host; cbn [valid_access]. destruct (bool_decide _); [|done].
  rewrite Z.land_spec. by intros [? _]%andb_prop.
Qed.

Definition demo_rules : list Rule :=
  [(bs "/usr", read_access false); (bs "/work", write_access false); (bs "/bin/tool", exec_read); (bs "/ld.so", exec_read)].

Lemma apply_confines_witness :
  let beneath q p := starts_with q p = true in
  let profile := demo_profile [bs "/usr"; bs "/missing"] [bs "/work"] in
  (forall p i, granted beneath demo_rules p i ->
     (Z.testbit (read_access true) i = false -> exists q, q ∈ write_paths profile /\ beneath q p) /\
     (allow_exec profile = false -> i = Z.log2 EXECUTE ->
        exists q, @exec_path (Reference.linux x86_64) demo_host (Some (bs "/bin/tool")) q /\ beneath q p) /\
     exists q, beneath q p /\ (q ∈ read_paths profile \/ q ∈ write_paths profile \/
        allow_exec profile = false /\ @exec_path (Reference.linux x86_64) demo_host (Some (bs "/bin/tool")) q)) /\
  (forall q, path_fd demo_host q = true ->
     (q ∈ read_paths profile -> (q, valid_access demo_host q (read_access (allow_exec profile))) ∈ demo_rules) /\
     (q ∈ write_paths profile -> (q, valid_access demo_host q (write_access (allow_exec profile))) ∈ demo_rules)).
Proof.
  intros beneath profile.
  apply (@apply_confines (Reference.linux x86_64) demo_host beneath profile (Some (bs "/bin/tool")) demo_rules).
  - exact demo_host_law.
  - vm_compute. reflexivity.
Defined.

(** Paths that cannot be opened give no rule and no error, even when none can. *)
Lemma apply_without_paths `{Target} profile target :
  allow_exec profile = true ->
  Landlock.apply {| handle_access := fun _ => true; create := true; path_fd := fun _ => false;
                    valid_access := fun _ a => a; add_rule := fun _ => true;
                    restrict_self := fun _ => Some FullyEnforced; read_head := fun _ => None;
                    path_exists := fun _ => false |} profile target = Enforced [].
Proof.
  intros Hx. unfold Landlock.apply, path_beneath_rules; simpl. rewrite Hx; simpl.
  assert (forall l : list bytes, List.filter (fun _ => false) l = []) as E by (induction l; done). by rewrite !E.
Qed.
