(* ===== verification/Rlimit.v ===== *)
(** * Rlimit: the resource limits of [rlimit.rs]

    The limits of a process as a map, changed by [set_rlimit] when the kernel
    accepts; [apply] from a profile and [apply_from_env] from the environment of
    the wrapper.  The theorem relates the two through [Env.wrapper_env]. *)

From stdpp Require Import gmap.
From S2P Require Import Prelude Text Env.

Definition MAX_CPU_TIMEOUT_SECS : Z := 30 * 24 * 3600.

(** Numbers of the resources in the Linux ABI. *)
Definition RLIMIT_CPU : Z := 0.
Definition RLIMIT_FSIZE : Z := 1.
Definition RLIMIT_CORE : Z := 4.
Definition RLIMIT_NPROC : Z := 6.
Definition RLIMIT_NOFILE : Z := 7.
Definition RLIMIT_AS : Z := 9.

(** The limits that have been set; soft and hard limit are the same value. *)
Abbreviation Limits := (gmap Z Z).

Section Rlimit.
Context (prlimit64 : Limits -> Z -> Z -> bool).

Definition set_rlimit (resource value : Z) (name : string) : ST Limits Error unit := fun l =>
  if prlimit64 l resource value then (<[resource := value]> l, Ok tt) else (l, Err (Rlimit name)).

Definition apply (profile : Profile) : ST Limits Error unit :=
  _ ← set_rlimit RLIMIT_CORE 0 "RLIMIT_CORE";
  _ ← (if 0 <? cpu_timeout_secs profile then
         if MAX_CPU_TIMEOUT_SECS <? cpu_timeout_secs profile then
           stop (Rlimit "cpu_timeout_secs {} exceeds maximum ({MAX_CPU_TIMEOUT_SECS})")
         else set_rlimit RLIMIT_CPU (cpu_timeout_secs profile) "RLIMIT_CPU"
       else mret tt);
  _ ← (if 0 <? max_file_size_mb profile then
         let bytes := max_file_size_mb profile * (1024 * 1024) in
         if 2 ^ 64 <=? bytes then stop (Rlimit "max_file_size_mb overflow")
         else set_rlimit RLIMIT_FSIZE bytes "RLIMIT_FSIZE"
       else mret tt);
  if 0 <? max_open_files profile then set_rlimit RLIMIT_NOFILE (max_open_files profile) "RLIMIT_NOFILE"
  else mret tt.

Context (env : list (bytes * bytes)).

Definition parse_env_u64 (name : string) : Result (option Z) :=
  match env_var (var_os env (bs name)) with
  | Ok v =>
    if decide (v = []) then Ok None
    else match parse_u64 v with
         | None => Err (Rlimit ("parse " ++ name))
         | Some n => if 0 <? n then Ok (Some n) else Ok None
         end
  | Err _ => Ok None
  end.

(** [if let Some(v) = parse_env_u64(name)? { .. }]. *)
Definition if_set (name : string) (k : Z -> ST Limits Error unit) : ST Limits Error unit :=
  match parse_env_u64 name with
  | Err e => stop e
  | Ok None => mret tt
  | Ok (Some v) => k v
  end.

Definition apply_from_env : ST Limits Error unit :=
  _ ← set_rlimit RLIMIT_CORE 0 "RLIMIT_CORE";
  _ ← if_set "ARAPUCA_RLIMIT_AS" (fun v => set_rlimit RLIMIT_AS v "RLIMIT_AS");
  _ ← if_set "ARAPUCA_RLIMIT_NPROC" (fun v => set_rlimit RLIMIT_NPROC v "RLIMIT_NPROC");
  _ ← if_set "ARAPUCA_RLIMIT_CPU" (fun v =>
        if MAX_CPU_TIMEOUT_SECS <? v then stop (Rlimit "ARAPUCA_RLIMIT_CPU {v} exceeds maximum ({MAX_CPU_TIMEOUT_SECS})")
        else set_rlimit RLIMIT_CPU v "RLIMIT_CPU");
  _ ← if_set "ARAPUCA_RLIMIT_FSIZE" (fun v => set_rlimit RLIMIT_FSIZE v "RLIMIT_FSIZE");
  if_set "ARAPUCA_RLIMIT_NOFILE" (fun v => set_rlimit RLIMIT_NOFILE v "RLIMIT_NOFILE").
End Rlimit.

(** ** The limits of the profile reach the process *)

Lemma parse_env_u64_dec env name n : 0 < n < 2 ^ 64 -> var_os env (bs name) = Some (dec n) ->
  parse_env_u64 env name = Ok (Some n).
Proof.
  intros Hn E. unfold parse_env_u64, env_var. rewrite E, Utf8.valid_ascii by (apply dec_ascii; lia).
  assert (Hp : parse_u64 (dec n) = Some n) by (apply parse_dec; lia). rewrite Hp.
  case_decide as Hd; [by rewrite Hd in Hp|]. by rewrite (proj2 (Z.ltb_lt _ _)) by lia.
Qed.

Lemma if_set_none env name k : var_os env (bs name) = None -> if_set env name k = mret tt.
Proof. intros E. unfold if_set, parse_env_u64. by rewrite E. Qed.

Lemma if_set_dec env name n k : var_os env (bs name) = (if 0 <? n then Some (dec n) else None) ->
  0 <= n < 2 ^ 64 ->
  if_set env name k = if 0 <? n then k n else mret tt.
Proof.
  intros E Hn. destruct (Z.ltb_spec 0 n); [|by apply if_set_none].
  unfold if_set. by rewrite (parse_env_u64_dec _ _ n) by (done || lia).
Qed.

Definition limits_in_range (p : Profile) : Prop :=
  0 <= cpu_timeout_secs p <= MAX_CPU_TIMEOUT_SECS /\
  0 <= max_file_size_mb p < 2 ^ 44 /\ 0 <= max_open_files p < 2 ^ 64.

#[export] Instance limits_in_range_dec p : Decision (limits_in_range p).
Proof. unfold limits_in_range. apply _. Defined.

(** What the limits are after a successful [apply]: core dumps are off, a
    positive limit is set and a zero one is left as it was. *)
Definition limited (p : Profile) (l l' : Limits) : Prop :=
  l' !! RLIMIT_CORE = Some 0 /\
  l' !! RLIMIT_CPU = (if 0 <? cpu_timeout_secs p then Some (cpu_timeout_secs p) else l !! RLIMIT_CPU) /\
  l' !! RLIMIT_FSIZE =
    (if 0 <? max_file_size_mb p then Some (max_file_size_mb p * 1048576) else l !! RLIMIT_FSIZE) /\
  l' !! RLIMIT_NOFILE = (if 0 <? max_open_files p then Some (max_open_files p) else l !! RLIMIT_NOFILE) /\
  l' !! RLIMIT_AS = l !! RLIMIT_AS /\ l' !! RLIMIT_NPROC = l !! RLIMIT_NPROC.

Lemma set_rlimit_ok prl r v name l l' u : set_rlimit prl r v name l = (l', Ok u) -> l' = <[r := v]> l.
Proof. unfold set_rlimit. destruct (prl l r v); congruence. Qed.

Lemma apply_limited prl p l l' : apply prl p l = (l', Ok tt) -> limited p l l'.
Proof.
  unfold apply. intros (l1 & u1 & H1 & H)%ST_bind_ok. apply set_rlimit_ok in H1 as ->.
  apply ST_bind_ok in H as (l2 & u2 & H2 & H). apply ST_bind_ok in H as (l3 & u3 & H3 & H).
  assert (E2 : l2 = if 0 <? cpu_timeout_secs p then <[RLIMIT_CPU := cpu_timeout_secs p]> (<[RLIMIT_CORE := 0]> l)
                    else <[RLIMIT_CORE := 0]> l).
  { destruct (0 <? cpu_timeout_secs p); [|by inversion H2].
    destruct (_ <? _); [done|by apply set_rlimit_ok in H2]. }
  assert (E3 : l3 = if 0 <? max_file_size_mb p then <[RLIMIT_FSIZE := max_file_size_mb p * 1048576]> l2 else l2).
  { destruct (0 <? max_file_size_mb p); [|by inversion H3].
    destruct (_ <=? _); [done|by apply set_rlimit_ok in H3]. }
  assert (E4 : l' = if 0 <? max_open_files p then <[RLIMIT_NOFILE := max_open_files p]> l3 else l3).
  { destruct (0 <? max_open_files p); [by apply set_rlimit_ok in H|by inversion H]. }
  clear H H2 H3. unfold limited. subst.
  unfold RLIMIT_CORE, RLIMIT_CPU, RLIMIT_FSIZE, RLIMIT_NOFILE, RLIMIT_AS, RLIMIT_NPROC.
  destruct (0 <? cpu_timeout_secs p), (0 <? max_file_size_mb p), (0 <? max_open_files p); split_and!;
    repeat (rewrite lookup_insert_eq || rewrite lookup_insert_ne by lia); done.
Qed.

(** The wrapper sets the limits of the profile from the environment. *)
Lemma env_limits prl p env l : wrapper_env p = Ok env -> limits_in_range p ->
  apply_from_env prl env l = apply prl p l.
Proof.
  intros H ([? Hc] & [? Hf] & ?). destruct (wrapper_env_rlimits p env H) as (Eas & Enp & Ec & Ef & En).
  assert (Es : saturating_mul_u64 (max_file_size_mb p) (1024 * 1024) = max_file_size_mb p * (1024 * 1024))
    by (unfold saturating_mul_u64; lia).
  rewrite Es in Ef. unfold MAX_CPU_TIMEOUT_SECS in Hc.
  assert (Ez : (0 <? max_file_size_mb p) = (0 <? max_file_size_mb p * (1024 * 1024)))
    by (apply bool_eq_iff; rewrite !Z.ltb_lt; lia).
  rewrite Ez in Ef.
  unfold apply_from_env, apply. rewrite (if_set_none _ _ _ Eas), (if_set_none _ _ _ Enp).
  rewrite (if_set_dec _ _ _ _ Ec), (if_set_dec _ _ _ _ Ef), (if_set_dec _ _ _ _ En) by lia.
  replace (MAX_CPU_TIMEOUT_SECS <? cpu_timeout_secs p) with false by (unfold MAX_CPU_TIMEOUT_SECS; lia).
  replace (2 ^ 64 <=? max_file_size_mb p * (1024 * 1024)) with false by lia.
  by rewrite <- Ez.
Qed.

(** What the types of the fields ([u64]) promise. *)
Definition limits_typed (p : Profile) : Prop :=
  0 <= cpu_timeout_secs p < 2 ^ 64 /\ 0 <= max_file_size_mb p < 2 ^ 64 /\ 0 <= max_open_files p < 2 ^ 64.

#[export] Instance limits_typed_dec p : Decision (limits_typed p).
Proof. unfold limits_typed. apply _. Defined.

(** The limits of any profile when the wrapper has set them: those of [limited], except that a file size of more
    bytes than a [u64] counts is the largest [u64], which is no limit (RLIM_INFINITY). *)
Definition enforced_limits (p : Profile) (l l' : Limits) : Prop :=
  l' !! RLIMIT_CORE = Some 0 /\
  l' !! RLIMIT_CPU = (if 0 <? cpu_timeout_secs p then Some (cpu_timeout_secs p) else l !! RLIMIT_CPU) /\
  l' !! RLIMIT_FSIZE =
    (if 0 <? max_file_size_mb p then Some (saturating_mul_u64 (max_file_size_mb p) 1048576) else l !! RLIMIT_FSIZE) /\
  l' !! RLIMIT_NOFILE = (if 0 <? max_open_files p then Some (max_open_files p) else l !! RLIMIT_NOFILE) /\
  l' !! RLIMIT_AS = l !! RLIMIT_AS /\ l' !! RLIMIT_NPROC = l !! RLIMIT_NPROC.

Lemma env_enforced prl p env l l' : wrapper_env p = Ok env -> limits_typed p ->
  apply_from_env prl env l = (l', Ok tt) -> enforced_limits p l l'.
Proof.
  intros H (Hc & Hf & Hn). destruct (wrapper_env_rlimits p env H) as (Eas & Enp & Ec & Ef & En).
  set (b := saturating_mul_u64 (max_file_size_mb p) (1024 * 1024)) in *.
  assert (Hb : 0 <= b < 2 ^ 64) by (unfold b, saturating_mul_u64; lia).
  assert (Ez : (0 <? max_file_size_mb p) = (0 <? b)) by (unfold b, saturating_mul_u64; apply bool_eq_iff; rewrite !Z.ltb_lt; lia).
  rewrite Ez in Ef. unfold apply_from_env. rewrite (if_set_none _ _ _ Eas), (if_set_none _ _ _ Enp).
  rewrite (if_set_dec _ _ _ _ Ec), (if_set_dec _ _ _ _ Ef), (if_set_dec _ _ _ _ En) by lia.
  intros (l1 & u1 & H1 & K)%ST_bind_ok. apply set_rlimit_ok in H1 as ->.
  apply ST_bind_ok in K as (? & u2 & [= <- _] & K). apply ST_bind_ok in K as (? & u3 & [= <- _] & K).
  apply ST_bind_ok in K as (l2 & u4 & H2 & K). apply ST_bind_ok in K as (l3 & u5 & H3 & K).
  assert (E2 : l2 = if 0 <? cpu_timeout_secs p then <[RLIMIT_CPU := cpu_timeout_secs p]> (<[RLIMIT_CORE := 0]> l)
                    else <[RLIMIT_CORE := 0]> l).
  { destruct (0 <? cpu_timeout_secs p); [|by inversion H2]. cbn beta in H2. destruct (MAX_CPU_TIMEOUT_SECS <? _); [done|by apply set_rlimit_ok in H2]. }
  assert (E3 : l3 = if 0 <? b then <[RLIMIT_FSIZE := b]> l2 else l2).
  { destruct (0 <? b); [by apply set_rlimit_ok in H3|by inversion H3]. }
  assert (E4 : l' = if 0 <? max_open_files p then <[RLIMIT_NOFILE := max_open_files p]> l3 else l3).
  { destruct (0 <? max_open_files p); [by apply set_rlimit_ok in K|by inversion K]. }
  clear K H2 H3. unfold enforced_limits. change 1048576 with (1024 * 1024). fold b. rewrite Ez. clearbody b. subst.
  unfold RLIMIT_CORE, RLIMIT_CPU, RLIMIT_FSIZE, RLIMIT_NOFILE, RLIMIT_AS, RLIMIT_NPROC.
  destruct (0 <? cpu_timeout_secs p), (0 <? b), (0 <? max_open_files p); split_and!;
    repeat (rewrite lookup_insert_eq || rewrite lookup_insert_ne by lia); done.
Qed.

Definition limits_profile : Profile :=
  let d := demo_profile [] [] in
  {| isolation := isolation d; read_paths := []; write_paths := []; max_memory_mb := 0; max_cpu_pct := 0;
     max_pids := 0; cgroup_policy := Required; cpu_timeout_secs := 60; max_file_size_mb := 512;
     max_open_files := 0; allow_exec := false; use_netns := false; use_pidns := false; dns_capture := false;
     lpac := false; seccomp_profile := Strict; audit_file_access := false; audit_network := false;
     seccomp_debug := false; allow_proxy_env := false; allow_keychain := false |}.

(** C24: the resource limits survive the trip: from the environment that [wrapper_env] builds for a profile with
    limits in range, [apply_from_env] makes the same calls, with the same outcome, as [apply] on the profile; when
    it succeeds, core dumps are off, the CPU, file size and open file limits of the profile are in force, and the
    other limits are as before. *)
Theorem limits_roundtrip prlimit64 p env l : wrapper_env p = Ok env -> limits_in_range p ->
  apply_from_env prlimit64 env l = Rlimit.apply prlimit64 p l /\
  forall l', apply_from_env prlimit64 env l = (l', Ok tt) -> limited p l l'.
Proof.
  intros H Hr. pose proof (env_limits prlimit64 p env l H Hr) as E. split; [done|].
  intros l'. rewrite E. apply apply_limited.
Qed.

Lemma limits_roundtrip_witness :
  exists env, wrapper_env limits_profile = Ok env /\
  apply_from_env (fun _ _ _ => true) env ∅ = Rlimit.apply (fun _ _ _ => true) limits_profile ∅ /\
  forall l', apply_from_env (fun _ _ _ => true) env ∅ = (l', Ok tt) -> limited limits_profile ∅ l'.
Proof.
  eexists. split; [vm_compute; reflexivity|].
  apply (limits_roundtrip (fun _ _ _ => true) limits_profile); [vm_compute; reflexivity|by_eval].
Defined.
