(* ===== verification/Process.v ===== *)
(** * Process: a process that applies the layers to itself

    The state of one process as far as the sandbox depends on it ([Proc]), the
    system calls the launcher code makes ([Call]) and the kernel that answers
    them ([Host]).  Code that runs in the process is a state transformer that
    may end the process ([Stop]); [fork] continues as the parent or as the child
    depending on the answer, so the ends of the children are ends of the same
    code.  The file also has the small steps of [wrapper.rs], and a program logic
    ([hoare]) for statements about every way in which a process can end. *)

From stdpp Require Import gmap.
From S2P Require Import Prelude Text Paths Env Json Bridge Seccomp Unotify Landlock Rlimit.

(** ** System calls *)

Inductive Call : Type :=
| Prctl (op arg : Z) | Getppid | Getpid | Setsid | Fork | Unshare (flags : Z)
| Read (fd n : Z) | Write (fd : Z) (buf : bytes) | Close (fd : Z) | Poll (fd timeout : Z)
| Pipe2 (flags : Z) | Socketpair | Socket (family ty proto : Z) | Send (fd : Z) (buf : bytes)
| SetRecvTimeout (fd secs : Z) | Recv (fd n : Z)
| BindTcp (port : Z) | BindUdp (port : Z) | BindUnix (path : bytes)
| FcntlGetfl (fd : Z) | FcntlSetfl (fd flags : Z) | FcntlCloexec (fd : Z)
| IgnoreSignal (sig : Z) | DefaultSignal (sig : Z) | ForwardSignal (sig : Z) | Kill (pid sig : Z)
| Raise (sig : Z) | Waitpid (pid : Z) (nohang : bool) | PidfdOpen (pid : Z) | PidfdGetfd (pidfd fd : Z)
| Getrandom (n : Z) | CreateNew (path : bytes) | WriteFile (path content : bytes) | Unlink (path : bytes)
| LookupHost (name : bytes) | MakeTempDir (prefix : bytes) | RemoveDirAll (path : bytes)
| MountBind (src dst : bytes) | RemountReadOnly (dst : bytes)
| SeccompListener (prog : list sock_filter)
| ExecveCall (cmd : bytes) (argv envp : list bytes).

(** The value of a call, [errno] when it is negative, and what it writes into
    the caller's memory. *)
Record Answer : Type := { ret : Z; errno : Z; out : list Z }.

Definition O_CLOEXEC : Z := 0x80000.
Definition O_NONBLOCK : Z := 0x800.
Definition PR_SET_NO_NEW_PRIVS : Z := 38.
Definition PR_GET_SECCOMP : Z := 21.
Definition EINTR : Z := 4.
Definition EAGAIN : Z := 11.
Definition SIGHUP : Z := 1.
Definition SIGINT : Z := 2.
Definition SIGQUIT : Z := 3.
Definition SIGKILL : Z := 9.
Definition SIGPIPE : Z := 13.
Definition SIGTERM : Z := 15.

(** How a process ends, or the loop it enters for good: the helpers serve
    until they are killed. *)
Inductive Stop : Type :=
| Exit (code : Z)
| Panicked
| Killed (sig : Z)
| Exec (cmd : bytes) (argv envp : list bytes)
| ServeRelay (listener : Z) (uds : bytes) (dns : option (Z * Z))
| ServeDns (dns : option (Z * Z))
| ServeProxy (listener : Z) (hosts : list AllowedHost)
| Supervise (listener audit : Z) (config : UnotifyConfig)
| Hang.

Section Process.
Context `{T : Target} `{SC : Seccompiler}.

(** The state: the calls made so far, the open descriptors, the environment,
    the attributes that [prctl] sets, the Landlock domains (newest first), the
    installed filters (newest first) and the resource limits. *)
Record Proc : Type := {
  trace : list Call;
  fds : gset Z;
  environ : list (bytes * bytes);
  pdeathsig : bool;
  no_new_privs : bool;
  dumpable : bool;
  domains : list (list Rule);
  filters : list BpfProgram;
  limits : Limits;
}.

(** The kernel, the file system and the crates: an answer may depend on all
    the calls made before.  [error_text] is the [Display] of an error;
    [retries] bounds the loops that wait or retry after EINTR: when it is used
    up the process is in the loop ([Hang]).  [unotify_available] is the outcome of
    the probe of [unotify.rs]; [proc_self_stat] the text of that file. *)
Record Host : Type := {
  answer : list Call -> Call -> Answer;
  metadata_ok : bytes -> bool;
  canonicalize : bytes -> option bytes;
  is_file : bytes -> bool;
  error_text : Error -> bytes;
  fd_kernel : FdKernel;
  landlock_host : LandlockHost;
  accepts : list BpfProgram -> BpfProgram -> bool;
  prlimit64 : Limits -> Z -> Z -> bool;
  unotify_available : bool;
  proc_self_stat : option bytes;
  retries : nat;
}.

Abbreviation Run := (ST Proc Stop).

Definition set_fds (f : gset Z -> gset Z) (p : Proc) : Proc :=
  {| trace := trace p; fds := f (fds p); environ := environ p; pdeathsig := pdeathsig p;
     no_new_privs := no_new_privs p; dumpable := dumpable p; domains := domains p; filters := filters p;
     limits := limits p |}.
Definition set_attrs (d n u : bool) (p : Proc) : Proc :=
  {| trace := trace p; fds := fds p; environ := environ p; pdeathsig := d; no_new_privs := n; dumpable := u;
     domains := domains p; filters := filters p; limits := limits p |}.
Definition set_environ (e : list (bytes * bytes)) (p : Proc) : Proc :=
  {| trace := trace p; fds := fds p; environ := e; pdeathsig := pdeathsig p; no_new_privs := no_new_privs p;
     dumpable := dumpable p; domains := domains p; filters := filters p; limits := limits p |}.
Definition set_layers (d : list (list Rule)) (f : list BpfProgram) (l : Limits) (p : Proc) : Proc :=
  {| trace := trace p; fds := fds p; environ := environ p; pdeathsig := pdeathsig p;
     no_new_privs := no_new_privs p; dumpable := dumpable p; domains := d; filters := f; limits := l |}.
Definition log_call (c : Call) (p : Proc) : Proc :=
  {| trace := trace p ++ [c]; fds := fds p; environ := environ p; pdeathsig := pdeathsig p;
     no_new_privs := no_new_privs p; dumpable := dumpable p; domains := domains p; filters := filters p;
     limits := limits p |}.

(** The descriptors that a successful call opens. *)
Definition new_fds (c : Call) (a : Answer) : list Z :=
  match c with
  | Pipe2 _ | Socketpair => if ret a =? 0 then take 2 (out a) else []
  | Socket _ _ _ | BindTcp _ | BindUdp _ | BindUnix _ | PidfdOpen _ | PidfdGetfd _ _ | SeccompListener _ =>
    if 0 <=? ret a then [ret a] else []
  | _ => []
  end.

(** What a call does to the process, as documented in the manual pages: the
    parent death signal is cleared in the child of a [fork]. *)
Definition effect (c : Call) (a : Answer) (p : Proc) : Proc :=
  let ok := ret a =? 0 in
  match c with
  | Prctl op arg =>
    if negb ok then p
    else if op =? PR_SET_PDEATHSIG then set_attrs (negb (arg =? 0)) (no_new_privs p) (dumpable p) p
    else if op =? PR_SET_NO_NEW_PRIVS then set_attrs (pdeathsig p) (no_new_privs p || (arg =? 1)) (dumpable p) p
    else if op =? PR_SET_DUMPABLE then set_attrs (pdeathsig p) (no_new_privs p) (arg =? 1) p
    else p
  | Fork => if ok then set_attrs false (no_new_privs p) (dumpable p) p else p
  | Close fd => set_fds (fun s => s ∖ {[fd]}) p
  | c => set_fds (fun s => s ∪ list_to_set (new_fds c a)) p
  end.

Context (h : Host).

Definition syscall (c : Call) : Run Answer := fun p =>
  let a := answer h (trace p) c in (effect c a (log_call c p), Ok a).

Definition exit {A} (code : Z) : Run A := stop (Exit code).

(** [std::env::var_os], [std::env::var] and [std::env::set_var]. *)
Definition getenv_os (name : string) : Run (option bytes) := get (fun p => var_os (environ p) (bs name)).
Definition getenv (name : string) : Run (result VarError bytes) :=
  get (fun p => env_var (var_os (environ p) (bs name))).

Fixpoint put_var (k v : bytes) (env : list (bytes * bytes)) : list (bytes * bytes) :=
  match env with
  | [] => [(k, v)]
  | (k', v') :: env => if bool_decide (k' = k) then (k, v) :: env else (k', v') :: put_var k v env
  end.
Definition set_var (name : string) (v : bytes) : Run unit :=
  modify (fun p => set_environ (put_var (bs name) v (environ p)) p).

(** A descriptor number in a variable: [.ok().and_then(|s| s.parse().ok())]. *)
Definition parse_fd (v : result VarError bytes) : option Z :=
  match v with Ok s => parse_i32 s | Err _ => None end.
Definition nonneg_fd (o : option Z) : option Z :=
  match o with Some fd => if 0 <=? fd then Some fd else None | None => None end.

Definition close_opt (o : option Z) : Run unit :=
  match o with Some fd => _ ← syscall (Close fd); mret tt | None => mret tt end.

(** ** [wrapper.rs] *)

Fixpoint which_loop (dirs : list bytes) (cmd : bytes) : option bytes :=
  match dirs with
  | [] => None
  | dir :: dirs =>
    let candidate := push dir cmd in
    if is_file h candidate then Some candidate else which_loop dirs cmd
  end.
Definition which (cmd : bytes) : Run (option bytes) :=
  path_var ← getenv_os "PATH";
  mret (match path_var with
        | Some path => if Utf8.valid path then which_loop (split 58 path) cmd else None
        | None => None
        end).

Definition audit_line (layer : string) (ok : bool) (error : option bytes) : bytes :=
  object ([str_member "layer" (bs layer); str_member "status" (if ok then bs "applied" else bs "failed")]
          ++ match error with Some err => [str_member "error" (json_escape err)] | None => [] end)
  ++ [10].

Definition audit_layer (fd : option Z) (layer : string) (ok : bool) (error : option bytes) : Run unit :=
  match fd with
  | None => mret tt
  | Some fd => _ ← syscall (Write fd (audit_line layer ok error)); mret tt
  end.

(** [{b:02x}]. *)
Definition hex2 (b : Z) : bytes := [hex_digit (b / 16); hex_digit (b mod 16)].

Definition override_resolv_conf : Run bool :=
  tmp ← getenv "TMPDIR";
  let tmpdir := match tmp with Ok v => v | Err _ => bs "/tmp" end in
  pid ← syscall Getpid;
  rand ← syscall (Getrandom 8);
  let rand_hex := if ret rand =? 8 then concat (map hex2 (out rand)) else bs "00000000" in
  let path := tmpdir ++ bs "/.arapuca-resolv-" ++ dec (wrap 32 (ret pid)) ++ bs "-" ++ rand_hex ++ bs ".conf" in
  f ← syscall (CreateNew path);
  if ret f <? 0 then mret false
  else
    w ← syscall (WriteFile path (bs "nameserver 127.0.0.1" ++ [10]));
    if ret w <? 0 then _ ← syscall (Unlink path); mret false
    else if contains 0 path then mret false
    else
      m ← syscall (MountBind path (bs "/etc/resolv.conf"));
      if negb (ret m =? 0) then _ ← syscall (Unlink path); mret false
      else
        _ ← syscall (RemountReadOnly (bs "/etc/resolv.conf"));
        _ ← syscall (Unlink path);
        mret true.

(** ** Steps that the helpers share *)

(** [?] on the result of a step. *)
Definition bindr {A B} (m : Run (Result A)) (k : A -> Run (Result B)) : Run (Result B) :=
  r ← m; match r with Ok a => k a | Err e => mret (Err e) end.

(** A function that does not return ([-> !]). *)
Definition never {A} (m : Run Empty_set) : Run A := r ← m; match (r : Empty_set) return Run A with end.

(** A call that is made again while it fails with EINTR. *)
Fixpoint retry_eintr (n : nat) (c : Call) : Run Answer :=
  match n with
  | O => stop Hang
  | S n => a ← syscall c; if (0 <=? ret a) || negb (errno a =? EINTR) then mret a else retry_eintr n c
  end.

(** The two descriptors of [pipe2] and [socketpair]. *)
Definition fd_pair (a : Answer) : Z * Z := (nth 0 (out a) 0, nth 1 (out a) 0).

Definition close_others (keep : list Z) : Run unit := modify (set_fds (close_fds_except (fd_kernel h) keep)).

(** Installing filters with the code of [Seccomp] and [Allowlists]. *)
Definition install (m : M unit) : Run (Result unit) := fun p =>
  let '(k, r) := m (filters p) in (set_layers (domains p) k (limits p) p, Ok r).

(** [Profile { read_paths, write_paths, allow_exec, ..Default::default() }]. *)
Definition paths_profile (r w : list bytes) (exec : bool) : Profile :=
  {| isolation := IsoProcess; read_paths := r; write_paths := w; max_memory_mb := 0;
     max_cpu_pct := 0; max_pids := 0; cgroup_policy := Required; cpu_timeout_secs := 0;
     max_file_size_mb := 0; max_open_files := 0; allow_exec := exec; use_netns := false;
     use_pidns := false; dns_capture := false; lpac := false; seccomp_profile := Strict;
     audit_file_access := false; audit_network := false; seccomp_debug := false;
     allow_proxy_env := false; allow_keychain := false |}.

(** [landlock::apply]; a panic ends the process.  That [restrict_self] also sets
    the no-new-privileges attribute is not used. *)
Definition restrict (profile : Profile) (target : option bytes) : Run (Result unit) := fun p =>
  match Landlock.apply (landlock_host h) profile target with
  | Enforced rules => (set_layers (rules :: domains p) (filters p) (limits p) p, Ok (Ok tt))
  | Failed e => (p, Ok (Err e))
  | Aborted => (p, Err Panicked)
  end.

(** A call whose failure ends the child. *)
Definition must (c : Call) : Run unit :=
  a ← syscall c; if ret a =? 0 then mret tt else exit 1.

(** The race check after [fork]. *)
Definition parent_alive (parent_pid : Z) : Run unit :=
  a ← syscall Getppid; if ret a =? parent_pid then mret tt else exit 1.

Definition set_nonblocking (fd : Z) : Run unit :=
  a ← syscall (FcntlGetfl fd);
  if 0 <=? ret a then _ ← syscall (FcntlSetfl fd (Z.lor (ret a) O_NONBLOCK)); mret tt else mret tt.
End Process.

Abbreviation Run := (ST Proc Stop).

Notation "x ←? m ; k" := (bindr m (fun x => k))
  (at level 20, m at level 100, k at level 200, format "x  ←?  m ;  '/' k") : stdpp_scope.

(** ** Reasoning about processes *)

Section Logic.
Context `{T : Target} `{SC : Seccompiler} (h : Host).

(** What is assumed of the kernel: the numbers of the descriptors it makes, and
    the facts about closing descriptors of [Bridge]. *)
Record host_ok : Prop := {
  fd_numbers t c fd : fd ∈ new_fds c (answer h t c) -> 0 <= fd < 2 ^ 31;
  fd_closing : fd_kernel_ok (fd_kernel h);
}.

(** [p] has the attributes of [q], and only descriptors in [K]; the calls made
    may differ. *)
Record held (K : Z -> Prop) (q p : Proc) : Prop := {
  held_environ : environ p = environ q;
  held_pdeathsig : pdeathsig p = pdeathsig q;
  held_nnp : no_new_privs p = no_new_privs q;
  held_dumpable : dumpable p = dumpable q;
  held_domains : domains p = domains q;
  held_filters : filters p = filters q;
  held_limits : limits p = limits q;
  held_range : fds_ok (fds p);
  held_fds fd : fd ∈ fds p -> K fd;
}.

(** Calls that change no attribute. *)
Definition neutral (c : Call) : bool :=
  match c with Prctl op _ => negb (bool_decide (op ∈ [PR_SET_PDEATHSIG; PR_SET_NO_NEW_PRIVS; PR_SET_DUMPABLE]))
             | Fork => false | _ => true end.

(** Stops of a process that serves nobody and executes nothing. *)
Definition quiet (e : Stop) : Prop :=
  match e with Exit _ | Panicked | Killed _ | Hang => True | _ => False end.

Context (Hh : host_ok).

Lemma effect_fds c t p : fds_ok (fds p) -> fds_ok (fds (effect c (answer h t c) p)).
Proof.
  intros Hf fd. pose proof (fd_numbers Hh t c fd) as Hn. specialize (Hf fd).
  destruct c; cbn [effect set_fds fds]; try (rewrite elem_of_union, elem_of_list_to_set; tauto).
  - by repeat case_match.
  - by case_match.
  - rewrite elem_of_difference. tauto.
Qed.

Lemma effect_neutral K q c t p : neutral c = true -> held K q p ->
  held (fun fd => K fd \/ fd ∈ new_fds c (answer h t c)) q (effect c (answer h t c) (log_call c p)).
Proof.
  intros Hn [He Hd Hp Hu Hdo Hfi Hl Hf HK].
  pose proof (effect_fds c t (log_call c p) Hf) as Hf'. split; try exact Hf'; clear Hf'.
  8:{ intros fd. specialize (HK fd). destruct c; cbn [effect set_fds fds log_call];
        try (rewrite elem_of_union, elem_of_list_to_set; tauto);
        [by repeat case_match; simpl; auto|done|rewrite elem_of_difference; tauto]. }
  all: destruct c; simpl in *; try done; apply negb_true_iff, bool_decide_eq_false in Hn;
    rewrite !not_elem_of_cons in Hn; destruct Hn as (? & ? & ? & _);
    repeat (case_match; simpl; try done); lia.
Qed.

(** *** Rules for the first step of a sequence *)

Context {A : Type} (Q : A -> Proc -> Prop) (X : Stop -> Proc -> Prop).
Context (HX : forall e p, quiet e -> X e p).

Lemma held_weaken (K K' : Z -> Prop) q p : held K q p -> (forall fd, K fd -> K' fd) -> held K' q p.
Proof. intros [] H. split; auto. Qed.

Lemma hoare_held (K K' : Z -> Prop) q (m : Run A) :
  hoare (held K' q) m Q X -> (forall fd, K fd -> K' fd) -> hoare (held K q) m Q X.
Proof. intros Hm H. eapply hoare_pre; [exact Hm|]. intros p Hp. by eapply held_weaken. Qed.

Lemma bind_open K q c (f : Answer -> Run A) : neutral c = true ->
  (forall a, hoare (held (fun fd => K fd \/ fd ∈ new_fds c a) q) (f a) Q X) ->
  hoare (held K q) (syscall h c ≫= f) Q X.
Proof. intros Hc Hf p Hp. apply (Hf (answer h (trace p) c)). by apply effect_neutral. Qed.

Lemma bind_call K q c (f : Answer -> Run A) : neutral c = true -> (forall a, new_fds c a = []) ->
  (forall a, hoare (held K q) (f a) Q X) -> hoare (held K q) (syscall h c ≫= f) Q X.
Proof.
  intros Hc Hn Hf. apply bind_open; [done|]. intros a. eapply hoare_held; [apply Hf|].
  intros fd [?|Hin]; [done|]. by rewrite Hn in Hin; apply elem_of_nil in Hin.
Qed.

Lemma bind_close K q fd (f : Answer -> Run A) :
  (forall a, hoare (held (fun x => K x /\ x <> fd) q) (f a) Q X) ->
  hoare (held K q) (syscall h (Close fd) ≫= f) Q X.
Proof.
  intros Hf p Hp. apply (Hf (answer h (trace p) (Close fd))). destruct Hp as [? ? ? ? ? ? ? Hr HK].
  split; try done; intros x; simpl; rewrite elem_of_difference, elem_of_singleton; [|by intros [? ?]; auto].
  intros [? _]. by apply Hr.
Qed.

Lemma bind_must K q q' c (f : unit -> Run A) :
  (forall t p, ret (answer h t c) = 0 -> held K q p -> held K q' (effect c (answer h t c) (log_call c p))) ->
  hoare (held K q') (f tt) Q X -> hoare (held K q) (must h c ≫= f) Q X.
Proof.
  intros Hc Hf p Hp. unfold must, mbind, ST_bind, syscall. cbn [fst snd].
  destruct (Z.eqb_spec (ret (answer h (trace p) c)) 0) as [E|]; [|by apply HX].
  apply (Hf (effect c (answer h (trace p) c) (log_call c p))). by apply Hc.
Qed.

Lemma must_pdeathsig K q (f : unit -> Run A) :
  hoare (held K (set_attrs true (no_new_privs q) (dumpable q) q)) (f tt) Q X ->
  hoare (held K q) (must h (Prctl PR_SET_PDEATHSIG SIGKILL) ≫= f) Q X.
Proof. apply bind_must. intros t p E []. by split; simpl; rewrite ?E. Qed.

Lemma must_nnp K q (f : unit -> Run A) :
  hoare (held K (set_attrs (pdeathsig q) true (dumpable q) q)) (f tt) Q X ->
  hoare (held K q) (must h (Prctl PR_SET_NO_NEW_PRIVS 1) ≫= f) Q X.
Proof. apply bind_must. intros t p E []. by split; simpl; rewrite ?E; simpl; rewrite ?orb_true_r. Qed.

Lemma must_undumpable K q (f : unit -> Run A) :
  hoare (held K (set_attrs (pdeathsig q) (no_new_privs q) false q)) (f tt) Q X ->
  hoare (held K q) (must h (Prctl PR_SET_DUMPABLE 0) ≫= f) Q X.
Proof. apply bind_must. intros t p E []. by split; simpl; rewrite ?E. Qed.

Lemma bind_parent_alive K q pid (f : unit -> Run A) :
  hoare (held K q) (f tt) Q X -> hoare (held K q) (parent_alive h pid ≫= f) Q X.
Proof.
  intros Hf. unfold parent_alive. intros p Hp. unfold mbind, ST_bind, syscall. cbn [fst snd].
  destruct (ret _ =? pid); [|by apply HX]. apply Hf. eapply held_weaken; [by apply effect_neutral|].
  intros fd [?|Hin]; [done|]. by apply elem_of_nil in Hin.
Qed.

Lemma bind_set_nonblocking K q fd (f : unit -> Run A) :
  hoare (held K q) (f tt) Q X -> hoare (held K q) (set_nonblocking h fd ≫= f) Q X.
Proof.
  intros Hf. assert (Hn : forall c p, neutral c = true -> (forall a, new_fds c a = []) -> held K q p ->
    held K q (effect c (answer h (trace p) c) (log_call c p))).
  { intros c p Hc Hn Hp. eapply held_weaken; [by apply effect_neutral|]. intros x [?|Hin]; [done|].
    by rewrite Hn in Hin; apply elem_of_nil in Hin. }
  intros p Hp. unfold set_nonblocking, mbind, ST_bind, syscall. cbn [fst snd].
  destruct (0 <=? ret _); apply Hf; repeat apply Hn; done.
Qed.

Lemma bind_fork K q (f : Answer -> Run A) :
  (forall a, ret a = 0 -> hoare (held K (set_attrs false (no_new_privs q) (dumpable q) q)) (f a) Q X) ->
  (forall a, ret a <> 0 -> hoare (held K q) (f a) Q X) ->
  hoare (held K q) (syscall h Fork ≫= f) Q X.
Proof.
  intros H0 H1 p Hp. unfold mbind, ST_bind, syscall. cbn [effect].
  destruct (Z.eqb_spec (ret (answer h (trace p) Fork)) 0) as [E|E].
  - apply H0; [done|]. destruct Hp. by split.
  - apply H1; [done|]. destruct Hp. by split.
Qed.

Lemma bind_get {B} K q (g : Proc -> B) (f : B -> Run A) : (forall p, held K q p -> g p = g q) ->
  hoare (held K q) (f (g q)) Q X -> hoare (held K q) (get g ≫= f) Q X.
Proof. intros Hg Hf p Hp. unfold mbind, ST_bind, get. rewrite (Hg p Hp). by apply Hf. Qed.

Lemma bind_getenv K q name (f : result VarError bytes -> Run A) :
  hoare (held K q) (f (env_var (var_os (environ q) (bs name)))) Q X -> hoare (held K q) (getenv name ≫= f) Q X.
Proof. apply (bind_get K q (fun p => env_var (var_os (environ p) (bs name)))). intros p []. by f_equal; f_equal. Qed.

Lemma bind_getenv_os K q name (f : option bytes -> Run A) :
  hoare (held K q) (f (var_os (environ q) (bs name))) Q X -> hoare (held K q) (getenv_os name ≫= f) Q X.
Proof. apply (bind_get K q (fun p => var_os (environ p) (bs name))). intros p []. by f_equal. Qed.

Lemma bind_set_var K q name v (f : unit -> Run A) :
  hoare (held K (set_environ (put_var (bs name) v (environ q)) q)) (f tt) Q X ->
  hoare (held K q) (set_var name v ≫= f) Q X.
Proof.
  intros Hf p Hp. apply Hf. destruct Hp as [He ? ? ? ? ? ? ? ?]. split; simpl; try done. by rewrite He.
Qed.

Lemma bind_install K q m (f : Result unit -> Run A) :
  hoare (held K (set_layers (domains q) (m (filters q)).1 (limits q) q)) (f (m (filters q)).2) Q X ->
  hoare (held K q) (install m ≫= f) Q X.
Proof.
  intros Hf p Hp. destruct Hp as [? ? ? ? Hd Hk Hl ? ?]. unfold mbind, ST_bind, install. rewrite Hk.
  destruct (m (filters q)) as [k r] eqn:E. apply Hf. split; simpl; try done; congruence.
Qed.

Lemma bind_restrict K q profile target (f : Result unit -> Run A) :
  (forall rules, Landlock.apply (landlock_host h) profile target = Enforced rules ->
     hoare (held K (set_layers (rules :: domains q) (filters q) (limits q) q)) (f (Ok tt)) Q X) ->
  (forall e, hoare (held K q) (f (Err e)) Q X) ->
  hoare (held K q) (restrict h profile target ≫= f) Q X.
Proof.
  intros Hok He p Hp. unfold mbind, ST_bind, restrict.
  destruct (Landlock.apply _ _ _) as [rules|e|] eqn:E; [|by apply He|by apply HX].
  apply (Hok rules eq_refl). destruct Hp as [? ? ? ? Hd Hk Hl ? ?]. split; simpl; try done; congruence.
Qed.

Lemma bind_close_others K q keep (f : unit -> Run A) :
  hoare (held (fun fd => K fd /\ (fd < 3 \/ fd ∈ keep)) q) (f tt) Q X ->
  hoare (held K q) (close_others h keep ≫= f) Q X.
Proof.
  intros Hf p Hp. unfold mbind, ST_bind, close_others, modify. apply Hf.
  destruct Hp as [? ? ? ? ? ? ? Hr HK]. split; simpl; try done.
  - intros fd. rewrite close_fds_except_filter by (done || apply Hh). rewrite elem_of_filter. intros [_ ?]. by apply Hr.
  - intros fd. rewrite close_fds_except_filter by (done || apply Hh). rewrite elem_of_filter. intros [? ?]. auto.
Qed.
End Logic.

(** Code that changes no attribute. *)
Section Steps.
Context `{T : Target} `{SC : Seccompiler} (h : Host) (Hh : host_ok h).
Context (X : Stop -> Proc -> Prop) (HX : forall e p, quiet e -> X e p).

Definition any (fd : Z) : Prop := True.

Lemma held_any K q p : held K q p -> held any q p.
Proof. intros H. by eapply held_weaken. Qed.

(** A step that keeps the attributes of every state. *)
Definition keeps {A} (m : Run A) : Prop := forall q, hoare (held any q) m (fun _ => held any q) X.

Lemma bind_keeps {A B} (Q : B -> Proc -> Prop) K q (m : Run A) (f : A -> Run B) : keeps m ->
  (forall a, hoare (held any q) (f a) Q X) -> hoare (held K q) (m ≫= f) Q X.
Proof.
  intros Hm Hf. eapply hoare_bind; [|exact Hf]. eapply hoare_held; [apply Hm|done].
Qed.

Lemma keeps_call c : neutral c = true -> keeps (syscall h c).
Proof. intros Hc q p Hp. eapply held_any. by apply effect_neutral. Qed.

Lemma keeps_retry n c : neutral c = true -> keeps (retry_eintr h n c).
Proof.
  intros Hc. induction n as [|n IH]; intros q; simpl; [by apply hoare_stop; intros; apply HX|].
  apply (bind_keeps _ any); [by apply keeps_call|]. intros a. destruct (_ || _); [by apply hoare_ret|apply IH].
Qed.

Lemma keeps_ret {A} (a : A) : keeps (mret a).
Proof. intros q. by apply hoare_ret. Qed.

Lemma keeps_bind {A B} (m : Run A) (f : A -> Run B) : keeps m -> (forall a, keeps (f a)) -> keeps (m ≫= f).
Proof. intros Hm Hf q. apply bind_keeps; [done|]. intros a. apply Hf. Qed.

Lemma keeps_exit {A} c : keeps (A := A) (exit c).
Proof. intros q. apply hoare_stop. intros. by apply HX. Qed.

Lemma keeps_hang {A} : keeps (A := A) (stop Hang).
Proof. intros q. apply hoare_stop. intros. by apply HX. Qed.

Lemma keeps_getenv name : keeps (getenv name).
Proof. intros q p Hp. exact Hp. Qed.

Lemma keeps_getenv_os name : keeps (getenv_os name).
Proof. intros q p Hp. exact Hp. Qed.

Lemma keeps_never {A} (m : Run Empty_set) : keeps m -> forall (Q : A -> Proc -> Prop) K q, hoare (held K q) (never m) Q X.
Proof. intros Hm Q K q. unfold never. apply bind_keeps; [done|]. intros []. Qed.

Lemma keeps_audit fd layer ok err : keeps (audit_layer h fd layer ok err).
Proof.
  unfold audit_layer. destruct fd; [|apply keeps_ret]. apply keeps_bind; [by apply keeps_call|intros; apply keeps_ret].
Qed.

Lemma keeps_close fd : keeps (close_opt h fd).
Proof.
  unfold close_opt. destruct fd; [|apply keeps_ret]. apply keeps_bind; [by apply keeps_call|intros; apply keeps_ret].
Qed.
End Steps.

(** Steps whose attribute preservation follows from that of their parts. *)
Create HintDb keeps.
#[export] Hint Resolve keeps_ret keeps_getenv keeps_getenv_os keeps_audit keeps_close keeps_exit keeps_hang keeps_retry : keeps.

Ltac keep :=
  repeat first
    [ lazymatch goal with |- keeps _ (syscall _ _) => apply keeps_call; [assumption|reflexivity] end
    | solve [eauto with keeps nocore]
    | lazymatch goal with
      | |- keeps _ (_ ≫= _) => apply keeps_bind; [|intros ?]
      | |- keeps _ (match ?x with _ => _ end) => destruct x
      end ].

(** The state after an update, as a record. *)
Ltac flat := cbn [set_attrs set_layers set_environ set_fds environ pdeathsig no_new_privs dumpable domains filters
                  limits trace fds].

Ltac quiet_end :=
  first [exact I | match goal with H : forall e p, quiet e -> _ |- _ => apply H; exact I end].

(** One step of symbolic execution: the rule for the first instruction, or a
    case distinction on the condition it depends on. *)
Ltac hstep :=
  lazymatch goal with
  | |- hoare _ ((_ ≫= _) ≫= _) _ _ => apply hoare_assoc
  | |- hoare _ (bindr _ _) _ _ => unfold bindr
  | |- hoare _ (bindr _ _ ≫= _) _ _ => unfold bindr
  | |- hoare _ (mret _ ≫= _) _ _ => apply hoare_ret_bind
  | |- hoare _ (exit _ ≫= _) _ _ => apply hoare_stop_bind; intros ? _; quiet_end
  | |- hoare _ (stop _ ≫= _) _ _ => apply hoare_stop_bind; intros
  | |- hoare _ (exit _) _ _ => apply hoare_stop; intros ? _; quiet_end
  | |- hoare _ (stop _) _ _ => apply hoare_stop; intros
  | |- hoare _ (mret _) _ _ => apply hoare_ret; intros
  | |- hoare _ (getenv _ ≫= _) _ _ => apply bind_getenv
  | |- hoare _ (getenv_os _ ≫= _) _ _ => apply bind_getenv_os
  | |- hoare _ (set_var _ _ ≫= _) _ _ => apply bind_set_var; flat
  | |- hoare _ (syscall _ (Close _) ≫= _) _ _ => apply bind_close; intros ?
  | |- hoare _ (syscall _ Fork ≫= _) _ _ => apply bind_fork; intros ? ?; flat
  | |- hoare _ (syscall _ _ ≫= _) _ _ => first
      [ apply bind_call; [assumption|reflexivity|intros ?; reflexivity|intros ?]
      | apply bind_open; [assumption|reflexivity|intros ?] ]
  | |- hoare _ (must _ (Prctl PR_SET_PDEATHSIG _) ≫= _) _ _ => apply must_pdeathsig; [assumption|flat]
  | |- hoare _ (must _ (Prctl PR_SET_NO_NEW_PRIVS _) ≫= _) _ _ => apply must_nnp; [assumption|flat]
  | |- hoare _ (must _ (Prctl PR_SET_DUMPABLE _) ≫= _) _ _ => apply must_undumpable; [assumption|flat]
  | |- hoare _ (parent_alive _ _ ≫= _) _ _ => apply bind_parent_alive; [assumption|assumption|]
  | |- hoare _ (set_nonblocking _ _ ≫= _) _ _ => apply bind_set_nonblocking; [assumption|]
  | |- hoare _ (install _ ≫= _) _ _ => apply bind_install; flat
  | |- hoare _ (close_others _ _ ≫= _) _ _ => apply bind_close_others; [assumption|]
  | |- hoare _ (retry_eintr _ _ _ ≫= _) _ _ => apply bind_keeps; [apply keeps_retry; done|intros ?]
  | |- hoare _ (close_opt _ ?o ≫= _) _ _ => unfold close_opt; destruct o
  | |- hoare _ (audit_layer _ _ _ _ _ ≫= _) _ _ => apply bind_keeps; [apply keeps_audit; assumption|intros ?]
  | |- hoare _ (match ?x with _ => _ end ≫= _) _ _ => first [progress cbn beta iota|destruct x eqn:?]
  | |- hoare _ (match ?x with _ => _ end) _ _ => first [progress cbn beta iota|destruct x eqn:?]
  end.
