(* ===== verification/Helpers.v ===== *)
(** * Helpers: the processes that are forked beside the target

    The bridge of [bridge.rs] (with [loopback_up]), the CONNECT proxy of
    [bridge.rs], the supervisor of [unotify.rs] and the PID namespace relay of
    [pidns.rs], each from its [fork] to the loop in which it serves.  The theorem
    says in which state a helper starts to serve. *)

From stdpp Require Import gmap.
From S2P Require Import Prelude Text Paths Env Json Bridge Seccomp Unotify Allowlists Landlock Rlimit Process.

Section Helpers.
Context `{T : Target} `{SC : Seccompiler} (h : Host).

Definition seccomp_supported : bool := bool_decide (is_Some target_cpu).

(** ** [bridge.rs] *)

(** The request: [nlmsghdr] and [ifinfomsg], little-endian. *)
Definition setlink_request : bytes :=
  [32; 0; 0; 0] ++ [19; 0] ++ [5; 0] ++ [1; 0; 0; 0] ++ [0; 0; 0; 0]
  ++ [0; 0; 0; 0] ++ [1; 0; 0; 0] ++ [1; 0; 0; 0] ++ [1; 0; 0; 0].

Definition loopback_exchange (fd : Z) : Run (Result unit) :=
  s ← syscall h (Send fd setlink_request);
  if ret s <? 0 then mret (Err (Process "bridge: loopback: {e}"))
  else
    _ ← syscall h (SetRecvTimeout fd 3);
    r ← syscall h (Recv fd 20);
    let n := ret r in
    if n <? 0 then mret (Err (Process "bridge: loopback: {e}"))
    else if n <? 16 then mret (Err (Process "bridge: loopback: {e}"))
    else if negb (u_at (out r) 4 2 =? 2) then mret (Err (Process "bridge: loopback: {e}"))
    else if n <? 20 then mret (Err (Process "bridge: loopback: {e}"))
    else if negb (u_at (out r) 16 4 =? 0) then mret (Err (Process "bridge: loopback: {e}"))
    else mret (Ok tt).

(** AF_NETLINK, SOCK_RAW with SOCK_CLOEXEC, NETLINK_ROUTE; the descriptor is
    closed on every path. *)
Definition loopback_up : Run (Result unit) :=
  fd ← syscall h (Socket 16 (Z.lor 3 O_CLOEXEC) 0);
  if ret fd <? 0 then mret (Err (Process "bridge: loopback: {e}"))
  else
    r ← loopback_exchange (ret fd);
    _ ← syscall h (Close (ret fd));
    mret r.

(** The setup that bridge and supervisor make after the descriptors are closed. *)
Definition confine_child (parent_pid : Z) : Run unit :=
  _ ← must h (Prctl PR_SET_PDEATHSIG SIGKILL);
  _ ← parent_alive h parent_pid;
  _ ← must h (Prctl PR_SET_DUMPABLE 0);
  must h (Prctl PR_SET_NO_NEW_PRIVS 1).

Definition install_helper (which : Helper) (debug : bool) : Run unit :=
  if seccomp_supported then
    r ← install (apply_helper (accepts h) which debug);
    match r with Ok _ => mret tt | Err _ => exit 1 end
  else mret tt.

(** The two loops that never end; [dns] is the socket and the audit pipe of the
    thread that runs [dns_serve]. *)
Definition serve_bridge (listener : option Z) (uds_path : option bytes) (dns : option (Z * Z)) (pipe_write : Z)
  : Run Empty_set :=
  match listener, uds_path with
  | Some l, Some p =>
    w ← syscall h (Write pipe_write [1]);
    if ret w <? 0 then exit 0
    else _ ← syscall h (Close pipe_write); stop (ServeRelay l p dns)
  | _, _ =>
    _ ← syscall h (Write pipe_write [1]);
    _ ← syscall h (Close pipe_write);
    stop (ServeDns dns)
  end.

Definition bridge_child (listener : option Z) (uds_path : option bytes) (dns_udp dns_audit_fd : option Z)
    (pipe_read pipe_write parent_pid : Z) (debug : bool) : Run Empty_set :=
  _ ← syscall h (Close pipe_read);
  _ ← close_others h ([pipe_write] ++ option_list listener ++ option_list dns_udp ++ option_list dns_audit_fd);
  _ ← match dns_audit_fd with Some fd => set_nonblocking h fd | None => mret tt end;
  _ ← syscall h (IgnoreSignal SIGPIPE);
  _ ← confine_child parent_pid;
  _ ← install_helper BridgeProcess debug;
  serve_bridge listener uds_path
    match dns_udp, dns_audit_fd with Some udp, Some fd => Some (udp, fd) | _, _ => None end pipe_write.

(** Waiting for the byte with which a child says that it is ready. *)
Definition await_child (pipe_read child_pid : Z) : Run (Result unit) :=
  p ← retry_eintr h (retries h) (Poll pipe_read 5000);
  if ret p =? 0 then
    _ ← syscall h (Kill child_pid SIGKILL); mret (Err (Process "bridge: readiness timeout (5s)"))
  else if ret p <? 0 then
    _ ← syscall h (Kill child_pid SIGKILL); mret (Err (Syscall "poll"))
  else
    n ← retry_eintr h (retries h) (Read pipe_read 1);
    _ ← syscall h (Close pipe_read);
    if negb (ret n =? 1) then
      _ ← syscall h (Kill child_pid SIGKILL); mret (Err (Process "bridge: readiness signal failed"))
    else mret (Ok tt).
(** The failure of a step after sockets have been opened: they are dropped. *)
Definition drop_all {A} (l : list Z) (r : A) : Run A :=
  _ ← foldr (fun fd k => _ ← syscall h (Close fd); k) (mret tt) l; mret r.

Definition fork_bridge (port : Z) (uds_path : option bytes) (dns_audit_fd : option Z) (debug : bool)
  : Run (Result Z) :=
  mode ← (if seccomp_supported then a ← syscall h (Prctl PR_GET_SECCOMP 0); mret (ret a) else mret 0);
  if negb (mode =? 0) then mret (Err (Process "bridge: seccomp already applied (invariant violation)"))
  else
  _ ←? loopback_up;
  bound ←?
    match uds_path with
    | Some _ =>
      l ← syscall h (BindTcp port);
      mret (if ret l <? 0 then Err (Process "bridge: bind {addr}: {e}") else Ok (Some (ret l), nth 0 (out l) 0))
    | None => mret (Ok (None, 0))
    end;
  let '(listener, actual_port) := bound in
  dns_udp ←?
    match dns_audit_fd with
    | Some _ =>
      u ← syscall h (BindUdp 53);
      if ret u <? 0 then drop_all (option_list listener) (Err (Process "bridge: dns bind {udp_addr}: {e}"))
      else mret (Ok (Some (ret u)))
    | None => mret (Ok None)
    end;
  pipe ← syscall h (Pipe2 O_CLOEXEC);
  if negb (ret pipe =? 0) then drop_all (option_list dns_udp ++ option_list listener) (Err (Syscall "pipe2"))
  else
  let '(pipe_read, pipe_write) := fd_pair pipe in
  parent ← syscall h Getpid;
  child ← syscall h Fork;
  if ret child <? 0 then drop_all (option_list dns_udp ++ option_list listener) (Err (Syscall "fork"))
  else if ret child =? 0 then
    never (bridge_child listener uds_path dns_udp dns_audit_fd pipe_read pipe_write (ret parent) debug)
  else
    _ ← close_opt h listener;
    _ ← syscall h (Close pipe_write);
    r ← await_child pipe_read (ret child);
    drop_all (option_list dns_udp) (match r with Ok _ => Ok actual_port | Err e => Err e end).

(** ** [unotify.rs] *)

Record UnotifyFds : Type := { socketpair_parent : Z; readiness_read : Z }.

(** [read] and [write] until the buffer is complete. *)
Fixpoint read_exact_raw (n : nat) (fd want : Z) (buf : bytes) : Run (option bytes) :=
  if want <=? len buf then mret (Some buf)
  else
    match n with
    | O => stop Hang
    | S n =>
      a ← syscall h (Read fd (want - len buf));
      if 0 <? ret a then read_exact_raw n fd want (buf ++ take (Z.to_nat (ret a)) (out a))
      else if ret a =? 0 then mret None
      else if errno a =? EINTR then read_exact_raw n fd want buf
      else mret None
    end.

Fixpoint write_all_raw (n : nat) (fd : Z) (buf : bytes) : Run bool :=
  if decide (buf = []) then mret true
  else
    match n with
    | O => stop Hang
    | S n =>
      a ← syscall h (Write fd buf);
      if 0 <? ret a then write_all_raw n fd (drop (Z.to_nat (ret a)) buf)
      else if ret a =? 0 then mret false
      else if errno a =? EINTR then write_all_raw n fd buf
      else mret false
    end.

(** [i32::to_ne_bytes] and [i32::from_ne_bytes]. *)
Definition i32_bytes (n : Z) : bytes :=
  let w := wrap 32 n in [w mod 256; w / 256 mod 256; w / 65536 mod 256; w / 16777216 mod 256].
Definition i32_of (l : bytes) : Z := let w := wrap 32 (le_int l) in if 2 ^ 31 <=? w then w - 2 ^ 32 else w.

Definition supervisor_child (config : UnotifyConfig) (audit_write_fd : Z) (debug : bool)
    (sp_parent sp_child readiness_read readiness_write parent_pid : Z) : Run Empty_set :=
  _ ← syscall h (Close sp_parent);
  _ ← syscall h (Close readiness_read);
  _ ← close_others h [sp_child; readiness_write; audit_write_fd];
  _ ← syscall h (IgnoreSignal SIGPIPE);
  _ ← confine_child parent_pid;
  _ ← install_helper Supervisor debug;
  _ ← set_nonblocking h audit_write_fd;
  _ ← syscall h (Write readiness_write [1]);
  _ ← syscall h (Close readiness_write);
  msg ← read_exact_raw (retries h) sp_child 8 [];
  _ ← syscall h (Close sp_child);
  match msg with
  | None => exit 1
  | Some msg =>
    let wrapper_pid := i32_of (take 4 msg) in
    let remote_fd := i32_of (drop 4 msg) in
    pidfd ← syscall h (PidfdOpen wrapper_pid);
    if ret pidfd <? 0 then exit 1
    else
      listener_fd ← syscall h (PidfdGetfd (ret pidfd) remote_fd);
      _ ← syscall h (Close (ret pidfd));
      if ret listener_fd <? 0 then exit 1
      else stop (Supervise (ret listener_fd) audit_write_fd config)
  end.

Definition fork_unotify_supervisor (config : UnotifyConfig) (audit_write_fd : Z) (debug : bool)
  : Run (Result UnotifyFds) :=
  sv ← syscall h Socketpair;
  if negb (ret sv =? 0) then mret (Err (Process "unotify: socketpair: {}"))
  else
  let '(sp_parent, sp_child) := fd_pair sv in
  pipe ← syscall h (Pipe2 O_CLOEXEC);
  if negb (ret pipe =? 0) then drop_all [sp_parent; sp_child] (Err (Process "unotify: pipe2: {}"))
  else
  let '(rd, wr) := fd_pair pipe in
  parent ← syscall h Getpid;
  child ← syscall h Fork;
  if ret child <? 0 then drop_all [sp_parent; sp_child; rd; wr] (Err (Process "unotify: fork: {}"))
  else if ret child =? 0 then
    never (supervisor_child config audit_write_fd debug sp_parent sp_child rd wr (ret parent))
  else
    drop_all [sp_child; wr] (Ok {| socketpair_parent := sp_parent; readiness_read := rd |}).

Definition poll_readiness (fd timeout_ms : Z) : Run (Result unit) :=
  p ← retry_eintr h (retries h) (Poll fd timeout_ms);
  if ret p =? 0 then mret (Err (Process "unotify supervisor readiness timeout"))
  else if ret p <? 0 then mret (Err (Process "unotify supervisor poll: {}"))
  else
    n ← retry_eintr h (retries h) (Read fd 1);
    if negb (ret n =? 1) then mret (Err (Process "unotify supervisor readiness signal failed"))
    else mret (Ok tt).
(** ** The CONNECT proxy *)

Definition PROXY_READ_PATHS : list bytes :=
  map bs ["/etc/hosts"; "/etc/nsswitch.conf"; "/etc/resolv.conf"; "/etc/gai.conf"; "/etc/ld.so.cache";
    "/etc/ld.so.conf"; "/etc/ld.so.conf.d"; "/etc/services"; "/etc/ssl"; "/etc/pki"; "/etc/ca-certificates";
    "/run/systemd/resolve"; "/run/nscd"; "/lib"; "/lib64"; "/usr/lib"; "/usr/lib64"]%string.

(** Tolerates EPERM: already a session leader. *)
Definition become_leader : Run unit :=
  s ← syscall h Setsid;
  if (ret s =? -1) && negb (errno s =? EPERM) then exit 1 else mret tt.

(** [connect_proxy_listen] up to its loop. *)
Definition connect_proxy_listen (listener : Z) (hosts : list AllowedHost) (ready_fd : Z) : Run Empty_set :=
  w ← syscall h (Write ready_fd [1]);
  if ret w <? 0 then exit 0
  else _ ← syscall h (Close ready_fd); stop (ServeProxy listener hosts).

Definition connect_proxy_child (hosts : list AllowedHost) (debug : bool)
    (listener pipe_read pipe_write parent_pid : Z) : Run Empty_set :=
  _ ← syscall h (Close pipe_read);
  _ ← close_others h [pipe_write; listener];
  _ ← syscall h (IgnoreSignal SIGPIPE);
  _ ← become_leader;
  _ ← must h (Prctl PR_SET_PDEATHSIG SIGKILL);
  _ ← parent_alive h parent_pid;
  _ ← must h (Prctl PR_SET_NO_NEW_PRIVS 1);
  _ ← must h (Prctl PR_SET_DUMPABLE 0);
  let proxy_read_paths := List.filter (path_exists (landlock_host h)) PROXY_READ_PATHS in
  if decide (proxy_read_paths = []) then exit 1
  else
    r ← restrict h (paths_profile proxy_read_paths [] false) None;
    match r with
    | Err _ => exit 1
    | Ok _ =>
      _ ← syscall h (LookupHost (bs "_arapuca-nss-init.invalid."));
      _ ← install_helper ConnectProxy debug;
      connect_proxy_listen listener hosts pipe_write
    end.

(** [fail_proxy]. *)
Definition fail_proxy {A} (child_pid proxy_pidfd : Z) (dir : bytes) (msg : string) : Run (Result A) :=
  _ ← syscall h (Kill child_pid SIGKILL);
  _ ← (if 0 <=? proxy_pidfd then
         _ ← syscall h (Close proxy_pidfd); _ ← syscall h (Waitpid child_pid true); mret tt
       else mret tt);
  _ ← syscall h (RemoveDirAll dir);
  mret (Err (Process msg)).

(** The parent's side after [fork]. *)
Definition proxy_parent (dir uds_path : bytes) (listener pipe_read pipe_write child_pid : Z)
  : Run (Result (bytes * Z * Z)) :=
  _ ← syscall h (Close listener);
  _ ← syscall h (Close pipe_write);
  pidfd ← syscall h (PidfdOpen child_pid);
  p ← retry_eintr h (retries h) (Poll pipe_read 5000);
  if ret p =? 0 then
    _ ← syscall h (Close pipe_read); fail_proxy child_pid (ret pidfd) dir "connect proxy: readiness timeout (5s)"
  else if ret p <? 0 then
    _ ← syscall h (Close pipe_read); fail_proxy child_pid (ret pidfd) dir "connect proxy: poll: {}"
  else
    n ← retry_eintr h (retries h) (Read pipe_read 1);
    _ ← syscall h (Close pipe_read);
    if negb (ret n =? 1) then fail_proxy child_pid (ret pidfd) dir "connect proxy: readiness signal failed"
    else mret (Ok (uds_path, child_pid, ret pidfd)).

Definition fork_connect_proxy (allowed_hosts : list AllowedHost) (debug : bool) : Run (Result (bytes * Z * Z)) :=
  d ← syscall h (MakeTempDir (bs "arapuca-connect-proxy-"));
  if ret d <? 0 then mret (Err (Process "connect proxy: tmpdir: {e}"))
  else
  let dir := out d in
  let uds_path := push dir (bs "connect.sock") in
  l ← syscall h (BindUnix uds_path);
  if ret l <? 0 then _ ← syscall h (RemoveDirAll dir); mret (Err (Process "connect proxy: bind {}: {e}"))
  else
  let listener := ret l in
  pipe ← syscall h (Pipe2 O_CLOEXEC);
  if negb (ret pipe =? 0) then
    _ ← syscall h (Close listener); _ ← syscall h (RemoveDirAll dir); mret (Err (Process "connect proxy: pipe: {err}"))
  else
  let '(pipe_read, pipe_write) := fd_pair pipe in
  parent ← syscall h Getpid;
  child ← syscall h Fork;
  if ret child <? 0 then
    _ ← drop_all [pipe_read; pipe_write; listener] tt;
    _ ← syscall h (RemoveDirAll dir);
    mret (Err (Process "connect proxy: fork: {err}"))
  else if ret child =? 0 then
    never (connect_proxy_child allowed_hosts debug listener pipe_read pipe_write (ret parent))
  else proxy_parent dir uds_path listener pipe_read pipe_write (ret child).

(** Killing the proxy when the launch is over. *)
Definition cleanup_connect_proxy (pid pidfd : option Z) (socket : option bytes) : Run unit :=
  _ ← match pid with Some pid => _ ← syscall h (Kill pid SIGKILL); mret tt | None => mret tt end;
  _ ← match pidfd with
      | Some fd =>
        _ ← syscall h (Close fd);
        match pid with Some pid => _ ← syscall h (Waitpid pid true); mret tt | None => mret tt end
      | None => mret tt
      end;
  match socket ≫= parent with Some dir => _ ← syscall h (RemoveDirAll dir); mret tt | None => mret tt end.

(** ** In which state a helper serves *)

Definition dns_fds (dns : option (Z * Z)) : list Z := match dns with Some (udp, fd) => [udp; fd] | None => [] end.

(** [p] dies with its parent, cannot gain privileges, is
    not dumpable, has only the descriptors [keep], and its filters allow no
    more than its table. *)
Record serving (which : Helper) (debug : bool) (keep : list Z) (p : Proc) : Prop := {
  serving_pdeathsig : pdeathsig p = true;
  serving_nnp : no_new_privs p = true;
  serving_dumpable : dumpable p = false;
  serving_fds fd : fd ∈ fds p -> fd < 3 \/ fd ∈ keep;
  serving_filters d :
    rank (allow_policy (helper_table which) debug d) <= rank (kernel_verdict (filters p) d);
}.

(** The end of a process that started as [q]: a helper serves in the right
    state; nothing is executed. *)
Definition helper_end (debug : bool) (q : Proc) (e : Stop) (p : Proc) : Prop :=
  match e with
  | ServeRelay l _ dns => serving BridgeProcess debug ([l] ++ dns_fds dns) p
  | ServeDns dns => serving BridgeProcess debug (dns_fds dns) p
  | ServeProxy l _ =>
    serving ConnectProxy debug [l] p /\
    exists rules, domains p = rules :: domains q /\
      Landlock.apply (landlock_host h)
        (paths_profile (List.filter (path_exists (landlock_host h)) PROXY_READ_PATHS) [] false) None = Enforced rules
  | Supervise l audit _ => serving Supervisor debug [l; audit] p
  | Exec _ _ _ => False
  | _ => True
  end.

Section Start.
Context {L : SeccompilerLaws SC} (Hh : host_ok h) (Hs : seccomp_supported = true).
Context (Htab : forall which, NoDup (map fst (helper_table which))).

Lemma bind_install_helper {A} (Q : A -> Proc -> Prop) (X : Stop -> Proc -> Prop) K q which debug (f : unit -> Run A) :
  (forall e p, quiet e -> X e p) ->
  (forall k, apply_helper (accepts h) which debug (filters q) = (k, Ok tt) ->
     hoare (held K (set_layers (domains q) k (limits q) q)) (f tt) Q X) ->
  hoare (held K q) (install_helper which debug ≫= f) Q X.
Proof.
  intros HX Hf. unfold install_helper. rewrite Hs. apply hoare_assoc, bind_install.
  destruct (apply_helper _ _ _ (filters q)) as [k [[]|e]]; cbn [fst snd]; repeat hstep; by apply Hf.
Qed.

Lemma serving_start which debug keep K q0 q p k :
  apply_helper (accepts h) which debug (filters q0) = (k, Ok tt) ->
  held K q p -> filters q = k -> pdeathsig q = true -> no_new_privs q = true -> dumpable q = false ->
  (forall fd, K fd -> fd < 3 \/ fd ∈ keep) -> serving which debug keep p.
Proof.
  intros Hk [? Hd Hn Hu ? Hf ? ? HK] E ? ? ? Hkeep. split; [congruence|congruence|congruence|auto|].
  intros d. rewrite Hf, E. destruct (helper_verdict (accepts h) which debug _ _ d (Htab which) Hk) as (added & -> & <-).
  apply verdict_app.
Qed.

(** What the stops of a helper's code amount to. *)
Lemma quiet_helper_end debug q e p : quiet e -> helper_end debug q e p.
Proof. by destruct e. Qed.

Lemma bridge_child_end {A} (Q : A -> Proc -> Prop) debug q0 q listener uds dns_udp dns_audit pr pw pp :
  filters q = filters q0 -> (uds = None -> listener = None) -> (dns_udp = None <-> dns_audit = None) ->
  hoare (held any q) (never (bridge_child listener uds dns_udp dns_audit pr pw pp debug)) Q
    (helper_end debug q0).
Proof.
  intros Hf Hl Hd. pose proof (quiet_helper_end debug q0) as HX.
  unfold never, bridge_child, confine_child, serve_bridge.
  repeat (hstep || (apply bind_install_helper; [exact HX|intros k Hk; flat])).
  all: cbn [helper_end]; eapply serving_start; try eassumption; try done; try by rewrite <- Hf.
  all: cbn beta; intros fd; rewrite ?elem_of_app, ?elem_of_cons; destruct dns_udp, dns_audit, listener, uds;
    simplify_eq/=; rewrite ?elem_of_cons; naive_solver.
Qed.

Lemma bind_read_exact {A} (Q : A -> Proc -> Prop) X K q n fd want buf (f : option bytes -> Run A) :
  (forall e p, quiet e -> X e p) -> (forall r, hoare (held K q) (f r) Q X) ->
  hoare (held K q) (read_exact_raw n fd want buf ≫= f) Q X.
Proof.
  intros HX Hf. revert buf. induction n as [|n IH]; intros buf; simpl.
  - destruct (_ <=? _); repeat hstep; [apply Hf|by apply HX].
  - destruct (_ <=? _); repeat hstep; try apply Hf; apply IH.
Qed.

Lemma supervisor_child_end {A} (Q : A -> Proc -> Prop) debug q0 q config audit sp sc rr rw pp :
  filters q = filters q0 ->
  hoare (held any q) (never (supervisor_child config audit debug sp sc rr rw pp)) Q (helper_end debug q0).
Proof.
  intros Hf. pose proof (quiet_helper_end debug q0) as HX. unfold never, supervisor_child, confine_child.
  repeat first [hstep | apply bind_install_helper; [exact HX|intros k Hk; flat] | apply bind_read_exact; [exact HX|intros ?]].
  cbn [helper_end]. eapply serving_start; try eassumption; try done; try by rewrite <- Hf.
  cbn beta. intros fd. rewrite !elem_of_cons. intros Hfd. cbn [new_fds] in Hfd.
  repeat match goal with H : (ret _ <? 0) = false |- _ => apply Z.ltb_ge, Z.leb_le in H end.
  repeat match goal with H : (0 <=? ret _) = true |- _ => rewrite H in Hfd; clear H end.
  rewrite !elem_of_cons in Hfd. rewrite !elem_of_nil in *. tauto.
Qed.

Lemma connect_proxy_child_end {A} (Q : A -> Proc -> Prop) debug q0 q hosts l pr pw pp :
  filters q = filters q0 -> domains q = domains q0 ->
  hoare (held any q) (never (connect_proxy_child hosts debug l pr pw pp)) Q (helper_end debug q0).
Proof.
  intros Hf Hd. pose proof (quiet_helper_end debug q0) as HX.
  unfold never, connect_proxy_child, become_leader, connect_proxy_listen.
  repeat first [hstep | apply bind_install_helper; [exact HX|intros k Hk; flat]
                      | apply bind_restrict; [exact HX|intros rules Hr; flat|intros e]].
  cbn [helper_end]. split.
  - eapply serving_start; try eassumption; try done; try by rewrite <- Hf.
    cbn beta. intros fd. rewrite !elem_of_cons, elem_of_nil. tauto.
  - exists rules. split; [|done]. rewrite <- Hd.
    match goal with H : held _ _ ?s |- domains ?s = _ => exact (held_domains _ _ _ H) end.
Qed.

Section Keeps.
Context (X : Stop -> Proc -> Prop) (HX : forall e p, quiet e -> X e p).

Lemma keeps_drop_all {A} l (r : A) : keeps X (drop_all l r).
Proof.
  intros q. unfold drop_all. apply (bind_keeps _ _ any); [|intros; by apply hoare_ret]. clear q. intros q.
  induction l as [|fd l IH]; simpl; [by apply hoare_ret|].
  apply (bind_keeps _ _ any); [by apply keeps_call|intros _; exact IH].
Qed.

Lemma bind_drop_all {A B} (Q : B -> Proc -> Prop) K q l (r : A) (f : A -> Run B) :
  hoare (held any q) (f r) Q X -> hoare (held K q) (drop_all l r ≫= f) Q X.
Proof.
  intros Hf. unfold drop_all. apply hoare_assoc. apply bind_keeps; [|intros _; by apply hoare_ret_bind].
  clear q Hf. intros q. induction l as [|fd l IH]; simpl; [by apply hoare_ret|].
  apply (bind_keeps _ _ any); [by apply keeps_call|intros _; exact IH].
Qed.

Lemma keeps_loopback : keeps X loopback_up.
Proof. intros q. unfold loopback_up, loopback_exchange. repeat hstep; by eapply held_any. Qed.

Lemma keeps_await pr child : keeps X (await_child pr child).
Proof. intros q. unfold await_child. repeat hstep; by eapply held_any. Qed.

Lemma keeps_poll fd t : keeps X (poll_readiness fd t).
Proof. intros q. unfold poll_readiness. repeat hstep; by eapply held_any. Qed.
End Keeps.

(** Runs the steps of a parent; a child that is a [never] is left. *)
Ltac parent_steps :=
  repeat first
    [ hstep
    | apply bind_drop_all
    | apply bind_keeps; [first [apply keeps_loopback|apply keeps_await]; done|intros ?]
    | eapply hoare_post; [eapply hoare_held; [apply keeps_drop_all; done|done]|by intros] ].

Section Forks.
Context (debug : bool) (q : Proc) (X : Stop -> Proc -> Prop).
Context (HB : forall e p, helper_end debug q e p -> X e p).

Lemma forks_quiet e p : quiet e -> X e p.
Proof. intros. by apply HB, quiet_helper_end. Qed.

Lemma fork_bridge_ends port uds dns :
  hoare (held any q) (fork_bridge port uds dns debug) (fun _ => held any q) X.
Proof.
  pose proof forks_quiet as HX. unfold fork_bridge. rewrite Hs.
  destruct uds, dns; parent_steps; try (exfalso; lia); try by eapply held_any.
  all: eapply hoare_exn; [eapply hoare_held; [by apply (bridge_child_end _ debug q)|done]|exact HB].
Qed.

Lemma fork_supervisor_ends config audit :
  hoare (held any q) (fork_unotify_supervisor config audit debug) (fun _ => held any q) X.
Proof.
  pose proof forks_quiet as HX. unfold fork_unotify_supervisor.
  parent_steps; try (exfalso; lia); try by eapply held_any.
  eapply hoare_exn; [eapply hoare_held; [by apply (supervisor_child_end _ debug q)|done]|exact HB].
Qed.

Lemma fork_connect_proxy_ends hosts :
  hoare (held any q) (fork_connect_proxy hosts debug) (fun _ => held any q) X.
Proof.
  pose proof forks_quiet as HX. unfold fork_connect_proxy, proxy_parent, fail_proxy.
  parent_steps; try (exfalso; lia); try by eapply held_any.
  eapply hoare_exn; [eapply hoare_held; [by apply (connect_proxy_child_end _ debug q)|done]|exact HB].
Qed.
End Forks.
End Start.

(** C17: in which state the helpers serve.  Whatever the kernel answers, when the bridge, the supervisor or the
    CONNECT proxy enters its loop, it dies with its parent, cannot gain privileges, cannot be inspected by others,
    holds no descriptors but the standard ones and those it serves with, and its filters are at least as
    restrictive as its table of allowed calls; the proxy is moreover confined by Landlock to the resolver's files.
    A failure ends the child; no helper executes a program. *)
Theorem helpers_start {L : SeccompilerLaws SC} q p e port uds dns debug config audit hosts :
  host_ok h -> seccomp_supported = true -> (forall which, NoDup (map fst (helper_table which))) -> fds_ok (fds q) ->
  fork_bridge port uds dns debug q = (p, Err e) \/ fork_unotify_supervisor config audit debug q = (p, Err e) \/
  fork_connect_proxy hosts debug q = (p, Err e) ->
  helper_end debug q e p.
Proof.
  intros Hh Hs Htab Hf. assert (Hq : held any q q) by (by split).
  intros [H|[H|H]].
  - pose proof (fork_bridge_ends Hh Hs Htab debug q (helper_end debug q) (fun _ _ K => K) port uds dns q Hq) as K.
    by rewrite H in K.
  - pose proof (fork_supervisor_ends Hh Hs Htab debug q (helper_end debug q) (fun _ _ K => K) config audit q Hq) as K.
    by rewrite H in K.
  - pose proof (fork_connect_proxy_ends Hh Hs Htab debug q (helper_end debug q) (fun _ _ K => K) hosts q Hq) as K.
    by rewrite H in K.
Qed.
End Helpers.

(** ** A host on which every call succeeds *)

Module Demo.

Definition linux : Target := Seccomp.Reference.linux x86_64.
Definition crate : Seccompiler := Seccomp.Reference.seccompiler.

Definition reply (z : Z) : Answer := {| ret := z; errno := 0; out := [] |}.

(** [fork] returns [child]. *)
Definition answers (child : Z) (t : list Call) (c : Call) : Answer :=
  match c with
  | Getppid | Getpid => reply 77
  | Fork => reply child
  | Pipe2 _ => {| ret := 0; errno := 0; out := [5; 6] |}
  | Socketpair => {| ret := 0; errno := 0; out := [7; 8] |}
  | Socket _ _ _ => reply 3
  | Recv _ _ => {| ret := 20; errno := 0; out := [20; 0; 0; 0; 2; 0] ++ replicate 14 0 |}
  | BindTcp p => {| ret := 9; errno := 0; out := [p] |}
  | BindUdp _ => reply 10
  | BindUnix _ => reply 9
  | Poll _ _ => reply 1
  | Read _ n | Getrandom n => {| ret := n; errno := 0; out := replicate (Z.to_nat n) 1 |}
  | Write _ b => reply (len b)
  | PidfdOpen _ => reply 11
  | PidfdGetfd _ _ => reply 12
  | SeccompListener _ => reply 13
  | MakeTempDir _ => {| ret := 0; errno := 0; out := bs "/tmp/arapuca-connect-proxy-x" |}
  | _ => reply 0
  end.

Definition host (child : Z) : @Host crate := {|
  answer := answers child;
  metadata_ok := fun p => bool_decide (p = bs "/bin/tool");
  canonicalize := fun p => Some p;
  is_file := fun p => bool_decide (p = bs "/bin/tool");
  error_text := fun _ => bs "error";
  fd_kernel := {| close_range_ok := fun _ _ => true; read_proc_fd := fun _ => None; open_max := 1024 |};
  landlock_host := demo_host;
  accepts := fun _ _ => true;
  prlimit64 := fun _ _ _ => true;
  unotify_available := true;
  proc_self_stat := Some (bs "77 (arapuca) S 1");
  retries := 9;
|}.

Lemma host_is_ok child : @host_ok crate (host child).
Proof.
  split; [|by left]. intros t c fd. cbn [answer host].
  destruct c; cbn [answers new_fds]; try (intros H; by apply elem_of_nil in H);
    cbn; rewrite ?elem_of_cons, elem_of_nil; lia.
Qed.

Definition start (env : list (bytes * bytes)) : @Proc crate := {|
  trace := []; fds := {[0; 1; 2; 3; 4]}; environ := env; pdeathsig := false; no_new_privs := false;
  dumpable := true; domains := []; filters := []; limits := ∅ |}.

Lemma start_fds env : fds_ok (fds (start env)).
Proof. intros fd Hfd. cbn in Hfd. rewrite !elem_of_union, !elem_of_singleton in Hfd. lia. Qed.

Lemma tables_distinct which : NoDup (map fst (@helper_table linux which)).
Proof. destruct which; by_eval. Qed.

Definition bridge_run := @fork_bridge linux crate (host 0) 18080 (Some (bs "/run/p.sock")) (Some 4) false (start []).
End Demo.

Lemma helpers_start_witness :
  Demo.bridge_run.2 = Err (ServeRelay 9 (bs "/run/p.sock") (Some (10, 4))) /\
  @serving Demo.linux Demo.crate BridgeProcess false [9; 10; 4] Demo.bridge_run.1.
Proof.
  assert (E : Demo.bridge_run.2 = Err (ServeRelay 9 (bs "/run/p.sock") (Some (10, 4)))) by (vm_compute; reflexivity).
  split; [exact E|].
  refine (@helpers_start Demo.linux Demo.crate (Demo.host 0) Seccomp.Reference.laws (Demo.start []) _
    (ServeRelay 9 (bs "/run/p.sock") (Some (10, 4))) 18080 (Some (bs "/run/p.sock")) (Some 4) false
    {| cfg_file_access := false; cfg_network := false; cfg_bridge_port := None; cfg_dns_port := None;
       cfg_enforce_network := false |} 0 [] _ _ _ _ _).
  - apply Demo.host_is_ok.
  - by_eval.
  - exact Demo.tables_distinct.
  - apply Demo.start_fds.
  - left. fold Demo.bridge_run. rewrite <- E. apply surjective_pairing.
Defined.
