(* ===== verification/Pidns.v ===== *)
(** * Pidns: the PID namespace of [pidns.rs]

    [fork_into_pidns] from the pipes to the return in the child and the relay
    in the parent, which forwards signals and ends as the child did.  The theorem
    says that the relay is transparent. *)

From stdpp Require Import gmap.
From S2P Require Import Prelude Text Env Seccomp Unotify Process Helpers.

Definition CLONE_NEWPID : Z := 0x20000000.

(** The macros of [wait.h]. *)
Definition WTERMSIG (s : Z) : Z := Z.land s 0x7f.
Definition WIFEXITED (s : Z) : bool := WTERMSIG s =? 0.
Definition WEXITSTATUS (s : Z) : Z := Z.land (Z.shiftr s 8) 0xff.
(** [((s & 0x7f) + 1) as i8 >= 2]. *)
Definition WIFSIGNALED (s : Z) : bool :=
  let v := Z.land s 0x7f + 1 in (if 128 <=? v then v - 256 else v) >=? 2.

Section Pidns.
Context `{T : Target} `{SC : Seccompiler} (h : Host).

Definition unshare_pidns : Run (Result unit) :=
  a ← syscall h (Unshare CLONE_NEWPID);
  mret (if ret a =? 0 then Ok tt else Err (Io "unshare")).

(** [raise] returns only when the signal did not end the process. *)
Definition exit_with_child_status (wstatus : Z) : Run Empty_set :=
  if WIFEXITED wstatus then exit (WEXITSTATUS wstatus)
  else if WIFSIGNALED wstatus then
    let sig := WTERMSIG wstatus in
    _ ← syscall h (DefaultSignal sig);
    r ← syscall h (Raise sig);
    if decide (out r = []) then stop (Killed sig) else exit (128 + sig)
  else exit 125.

(** Reaping the child and orphans; the status is the first value written. *)
Fixpoint relay_loop (n : nat) (child_pid : Z) : Run Empty_set :=
  match n with
  | O => stop Hang
  | S n =>
    w ← syscall h (Waitpid (-1) false);
    if ret w =? child_pid then exit_with_child_status (nth 0 (out w) 0)
    else if ret w =? -1 then
      if errno w =? EINTR then relay_loop n child_pid else exit 125
    else relay_loop n child_pid
  end.

Definition install_signal_handlers : Run unit :=
  _ ← syscall h (ForwardSignal SIGTERM);
  _ ← syscall h (ForwardSignal SIGINT);
  _ ← syscall h (ForwardSignal SIGHUP);
  _ ← syscall h (ForwardSignal SIGQUIT);
  mret tt.

(** The handler, with the value of CHILD_PID. *)
Definition forward_signal_handler (child_pid sig : Z) : Run unit :=
  if 0 <? child_pid then _ ← syscall h (Kill child_pid sig); mret tt else mret tt.

Definition parent_relay (child_pid : Z) (audit_fd dns_audit_fd unotify_audit_fd pid_report_fd : option Z)
  : Run Empty_set :=
  _ ← syscall h (PidfdOpen child_pid);
  _ ← match pid_report_fd with
      | Some fd => _ ← syscall h (Write fd (i32_bytes child_pid)); _ ← syscall h (Close fd); mret tt
      | None => mret tt
      end;
  _ ← close_opt h audit_fd;
  _ ← close_opt h dns_audit_fd;
  _ ← close_opt h unotify_audit_fd;
  _ ← install_signal_handlers;
  relay_loop (retries h) child_pid.

Definition fork_into_pidns (audit_fd dns_audit_fd unotify_audit_fd pid_report_fd : option Z)
  : Run (option Z * Z) :=
  pipe ← syscall h (Pipe2 (Z.lor O_CLOEXEC O_NONBLOCK));
  if negb (ret pipe =? 0) then exit 1
  else
  let '(live_read, live_write) := fd_pair pipe in
  pid_pipe ← syscall h (Pipe2 O_CLOEXEC);
  if negb (ret pid_pipe =? 0) then exit 1
  else
  let '(pid_read, pid_write) := fd_pair pid_pipe in
  child ← syscall h Fork;
  if ret child <? 0 then exit 1
  else if ret child =? 0 then
    _ ← close_opt h pid_report_fd;
    _ ← syscall h (Close live_write);
    _ ← syscall h (Close pid_write);
    n ← syscall h (Read pid_read 4);
    _ ← syscall h (Close pid_read);
    host_pid ← (if ret n =? 4 then mret (i32_of (out n)) else p ← syscall h Getpid; mret (ret p));
    mret (Some live_read, host_pid)
  else
    _ ← syscall h (Close live_read);
    _ ← syscall h (Close pid_read);
    _ ← syscall h (Write pid_write (i32_bytes (ret child)));
    _ ← syscall h (Close pid_write);
    never (parent_relay (ret child) audit_fd dns_audit_fd unotify_audit_fd pid_report_fd).

Definition check_parent_liveness (liveness_fd : Z) : Run unit :=
  n ← syscall h (Read liveness_fd 1);
  _ ← syscall h (Close liveness_fd);
  if ret n =? 0 then exit 1
  else if (ret n <? 0) && negb (errno n =? EAGAIN) then exit 1
  else mret tt.

(** ** The child returns, the relay only ends *)

Section Ends.
Context (Hh : host_ok h) (X : Stop -> Proc -> Prop) (HX : forall e p, quiet e -> X e p).

Lemma keeps_relay_loop n child : keeps X (relay_loop n child).
Proof.
  induction n; simpl; keep. unfold exit_with_child_status. keep.
  intros q. apply hoare_stop. intros. by apply HX.
Qed.

Lemma keeps_parent_relay child a b c d : keeps X (parent_relay child a b c d).
Proof. unfold parent_relay, install_signal_handlers. keep. apply keeps_relay_loop. Qed.

Lemma fork_into_pidns_ends q a b c d :
  hoare (held any q) (fork_into_pidns a b c d)
    (fun _ => held any (set_attrs false (no_new_privs q) (dumpable q) q)) X.
Proof.
  unfold fork_into_pidns. repeat first [hstep | apply keeps_never, keeps_parent_relay; assumption];
    try (exfalso; lia); by eapply held_any.
Qed.

Lemma keeps_liveness fd : keeps X (check_parent_liveness fd).
Proof. unfold check_parent_liveness. keep. Qed.
End Ends.

(** ** The relay ends as the child did *)

(** The status words of [wait(2)]: an exit with [code], or a death by [sig]
    with or without a core dump. *)
Definition exited (code : Z) : Z := code * 256.
Definition signaled (sig : Z) (core : bool) : Z := sig + if core then 128 else 0.

Lemma exited_status code : 0 <= code < 256 ->
  WIFEXITED (exited code) = true /\ WEXITSTATUS (exited code) = code.
Proof.
  intros Hc. unfold WIFEXITED, WTERMSIG, WEXITSTATUS, exited. split.
  - change 0x7f with (Z.ones 7). rewrite Z.land_ones by lia. apply Z.eqb_eq.
    replace (code * 256) with (code * 2 * 2 ^ 7) by lia. apply Z.mod_mul. lia.
  - change 0xff with (Z.ones 8). rewrite Z.land_ones, Z.shiftr_div_pow2 by lia.
    change (2 ^ 8) with 256. rewrite Z.div_mul by lia. apply Z.mod_small. lia.
Qed.

Lemma signaled_status sig core : 1 <= sig <= 126 ->
  WTERMSIG (signaled sig core) = sig /\ WIFEXITED (signaled sig core) = false /\ WIFSIGNALED (signaled sig core) = true.
Proof.
  intros Hs. assert (E : WTERMSIG (signaled sig core) = sig).
  { unfold WTERMSIG, signaled. change 0x7f with (Z.ones 7). rewrite Z.land_ones by lia. change (2 ^ 7) with 128.
    destruct core; [|rewrite Z.add_0_r; apply Z.mod_small; lia]. replace (sig + 128) with (sig + 1 * 128) by lia.
    rewrite Z.mod_add by lia. apply Z.mod_small. lia. }
  split; [done|]. unfold WIFEXITED, WIFSIGNALED. unfold WTERMSIG in *. rewrite E. split; [lia|].
  destruct (Z.leb_spec 128 (sig + 1)); lia.
Qed.

Definition wait_any : Call := Waitpid (-1) false.

(** The [k]-th answer to [waitpid], counted from the state [p]. *)
Definition wait_answer (p : Proc) (k : nat) : Answer := answer h (trace p ++ replicate k wait_any) wait_any.

Lemma wait_answer_next p k :
  wait_answer (effect wait_any (answer h (trace p) wait_any) (log_call wait_any p)) k = wait_answer p (S k).
Proof. unfold wait_answer. cbn. by rewrite <- app_assoc. Qed.

(** Orphans and EINTR are skipped until the child is reaped. *)
Lemma relay_loop_reaps child k : forall n p, (k < n)%nat ->
  (forall j, (j < k)%nat -> ret (wait_answer p j) <> child /\
     (ret (wait_answer p j) = -1 -> errno (wait_answer p j) = EINTR)) ->
  ret (wait_answer p k) = child ->
  exists p', relay_loop n child p = exit_with_child_status (nth 0 (out (wait_answer p k)) 0) p' /\
    trace p' = trace p ++ replicate (S k) wait_any.
Proof.
  induction k as [|k IH]; intros n p Hn Hj Hk; (destruct n as [|n]; [lia|]); cbn [relay_loop];
    unfold mbind, ST_bind, syscall; fold wait_any.
  - assert (E : wait_answer p 0 = answer h (trace p) wait_any) by (unfold wait_answer; simpl; by rewrite app_nil_r).
    rewrite <- E, Hk, Z.eqb_refl. eexists. split; [done|]. by destruct (wait_answer p 0).
  - assert (E : wait_answer p 0 = answer h (trace p) wait_any) by (unfold wait_answer; simpl; by rewrite app_nil_r).
    destruct (Hj 0%nat ltac:(lia)) as [H1 H2]. rewrite E in H1, H2.
    rewrite (proj2 (Z.eqb_neq _ _) H1).
    destruct (IH n (effect wait_any (answer h (trace p) wait_any) (log_call wait_any p))) as (p' & E' & Ht).
    + lia.
    + intros j Hlt. rewrite !wait_answer_next. apply Hj. lia.
    + rewrite wait_answer_next. done.
    + rewrite wait_answer_next in E'. exists p'. split; [|rewrite Ht; cbn; by rewrite <- app_assoc].
      destruct (Z.eqb_spec (ret (answer h (trace p) wait_any)) (-1)) as [Hm|]; [|exact E'].
      rewrite (H2 Hm). exact E'.
Qed.

(** C22: the relay of the PID namespace is transparent.  When [waitpid] reports the child, after any number of
    orphans and interruptions, the relay ends as the child did.  If the child exited, the relay exits with the same
    code.  If a signal killed the child, the relay restores the default action of that signal and raises it, as its
    last two calls; it is killed by the signal, or, only if raising it returns, it exits with 128 + the signal. *)
Theorem relay_transparent child k n p : (k < n)%nat ->
  (forall j, (j < k)%nat -> ret (wait_answer p j) <> child /\
     (ret (wait_answer p j) = -1 -> errno (wait_answer p j) = EINTR)) ->
  ret (wait_answer p k) = child ->
  (forall code rest, 0 <= code < 256 -> out (wait_answer p k) = exited code :: rest ->
     (relay_loop n child p).2 = Err (Exit code)) /\
  (forall sig core rest, 1 <= sig <= 126 -> out (wait_answer p k) = signaled sig core :: rest ->
     let t := trace p ++ replicate (S k) wait_any ++ [DefaultSignal sig] in
     trace (relay_loop n child p).1 = t ++ [Raise sig] /\
     (relay_loop n child p).2 =
       Err (if decide (out (answer h t (Raise sig)) = []) then Killed sig else Exit (128 + sig))).
Proof.
  intros Hn Hj Hk. destruct (relay_loop_reaps child k n p Hn Hj Hk) as (p' & -> & Ht). split.
  - intros code rest Hc ->. destruct (exited_status code Hc) as [E1 E2]. unfold exit_with_child_status. cbn [nth].
    by rewrite E1, E2.
  - intros sig core rest Hs ->. destruct (signaled_status sig core Hs) as (E1 & E2 & E3).
    unfold exit_with_child_status. cbn [nth]. rewrite E2, E3, E1.
    set (t := trace p ++ replicate (S k) wait_any ++ [DefaultSignal sig]).
    assert (Et : trace p' ++ [DefaultSignal sig] = t) by (unfold t; rewrite Ht; by rewrite <- app_assoc).
    clearbody t. subst t. split; [by unfold mbind, ST_bind, syscall; case_decide|].
    unfold mbind, ST_bind, syscall. cbn -[answer]. by case_decide.
Qed.
End Pidns.

(** A child 99 that is killed by SIGSEGV with a core dump, after an orphan. *)
Definition demo_waits (t : list Call) (c : Call) : Answer :=
  match c with
  | Waitpid _ _ => if decide (t = []) then {| ret := 55; errno := 0; out := [0] |}
                   else {| ret := 99; errno := 0; out := [139] |}
  | _ => Demo.reply 0
  end.

Definition demo_relay : @Host Demo.crate :=
  let d := Demo.host 1 in
  {| answer := demo_waits; metadata_ok := metadata_ok d; canonicalize := canonicalize d; is_file := is_file d;
     error_text := error_text d; fd_kernel := fd_kernel d; landlock_host := landlock_host d; accepts := accepts d;
     prlimit64 := prlimit64 d; unotify_available := true; proc_self_stat := None; retries := 9 |}.

Lemma relay_transparent_witness :
  trace (relay_loop demo_relay 9 99 (Demo.start [])).1 = [wait_any; wait_any; DefaultSignal 11; Raise 11] /\
  (relay_loop demo_relay 9 99 (Demo.start [])).2 = Err (Killed 11).
Proof.
  refine (proj2 (relay_transparent demo_relay 99 1 9 (Demo.start []) _ _ _) 11 true [] _ _).
  - lia.
  - intros j Hj. replace j with 0%nat by lia. split; [discriminate|discriminate].
  - reflexivity.
  - lia.
  - reflexivity.
Defined.
