(* ===== verification/Wrapper.v ===== *)
(** * Wrapper: the process that becomes the target

    The path on which the wrapper applies every layer to itself and executes the
    command: [selfexec.rs] ([run_wrapper_path]) and the same path in the binary
    ([main] of [bin/arapuca.rs]), which share their steps.  The theorems say in
    which state the command is executed, that the state is the one the profile
    asks for, and that the wrapper gets there. *)

From stdpp Require Import gmap.
From S2P Require Import Prelude Text Paths Env Json Bridge Seccomp Unotify Allowlists Landlock Rlimit Process Helpers Pidns.

Section Wrapper.
Context `{T : Target} `{SC : Seccompiler} (h : Host).

(** ** Steps *)

(** The arguments from the C pointers; [argv] ends before the null pointer. *)
Definition read_args (argc : Z) (argv : list bytes) : Run (list bytes) :=
  if argc <? 3 then exit 1
  else
    let args := take (Z.to_nat argc) argv in
    if negb (forallb Utf8.valid args) then exit 1
    else if len args <? 3 then exit 1 else mret args.

Definition resolve_command (cmd : bytes) : Run bytes :=
  if metadata_ok h cmd then mret (Utf8.lossy (default cmd (canonicalize h cmd)))
  else
    w ← which h cmd;
    match w with Some path => mret (Utf8.lossy path) | None => exit 1 end.

(** The byte the parent writes when the process is in its cgroup. *)
Definition cgroup_sync : Run unit :=
  v ← getenv "ARAPUCA_CGROUP_SYNC_FD";
  match parse_fd v with
  | Some fd =>
    n ← syscall h (Read fd 1);
    _ ← syscall h (Close fd);
    if ret n =? 1 then mret tt else exit 1
  | None => mret tt
  end.

(** Session, parent death signal, race check, no new privileges. *)
Definition secure_process (audit_fd : option Z) : Run unit :=
  parent ← syscall h Getppid;
  _ ← become_leader h;
  _ ← must h (Prctl PR_SET_PDEATHSIG SIGKILL);
  _ ← parent_alive h (ret parent);
  _ ← audit_layer h audit_fd "Pdeathsig" true None;
  must h (Prctl PR_SET_NO_NEW_PRIVS 1).

Definition start_supervisor (audit_fd : option Z) (debug : bool) (config : option UnotifyConfig)
  : Run (option UnotifyFds) :=
  match config with
  | None => mret None
  | Some config =>
    if unotify_available h then
      v ← getenv "ARAPUCA_UNOTIFY_AUDIT_FD";
      let fd := default (-1) (parse_fd v) in
      if 0 <=? fd then
        r ← fork_unotify_supervisor h config fd debug;
        match r with
        | Ok fds => _ ← audit_layer h audit_fd "UnotifySupervisor" true None; mret (Some fds)
        | Err e => _ ← audit_layer h audit_fd "UnotifySupervisor" false (Some (error_text h e)); mret None
        end
      else mret None
    else mret None
  end.

Definition env_paths_os (name : string) : Run (list bytes) :=
  v ← getenv_os name;
  match v with
  | Some v => if Utf8.valid v then mret (parse_paths v) else exit 1
  | None => mret []
  end.

Definition resolv_step (audit_fd : option Z) : Run unit :=
  v ← getenv "ARAPUCA_DNS_AUDIT_FD";
  if is_ok v then ok ← override_resolv_conf h; audit_layer h audit_fd "ResolvConfOverride" ok None
  else mret tt.

Definition landlock_step (audit_fd : option Z) (profile : Profile) (cmd : bytes) : Run unit :=
  r ← restrict h profile (Some cmd);
  match r with
  | Err e => _ ← audit_layer h audit_fd "Landlock" false (Some (error_text h e)); exit 1
  | Ok _ => audit_layer h audit_fd "Landlock" true None
  end.

Definition var_is (v : result VarError bytes) (s : string) : bool :=
  match v with Ok x => bool_decide (x = bs s) | Err _ => false end.

Definition dns_fd : Run (option Z) :=
  v ← getenv "ARAPUCA_DNS_AUDIT_FD"; mret (nonneg_fd (parse_fd v)).

Definition bridge_step (audit_fd : option Z) (debug : bool) : Run unit :=
  raw ← getenv_os "ARAPUCA_PROXY_BRIDGE";
  match parse_bridge_env raw with
  | Ok (Some (port, uds_path)) =>
    dns_audit_fd ← dns_fd;
    r ← fork_bridge h port (Some uds_path) dns_audit_fd debug;
    match r with
    | Ok bridge_port =>
      let proxy := bs "http://127.0.0.1:" ++ dec bridge_port in
      _ ← set_var "HTTP_PROXY" proxy;
      _ ← set_var "HTTPS_PROXY" proxy;
      _ ← set_var "http_proxy" proxy;
      _ ← set_var "https_proxy" proxy;
      audit_layer h audit_fd "ProxyBridge" true None
    | Err e => _ ← audit_layer h audit_fd "ProxyBridge" false (Some (error_text h e)); exit 1
    end
  | Ok None =>
    dns_audit_fd ← dns_fd;
    match dns_audit_fd with
    | Some fd =>
      r ← fork_bridge h 0 None (Some fd) debug;
      match r with
      | Ok _ => audit_layer h audit_fd "DnsCapture" true None
      | Err e => _ ← audit_layer h audit_fd "DnsCapture" false (Some (error_text h e)); exit 1
      end
    | None => mret tt
    end
  | Err _ => exit 1
  end.

(** The PID of the wrapper in the host namespace, when it has entered one. *)
Definition pidns_step (audit_fd : option Z) : Run (option Z) :=
  v ← getenv "ARAPUCA_PID_NS";
  if negb (var_is v "1") then mret None
  else
    report ← getenv "ARAPUCA_PID_REPORT_FD";
    dns_audit_fd ← dns_fd;
    unotify ← getenv "ARAPUCA_UNOTIFY_AUDIT_FD";
    u ← unshare_pidns h;
    match u with
    | Err e => _ ← audit_layer h audit_fd "PidNamespace" false (Some (error_text h e)); exit 1
    | Ok _ =>
      _ ← audit_layer h audit_fd "PidNamespace" true None;
      f ← fork_into_pidns h audit_fd dns_audit_fd (nonneg_fd (parse_fd unotify)) (parse_fd report);
      let '(liveness_fd, host_pid) := f in
      _ ← must h (Prctl PR_SET_PDEATHSIG SIGKILL);
      _ ← match liveness_fd with Some fd => check_parent_liveness h fd | None => mret tt end;
      mret (Some host_pid)
    end.

Definition seccomp_step (audit_fd : option Z) (profile : SeccompProfile) : Run unit :=
  if seccomp_supported then
    r ← install (Seccomp.apply (accepts h) profile);
    match r with
    | Err e => _ ← audit_layer h audit_fd "Seccomp" false (Some (error_text h e)); exit 1
    | Ok _ => audit_layer h audit_fd "Seccomp" true None
    end
  else audit_layer h audit_fd "Seccomp" true None.
(** [unotify::read_host_pid] and [unotify::install_unotify_filter]. *)
Definition read_host_pid : Run Z :=
  match (s ← proc_self_stat h; if Utf8.valid s then w ← head (split_whitespace s); parse_i32 w else None) with
  | Some pid => mret pid
  | None => p ← syscall h Getpid; mret (ret p)
  end.

Definition install_unotify_filter (bpf : list sock_filter) : Run (Result Z) :=
  fd ← syscall h (SeccompListener bpf);
  if ret fd <? 0 then mret (Err (Seccomp "seccomp USER_NOTIF filter installation failed: {}"))
  else _ ← syscall h (FcntlCloexec (ret fd)); mret (Ok (ret fd)).

(** The notification filter is installed last, and its listener sent to the
    supervisor; without it the command runs unaudited. *)
Definition notify_step (fds : option UnotifyFds) (config : option UnotifyConfig) (pidns_host_pid : option Z)
  : Run unit :=
  match fds with
  | None => mret tt
  | Some fds =>
    ready ← poll_readiness h (readiness_read fds) 5000;
    _ ← syscall h (Close (readiness_read fds));
    match ready, config with
    | Ok _, Some config =>
      host_pid ← match pidns_host_pid with Some pid => mret pid | None => read_host_pid end;
      r ← match build_unotify_bpf (target_syscalls (cfg_file_access config) (cfg_network config)) with
          | Ok bpf => install_unotify_filter bpf
          | Err e => mret (Err e)
          end;
      match r with
      | Ok listener_fd =>
        sent ← write_all_raw h (retries h) (socketpair_parent fds) (i32_bytes host_pid ++ i32_bytes listener_fd);
        if negb sent then exit 1 else _ ← syscall h (Close (socketpair_parent fds)); mret tt
      | Err _ => _ ← syscall h (Close (socketpair_parent fds)); mret tt
      end
    | _, _ => _ ← syscall h (Close (socketpair_parent fds)); mret tt
    end
  end.

Definition set_limits : Run (Result unit) := fun p =>
  let '(l, r) := apply_from_env (prlimit64 h) (environ p) (limits p) in
  (set_layers (domains p) (filters p) l p, Ok r).

Definition rlimit_step (audit_fd : option Z) : Run unit :=
  r ← set_limits;
  match r with
  | Err e => _ ← audit_layer h audit_fd "Rlimit" false (Some (error_text h e)); exit 1
  | Ok _ => audit_layer h audit_fd "Rlimit" true None
  end.

Definition close_audit_fds (audit_fd : option Z) : Run unit :=
  _ ← close_opt h audit_fd;
  dns ← getenv "ARAPUCA_DNS_AUDIT_FD";
  _ ← close_opt h (parse_fd dns);
  unotify ← getenv "ARAPUCA_UNOTIFY_AUDIT_FD";
  close_opt h (parse_fd unotify).

(** The variables for the command, as [KEY=value].  [std::env::vars] panics on
    a variable that is not UTF-8; one with a null byte ends the process or,
    with [skip_nul], is left out. *)
Fixpoint exec_env (skip_nul : bool) (vars : list (bytes * bytes)) : result Stop (list bytes) :=
  match vars with
  | [] => Ok []
  | (k, v) :: vars =>
    if negb (Utf8.valid k && Utf8.valid v) then Err Panicked
    else if starts_with (bs "ARAPUCA_") k then exec_env skip_nul vars
    else if contains 0 k || contains 0 v then if skip_nul then exec_env skip_nul vars else Err (Exit 1)
    else envp ← exec_env skip_nul vars; Ok ((k ++ bs "=" ++ v) :: envp)
  end.

Definition exec_step (skip_nul : bool) (cmd : bytes) (argv : list bytes) : Run Empty_set :=
  env ← get environ;
  match exec_env skip_nul env with
  | Err e => stop e
  | Ok envp =>
    if contains 0 cmd then exit 1
    else if existsb (contains 0) argv then exit 1
    else
      r ← syscall h (ExecveCall cmd argv envp);
      if ret r <? 0 then exit 1 else stop (Exec cmd argv envp)
  end.

(** The steps after the Landlock and bridge layers, which both paths share. *)
Definition finish (skip_nul : bool) (audit_fd : option Z) (profile : SeccompProfile) (fds : option UnotifyFds)
    (config : option UnotifyConfig) (cmd : bytes) (argv : list bytes) : Run Empty_set :=
  host_pid ← pidns_step audit_fd;
  _ ← seccomp_step audit_fd profile;
  _ ← notify_step fds config host_pid;
  _ ← rlimit_step audit_fd;
  _ ← close_audit_fds audit_fd;
  exec_step skip_nul cmd argv.

(** ** [selfexec.rs] *)

Definition run_wrapper_path (argc : Z) (argv : list bytes) : Run Empty_set :=
  args ← read_args argc argv;
  let cmd_args := drop 2 args in
  wrapper ← getenv_os "ARAPUCA_WRAPPER";
  if negb (bool_decide (wrapper = Some (bs "1"))) then exit 1
  else
  audit ← getenv "ARAPUCA_AUDIT_FD";
  let audit_fd := parse_fd audit in
  dbg ← getenv "ARAPUCA_SECCOMP_DEBUG";
  let seccomp_debug := var_is dbg "1" in
  cmd ← resolve_command (nth 2 args []);
  _ ← cgroup_sync;
  _ ← secure_process audit_fd;
  conf ← getenv_os "ARAPUCA_UNOTIFY_CONFIG";
  let config := if seccomp_supported then parse_unotify_config conf else None in
  fds ← start_supervisor audit_fd seccomp_debug config;
  read_paths ← env_paths_os "ARAPUCA_READ_PATHS";
  write_paths ← env_paths_os "ARAPUCA_WRITE_PATHS";
  exec ← getenv "ARAPUCA_ALLOW_EXEC";
  _ ← resolv_step audit_fd;
  _ ← landlock_step audit_fd (paths_profile read_paths write_paths (negb (var_is exec "0"))) cmd;
  _ ← bridge_step audit_fd seccomp_debug;
  sec ← getenv_os "ARAPUCA_SECCOMP_PROFILE";
  finish false audit_fd (if bool_decide (sec = Some (bs "baseline")) then Baseline else Strict) fds config cmd cmd_args.

(** ** [bin/arapuca.rs] *)

Inductive Dispatch : Type := Image | Vm | RunCommand | Usage (code : Z) | WrapperPath.

Definition dispatch (args : list bytes) : Dispatch :=
  match args !! 1%nat with
  | None => Usage 1
  | Some a =>
    if bool_decide (a = bs "image") then Image
    else if bool_decide (a = bs "vm") then Vm
    else if bool_decide (a = bs "run") then RunCommand
    else if bool_decide (a ∈ [bs "-h"; bs "--help"; bs "-V"; bs "--version"]) then Usage 0
    else if bool_decide (a = bs "--") then WrapperPath
    else Usage 1
  end.

(** Here a path list that is not UTF-8 is empty. *)
Definition env_paths (v : result VarError bytes) : list bytes :=
  match v with Ok s => parse_paths s | Err _ => [] end.

Definition wrapper_path (args : list bytes) : Run Empty_set :=
  audit ← getenv "ARAPUCA_AUDIT_FD";
  let audit_fd := parse_fd audit in
  if negb (2 <? len args) then exit 1
  else
  let cmd_args := drop 2 args in
  wrapper ← getenv "ARAPUCA_WRAPPER";
  if negb (var_is wrapper "1") then exit 1
  else
  cmd ← resolve_command (nth 2 args []);
  _ ← cgroup_sync;
  _ ← secure_process audit_fd;
  reads ← getenv "ARAPUCA_READ_PATHS";
  writes ← getenv "ARAPUCA_WRITE_PATHS";
  exec ← getenv "ARAPUCA_ALLOW_EXEC";
  dbg ← getenv "ARAPUCA_SECCOMP_DEBUG";
  let seccomp_debug := var_is dbg "1" in
  _ ← resolv_step audit_fd;
  conf ← getenv_os "ARAPUCA_UNOTIFY_CONFIG";
  let config := if seccomp_supported then parse_unotify_config conf else None in
  fds ← start_supervisor audit_fd seccomp_debug config;
  _ ← landlock_step audit_fd (paths_profile (env_paths reads) (env_paths writes) (negb (var_is exec "0"))) cmd;
  _ ← bridge_step audit_fd seccomp_debug;
  sec ← getenv "ARAPUCA_SECCOMP_PROFILE";
  finish true audit_fd (if var_is sec "baseline" then Baseline else Strict) fds config cmd cmd_args.

(** ** Waiting *)

(** With a pipe to wait on, the wrapper goes on only if the parent has written the byte. *)
Lemma cgroup_sync_waits q p v fd : env_var (var_os (environ q) (bs "ARAPUCA_CGROUP_SYNC_FD")) = v -> parse_fd v = Some fd ->
  cgroup_sync q = (p, Ok tt) -> ret (answer h (trace q) (Read fd 1)) = 1.
Proof.
  intros Ev Hfd. unfold cgroup_sync, getenv, get, mbind, ST_bind. rewrite Ev, Hfd. unfold syscall.
  destruct (Z.eqb_spec (ret (answer h (trace q) (Read fd 1))) 1); done.
Qed.

(** ** Steps that change no attribute *)

Section Keeps.
Context (Hh : host_ok h) (X : Stop -> Proc -> Prop) (HX : forall e p, quiet e -> X e p).

Lemma keeps_which cmd : keeps X (which h cmd).
Proof. unfold which. keep. Qed.

Lemma keeps_resolve cmd : keeps X (resolve_command cmd).
Proof. unfold resolve_command. keep. apply keeps_which. Qed.

Lemma keeps_cgroup_sync : keeps X cgroup_sync.
Proof. unfold cgroup_sync. keep. Qed.

Lemma keeps_override : keeps X (override_resolv_conf h).
Proof. unfold override_resolv_conf. keep. Qed.

Lemma keeps_resolv fd : keeps X (resolv_step fd).
Proof. unfold resolv_step. keep. apply keeps_override. Qed.

Lemma keeps_write_all n fd buf : keeps X (write_all_raw h n fd buf).
Proof. revert buf. induction n; intros buf; simpl; keep. Qed.

Lemma keeps_notify fds config pid : keeps X (notify_step fds config pid).
Proof.
  unfold notify_step, read_host_pid, install_unotify_filter, poll_readiness. keep; try by apply keeps_write_all.
  all: apply keeps_retry; done.
Qed.
End Keeps.

(** ** In which state the command is executed *)

(** The policy the variables ask for. *)
Definition env_profile (env : list (bytes * bytes)) : Profile :=
  paths_profile (env_paths (env_var (var_os env (bs "ARAPUCA_READ_PATHS"))))
    (env_paths (env_var (var_os env (bs "ARAPUCA_WRITE_PATHS"))))
    (negb (var_is (env_var (var_os env (bs "ARAPUCA_ALLOW_EXEC"))) "0")).
Definition env_seccomp (env : list (bytes * bytes)) : SeccompProfile :=
  if bool_decide (var_os env (bs "ARAPUCA_SECCOMP_PROFILE") = Some (bs "baseline")) then Baseline else Strict.
Definition env_debug (env : list (bytes * bytes)) : bool :=
  var_is (env_var (var_os env (bs "ARAPUCA_SECCOMP_DEBUG"))) "1".

(** The descriptors of the audit pipes. *)
Definition audit_fds (env : list (bytes * bytes)) : list Z :=
  omap (fun name => parse_fd (env_var (var_os env (bs name))))
    ["ARAPUCA_AUDIT_FD"; "ARAPUCA_DNS_AUDIT_FD"; "ARAPUCA_UNOTIFY_AUDIT_FD"]%string.

(** [p], that started as [q], is ready to execute [cmd]. *)
Record confined (q : Proc) (cmd : bytes) (p : Proc) : Prop := {
  confined_pdeathsig : pdeathsig p = true;
  confined_nnp : no_new_privs p = true;
  confined_landlock : exists rules, domains p = rules :: domains q /\
    Landlock.apply (landlock_host h) (env_profile (environ q)) (Some cmd) = Enforced rules;
  confined_seccomp d : rank (seccomp_policy (env_seccomp (environ q)) d) <= rank (kernel_verdict (filters p) d);
  confined_limits : apply_from_env (prlimit64 h) (environ q) (limits q) = (limits p, Ok tt);
  confined_fds fd : fd ∈ audit_fds (environ q) -> fd ∉ fds p;
}.

Definition wrapper_end (q : Proc) (args : list bytes) (e : Stop) (p : Proc) : Prop :=
  match e with
  | Exec cmd argv envp =>
    confined q cmd p /\ argv = drop 2 args /\
    Forall (fun s => starts_with (bs "ARAPUCA_") s = false) envp
  | e => exists q', helper_end h (env_debug (environ q)) q' e p
  end.

(** *** The environment *)

(** The variables of the wrapper's configuration are the same. *)
Definition agree (env env' : list (bytes * bytes)) : Prop :=
  forall k, starts_with (bs "ARAPUCA_") k = true -> var_os env' k = var_os env k.

Lemma var_os_put k v env k' : k' <> k -> var_os (put_var k v env) k' = var_os env k'.
Proof.
  intros Hk. induction env as [|[k1 v1] env IH]; simpl.
  - by rewrite bool_decide_eq_false_2 by congruence.
  - destruct (bool_decide_reflect (k1 = k)) as [->|]; simpl; [|by rewrite IH].
    by rewrite !bool_decide_eq_false_2 by congruence.
Qed.

Lemma agree_put name v env env' : starts_with (bs "ARAPUCA_") (bs name) = false ->
  agree env env' -> agree env (put_var (bs name) v env').
Proof. intros Hn Ha k Hk. rewrite var_os_put; [by apply Ha|]. intros ->. by rewrite Hk in Hn. Qed.

Lemma agree_var env env' name : agree env env' -> starts_with (bs "ARAPUCA_") (bs name) = true ->
  var_os env' (bs name) = var_os env (bs name).
Proof. intros Ha. apply Ha. Qed.

Lemma agree_limits env env' prl : agree env env' -> apply_from_env prl env' = apply_from_env prl env.
Proof.
  intros Ha. unfold apply_from_env, if_set, parse_env_u64. rewrite !(agree_var env env') by done. done.
Qed.

(** A name without [=] is a prefix of [k=v] only if it is one of [k]. *)
Lemma prefix_key (p k v : bytes) : Forall (fun c => c <> ch "=") p ->
  starts_with p (k ++ bs "=" ++ v) = true -> starts_with p k = true.
Proof.
  revert k. induction p as [|c p IH]; intros k Hp; [done|]. apply Forall_cons_1 in Hp as [Hc Hp].
  destruct k as [|d k]; unfold starts_with; simpl.
  - destruct (Z.eqb_spec c (ch "=")); [done|]. done.
  - destruct (c =? d); [|done]. apply (IH k Hp).
Qed.

Lemma exec_env_hidden skip vars envp : exec_env skip vars = Ok envp ->
  Forall (fun s => starts_with (bs "ARAPUCA_") s = false) envp.
Proof.
  revert envp. induction vars as [|[k v] vars IH]; simpl; intros envp; [intros [= <-]; constructor|].
  destruct (negb _); [done|]. destruct (starts_with (bs "ARAPUCA_") k) eqn:Ek; [apply IH|].
  destruct (_ || _); [destruct skip; [apply IH|done]|]. intros (l & El & E)%bind_ok. apply ok_inj in E as <-.
  constructor; [|by apply IH]. apply not_true_iff_false. intros Hp. apply prefix_key in Hp; [congruence|]. by_eval.
Qed.

(** *** Every end of the wrapper *)

Section Confine.
Context {L : SeccompilerLaws SC} (Hh : host_ok h) (Hs : seccomp_supported = true) (Hnum : numbers_distinct).
Context (Htab : forall which, NoDup (map fst (helper_table which))) (q : Proc) (args : list bytes).

Lemma end_helper q' e p : helper_end h (env_debug (environ q)) q' e p -> wrapper_end q args e p.
Proof. destruct e; try (intros H; by exists q'). done. Qed.

Lemma end_quiet e p : quiet e -> wrapper_end q args e p.
Proof. intros He. by apply (end_helper q), quiet_helper_end. Qed.

Lemma keeps_start_supervisor fd config :
  keeps (wrapper_end q args) (start_supervisor fd (env_debug (environ q)) config).
Proof.
  pose proof end_quiet as HX. unfold start_supervisor. keep.
  intros q1. apply fork_supervisor_ends; try done. intros e p. apply end_helper.
Qed.

Lemma keeps_fork_bridge port uds dns :
  keeps (wrapper_end q args) (fork_bridge h port uds dns (env_debug (environ q))).
Proof. intros q1. apply fork_bridge_ends; try done. intros e p. apply end_helper. Qed.

Lemma held_same K q1 p : held K q1 p -> held K (set_environ (environ q1) q1) p.
Proof. intros []. by split. Qed.

Lemma bridge_step_ends fd q1 :
  hoare (held any q1) (bridge_step fd (env_debug (environ q)))
    (fun _ p => exists env, agree (environ q1) env /\ held any (set_environ env q1) p) (wrapper_end q args).
Proof.
  pose proof end_quiet as HX. unfold bridge_step, dns_fd.
  repeat first [hstep | apply bind_keeps; [apply keeps_fork_bridge|intros ?]].
  all: try (eapply hoare_post; [eapply hoare_held; [by apply keeps_audit|done]|cbv beta; intros]).
  { eexists. split; [|by eapply held_any]. by repeat apply agree_put. }
  all: eexists; split; [by intros k _|by apply held_same].
Qed.

Lemma keeps_pidns_step fd q1 : pdeathsig q1 = true ->
  hoare (held any q1) (pidns_step fd) (fun _ => held any q1) (wrapper_end q args).
Proof.
  intros Hp. pose proof end_quiet as HX. unfold pidns_step, unshare_pidns, dns_fd.
  repeat first [ hstep | apply bind_keeps; [by apply keeps_liveness|intros ?]
               | eapply hoare_bind; [eapply hoare_held; [by apply fork_into_pidns_ends|done]|intros ?; cbv beta] ];
    try done.
  all: match goal with H : held _ _ _ |- _ => destruct H; split; simpl in *; congruence || done end.
Qed.

Lemma bind_set_limits {A} (Q : A -> Proc -> Prop) X K q1 (f : Result unit -> Run A) :
  (forall l r, apply_from_env (prlimit64 h) (environ q1) (limits q1) = (l, r) ->
     hoare (held K (set_layers (domains q1) (filters q1) l q1)) (f r) Q X) ->
  hoare (held K q1) (set_limits ≫= f) Q X.
Proof.
  intros Hf p [He ? ? ? Hd Hk Hl ? ?]. unfold mbind, ST_bind, set_limits. rewrite He, Hl.
  destruct (apply_from_env _ _ _) as [l r] eqn:E. apply (Hf l r eq_refl). split; simpl; try done; congruence.
Qed.

(** [audit_fds] with the descriptor of [audit_layer]. *)
Lemma audit_fds_list env :
  audit_fds env = option_list (parse_fd (env_var (var_os env (bs "ARAPUCA_AUDIT_FD"))))
    ++ option_list (parse_fd (env_var (var_os env (bs "ARAPUCA_DNS_AUDIT_FD"))))
    ++ option_list (parse_fd (env_var (var_os env (bs "ARAPUCA_UNOTIFY_AUDIT_FD")))).
Proof.
  unfold audit_fds. simpl. by repeat destruct (parse_fd _).
Qed.

(** The state in which [finish] starts. *)
Record ready (q1 : Proc) (cmd : bytes) : Prop := {
  ready_env : agree (environ q) (environ q1);
  ready_pdeathsig : pdeathsig q1 = true;
  ready_nnp : no_new_privs q1 = true;
  ready_landlock : exists rules, domains q1 = rules :: domains q /\
    Landlock.apply (landlock_host h) (env_profile (environ q)) (Some cmd) = Enforced rules;
  ready_limits : limits q1 = limits q;
}.

Lemma confined_start q1 cmd k l p : ready q1 cmd ->
  Seccomp.apply (accepts h) (env_seccomp (environ q)) (filters q1) = (k, Ok tt) ->
  apply_from_env (prlimit64 h) (environ q1) (limits q1) = (l, Ok tt) ->
  held (fun fd => fd ∉ audit_fds (environ q)) (set_layers (domains q1) k l q1) p -> confined q cmd p.
Proof.
  intros [He Hp Hn [rules [Hd Hr]] Hl] Hk Hli [He' Hp' Hn' _ Hd' Hk' Hl' _ HK]. simpl in *.
  split; [congruence|congruence| | | |].
  - exists rules. split; [congruence|done].
  - intros d. rewrite Hk'.
    destruct (apply_verdict (accepts h) _ _ _ d Hnum Hk) as (added & -> & <-). apply verdict_app.
  - rewrite Hl', <- Hl, <- (agree_limits _ _ _ He). done.
  - intros fd Hin Hfd. by apply (HK fd).
Qed.

Lemma exec_env_quiet skip vars e : exec_env skip vars = Err e -> quiet e.
Proof.
  induction vars as [|[k v] vars IH]; simpl; [done|]. destruct (negb _); [by intros [= <-]|].
  destruct (starts_with _ _); [done|]. destruct (_ || _); [destruct skip; [done|by intros [= <-]]|].
  destruct (exec_env skip vars) eqn:E; [done|]. simpl. by intros [= <-]; apply IH.
Qed.

Lemma exec_step_ends K skip q2 cmd : (forall p, held K q2 p -> confined q cmd p) ->
  hoare (held K q2) (exec_step skip cmd (drop 2 args)) (fun _ _ => False) (wrapper_end q args).
Proof.
  intros Hc. pose proof end_quiet as HX. unfold exec_step. apply bind_get; [by intros p []|].
  repeat hstep; [|by apply HX; eapply exec_env_quiet].
  cbn [wrapper_end]. split; [by apply Hc|]. split; [done|]. by eapply exec_env_hidden.
Qed.

Lemma hoare_close_opt K q2 o :
  hoare (held K q2) (close_opt h o) (fun _ => held (fun x => K x /\ x ∉ option_list o) q2) (wrapper_end q args).
Proof.
  unfold close_opt. destruct o; repeat hstep; eapply held_weaken; try eassumption; set_solver.
Qed.

Lemma close_audit_ends q2 : agree (environ q) (environ q2) ->
  hoare (held any q2) (close_audit_fds (parse_fd (env_var (var_os (environ q) (bs "ARAPUCA_AUDIT_FD")))))
    (fun _ => held (fun fd => fd ∉ audit_fds (environ q)) q2) (wrapper_end q args).
Proof.
  intros He. unfold close_audit_fds. rewrite audit_fds_list.
  eapply hoare_bind; [apply hoare_close_opt|intros []; cbv beta].
  apply bind_getenv. rewrite (agree_var _ _ _ He) by done.
  eapply hoare_bind; [apply hoare_close_opt|intros []; cbv beta].
  apply bind_getenv. rewrite (agree_var _ _ _ He) by done.
  eapply hoare_post; [apply hoare_close_opt|]. intros [] p Hp. eapply held_weaken; [exact Hp|]. set_solver.
Qed.

Lemma finish_ends skip q1 cmd fds config : ready q1 cmd ->
  hoare (held any q1)
    (finish skip (parse_fd (env_var (var_os (environ q) (bs "ARAPUCA_AUDIT_FD")))) (env_seccomp (environ q)) fds config
       cmd (drop 2 args)) (fun _ _ => False) (wrapper_end q args).
Proof.
  intros Hr. pose proof end_quiet as HX. pose proof (ready_env _ _ Hr) as He.
  unfold finish, seccomp_step, rlimit_step. rewrite Hs.
  eapply hoare_bind; [by apply keeps_pidns_step, Hr|intros pid; cbv beta].
  apply hoare_assoc, bind_install.
  destruct (Seccomp.apply _ _ (filters q1)) as [k [[]|e]] eqn:Ek; cbn [fst snd]; [|repeat hstep].
  apply bind_keeps; [by apply keeps_audit|intros _].
  apply bind_keeps; [by apply keeps_notify|intros _].
  apply hoare_assoc, bind_set_limits. intros l r El. cbn [environ limits set_layers] in El.
  destruct r as [[]|e]; [|repeat hstep]. apply bind_keeps; [by apply keeps_audit|intros _].
  eapply hoare_bind; [by apply close_audit_ends|intros []; cbv beta]. apply exec_step_ends.
  intros p Hp. eapply confined_start; try eassumption.
Qed.

Lemma ready_start q1 cmd env rules : domains q1 = rules :: domains q -> environ q1 = environ q ->
  pdeathsig q1 = true -> no_new_privs q1 = true -> limits q1 = limits q -> agree (environ q1) env ->
  Landlock.apply (landlock_host h) (env_profile (environ q)) (Some cmd) = Enforced rules ->
  ready (set_environ env q1) cmd.
Proof. intros Hd He ? ? ? Ha ?. split; simpl; try done; [by rewrite <- He|eauto]. Qed.

(** The Landlock and bridge layers make the process ready. *)
Lemma layers_ready cmd q1 (k : Run Empty_set) :
  domains q1 = domains q -> environ q1 = environ q -> pdeathsig q1 = true -> no_new_privs q1 = true ->
  limits q1 = limits q ->
  (forall q2, ready q2 cmd -> hoare (held any q2) k (fun _ _ => False) (wrapper_end q args)) ->
  let audit_fd := parse_fd (env_var (var_os (environ q) (bs "ARAPUCA_AUDIT_FD"))) in
  hoare (held any q1)
    (_ ← landlock_step audit_fd (env_profile (environ q)) cmd;
     _ ← bridge_step audit_fd (env_debug (environ q));
     k) (fun _ _ => False) (wrapper_end q args).
Proof.
  intros Hd He Hp Hn Hl Hk audit_fd. pose proof end_quiet as HX. unfold landlock_step.
  apply hoare_assoc, bind_restrict; [done|intros rules Hr|intros e; repeat hstep].
  apply bind_keeps; [by apply keeps_audit|intros _].
  eapply hoare_bind; [apply bridge_step_ends|intros []; cbv beta].
  intros p (env & Ha & Hp'). simpl in Ha. refine (Hk _ _ p Hp').
  apply (ready_start _ _ _ rules); simpl; try done; congruence.
Qed.
End Confine.

Section Paths.
Context {L : SeccompilerLaws SC} (Hh : host_ok h) (Hs : seccomp_supported = true) (Hnum : numbers_distinct).
Context (Htab : forall which, NoDup (map fst (helper_table which))) (q : Proc).

Lemma bind_env_paths_os {A} (Q : A -> Proc -> Prop) X K q1 name (f : list bytes -> Run A) :
  (forall e p, quiet e -> X e p) ->
  hoare (held K q1) (f (env_paths (env_var (var_os (environ q1) (bs name))))) Q X ->
  hoare (held K q1) (env_paths_os name ≫= f) Q X.
Proof.
  intros HX Hf. unfold env_paths_os. apply hoare_assoc, bind_getenv_os.
  destruct (var_os (environ q1) (bs name)) as [v|]; simpl in Hf; [|by apply hoare_ret_bind].
  destruct (Utf8.valid v); [by apply hoare_ret_bind|repeat hstep].
Qed.

Lemma var_is_baseline raw : var_is (env_var raw) "baseline" = bool_decide (raw = Some (bs "baseline")).
Proof.
  destruct raw as [v|]; simpl; [|done]. destruct (Utf8.valid v) eqn:E; simpl.
  - apply bool_decide_ext. naive_solver.
  - symmetry. apply bool_decide_eq_false. by intros [= ->].
Qed.

Lemma run_wrapper_path_ends argc argv :
  hoare (held any q) (run_wrapper_path argc argv) (fun _ _ => False) (wrapper_end q (take (Z.to_nat argc) argv)).
Proof.
  set (args := take (Z.to_nat argc) argv). pose proof (end_quiet q args) as HX.
  unfold run_wrapper_path, read_args. fold args. repeat hstep.
  apply bind_keeps; [by apply keeps_resolve|intros cmd].
  apply bind_keeps; [by apply keeps_cgroup_sync|intros _].
  unfold secure_process, become_leader. repeat hstep.
  apply bind_keeps; [by apply keeps_start_supervisor|intros ufds].
  apply bind_env_paths_os; [done|]. apply bind_env_paths_os; [done|]. hstep.
  apply bind_keeps; [by apply keeps_resolv|intros _].
  apply layers_ready; try done. intros q2 Hr. hstep. rewrite (agree_var _ _ _ (ready_env _ _ _ Hr)) by done.
  by apply finish_ends.
Qed.

Lemma wrapper_path_ends args :
  hoare (held any q) (wrapper_path args) (fun _ _ => False) (wrapper_end q args).
Proof.
  pose proof (end_quiet q args) as HX. unfold wrapper_path. repeat hstep.
  apply bind_keeps; [by apply keeps_resolve|intros cmd].
  apply bind_keeps; [by apply keeps_cgroup_sync|intros _].
  unfold secure_process, become_leader. repeat hstep.
  apply bind_keeps; [by apply keeps_resolv|intros _]. hstep.
  apply bind_keeps; [by apply keeps_start_supervisor|intros ufds].
  apply layers_ready; try done. intros q2 Hr. hstep. rewrite (agree_var _ _ _ (ready_env _ _ _ Hr)) by done.
  rewrite var_is_baseline. by apply finish_ends.
Qed.
End Paths.

(** C10: no command runs unconfined.  Whatever the kernel, the environment and the arguments are, on both paths the
    wrapper ends in one of three ways.  Either it executes the command, and then it dies with its parent, cannot
    gain privileges, is confined by the Landlock rules and (at least) the seccomp policy that its variables ask
    for, has core dumps off and its resource limits set, has closed the audit pipes, and hides every ARAPUCA
    variable from the command.  Or it is a helper that serves in its confined state.  Or it exits. *)
Theorem wrapper_confines {L : SeccompilerLaws SC} q p e argc argv args :
  host_ok h -> seccomp_supported = true -> numbers_distinct ->
  (forall which, NoDup (map fst (helper_table which))) -> fds_ok (fds q) ->
  (run_wrapper_path argc argv q = (p, Err e) -> wrapper_end q (take (Z.to_nat argc) argv) e p) /\
  (wrapper_path args q = (p, Err e) -> wrapper_end q args e p).
Proof.
  intros Hh Hs Hnum Htab Hf. assert (Hq : held any q q) by (by split). split; intros E.
  - pose proof (run_wrapper_path_ends Hh Hs Hnum Htab q argc argv q Hq) as K. by rewrite E in K.
  - pose proof (wrapper_path_ends Hh Hs Hnum Htab q args q Hq) as K. by rewrite E in K.
Qed.

(** ** From the launcher's profile to the command *)

(** The profile with the temporary directory of the launch. *)
Definition launch_profile (p : Profile) (tmp : bytes) : Profile :=
  {| isolation := isolation p; read_paths := read_paths p ++ [tmp]; write_paths := write_paths p ++ [tmp];
     max_memory_mb := max_memory_mb p; max_cpu_pct := max_cpu_pct p; max_pids := max_pids p;
     cgroup_policy := cgroup_policy p; cpu_timeout_secs := cpu_timeout_secs p;
     max_file_size_mb := max_file_size_mb p; max_open_files := max_open_files p; allow_exec := allow_exec p;
     use_netns := use_netns p; use_pidns := use_pidns p; dns_capture := dns_capture p; lpac := lpac p;
     seccomp_profile := seccomp_profile p; audit_file_access := audit_file_access p;
     audit_network := audit_network p; seccomp_debug := seccomp_debug p; allow_proxy_env := allow_proxy_env p;
     allow_keychain := allow_keychain p |}.

(** The variables that the launcher gives the wrapper, in the order in which
    they are set: of two with the same name the later one counts. *)
Definition launch_env (p : Profile) (tmp : bytes) (proxy : option bytes) (netns : bool)
    (caller : list (bytes * bytes)) : Result (list (bytes * bytes)) :=
  wenv ← wrapper_env (launch_profile p tmp);
  bridge ← bridge_env netns proxy;
  Ok (minimal_env tmp ++ wenv
      ++ match proxy with Some s => [(bs "AGENT_NETWORK_PROXY", Utf8.lossy s)] | None => [] end
      ++ option_list bridge ++ (filter_caller_env caller).1).

Definition config_names : list string :=
  ["ARAPUCA_READ_PATHS"; "ARAPUCA_WRITE_PATHS"; "ARAPUCA_ALLOW_EXEC"; "ARAPUCA_SECCOMP_PROFILE";
   "ARAPUCA_RLIMIT_AS"; "ARAPUCA_RLIMIT_NPROC"; "ARAPUCA_RLIMIT_CPU"; "ARAPUCA_RLIMIT_FSIZE";
   "ARAPUCA_RLIMIT_NOFILE"]%string.

Lemma config_name name : name ∈ config_names ->
  starts_with (bs "ARAPUCA_") (bs name) = true /\ bs name <> bs "ARAPUCA_PROXY_BRIDGE".
Proof.
  intros H. assert (HF : Forall (fun n => starts_with (bs "ARAPUCA_") (bs n) = true /\
    bs n <> bs "ARAPUCA_PROXY_BRIDGE") config_names) by by_eval.
  rewrite List.Forall_forall in HF. by apply HF, list_elem_of_In.
Qed.

Lemma bridge_env_key netns proxy b : bridge_env netns proxy = Ok b ->
  forall kv, kv ∈ option_list b -> kv.1 = bs "ARAPUCA_PROXY_BRIDGE".
Proof.
  unfold bridge_env. destruct proxy as [s|]; [|intros [= <-]; set_solver].
  destruct (negb netns); [intros [= <-]; set_solver|]. destruct (contains _ _); [done|].
  intros [= <-] kv. simpl. rewrite list_elem_of_singleton. by intros ->.
Qed.

(** No caller can change a variable of the configuration. *)
Lemma launch_var p tmp proxy netns caller vars extra name :
  launch_env p tmp proxy netns caller = Ok vars -> name ∈ config_names -> bs name ∉ extra.*1 ->
  exists wenv, wrapper_env (launch_profile p tmp) = Ok wenv /\
    var_os (reverse (vars ++ extra)) (bs name) = var_os wenv (bs name).
Proof.
  intros H Hn Hx. destruct (config_name name Hn) as [Ha Hb]. unfold launch_env in H.
  apply bind_ok in H as (wenv & Hw & H). apply bind_ok in H as (b & Eb & H). apply ok_inj in H as <-.
  exists wenv. split; [done|]. rewrite !reverse_app, !var_os_app.
  assert (K : forall l, bs name ∉ l.*1 -> var_os (reverse l) (bs name) = None).
  { intros l Hl. apply var_os_None. by rewrite fmap_reverse, elem_of_reverse. }
  rewrite (K extra Hx), (K (filter_caller_env caller).1), (K (option_list b)).
  - rewrite (K (match proxy with Some _ => _ | None => _ end)), (K (minimal_env tmp)).
    + rewrite (var_os_reverse _ _ (wrapper_env_nodup _ _ Hw)). by destruct (var_os wenv _).
    + simpl. rewrite !not_elem_of_cons. split_and!; try (intros E; by rewrite E in Ha). apply not_elem_of_nil.
    + destruct proxy; simpl; rewrite ?not_elem_of_cons; [|apply not_elem_of_nil].
      split; [intros E; by rewrite E in Ha|apply not_elem_of_nil].
  - intros ([k v] & E & Hin)%list_elem_of_fmap. apply (bridge_env_key _ _ _ Eb) in Hin. simpl in *. congruence.
  - intros ([k v] & E & Hin)%list_elem_of_fmap. simpl in E. subst k. apply filter_caller_env_passed in Hin as [_ Hd].
    apply Hd. left. exists "ARAPUCA_"%string. split; [apply list_elem_of_here|]. by apply starts_with_prefix.
Qed.

Lemma landlock_fields p p' target : read_paths p = read_paths p' -> write_paths p = write_paths p' ->
  allow_exec p = allow_exec p' -> Landlock.apply (landlock_host h) p target = Landlock.apply (landlock_host h) p' target.
Proof. intros Hr Hw Hx. unfold Landlock.apply. by rewrite Hr, Hw, Hx. Qed.

(** The profile as the wrapper reads its paths. *)
Definition as_read (p : Profile) : Profile :=
  {| isolation := isolation p; read_paths := carried (read_paths p); write_paths := carried (write_paths p);
     max_memory_mb := max_memory_mb p; max_cpu_pct := max_cpu_pct p; max_pids := max_pids p;
     cgroup_policy := cgroup_policy p; cpu_timeout_secs := cpu_timeout_secs p; max_file_size_mb := max_file_size_mb p;
     max_open_files := max_open_files p; allow_exec := allow_exec p; use_netns := use_netns p; use_pidns := use_pidns p;
     dns_capture := dns_capture p; lpac := lpac p; seccomp_profile := seccomp_profile p;
     audit_file_access := audit_file_access p; audit_network := audit_network p; seccomp_debug := seccomp_debug p;
     allow_proxy_env := allow_proxy_env p; allow_keychain := allow_keychain p |}.

(** Paths of UTF-8 text without surrounding white space are read as they are. *)
Lemma as_read_plain p tmp : Forall plain_path (read_paths p ++ write_paths p ++ [tmp]) ->
  as_read (launch_profile p tmp) = launch_profile p tmp.
Proof.
  intros (Hr & (Hw & Ht)%Forall_app)%Forall_app. unfold as_read.
  rewrite (carried_plain (read_paths (launch_profile p tmp))) by (by apply Forall_app).
  by rewrite (carried_plain (write_paths (launch_profile p tmp))) by (by apply Forall_app).
Qed.

(** A list of paths is read back as [carried] says. *)
Lemma env_paths_read l : Forall (fun x => contains PATH_LIST_SEP (Utf8.lossy x) = false) l ->
  env_paths (env_var (if decide (l = []) then None else Some (join [PATH_LIST_SEP] (map Utf8.lossy l)))) = carried l.
Proof.
  intros Hc. case_decide as E; [by rewrite E|]. simpl.
  assert (Hv : Forall (fun s => Utf8.valid s = true) (map Utf8.lossy l)).
  { apply List.Forall_map, List.Forall_forall. intros x _. apply Utf8.valid_decode, Utf8.decode_lossy. }
  rewrite (valid_join _ Hv). simpl. by apply parse_paths_carried.
Qed.

Lemma launch_env_profile p tmp wenv env : wrapper_env (launch_profile p tmp) = Ok wenv ->
  (forall name, name ∈ config_names -> var_os env (bs name) = var_os wenv (bs name)) ->
  (forall target, Landlock.apply (landlock_host h) (env_profile env) target
                  = Landlock.apply (landlock_host h) (as_read (launch_profile p tmp)) target) /\
  env_seccomp env = seccomp_profile p /\
  forall prl, apply_from_env prl env = apply_from_env prl wenv.
Proof.
  intros Hw He. destruct (wrapper_env_policy _ _ Hw) as (Er & Ew & Ex & Es).
  pose proof (wrapper_env_no_sep _ _ Hw) as Hs. apply Forall_app in Hs as [Hs1 Hs2].
  split_and!.
  - intros target. apply landlock_fields; unfold env_profile; simpl.
    + rewrite He by set_solver. rewrite Er. by apply env_paths_read.
    + rewrite He by set_solver. rewrite Ew. by apply env_paths_read.
    + rewrite He by set_solver. rewrite Ex. simpl. by destruct (allow_exec p).
  - unfold env_seccomp. rewrite He by set_solver. rewrite Es. simpl. by destruct (seccomp_profile p).
  - intros prl. unfold apply_from_env, if_set, parse_env_u64. by rewrite !He by set_solver.
Qed.

(** From the variables that the launcher builds to the state in which the command is executed. *)
Lemma launched_profile {L : SeccompilerLaws SC} profile tmp proxy netns caller vars extra q p cmd argv envp argc args :
  host_ok h -> seccomp_supported = true -> numbers_distinct ->
  (forall which, NoDup (map fst (helper_table which))) -> fds_ok (fds q) ->
  launch_env profile tmp proxy netns caller = Ok vars ->
  limits_typed profile -> (forall name, name ∈ config_names -> bs name ∉ extra.*1) ->
  (forall k, var_os (environ q) k = var_os (reverse (vars ++ extra)) k) ->
  run_wrapper_path argc args q = (p, Err (Exec cmd argv envp)) \/
  wrapper_path args q = (p, Err (Exec cmd argv envp)) ->
  (exists rules, domains p = rules :: domains q /\
     Landlock.apply (landlock_host h) (as_read (launch_profile profile tmp)) (Some cmd) = Enforced rules) /\
  (forall d, rank (seccomp_policy (seccomp_profile profile) d) <= rank (kernel_verdict (filters p) d)) /\
  enforced_limits profile (limits q) (limits p) /\ pdeathsig p = true /\ no_new_privs p = true.
Proof.
  intros Hh Hs Hnum Htab Hf Hl Hlim Hx He Hrun. assert (Hq : held any q q) by (by split).
  assert (Hc : confined q cmd p).
  { destruct Hrun as [E|E].
    - pose proof (run_wrapper_path_ends Hh Hs Hnum Htab q argc args q Hq) as K. rewrite E in K. apply K.
    - pose proof (wrapper_path_ends Hh Hs Hnum Htab q args q Hq) as K. rewrite E in K. apply K. }
  destruct (launch_var _ _ _ _ _ _ _ "ARAPUCA_READ_PATHS" Hl ltac:(apply list_elem_of_here)
              ltac:(apply Hx, list_elem_of_here)) as (wenv & Hwe & _).
  destruct (launch_env_profile profile tmp wenv (environ q) Hwe) as (P1 & P2 & P3).
  { intros name Hn. rewrite He. destruct (launch_var _ _ _ _ _ _ _ name Hl Hn (Hx name Hn)) as (w & Hw' & ->).
    congruence. }
  destruct Hc as [Hp Hn (rules & Hd & Ha) Hsec Hli _]. rewrite P1 in Ha. rewrite P2 in Hsec. rewrite P3 in Hli.
  split; [by exists rules|]. split; [done|]. split; [|done].
  exact (env_enforced _ (launch_profile profile tmp) _ _ _ Hwe Hlim Hli).
Qed.

(** C7: the command runs under the launcher's profile.  Let the wrapper be started with the variables that the
    launcher builds from a profile, and with any further variables that do not have the names of the configuration
    (the caller's variables cannot).  If the wrapper executes the command, on either path, the rules in force are
    those that Landlock makes of the profile's paths and the temporary directory, as the wrapper reads them: lossy
    UTF-8 text, without surrounding white space, empty ones left out.  For paths that are UTF-8 text without
    surrounding white space these are the profile's own paths; another path can reach Landlock as a different one.
    The seccomp verdict is at least that of the profile's policy for every system call, and the resource limits are
    the profile's for all values of the fields' type [u64]; a file size of more bytes than a [u64] counts becomes
    the largest [u64], that is no limit. *)
Theorem profile_enforced {L : SeccompilerLaws SC} profile tmp proxy netns caller vars extra q p cmd argv envp argc args :
  host_ok h -> seccomp_supported = true -> numbers_distinct ->
  (forall which, NoDup (map fst (helper_table which))) -> fds_ok (fds q) ->
  launch_env profile tmp proxy netns caller = Ok vars ->
  limits_typed profile -> (forall name, name ∈ config_names -> bs name ∉ extra.*1) ->
  (forall k, var_os (environ q) k = var_os (reverse (vars ++ extra)) k) ->
  run_wrapper_path argc args q = (p, Err (Exec cmd argv envp)) \/
  wrapper_path args q = (p, Err (Exec cmd argv envp)) ->
  (exists rules, domains p = rules :: domains q /\
     Landlock.apply (landlock_host h) (as_read (launch_profile profile tmp)) (Some cmd) = Enforced rules) /\
  (Forall plain_path (read_paths profile ++ write_paths profile ++ [tmp]) ->
   as_read (launch_profile profile tmp) = launch_profile profile tmp) /\
  (forall d, rank (seccomp_policy (seccomp_profile profile) d) <= rank (kernel_verdict (filters p) d)) /\
  enforced_limits profile (limits q) (limits p) /\ pdeathsig p = true /\ no_new_privs p = true.
Proof.
  intros Hh Hs Hnum Htab Hf Hl Hlim Hx He Hrun.
  destruct (launched_profile profile tmp proxy netns caller vars extra q p cmd argv envp argc args) as [H1 H2]; try done.
  split; [exact H1|]. split; [apply as_read_plain|exact H2].
Qed.

(** ** The wrapper gets there *)

(** A kernel that does what it is asked for. *)
Record compliant : Prop := {
  prctl_works t op arg : ret (answer h t (Prctl op arg)) = 0;
  same_parent t t' : ret (answer h t Getppid) = ret (answer h t' Getppid);
  setsid_works t : ret (answer h t Setsid) = -1 -> errno (answer h t Setsid) = EPERM;
  execve_works t cmd argv envp : 0 <= ret (answer h t (ExecveCall cmd argv envp));
}.

(** A launch without cgroup, bridge, DNS capture, PID namespace and supervisor. *)
Definition plain_launch (env : list (bytes * bytes)) : Prop :=
  Forall (fun name => var_os env (bs name) = None)
    ["ARAPUCA_CGROUP_SYNC_FD"; "ARAPUCA_UNOTIFY_CONFIG"; "ARAPUCA_DNS_AUDIT_FD"; "ARAPUCA_PROXY_BRIDGE";
     "ARAPUCA_PID_NS"]%string.

Definition clean (s : bytes) : bool := Utf8.valid s && negb (contains 0 s).

(** The environment of the command. *)
Definition passed_env (env : list (bytes * bytes)) : list bytes :=
  map (fun kv => kv.1 ++ bs "=" ++ kv.2) (List.filter (fun kv => negb (starts_with (bs "ARAPUCA_") kv.1)) env).

Lemma exec_env_clean skip env : Forall (fun kv => clean kv.1 = true /\ clean kv.2 = true) env ->
  exec_env skip env = Ok (passed_env env).
Proof.
  induction 1 as [|[k v] env [Hk Hv] _ IH]; [done|]. unfold clean in *; simpl in *.
  apply andb_prop in Hk as [-> Hk], Hv as [-> Hv]. apply negb_true_iff in Hk, Hv. simpl.
  unfold passed_env. simpl. destruct (starts_with _ k); simpl; [exact IH|]. rewrite Hk, Hv. simpl. by rewrite IH.
Qed.

Section Executes.
Context (Hc : compliant).

(** What the calls cannot change. *)
Definition stays (e : list (bytes * bytes)) (k : list BpfProgram) (l : Limits) (p : Proc) : Prop :=
  environ p = e /\ filters p = k /\ limits p = l.

Context {A : Type} (Q : A -> Proc -> Prop) (X : Stop -> Proc -> Prop).

Lemma stays_call e k l c (P : Answer -> Prop) (f : Answer -> Run A) : (forall t, P (answer h t c)) ->
  (forall a, P a -> hoare (stays e k l) (f a) Q X) -> hoare (stays e k l) (syscall h c ≫= f) Q X.
Proof.
  intros HP Hf p Hp. apply (Hf (answer h (trace p) c) (HP _)). destruct Hp as (<- & <- & <-).
  unfold stays. destruct c; simpl; repeat case_match; done.
Qed.

Lemma stays_any e k l c (f : Answer -> Run A) :
  (forall a, hoare (stays e k l) (f a) Q X) -> hoare (stays e k l) (syscall h c ≫= f) Q X.
Proof. intros Hf. apply (stays_call _ _ _ _ (fun _ => True)); auto. Qed.

Lemma stays_prctl e k l op arg (f : unit -> Run A) :
  hoare (stays e k l) (f tt) Q X -> hoare (stays e k l) (must h (Prctl op arg) ≫= f) Q X.
Proof.
  intros Hf. unfold must. apply hoare_assoc, (stays_call _ _ _ _ (fun a => ret a = 0)); [intros t; by apply prctl_works|].
  intros a E. rewrite E. by apply hoare_ret_bind.
Qed.

Lemma stays_audit e k l fd layer ok err (f : unit -> Run A) :
  hoare (stays e k l) (f tt) Q X -> hoare (stays e k l) (audit_layer h fd layer ok err ≫= f) Q X.
Proof.
  intros Hf. unfold audit_layer. destruct fd; [|by apply hoare_ret_bind].
  apply hoare_assoc, stays_any. intros _. by apply hoare_ret_bind.
Qed.

Lemma stays_getenv e k l name (f : result VarError bytes -> Run A) :
  hoare (stays e k l) (f (env_var (var_os e (bs name)))) Q X -> hoare (stays e k l) (getenv name ≫= f) Q X.
Proof. intros Hf p (<- & Hp). apply (Hf p). by split. Qed.

Lemma stays_getenv_os e k l name (f : option bytes -> Run A) :
  hoare (stays e k l) (f (var_os e (bs name))) Q X -> hoare (stays e k l) (getenv_os name ≫= f) Q X.
Proof. intros Hf p (<- & Hp). apply (Hf p). by split. Qed.

Lemma stays_close e k l o (f : unit -> Run A) :
  hoare (stays e k l) (f tt) Q X -> hoare (stays e k l) (close_opt h o ≫= f) Q X.
Proof.
  intros Hf. unfold close_opt. destruct o; [|by apply hoare_ret_bind].
  apply hoare_assoc, stays_any. intros _. by apply hoare_ret_bind.
Qed.

Lemma stays_install e k l m k' r (f : Result unit -> Run A) : m k = (k', r) ->
  hoare (stays e k' l) (f r) Q X -> hoare (stays e k l) (install m ≫= f) Q X.
Proof. intros Hm Hf p (He & Hk & Hl). unfold mbind, ST_bind, install. rewrite Hk, Hm. by apply Hf. Qed.

Lemma stays_limits e k l l' r (f : Result unit -> Run A) : apply_from_env (prlimit64 h) e l = (l', r) ->
  hoare (stays e k l') (f r) Q X -> hoare (stays e k l) (set_limits ≫= f) Q X.
Proof. intros Hm Hf p (He & Hk & Hl). unfold mbind, ST_bind, set_limits. rewrite He, Hl, Hm. by apply Hf. Qed.

Lemma stays_restrict e k l profile target rules (f : Result unit -> Run A) :
  Landlock.apply (landlock_host h) profile target = Enforced rules ->
  hoare (stays e k l) (f (Ok tt)) Q X -> hoare (stays e k l) (restrict h profile target ≫= f) Q X.
Proof. intros Hr Hf p (He & Hk & Hl). unfold mbind, ST_bind, restrict. rewrite Hr. by apply Hf. Qed.

Lemma stays_secure e k l fd (f : unit -> Run A) :
  hoare (stays e k l) (f tt) Q X -> hoare (stays e k l) (secure_process fd ≫= f) Q X.
Proof.
  intros Hf. unfold secure_process, become_leader, parent_alive.
  apply hoare_assoc, (stays_call _ _ _ _ (fun a => forall t, ret (answer h t Getppid) = ret a)).
  { intros t t'. by apply same_parent. }
  intros a Ha. apply hoare_assoc, hoare_assoc.
  apply (stays_call _ _ _ _ (fun a => ret a = -1 -> errno a = EPERM)); [intros t; by apply setsid_works|].
  intros b Hb. replace ((ret b =? -1) && negb (errno b =? EPERM)) with false
    by (destruct (Z.eqb_spec (ret b) (-1)) as [E|]; [by rewrite (Hb E)|done]).
  apply hoare_ret_bind, hoare_assoc, stays_prctl, hoare_assoc, hoare_assoc.
  apply (stays_call _ _ _ _ (fun x => ret x = ret a)); [intros t; apply Ha|]. intros x Hx.
  rewrite (proj2 (Z.eqb_eq _ _) Hx). apply hoare_ret_bind, hoare_assoc, stays_audit. by apply stays_prctl.
Qed.
End Executes.

Lemma clean_var env name v : Forall (fun kv => clean kv.1 = true /\ clean kv.2 = true) env ->
  var_os env (bs name) = Some v -> Utf8.valid v = true.
Proof.
  intros HF Hv%var_os_elem. rewrite List.Forall_forall in HF. apply list_elem_of_In, HF in Hv as [_ Hv].
  unfold clean in Hv. by apply andb_prop in Hv as [? _].
Qed.

Lemma stays_env_paths {A} (Q : A -> Proc -> Prop) X e k l name (f : list bytes -> Run A) :
  Forall (fun kv => clean kv.1 = true /\ clean kv.2 = true) e ->
  hoare (stays e k l) (f (env_paths (env_var (var_os e (bs name))))) Q X ->
  hoare (stays e k l) (env_paths_os name ≫= f) Q X.
Proof.
  intros He Hf. unfold env_paths_os. apply hoare_assoc, stays_getenv_os.
  destruct (var_os e (bs name)) as [v|] eqn:E; simpl in Hf; [|by apply hoare_ret_bind].
  rewrite (clean_var _ _ _ He E) in *. by apply hoare_ret_bind.
Qed.

Lemma plain_var env name : plain_launch env ->
  name ∈ ["ARAPUCA_CGROUP_SYNC_FD"; "ARAPUCA_UNOTIFY_CONFIG"; "ARAPUCA_DNS_AUDIT_FD"; "ARAPUCA_PROXY_BRIDGE";
          "ARAPUCA_PID_NS"]%string -> var_os env (bs name) = None.
Proof. unfold plain_launch. rewrite List.Forall_forall. intros H Hn. by apply H, list_elem_of_In. Qed.

Section Finish.
Context (Hc : compliant) (env : list (bytes * bytes)) (k0 k : list BpfProgram) (l0 l : Limits).
Context (Hs : seccomp_supported = true) (Hplain : plain_launch env).
Context (Henv : Forall (fun kv => clean kv.1 = true /\ clean kv.2 = true) env).
Context (Hk : Seccomp.apply (accepts h) (env_seccomp env) k0 = (k, Ok tt)).
Context (Hl : apply_from_env (prlimit64 h) env l0 = (l, Ok tt)).

Lemma finish_executes fd config cmd argv : contains 0 cmd = false -> Forall (fun a => clean a = true) argv ->
  hoare (stays env k0 l0) (finish false fd (env_seccomp env) None config cmd argv) (fun _ _ => False)
    (fun e _ => e = Exec cmd argv (passed_env env)).
Proof.
  intros Hcmd Hargv. unfold finish, pidns_step, seccomp_step, notify_step, rlimit_step, close_audit_fds, exec_step.
  apply hoare_assoc, stays_getenv. rewrite (plain_var _ "ARAPUCA_PID_NS" Hplain) by set_solver. apply hoare_ret_bind.
  rewrite Hs. eapply hoare_assoc, stays_install; [exact Hk|].
  apply stays_audit, hoare_ret_bind. eapply hoare_assoc, stays_limits; [exact Hl|].
  apply stays_audit, hoare_assoc, stays_close, hoare_assoc, stays_getenv, hoare_assoc, stays_close, hoare_assoc, stays_getenv.
  apply stays_close. intros p Hp. unfold mbind at 1, ST_bind at 1, get. rewrite (proj1 Hp).
  rewrite (exec_env_clean false env Henv), Hcmd.
  assert (Ha : existsb (contains 0) argv = false).
  { apply not_true_iff_false. rewrite existsb_exists. intros (x & Hx & E). rewrite List.Forall_forall in Hargv.
    apply Hargv in Hx. unfold clean in Hx. rewrite E in Hx. by rewrite andb_false_r in Hx. }
  rewrite Ha. unfold mbind, ST_bind, syscall.
  by rewrite (proj2 (Z.ltb_ge _ _) (execve_works Hc (trace p) cmd argv (passed_env env))).
Qed.
End Finish.

(** C18: the wrapper gets there.  For a launch without the optional layers, on a kernel that does what it is asked
    for, where the Landlock rules, the filters and the limits of the configuration are accepted, the wrapper
    executes the resolved command with the given arguments and with every variable of its environment except the
    ARAPUCA ones.  Arguments and variables are UTF-8 text without NUL. *)
Theorem wrapper_executes q argv cmd rules k l :
  compliant -> seccomp_supported = true -> plain_launch (environ q) ->
  var_os (environ q) (bs "ARAPUCA_WRAPPER") = Some (bs "1") ->
  Forall (fun kv => clean kv.1 = true /\ clean kv.2 = true) (environ q) ->
  Forall (fun a => clean a = true) argv -> 3 <= len argv ->
  metadata_ok h (nth 2 argv []) = true ->
  cmd = Utf8.lossy (default (nth 2 argv []) (canonicalize h (nth 2 argv []))) -> contains 0 cmd = false ->
  Landlock.apply (landlock_host h) (env_profile (environ q)) (Some cmd) = Enforced rules ->
  Seccomp.apply (accepts h) (env_seccomp (environ q)) (filters q) = (k, Ok tt) ->
  apply_from_env (prlimit64 h) (environ q) (limits q) = (l, Ok tt) ->
  (run_wrapper_path (len argv) argv q).2 = Err (Exec cmd (drop 2 argv) (passed_env (environ q))).
Proof.
  intros Hc Hs Hplain Hw Henv Hargv Hlen Hmeta -> Hnul Hland Hk Hl.
  set (cmd := Utf8.lossy _) in *.
  assert (K : hoare (stays (environ q) (filters q) (limits q)) (run_wrapper_path (len argv) argv) (fun _ _ => False)
                (fun e _ => e = Exec cmd (drop 2 argv) (passed_env (environ q)))).
  { unfold run_wrapper_path, read_args, resolve_command, cgroup_sync, resolv_step, landlock_step, bridge_step, dns_fd.
    assert (Et : take (Z.to_nat (len argv)) argv = argv) by (apply take_ge; unfold len; lia). rewrite Et.
    assert (Ev : forallb Utf8.valid argv = true).
    { apply forallb_forall. rewrite List.Forall_forall in Hargv. intros x Hx. apply Hargv in Hx. unfold clean in Hx.
      by apply andb_prop in Hx as [? _]. }
    rewrite Ev, (proj2 (Z.ltb_ge _ _)) by lia. apply hoare_ret_bind, stays_getenv_os.
    rewrite Hw. apply stays_getenv, stays_getenv. rewrite Hmeta. apply hoare_ret_bind. fold cmd.
    apply hoare_assoc, stays_getenv. rewrite (plain_var _ "ARAPUCA_CGROUP_SYNC_FD" Hplain) by set_solver.
    apply hoare_ret_bind, stays_secure; [done|]. apply stays_getenv_os.
    rewrite (plain_var _ "ARAPUCA_UNOTIFY_CONFIG" Hplain) by set_solver.
    rewrite Hs. apply hoare_ret_bind, stays_env_paths; [done|]. apply stays_env_paths; [done|].
    apply stays_getenv, hoare_assoc, stays_getenv. rewrite (plain_var _ "ARAPUCA_DNS_AUDIT_FD" Hplain) by set_solver.
    apply hoare_ret_bind. eapply hoare_assoc, stays_restrict; [exact Hland|]. apply stays_audit.
    apply hoare_assoc, stays_getenv_os. rewrite (plain_var _ "ARAPUCA_PROXY_BRIDGE" Hplain) by set_solver.
    apply hoare_assoc, hoare_assoc, stays_getenv. rewrite (plain_var _ "ARAPUCA_DNS_AUDIT_FD" Hplain) by set_solver.
    apply hoare_ret_bind, hoare_ret_bind, stays_getenv_os. eapply finish_executes; try eassumption.
    by apply Forall_drop. }
  specialize (K q ltac:(done)). destruct (run_wrapper_path _ _ q) as [p [[]|e]]. simpl in *. by rewrite K.
Qed.
End Wrapper.

(** ** A launch on the host of [Helpers.Demo] *)

Definition demo_launch_profile : Profile := paths_profile [bs "/usr"] [bs "/work"] false.
Definition demo_caller : list (bytes * bytes) :=
  [(bs "TERM", bs "xterm"); (bs "ARAPUCA_READ_PATHS", bs "/"); (bs "LD_PRELOAD", bs "/evil.so")].
Definition demo_vars : list (bytes * bytes) :=
  match launch_env demo_launch_profile (bs "/tmp/t") None false demo_caller with Ok l => l | Err _ => [] end.
Definition demo_extra : list (bytes * bytes) := [(bs "ARAPUCA_AUDIT_FD", bs "4")].
Definition demo_start : @Proc Demo.crate := Demo.start (reverse (demo_vars ++ demo_extra)).
Definition demo_args : list bytes := [bs "arapuca"; bs "--"; bs "/bin/tool"; bs "-x"].
Definition demo_envp : list bytes :=
  [bs "TERM=xterm"; bs "LANG=C.UTF-8"; bs "PATH=/usr/local/bin:/usr/bin:/bin:/usr/local/sbin:/usr/sbin:/sbin";
   bs "TMPDIR=/tmp/t"; bs "HOME=/tmp/t"].
Abbreviation demo_run := (@run_wrapper_path Demo.linux Demo.crate (Demo.host 0) 4 demo_args demo_start).

Lemma demo_run_exec : demo_run = (demo_run.1, Err (Exec (bs "/bin/tool") [bs "/bin/tool"; bs "-x"] demo_envp)).
Proof.
  assert (E : demo_run.2 = Err (Exec (bs "/bin/tool") [bs "/bin/tool"; bs "-x"] demo_envp))
    by (vm_compute; reflexivity).
  rewrite <- E. apply surjective_pairing.
Qed.

Lemma demo_numbers : @numbers_distinct Demo.linux.
Proof. by_eval. Qed.

Lemma wrapper_confines_witness :
  @confined Demo.linux Demo.crate (Demo.host 0) demo_start (bs "/bin/tool") demo_run.1 /\
  4 ∉ fds demo_run.1.
Proof.
  assert (H : @wrapper_end Demo.linux Demo.crate (Demo.host 0) demo_start demo_args
                (Exec (bs "/bin/tool") [bs "/bin/tool"; bs "-x"] demo_envp) demo_run.1).
  { refine (proj1 (@wrapper_confines Demo.linux Demo.crate (Demo.host 0) Seccomp.Reference.laws demo_start
      demo_run.1 _ 4 demo_args demo_args _ _ _ _ _) _).
    - apply Demo.host_is_ok.
    - by_eval.
    - exact demo_numbers.
    - exact Demo.tables_distinct.
    - apply Demo.start_fds.
    - exact demo_run_exec. }
  destruct H as [H _]. split; [exact H|]. apply (confined_fds _ _ _ _ H). by_eval.
Defined.

Lemma profile_enforced_witness :
  (exists rules, domains demo_run.1 = rules :: domains demo_start /\
     @Landlock.apply Demo.linux demo_host (launch_profile demo_launch_profile (bs "/tmp/t")) (Some (bs "/bin/tool"))
       = Enforced rules) /\
  (forall d, rank (@seccomp_policy Demo.linux Strict d) <= rank (kernel_verdict (filters demo_run.1) d)) /\
  enforced_limits demo_launch_profile ∅ (limits demo_run.1) /\ pdeathsig demo_run.1 = true /\ no_new_privs demo_run.1 = true.
Proof.
  destruct (@profile_enforced Demo.linux Demo.crate (Demo.host 0) Seccomp.Reference.laws demo_launch_profile (bs "/tmp/t")
    None false demo_caller demo_vars demo_extra demo_start demo_run.1 (bs "/bin/tool") [bs "/bin/tool"; bs "-x"]
    demo_envp 4 demo_args) as (H1 & H2 & H3).
  - apply Demo.host_is_ok.
  - by_eval.
  - exact demo_numbers.
  - exact Demo.tables_distinct.
  - apply Demo.start_fds.
  - vm_compute. reflexivity.
  - by_eval.
  - intros name Hn Hin. apply list_elem_of_singleton in Hin.
    assert (HF : Forall (fun n => bs n <> bs "ARAPUCA_AUDIT_FD") config_names) by by_eval.
    rewrite List.Forall_forall in HF. by apply (HF name (proj1 (list_elem_of_In _ _) Hn)).
  - intros k. reflexivity.
  - left. exact demo_run_exec.
  - rewrite H2 in H1 by by_eval. exact (conj H1 H3).
Defined.

Lemma demo_compliant : @compliant Demo.crate (Demo.host 0).
Proof. by split. Qed.

Definition demo_layers : list Rule * list (@BpfProgram Demo.crate) * Limits :=
  (match @Landlock.apply Demo.linux demo_host (env_profile (environ demo_start)) (Some (bs "/bin/tool")) with
   | Enforced rules => rules | _ => [] end,
   (@Seccomp.apply Demo.linux Demo.crate (fun _ _ => true) (env_seccomp (environ demo_start)) []).1,
   (apply_from_env (fun _ _ _ => true) (environ demo_start) ∅).1).

Lemma wrapper_executes_witness :
  demo_run.2 = Err (Exec (bs "/bin/tool") [bs "/bin/tool"; bs "-x"] (passed_env (environ demo_start))).
Proof.
  refine (@wrapper_executes Demo.linux Demo.crate (Demo.host 0) demo_start demo_args (bs "/bin/tool")
    demo_layers.1.1 demo_layers.1.2 demo_layers.2 demo_compliant _ _ _ _ _ _ _ _ _ _ _ _).
  - by_eval.
  - by_eval.
  - by_eval.
  - by_eval.
  - by_eval.
  - apply Z.leb_le. vm_compute. reflexivity.
  - by_eval.
  - by_eval.
  - by_eval.
  - vm_compute. reflexivity.
  - vm_compute. reflexivity.
  - vm_compute. reflexivity.
Defined.
