(* ===== verification/Launch.v ===== *)
(** * Launch: the Linux launcher ([platform/linux.rs])

    [Linux::launch] from the checks to the process handle, over the launcher's own
    resources: its descriptors, the control groups, its children, its temporary
    directories and the events that the audit sink has got.  The child is modelled
    up to [exec], with the descriptors, arguments and variables it starts with. *)

From stdpp Require Import gmap.
From S2P Require Import Prelude Text Paths Validate Env Seccomp Helpers Wrapper.
From S2P Require Import Fds Cgroup AuditLog.

(** ** The launcher's world *)

Inductive Pipe : Type := AuditPipe | DnsPipe | UnotifyPipe | PidPipe | SyncPipe.

(** Open file descriptions: those of the caller, and those that a launch makes. *)
Inductive Desc : Type :=
| Opened (name : Z)
| PipeRead (p : Pipe)
| PipeWrite (p : Pipe)
| PtyMaster
| PtySlave
| DevNull
| PidFd (pid : Z).

#[export] Instance Pipe_eq_dec : EqDecision Pipe.
Proof. solve_decision. Defined.
#[export] Instance Desc_eq_dec : EqDecision Desc.
Proof. solve_decision. Defined.

Abbreviation Table := (gmap Z (Desc * bool)).

(** A program image after [exec]; of two variables with one name the later counts. *)
Record Image : Type := {
  program : bytes;
  arguments : list bytes;
  variables : list (bytes * bytes);
  directory : option bytes;
  descriptors : Table;
}.

(** A child that has not been reaped: its image ([None] if it ended before [exec]
    or is the CONNECT proxy), and the control groups at the moment it got the
    byte it waits for. *)
Record Kid : Type := { image : option Image; released : option Cgroups }.

(** [w_guard], [w_applied] and [w_skipped] are the locals [pipe_guard],
    [applied_layers] and [skipped_layers]; [w_ticks] counts the calls to the
    kernel, so that it can answer each differently. *)
Record World : Type := {
  w_fds : Table;
  w_cg : Cgroups;
  w_kids : gmap Z Kid;
  w_dirs : gset bytes;
  w_events : list Event.AuditEvent;
  w_guard : list Z;
  w_applied : list Layer.SandboxLayer;
  w_skipped : list Layer.SandboxLayer;
  w_ticks : nat;
}.

Definition set_fds (t : Table) (w : World) : World :=
  {| w_fds := t; w_cg := w_cg w; w_kids := w_kids w; w_dirs := w_dirs w; w_events := w_events w; w_guard := w_guard w;
     w_applied := w_applied w; w_skipped := w_skipped w; w_ticks := S (w_ticks w) |}.
Definition set_cg (c : Cgroups) (w : World) : World :=
  {| w_fds := w_fds w; w_cg := c; w_kids := w_kids w; w_dirs := w_dirs w; w_events := w_events w; w_guard := w_guard w;
     w_applied := w_applied w; w_skipped := w_skipped w; w_ticks := S (w_ticks w) |}.
Definition set_kids (l : gmap Z Kid) (w : World) : World :=
  {| w_fds := w_fds w; w_cg := w_cg w; w_kids := l; w_dirs := w_dirs w; w_events := w_events w; w_guard := w_guard w;
     w_applied := w_applied w; w_skipped := w_skipped w; w_ticks := S (w_ticks w) |}.
Definition set_dirs (d : gset bytes) (w : World) : World :=
  {| w_fds := w_fds w; w_cg := w_cg w; w_kids := w_kids w; w_dirs := d; w_events := w_events w; w_guard := w_guard w;
     w_applied := w_applied w; w_skipped := w_skipped w; w_ticks := S (w_ticks w) |}.
Definition set_events (l : list Event.AuditEvent) (w : World) : World :=
  {| w_fds := w_fds w; w_cg := w_cg w; w_kids := w_kids w; w_dirs := w_dirs w; w_events := l; w_guard := w_guard w;
     w_applied := w_applied w; w_skipped := w_skipped w; w_ticks := S (w_ticks w) |}.
Definition set_guard (l : list Z) (w : World) : World :=
  {| w_fds := w_fds w; w_cg := w_cg w; w_kids := w_kids w; w_dirs := w_dirs w; w_events := w_events w; w_guard := l;
     w_applied := w_applied w; w_skipped := w_skipped w; w_ticks := w_ticks w |}.
Definition set_layers (a s : list Layer.SandboxLayer) (w : World) : World :=
  {| w_fds := w_fds w; w_cg := w_cg w; w_kids := w_kids w; w_dirs := w_dirs w; w_events := w_events w;
     w_guard := w_guard w; w_applied := a; w_skipped := s; w_ticks := w_ticks w |}.

(** A call of [read]. *)
Inductive Read : Type := Data (b : bytes) | Eof | Interrupted | ReadError.

(** What lies outside the launcher: the file system, the kernel's choices, and what
    the child writes.  [proxy_fork] is the outcome of [bridge::fork_connect_proxy]
    (see [Helpers]): the socket, the child and its pidfd. *)
Record LaunchHost : Type := {
  h_canonicalize : bytes -> option bytes;
  h_is_dir : bytes -> bool;
  selfexec_enabled : bool;
  current_exe : option bytes;
  path_var : option bytes;
  h_is_file : bytes -> bool;
  h_serde : bool;
  abi_version : Z;
  mount_ns_available : bool;
  temp_dir : World -> bytes -> option bytes;
  rmtree_ok : World -> bytes -> bool;
  proxy_fork : World -> Result (bytes * Z * Z);
  openpty : World -> option (Z * Z);
  pipe2 : World -> option (Z * Z);
  fork_pid : World -> option Z;
  setup_ok : World -> bool;
  reparented : World -> bool;
  tty_ok : World -> bool;
  exec_ok : World -> bytes -> bool;
  pidfd_open : World -> Z -> option Z;
  audit_reads : World -> list Read;
  report_reads : World -> list Read;
  exited_yet : World -> Z -> bool;
}.

(** The fields of [Config]. *)
Record Config : Type := {
  c_profile : Profile;
  c_task_id : bytes;
  c_phase : bytes;
  c_work_dir : option bytes;
  c_stdio : StdioConfig;
  c_extra_fds : list Z;
  c_tty : bool;
  c_proxy_socket : option bytes;
  c_allowed_hosts : list AllowedHost;
  c_env : list (bytes * bytes);
  c_sink : option AuditSink;
  c_verbosity : AuditVerbosity;
  c_principal : option bytes;
  c_correlation_id : option bytes;
}.

(** [Process], the handle that a launch returns. *)
Record Handle : Type := {
  child : Z;
  tmp_dir : bytes;
  cgroup_path : option bytes;
  cgroup_mgr : option CgroupManager;
  dns_audit_pipe : option Z;
  unotify_audit_pipe : option Z;
  pidfd : option Z;
  target_pid : option Z;
  waited : bool;
  connect_proxy_pid : option Z;
  connect_proxy_pidfd : option Z;
  connect_proxy_socket : option bytes;
  pty_master : option Z;
  audit_ctx : option AuditSink;
  final_stats : option ResourceUsage;
}.

(** The descriptors of the handle, which are closed when it is dropped. *)
Definition handle_fds (p : Handle) : list Z :=
  option_list (dns_audit_pipe p) ++ option_list (unotify_audit_pipe p) ++ option_list (pidfd p)
  ++ option_list (connect_proxy_pidfd p) ++ option_list (pty_master p).

(** [m], and [clean] if it fails ([Drop] of a guard that is defused on success), or in any case. *)
Definition on_err {A} (clean : World -> World) (m : ST World Error A) : ST World Error A := fun w =>
  match m w with (w, Err e) => (clean w, Err e) | r => r end.
Definition finally {A} (clean : World -> World) (m : ST World Error A) : ST World Error A := fun w =>
  match m w with (w, r) => (clean w, r) end.

Section Launch.
Context {T : Seccomp.Target} (k : DupKernel Desc) (ck : CgKernel) (h : LaunchHost).

Abbreviation L := (ST World Error).

(** ** Descriptors *)

Definition close_fd (fd : Z) (w : World) : World := set_fds (delete fd (w_fds w)) w.
Definition close_fds (l : list Z) (w : World) : World := foldl (fun w fd => close_fd fd w) w l.
Definition pipe_fds (p : option (Z * Z)) : list Z := match p with Some (r, w) => [r; w] | None => [] end.
Definition close_pipe (p : option (Z * Z)) (w : World) : World := close_fds (pipe_fds p) w.
Definition close_guard (w : World) : World := set_guard [] (close_fds (w_guard w) w).

(** [pipe2] with O_CLOEXEC; both ends go to the guard. *)
Definition make_pipe (p : Pipe) : L (option (Z * Z)) := fun w =>
  match pipe2 h w with
  | Some (r, wr) =>
    (set_guard (w_guard w ++ [r; wr])
       (set_fds (<[wr := (PipeWrite p, true)]> (<[r := (PipeRead p, true)]> (w_fds w))) w), Ok (Some (r, wr)))
  | None => (set_fds (w_fds w) w, Ok None)
  end.

(** ** Audit events *)

Definition lift_result {A} (r : Result A) : L A := fun w => (w, r).
Definition lift_cg {A} (m : ST Cgroups Error A) : L A := fun w =>
  match m (w_cg w) with (c, r) => (set_cg c w, r) end.

Definition audit (cfg : Config) (event : Event.AuditEvent) : L unit := fun w =>
  match c_sink cfg with
  | Some sink => match emit sink event (w_events w) with (l, r) => (set_events l w, r) end
  | None => (w, Ok tt)
  end.

Definition push_applied (l : Layer.SandboxLayer) : L unit :=
  modify (fun w => set_layers (w_applied w ++ [l]) (w_skipped w) w).
Definition push_skipped (l : Layer.SandboxLayer) : L unit :=
  modify (fun w => set_layers (w_applied w) (w_skipped w ++ [l]) w).
Definition applied (cfg : Config) (l : Layer.SandboxLayer) (d : option Detail.LayerDetail) : L unit :=
  _ ← audit cfg (Event.LayerApplied l d); push_applied l.
Definition skipped (cfg : Config) (l : Layer.SandboxLayer) (r : SkipReason) : L unit :=
  _ ← audit cfg (Event.LayerSkipped l r); push_skipped l.

Definition has_ctx (cfg : Config) : bool := bool_decide (is_Some (c_sink cfg)).

Definition sandbox_init (cfg : Config) (cmd : bytes) (args : list bytes) : L unit :=
  audit cfg (Event.SandboxInit SCHEMA_VERSION (sanitize_audit_string (c_task_id cfg))
    (sanitize_audit_string (c_phase cfg)) (sanitize_audit_string cmd) (len args)
    (match c_verbosity cfg with Verbose => Some (map sanitize_audit_string args) | Standard => None end)
    (sanitize_audit_string <$> c_principal cfg) (sanitize_audit_string <$> c_correlation_id cfg)).

(** ** The wrapper *)

Definition WRAPPER_BIN : bytes := bs "arapuca".

Fixpoint wrapper_in_path (l : list bytes) : option bytes :=
  match l with
  | [] => None
  | dir :: l => let candidate := push dir WRAPPER_BIN in
                if h_is_file h candidate then Some candidate else wrapper_in_path l
  end.

Definition env_wrapper_path : option bytes :=
  if selfexec_enabled h then current_exe h
  else
    let path_search := wrapper_in_path (split PATH_LIST_SEP
      (match path_var h with Some p => if Utf8.valid p then p else [] | None => [] end)) in
    match current_exe h ≫= parent with
    | None => path_search
    | Some dir =>
      if h_is_file h (push dir WRAPPER_BIN) then Some (push dir WRAPPER_BIN)
      else match parent dir with
           | Some up => if h_is_file h (push up WRAPPER_BIN) then Some (push up WRAPPER_BIN) else path_search
           | None => path_search
           end
    end.

Definition use_wrapper : bool := bool_decide (is_Some env_wrapper_path).

(** The layers that the wrapper will apply; without it the launch is refused,
    unless the architecture has no seccomp and no paths are to be restricted. *)
Definition wrapper_layers (cfg : Config) : L unit :=
  if use_wrapper then
    _ ← applied cfg Layer.Landlock (Some (Detail.Landlock (abi_version h) (5 <=? abi_version h)));
    _ ← applied cfg Layer.Rlimit None;
    _ ← applied cfg Layer.NoNewPrivs None;
    if seccomp_supported then applied cfg Layer.Seccomp None
    else skipped cfg Layer.Seccomp PlatformUnsupported
  else if seccomp_supported then
    stop (Process "arapuca wrapper binary not found — refusing to launch without Landlock/seccomp enforcement")
  else if negb (bool_decide (read_paths (c_profile cfg) = [])) || negb (bool_decide (write_paths (c_profile cfg) = []))
  then stop (Process "filesystem restrictions requested but arapuca wrapper binary not found")
  else
    _ ← skipped cfg Layer.Landlock NotAvailable;
    _ ← skipped cfg Layer.Rlimit NotAvailable;
    _ ← skipped cfg Layer.NoNewPrivs NotAvailable;
    skipped cfg Layer.Seccomp PlatformUnsupported.

(** The command and its arguments, through the wrapper if there is one. *)
Definition wrapped (cmd : bytes) (args : list bytes) : bytes * list bytes :=
  match env_wrapper_path with
  | Some w => (Utf8.lossy w, bs "--" :: cmd :: args)
  | None => (cmd, args)
  end.

(** ** The CONNECT proxy *)

Definition start_proxy (cfg : Config) : L (option (bytes * Z * Z)) := fun w =>
  if decide (c_allowed_hosts cfg = []) then (w, Ok None)
  else match proxy_fork h w with
       | Ok (sock, pid, fd) =>
         (set_dirs ({[ default [] (parent sock) ]} ∪ w_dirs w)
            (set_kids (<[pid := {| image := None; released := None |}]> (w_kids w))
               (set_fds (<[fd := (PidFd pid, true)]> (w_fds w)) w)), Ok (Some (sock, pid, fd)))
       | Err e => (set_fds (w_fds w) w, Err e)
       end.

(** SIGKILL; the process stays in the table until it is reaped. *)
Definition kill (pid : Z) (w : World) : World := set_cg (kill_pid pid (w_cg w)) w.
Definition reap (pid : Z) (w : World) : World := set_kids (delete pid (w_kids w)) w.
Definition rmtree (dir : bytes) (w : World) : World :=
  set_dirs (if rmtree_ok h w dir then w_dirs w ∖ {[ dir ]} else w_dirs w) w.

(** [bridge::cleanup_connect_proxy]; [waitpid] with WNOHANG reaps the proxy only if it has ended already. *)
Definition cleanup_connect_proxy (pid : option Z) (fd : option Z) (socket : option bytes) (w : World) : World :=
  let w := match pid with Some pid => kill pid w | None => w end in
  let w := match fd with
           | Some fd =>
             let w := close_fd fd w in
             match pid with Some pid => if exited_yet h w pid then reap pid w else w | None => w end
           | None => w
           end in
  match socket ≫= parent with Some dir => rmtree dir w | None => w end.

Definition drop_proxy (proxy : option (bytes * Z * Z)) (w : World) : World :=
  match proxy with
  | Some (sock, pid, fd) => cleanup_connect_proxy (Some pid) (Some fd) (Some sock) w
  | None => w
  end.

(** ** Command line and environment *)

Definition netns_of (cfg : Config) (proxy : option (bytes * Z * Z)) : bool :=
  use_netns (c_profile cfg) || bool_decide (is_Some proxy).
Definition dns_active (cfg : Config) (netns : bool) : bool :=
  dns_capture (c_profile cfg) && netns && mount_ns_available h.

Definition command_line (cfg : Config) (netns : bool) (cmd : bytes) (args : list bytes) : L (bytes * list bytes) :=
  let '(actual_cmd, actual_args) := wrapped cmd args in
  if netns then
    _ ← applied cfg Layer.NetworkNamespace None;
    mret (bs "unshare",
          map bs (if dns_active cfg netns && use_wrapper
                  then ["--user"; "--net"; "--mount"; "--map-root-user"; "--"]%string
                  else ["--user"; "--net"; "--map-root-user"; "--"]%string) ++ actual_cmd :: actual_args)
  else
    _ ← skipped cfg Layer.NetworkNamespace NotConfigured;
    mret (if use_pidns (c_profile cfg)
          then (bs "unshare", map bs ["--user"; "--map-root-user"; "--"]%string ++ actual_cmd :: actual_args)
          else (actual_cmd, actual_args)).

Definition environment (cfg : Config) (tmp : bytes) (proxy : option (bytes * Z * Z)) (netns : bool)
    : L (list (bytes * bytes)) :=
  let socket := match proxy with Some (sock, _, _) => Some sock | None => c_proxy_socket cfg end in
  let env_vars := minimal_env tmp in
  wenv ← (if use_wrapper then lift_result (wrapper_env (launch_profile (c_profile cfg) tmp)) else mret []);
  let env_vars := env_vars ++ wenv in
  let env_vars := env_vars ++ match socket with Some s => [(bs "AGENT_NETWORK_PROXY", Utf8.lossy s)] | None => [] end in
  _ ← match proxy with Some _ => applied cfg Layer.ConnectProxy None | None => mret tt end;
  bridge ← lift_result (bridge_env netns socket);
  _ ← match bridge with
      | Some _ => applied cfg Layer.ProxyBridge
                    (Some (Detail.ProxyBridge BRIDGE_PORT (default [] (Utf8.lossy <$> socket))))
      | None => skipped cfg Layer.ProxyBridge NotConfigured
      end;
  let env_vars := env_vars ++ option_list bridge in
  let '(passed, dropped) := filter_caller_env (c_env cfg) in
  let env_vars := env_vars ++ passed in
  _ ← audit cfg (Event.EnvPolicy (map fst env_vars) [] dropped);
  _ ← push_applied Layer.EnvFilter;
  mret env_vars.

(** ** Terminal and standard streams *)

(** [openpty], with both ends marked close-on-exec; the window size is not modelled. *)
Definition open_pty (cfg : Config) : L (option (Z * Z)) :=
  if c_tty cfg then
    if existsb (fun o => bool_decide (is_Some o))
         [cfg_stdin (c_stdio cfg); cfg_stdout (c_stdio cfg); cfg_stderr (c_stdio cfg)]
    then stop (Validation "tty mode is incompatible with stdin/stdout/stderr redirection")
    else fun w =>
      match openpty h w with
      | Some (master, slave) =>
        (set_fds (<[slave := (PtySlave, true)]> (<[master := (PtyMaster, true)]> (w_fds w))) w,
         Ok (Some (master, slave)))
      | None => (set_fds (w_fds w) w, Err (Process "openpty: {}"))
      end
  else mret None.

(** [platform::setup_stdio]; the duplicate belongs to the [Command], which closes it when it is dropped. *)
Definition with_stdio {A} (tty : bool) (fd : option Z) (f : option Z -> L A) : L A :=
  if tty then f None
  else match fd with
  | None => f None
  | Some fd => fun w =>
    match fcntl_dupfd_cloexec k fd 0 (w_fds w) with
    | (t, Ok (Some duped)) => finally (close_fd duped) (f (Some duped)) (set_fds t w)
    | (t, _) => (set_fds t w, Err (Process "dup {stream} fd: {}"))
    end
  end.

(** ** Pipes to the wrapper *)

(** The locals [fds_to_inherit] and the variables set on the command after the environment. *)
Record Prep : Type := { inherit : list Z; extra : list (bytes * bytes) }.

Definition set_env (pr : Prep) (name : string) (v : bytes) : Prep :=
  {| inherit := inherit pr; extra := extra pr ++ [(bs name, v)] |}.

(** One end of the pipe is inherited; a variable says where. *)
Definition pass_end (pr : Prep) (fd : Z) (name : string) : Prep :=
  {| inherit := inherit pr ++ [fd]; extra := extra pr ++ [(bs name, dec (3 + len (inherit pr)))] |}.

Definition pass_write (wanted : bool) (p : Pipe) (name : string) (pr : Prep) : L (option (Z * Z) * Prep) :=
  if wanted then
    r ← make_pipe p;
    mret (r, match r with Some (_, wr) => pass_end pr wr name | None => pr end)
  else mret (None, pr).

Definition dns_layer (cfg : Config) (pipe : option (Z * Z)) : L unit :=
  if negb (has_ctx cfg) then mret tt
  else match pipe with
  | Some _ => applied cfg Layer.DnsCapture (Some (Detail.DnsCapture 53))
  | None =>
    skipped cfg Layer.DnsCapture
      (if negb (dns_capture (c_profile cfg)) then NotConfigured
       else if negb (h_serde h) then ComponentMissing "serde feature required for DNS audit parsing"
       else if negb use_wrapper then ComponentMissing "wrapper binary not available"
       else PartialFailure "mount namespace unavailable")
  end.

Definition unotify_wanted (cfg : Config) : bool :=
  (audit_file_access (c_profile cfg) || audit_network (c_profile cfg)) && use_wrapper && h_serde h.

Definition unotify_layer (cfg : Config) (pipe : option (Z * Z)) : L unit :=
  if negb (has_ctx cfg) then mret tt
  else match pipe with
  | Some _ => applied cfg Layer.UnotifySupervisor None
  | None =>
    skipped cfg Layer.UnotifySupervisor
      (if negb (audit_file_access (c_profile cfg)) && negb (audit_network (c_profile cfg)) then NotConfigured
       else if negb (h_serde h) then ComponentMissing "serde feature required for unotify audit parsing"
       else if negb use_wrapper then ComponentMissing "wrapper binary not available"
       else PartialFailure "pipe creation failed")
  end.

(** ** The control group *)

Definition limits_of (cfg : Config) (netns : bool) : CgroupLimits :=
  {| memory_max_mb := max_memory_mb (c_profile cfg); pids_max := max_pids (c_profile cfg);
     cpu_max_pct := max_cpu_pct (c_profile cfg);
     pids_overhead := (if use_pidns (c_profile cfg) then 1 else 0) + (if netns then 1 else 0) |}.

Definition destroy_group (mgr : option CgroupManager) (path : option bytes) (w : World) : World :=
  match mgr, path with
  | Some _, Some p => (lift_cg (destroy ck p) w).1
  | _, _ => w
  end.

Definition create_group (cfg : Config) (mgr : CgroupManager) (limits : CgroupLimits) : L CgroupCreateResult := fun w =>
  match lift_cg (create ck mgr (c_task_id cfg) limits) w with
  | (w, Err _) => (w, Err (Cgroup "cgroup creation failed: {e}"))
  | r => r
  end.

Definition make_group (cfg : Config) (mgr : option CgroupManager) (limits : CgroupLimits) : L (option bytes) :=
  match mgr with
  | Some m =>
    if has_limits limits then
      result ← create_group cfg m limits;
      _ ← (if decide (degraded (status result) = []) then mret tt
           else match cgroup_policy (c_profile cfg) with
                | Required =>
                  _ ← modify (destroy_group mgr (path result));
                  stop (Cgroup "resource limits requested but controllers not delegated: {} — fix with: {CGROUP_DELEGATE_HINT}")
                | BestEffort => mret tt
                end);
      match path result with
      | Some p =>
        _ ← applied cfg Layer.Cgroup
              (Some (Detail.Cgroup (sanitize_audit_string (Utf8.lossy p)) (swap_disabled (status result))
                       (degraded (status result))));
        mret (Some p)
      | None => _ ← skipped cfg Layer.Cgroup NotAvailable; mret None
      end
    else mret None
  | None =>
    if has_limits limits then
      match cgroup_policy (c_profile cfg) with
      | Required => stop (Cgroup "resource limits requested (memory={}MB, cpu={}%, pids={}) but cgroups unavailable — fix with: {CGROUP_DELEGATE_HINT}")
      | BestEffort => _ ← skipped cfg Layer.Cgroup NotAvailable; mret None
      end
    else mret None
  end.

(** The wrapper waits on this pipe until it is in its group. *)
Definition sync_pipe (group : option bytes) (pr : Prep) : L (option (Z * Z) * Prep) :=
  match group with
  | Some _ =>
    r ← make_pipe SyncPipe;
    mret (r, match r with Some (rd, _) => pass_end pr rd "ARAPUCA_CGROUP_SYNC_FD" | None => pr end)
  | None => mret (None, pr)
  end.

(** ** Events before the start *)

Definition redirected (cfg : Config) (o : option Z) : bool := bool_decide (is_Some o) || c_tty cfg.

Definition pre_exec_events (cfg : Config) (pr : Prep) (pid_pipe : option (Z * Z)) : L unit :=
  _ ← audit cfg (Event.LayerApplied Layer.Setsid None);
  _ ← audit cfg (Event.LayerApplied Layer.Pdeathsig None);
  _ ← audit cfg (Event.LayerApplied Layer.FdSanitization None);
  _ ← audit cfg (Event.FdInheritance (seqZ 3 (len (inherit pr))) (redirected cfg (cfg_stdin (c_stdio cfg)))
        (redirected cfg (cfg_stdout (c_stdio cfg))) (redirected cfg (cfg_stderr (c_stdio cfg))));
  _ ← push_applied Layer.Setsid;
  _ ← push_applied Layer.Pdeathsig;
  _ ← push_applied Layer.FdSanitization;
  _ ← (if negb (has_ctx cfg) then mret tt
       else if use_pidns (c_profile cfg) && bool_decide (is_Some pid_pipe) then applied cfg Layer.PidNamespace None
       else skipped cfg Layer.PidNamespace
              (if negb (use_pidns (c_profile cfg)) then NotConfigured
               else PartialFailure "PID report pipe creation failed"));
  if c_tty cfg then applied cfg Layer.Pty None else mret tt.

Definition policy_events (cfg : Config) (netns : bool) (socket : option bytes) : L unit :=
  let p := c_profile cfg in
  _ ← audit cfg (Event.FilesystemPolicy (map (fun q => sanitize_audit_string (Utf8.lossy q)) (read_paths p))
        (map (fun q => sanitize_audit_string (Utf8.lossy q)) (write_paths p)));
  _ ← audit cfg (Event.ResourceLimits (max_memory_mb p) (max_cpu_pct p) (max_pids p) (cpu_timeout_secs p)
        (max_file_size_mb p) (max_open_files p) (allow_exec p));
  _ ← audit cfg (Event.NetworkPolicy netns ((fun q => sanitize_audit_string (Utf8.lossy q)) <$> socket));
  _ ← (if seccomp_supported then audit cfg (Event.SeccompPolicy (summary (seccomp_profile p)) (allow_exec p))
       else mret tt);
  a ← get w_applied;
  s ← get w_skipped;
  audit cfg (Event.SandboxReady a s).

(** The pipes, the group and the streams that the spawn needs. *)
Record Prepared : Type := {
  p_prep : Prep;
  p_audit : option (Z * Z);
  p_dns : option (Z * Z);
  p_unotify : option (Z * Z);
  p_pid : option (Z * Z);
  p_group : option bytes;
  p_sync : option (Z * Z);
}.

Definition prepare (cfg : Config) (mgr : option CgroupManager) (netns : bool) (socket : option bytes) : L Prepared :=
  let pr := {| inherit := c_extra_fds cfg; extra := [] |} in
  '(audit_pipe, pr) ← pass_write (has_ctx cfg && use_wrapper) AuditPipe "ARAPUCA_AUDIT_FD" pr;
  '(dns_pipe, pr) ← pass_write (dns_active cfg netns && use_wrapper) DnsPipe "ARAPUCA_DNS_AUDIT_FD" pr;
  _ ← dns_layer cfg dns_pipe;
  '(unotify_pipe, pr) ← pass_write (unotify_wanted cfg) UnotifyPipe "ARAPUCA_UNOTIFY_AUDIT_FD" pr;
  let pr := match unotify_pipe, unotify_env (c_profile cfg) with
            | Some _, Some kv => {| inherit := inherit pr; extra := extra pr ++ [kv] |}
            | _, _ => pr
            end in
  _ ← unotify_layer cfg unotify_pipe;
  let pidns := use_pidns (c_profile cfg) && use_wrapper in
  let pr := if pidns then set_env pr "ARAPUCA_PID_NS" (bs "1") else pr in
  '(pid_pipe, pr) ← pass_write pidns PidPipe "ARAPUCA_PID_REPORT_FD" pr;
  group ← make_group cfg mgr (limits_of cfg netns);
  '(sync, pr) ← sync_pipe group pr;
  _ ← pre_exec_events cfg pr pid_pipe;
  _ ← policy_events cfg netns socket;
  mret {| p_prep := pr; p_audit := audit_pipe; p_dns := dns_pipe; p_unotify := unotify_pipe; p_pid := pid_pipe;
          p_group := group; p_sync := sync |}.

(** ** The child between [fork] and [exec] *)

(** The standard streams that [Command] sets up: descriptor [i] is what [src] is in the launcher. *)
Definition redirect (t0 : Table) (i : Z) (src : option Z) (t : Table) : Table :=
  match src ≫= (fun fd => (t0 !! fd : option (Desc * bool))) with
  | Some (d, _) => <[i := (d, false)]> t
  | None => t
  end.

Definition child_streams (tty : bool) (stdin stdout stderr : option Z) (t : Table) : Table :=
  if tty then <[2 := (DevNull, false)]> (<[1 := (DevNull, false)]> (<[0 := (DevNull, false)]> t))
  else redirect t 2 stderr (redirect t 1 stdout (redirect t 0 stdin t)).

(** A call that returns -1 ends the closure with an error. *)
Definition checked_call {A} (m : ST Table unit (option A)) : ST Table unit A :=
  r ← m; match r with Some a => mret a | None => stop tt end.

(** The slave is moved out of the way of [remap_fds]. *)
Definition evacuate_slave (slave : option Z) (ceiling : Z) : ST Table unit (option Z) :=
  match slave with
  | Some s =>
    if (3 <=? s) && (s <? ceiling) then
      high ← checked_call (fcntl_dupfd_cloexec k s ceiling);
      _ ← Fds.close s;
      mret (Some high)
    else mret (Some s)
  | None => mret None
  end.

Definition slave_streams (ctty : bool) (slave : option Z) : ST Table unit unit :=
  match slave with
  | Some s =>
    if negb ctty then stop tt
    else
      _ ← checked_call (dup2 k s 0);
      _ ← checked_call (dup2 k s 1);
      _ ← checked_call (dup2 k s 2);
      if 2 <? s then Fds.close s else mret tt
  | None => mret tt
  end.

(** The closure given to [pre_exec], after [setsid] and [prctl]. *)
Definition pre_exec (ctty : bool) (slave : option Z) (inh : list Z) : ST Table unit unit :=
  slave ← evacuate_slave slave (3 + len inh);
  _ ← (if decide (inh = []) then mret tt else remap_fds k inh);
  slave_streams ctty slave.

(** Descriptors that survive [exec]. *)
Definition after_exec (t : Table) : Table := filter (fun e => e.2.2 = false) t.

(** A command that is ready to be spawned. *)
Record Command : Type := {
  cmd_program : bytes;
  cmd_args : list bytes;
  cmd_env : list (bytes * bytes);
  cmd_dir : option bytes;
  cmd_tty : bool;
  cmd_slave : option Z;
  cmd_stdin : option Z;
  cmd_stdout : option Z;
  cmd_stderr : option Z;
}.

(** [Command::spawn]: on an error of the closure or of [exec] the child has been reaped. *)
Definition spawn (c : Command) (pr : Prep) : L Z := fun w =>
  let failed := (set_fds (w_fds w) w, Err (Process "start sandboxed process: {e}")) in
  match fork_pid h w with
  | None => failed
  | Some pid =>
    let born i := (set_kids (<[pid := {| image := i; released := None |}]> (w_kids w)) w, Ok pid) in
    if negb (setup_ok h w) then failed
    else if reparented h w then born None
    else
      match pre_exec (tty_ok h w) (cmd_slave c) (inherit pr)
              (child_streams (cmd_tty c) (cmd_stdin c) (cmd_stdout c) (cmd_stderr c) (w_fds w)) with
      | (_, Err _) => failed
      | (t, Ok _) =>
        if exec_ok h w (cmd_program c) then
          born (Some {| program := cmd_program c; arguments := cmd_args c; variables := cmd_env c ++ extra pr;
                        directory := cmd_dir c; descriptors := after_exec t |})
        else failed
      end
  end.

(** ** After the start *)

Definition open_pidfd (pid : Z) : L (option Z) := fun w =>
  match pidfd_open h w pid with
  | Some fd => (set_fds (<[fd := (PidFd pid, true)]> (w_fds w)) w, Ok (Some fd))
  | None => (set_fds (w_fds w) w, Ok None)
  end.

Definition MAX_BUF : Z := 65536.

(** The reading loop of [validate_wrapper_audit]. *)
Fixpoint read_audit (reads : list Read) (buf : bytes) : bytes :=
  match reads with
  | [] => buf
  | Eof :: _ => buf
  | Interrupted :: reads => read_audit reads buf
  | ReadError :: _ => buf
  | Data b :: reads =>
    let b := take (Z.to_nat (MAX_BUF - len buf)) b in
    if decide (b = []) then buf
    else if MAX_BUF <=? len (buf ++ b) then buf ++ b else read_audit reads (buf ++ b)
  end.

Definition FAILED_STATUS : bytes := map (fun c => if c =? 39 then 34 else c) (bs "'status':'failed'").

Definition validate_wrapper_audit (reads : list Read) : bool :=
  let buf := read_audit reads [] in
  if decide (buf = []) then true
  else existsb (contains_sub FAILED_STATUS) (filter (fun l => l <> []) (lines (Utf8.lossy buf))).

(** [child.kill] and [child.wait]. *)
Definition kill_wait (pid : Z) (w : World) : World := reap pid (kill pid w).

(** The byte on the sync pipe. *)
Definition release (pid : Z) (w : World) : World :=
  set_kids (alter (fun c => {| image := image c; released := Some (w_cg w) |}) pid (w_kids w)) w.

Definition add_child (mgr : option CgroupManager) (pty : option (Z * Z)) (q : Prepared) (pid : Z) : L unit := fun w =>
  match mgr, p_group q with
  | Some _, Some group =>
    match lift_cg (add_pid ck group pid) w with
    | (w, Ok _) => (w, Ok tt)
    | (w, Err _) =>
      let w := match p_sync q with Some (_, wr) => close_fd wr w | None => w end in
      let w := kill_wait pid w in
      let w := (lift_cg (destroy ck group) w).1 in
      let w := close_pipe (p_audit q) w in
      let w := close_pipe (p_dns q) w in
      let w := close_pipe (p_pid q) w in
      let w := close_pipe (p_unotify q) w in
      let w := match pty with Some (m, _) => close_fd m w | None => w end in
      (w, Err (Cgroup "add_pid failed: {e}"))
    end
  | _, _ => (w, Ok tt)
  end.

Definition release_child (q : Prepared) (pid : Z) : L unit :=
  match p_sync q with
  | Some (_, wr) => modify (fun w => close_fd wr (release pid w))
  | None => mret tt
  end.

(** A layer has failed: the child is killed and everything is given back. *)
Definition abandon (mgr : option CgroupManager) (pty : option (Z * Z)) (q : Prepared) (pid : Z) : L unit := fun w =>
  let w := kill_wait pid w in
  let w := close_pipe (p_pid q) w in
  let w := close_pipe (p_dns q) w in
  let w := close_pipe (p_unotify q) w in
  let w := match pty with Some (m, _) => close_fd m w | None => w end in
  let w := destroy_group mgr (p_group q) w in
  (w, Err (Process "wrapper reported sandbox layer failure")).

Definition check_wrapper (mgr : option CgroupManager) (pty : option (Z * Z)) (q : Prepared) (pid : Z) : L unit :=
  match p_audit q with
  | None => mret tt
  | Some (rd, wr) =>
    _ ← modify (close_fd wr);
    reads ← get (audit_reads h);
    _ ← modify (close_fd rd);
    if validate_wrapper_audit reads then abandon mgr pty q pid else mret tt
  end.

(** [read] of four bytes, again after EINTR. *)
Fixpoint read_four (reads : list Read) : option bytes :=
  match reads with
  | Interrupted :: reads => read_four reads
  | Data b :: _ => let b := take 4 b in if decide (length b = 4%nat) then Some b else None
  | _ => None
  end.

(** [i32::from_le_bytes]. *)
Definition i32_le (b : bytes) : Z := let v := le_int b in if v <? 2 ^ 31 then v else v - 2 ^ 32.

(** The pidfd and the PID of the target, from the wrapper's report. *)
Definition read_report (q : Prepared) (fd0 : option Z) : L (option Z * option Z) :=
  match p_pid q with
  | None => mret (fd0, None)
  | Some (rd, wr) =>
    _ ← modify (close_fd wr);
    reads ← get (report_reads h);
    _ ← modify (close_fd rd);
    match read_four reads with
    | Some b =>
      if 0 <? i32_le b then
        fd ← open_pidfd (i32_le b);
        _ ← modify (close_fds (option_list fd0));
        mret (fd, Some (i32_le b))
      else mret (fd0, None)
    | None => mret (fd0, None)
    end
  end.

(** The write end is closed, the read end kept. *)
Definition keep_read (p : option (Z * Z)) : L (option Z) :=
  match p with
  | Some (rd, wr) => _ ← modify (close_fd wr); mret (Some rd)
  | None => mret None
  end.

(** The error path of the spawn: events, pipes, terminal, group. *)
Definition spawn_failed (cfg : Config) (mgr : option CgroupManager) (pty : option (Z * Z)) (q : Prepared) (w : World)
    : World :=
  let w := (audit cfg (Event.LayerFailed Layer.ProcessSpawn "spawn failed: {e}") w).1 in
  let w := close_pipe (p_audit q) w in
  let w := close_pipe (p_dns q) w in
  let w := close_pipe (p_unotify q) w in
  let w := close_pipe (p_pid q) w in
  let w := close_pipe (p_sync q) w in
  let w := close_pipe pty w in
  destroy_group mgr (p_group q) w.

(** From the spawn to the handle. *)
Definition start (cfg : Config) (mgr : option CgroupManager) (tmp : bytes) (proxy : option (bytes * Z * Z))
    (pty : option (Z * Z)) (c : Command) (q : Prepared) : L Handle :=
  pid ← on_err (spawn_failed cfg mgr pty q) (spawn c (p_prep q));
  fd0 ← open_pidfd pid;
  _ ← modify (close_fds (option_list (snd <$> pty)));
  _ ← modify (close_fds (option_list (fst <$> p_sync q)));
  _ ← on_err (close_fds (option_list fd0))
        (_ ← add_child mgr pty q pid; _ ← release_child q pid; check_wrapper mgr pty q pid);
  '(fd, target) ← read_report q fd0;
  dns ← keep_read (p_dns q);
  unotify ← keep_read (p_unotify q);
  _ ← on_err (fun w => close_fds (option_list unotify ++ option_list dns ++ option_list fd) w)
        (audit cfg (Event.ProcessStarted (default pid target)));
  mret {| child := pid; tmp_dir := tmp; cgroup_path := p_group q; cgroup_mgr := mgr; dns_audit_pipe := dns;
          unotify_audit_pipe := unotify; pidfd := fd; target_pid := target; waited := false;
          connect_proxy_pid := (fun x => x.1.2) <$> proxy; connect_proxy_pidfd := snd <$> proxy;
          connect_proxy_socket := (fun x => x.1.1) <$> proxy; pty_master := fst <$> pty; audit_ctx := c_sink cfg;
          final_stats := None |}.

(** The part of [launch] under the guard of the CONNECT proxy. *)
Definition launch_sandbox (cfg : Config) (mgr : option CgroupManager) (tmp : bytes) (proxy : option (bytes * Z * Z))
    (cmd : bytes) (args : list bytes) : L Handle :=
  let socket := match proxy with Some (sock, _, _) => Some sock | None => c_proxy_socket cfg end in
  let netns := netns_of cfg proxy in
  '(prog, argv) ← command_line cfg netns cmd args;
  env_vars ← environment cfg tmp proxy netns;
  _ ← lift_result (validate_extra_fds (c_extra_fds cfg) (c_stdio cfg));
  pty ← open_pty cfg;
  with_stdio (c_tty cfg) (cfg_stdin (c_stdio cfg)) (fun stdin =>
  with_stdio (c_tty cfg) (cfg_stdout (c_stdio cfg)) (fun stdout =>
  with_stdio (c_tty cfg) (cfg_stderr (c_stdio cfg)) (fun stderr =>
    q ← on_err close_guard (prepare cfg mgr netns socket);
    _ ← modify (set_guard []);
    start cfg mgr tmp proxy pty
      {| cmd_program := prog; cmd_args := argv; cmd_env := env_vars; cmd_dir := c_work_dir cfg; cmd_tty := c_tty cfg;
         cmd_slave := snd <$> pty; cmd_stdin := stdin; cmd_stdout := stdout; cmd_stderr := stderr |} q))).

(** [env::make_tmp_dir]. *)
Definition make_tmp_dir (task_id : bytes) : L bytes := fun w =>
  match temp_dir h w (bs "arapuca-" ++ task_id ++ bs "-") with
  | Some dir => (set_dirs ({[ dir ]} ∪ w_dirs w) w, Ok dir)
  | None => (set_fds (w_fds w) w, Err (Io "tempfile"))
  end.

(** [Linux::launch]. *)
Definition launch (mgr : option CgroupManager) (cfg : Config) (cmd : bytes) (args : list bytes) : L Handle :=
  _ ← lift_result (sanitize_task_id (c_task_id cfg));
  _ ← lift_result (reject_cgroup_paths (h_canonicalize h) (read_paths (c_profile cfg)));
  _ ← lift_result (reject_cgroup_paths (h_canonicalize h) (write_paths (c_profile cfg)));
  _ ← lift_result (validate_work_dir (h_canonicalize h) (h_is_dir h) (c_work_dir cfg) (read_paths (c_profile cfg))
        (write_paths (c_profile cfg)));
  tmp ← make_tmp_dir (c_task_id cfg);
  on_err (rmtree tmp) (
    _ ← modify (fun w => set_layers [] [] (set_guard [] w));
    _ ← sandbox_init cfg cmd args;
    _ ← wrapper_layers cfg;
    proxy ← start_proxy cfg;
    on_err (drop_proxy proxy) (launch_sandbox cfg mgr tmp proxy cmd args)).
End Launch.
