(* ===== verification/LaunchPrep.v ===== *)
(** * LaunchPrep: a launch up to the spawn

    The resources that the launcher of [Launch] holds ([leaves]), the steps before
    the spawn (environment, pipes, control group) and what the child does with its
    descriptors before [exec]. *)

From stdpp Require Import gmap.
From S2P Require Import Prelude Text Paths Validate Env Seccomp Helpers Wrapper.
From S2P Require Import Fds Cgroup AuditLog Launch.

(** ** Resources *)

(** All that a launch can leave behind. *)
Definition res (w : World) := (w_fds w, w_cg w, w_kids w, w_dirs w, w_guard w).

(** The descriptors are those of [s] and, besides, [own], all closed on [exec]. *)
Record holds (s : World) (own : gmap Z Desc) (w : World) : Prop := {
  h_fds fd : w_fds w !! fd = match own !! fd with Some d => Some (d, true) | None => w_fds s !! fd end;
  h_new fd d : own !! fd = Some d -> w_fds s !! fd = None;
}.

Lemma holds_refl s : holds s ∅ s.
Proof. split; [done|]. by intros fd d ?%lookup_empty_Some. Qed.

Lemma holds_eq s own w w' : w_fds w' = w_fds w -> holds s own w -> holds s own w'.
Proof. intros E [H1 H2]. split; [by rewrite E|done]. Qed.

Lemma holds_fresh s own w fd : holds s own w -> w_fds w !! fd = None -> own !! fd = None /\ w_fds s !! fd = None.
Proof. intros [H1 _] Hn. rewrite H1 in Hn. by destruct (own !! fd). Qed.

Lemma holds_open s own w fd d : holds s own w -> w_fds w !! fd = None ->
  holds s (<[fd := d]> own) (set_fds (<[fd := (d, true)]> (w_fds w)) w).
Proof.
  intros H Hn. pose proof (holds_fresh _ _ _ _ H Hn) as [Ho Hs]. destruct H as [H1 H2]. split; cbn; intros x.
  - destruct (decide (x = fd)) as [->|Hx]; [by rewrite !lookup_insert_eq|]. rewrite !lookup_insert_ne by done. apply H1.
  - intros d' [[<- _]|[_ Hx]]%lookup_insert_Some; [done|]. by eapply H2.
Qed.

Lemma holds_close s own w fd : w_fds s !! fd = None -> holds s own w -> holds s (delete fd own) (close_fd fd w).
Proof.
  intros Hs [H1 H2]. split; cbn; intros x.
  - destruct (decide (x = fd)) as [->|Hx]; [by rewrite !lookup_delete_eq|]. rewrite !lookup_delete_ne by done. apply H1.
  - intros d [_ Hd]%lookup_delete_Some. by eapply H2.
Qed.

(** Exactly the descriptors [l] have been taken since [s]. *)
Definition leaves (s : World) (l : list (Z * Desc)) (w : World) : Prop := holds s (list_to_map l) w /\ NoDup l.*1.

Lemma leaves_refl s w : w_fds w = w_fds s -> leaves s [] w.
Proof. intros E. split; [apply (holds_eq _ _ s); [done|apply holds_refl]|apply NoDup_nil_2]. Qed.

Lemma leaves_nil s w : leaves s [] w -> w_fds w = w_fds s.
Proof. intros [[H1 _] _]. apply map_eq. intros fd. by rewrite H1. Qed.

Lemma leaves_eq s l w w' : w_fds w' = w_fds w -> leaves s l w -> leaves s l w'.
Proof. intros E [H Hn]. split; [by eapply holds_eq|done]. Qed.

Lemma leaves_base s s' l w : w_fds s' = w_fds s -> leaves s l w -> leaves s' l w.
Proof. intros E [[H1 H2] Hn]. split; [|done]. split; intros fd; rewrite E; [apply H1|apply H2]. Qed.

Lemma leaves_perm s l l' w : leaves s l w -> l ≡ₚ l' -> leaves s l' w.
Proof. intros [H Hn] Hp. split; [by rewrite <- (list_to_map_proper l l')|by rewrite <- Hp]. Qed.

Lemma leaves_in s l w fd d : leaves s l w -> (fd, d) ∈ l -> w_fds w !! fd = Some (d, true) /\ w_fds s !! fd = None.
Proof.
  intros [[H1 H2] Hn] Hin. apply (elem_of_list_to_map_1 (M := gmap Z)) in Hin; [|done]. rewrite H1, Hin. split; [done|].
  by eapply H2.
Qed.

Lemma leaves_fresh s l w fd : leaves s l w -> w_fds w !! fd = None -> fd ∉ l.*1 /\ w_fds s !! fd = None.
Proof. intros [H _] Hf. destruct (holds_fresh _ _ _ _ H Hf) as [Ho Hs]. split; [by apply not_elem_of_list_to_map|done]. Qed.

Lemma leaves_open s l w fd d : leaves s l w -> w_fds w !! fd = None ->
  leaves s ((fd, d) :: l) (set_fds (<[fd := (d, true)]> (w_fds w)) w).
Proof.
  intros Hl Hf. destruct (leaves_fresh _ _ _ _ Hl Hf) as [Hn _]. destruct Hl as [H Hnd].
  split; [by apply holds_open|]. by apply list.NoDup_cons.
Qed.

Lemma leaves_close s l w fd d : leaves s ((fd, d) :: l) w -> leaves s l (close_fd fd w).
Proof.
  intros Hl. destruct (leaves_in _ _ _ fd d Hl) as [_ Hs]; [apply list_elem_of_here|]. destruct Hl as [H Hn].
  apply list.NoDup_cons in Hn as [Hfd Hn]. split; [|done]. cbn in H, Hfd. apply (holds_close _ _ _ fd Hs) in H.
  by rewrite delete_insert_id in H by by apply not_elem_of_list_to_map.
Qed.

Lemma leaves_close_fds s c l w : leaves s (c ++ l) w -> leaves s l (close_fds c.*1 w).
Proof.
  revert w. induction c as [|[fd d] c IH]; intros w Hl; [done|]. cbn. apply IH. by eapply leaves_close.
Qed.

Lemma leaves_trans s l w l' w' : leaves s l w -> leaves w l' w' -> leaves s (l' ++ l) w'.
Proof.
  intros Hl Hl'. assert (Hd : forall fd, fd ∈ l'.*1 -> fd ∉ l.*1).
  { intros fd H1 H2. apply list_elem_of_fmap in H1 as ([? d] & -> & Hin'). apply list_elem_of_fmap in H2 as ([fd' d'] & E & Hin).
    cbn in E. subst.
    destruct (leaves_in _ _ _ _ _ Hl' Hin') as [_ Hn]. destruct (leaves_in _ _ _ _ _ Hl Hin) as [Hs _]. congruence. }
  destruct Hl as [[H1 H2] Hn], Hl' as [[H3 H4] Hn']. split; [|rewrite fmap_app; by apply list.NoDup_app].
  rewrite list_to_map_app. split; intros x.
  - rewrite H3, H1, lookup_union. by destruct (list_to_map l' !! x), (list_to_map l !! x).
  - intros d [Hx|[_ Hx]]%lookup_union_Some_raw; [|by eapply H2]. apply H4 in Hx. rewrite H1 in Hx.
    by destruct (list_to_map l !! x).
Qed.

Lemma close_fds_rest l w : w_cg (close_fds l w) = w_cg w /\ w_kids (close_fds l w) = w_kids w /\
  w_dirs (close_fds l w) = w_dirs w /\ w_guard (close_fds l w) = w_guard w /\ w_events (close_fds l w) = w_events w.
Proof. revert w. induction l as [|x l IH]; intros w; [done|]. exact (IH (close_fd x w)). Qed.

(** An optional descriptor with what it is; both ends of a pipe and of a terminal. *)
Definition tag (d : Desc) (o : option Z) : list (Z * Desc) := (fun fd => (fd, d)) <$> option_list o.
Definition pipe_own (p : Pipe) (o : option (Z * Z)) : list (Z * Desc) :=
  tag (PipeRead p) (fst <$> o) ++ tag (PipeWrite p) (snd <$> o).
Definition pty_own (o : option (Z * Z)) : list (Z * Desc) := tag PtyMaster (fst <$> o) ++ tag PtySlave (snd <$> o).

Lemma tag_fst d o : (tag d o).*1 = option_list o.
Proof. by destruct o. Qed.
Lemma pipe_own_fst p o : (pipe_own p o).*1 = pipe_fds o.
Proof. by destruct o as [[]|]. Qed.
Lemma pty_own_fst o : (pty_own o).*1 = pipe_fds o.
Proof. by destruct o as [[]|]. Qed.

(** ** Events *)

Section Spec.
Context {T : Seccomp.Target} (k : DupKernel Desc) (ck : CgKernel) (h : LaunchHost).

(** Documented behaviour of the kernel and of the libraries: what they hand out is new, and what they report is there. *)
Record LaunchLaws : Prop := {
  law_dupfd : dupfd_law k;
  law_cgroups : CgLaws ck;
  law_pipe2 w r wr : pipe2 h w = Some (r, wr) ->
    0 <= r /\ 0 <= wr /\ r <> wr /\ w_fds w !! r = None /\ w_fds w !! wr = None;
  law_openpty w m s : openpty h w = Some (m, s) ->
    0 <= m /\ 0 <= s /\ m <> s /\ w_fds w !! m = None /\ w_fds w !! s = None;
  law_pidfd w pid fd : pidfd_open h w pid = Some fd -> w_fds w !! fd = None;
  law_fork w pid : fork_pid h w = Some pid ->
    w_kids w !! pid = None /\ 0 < pid < 2 ^ 31 /\ forall q, ~ owns (w_cg w) pid q;
  law_proxy w sock pid fd : proxy_fork h w = Ok (sock, pid, fd) ->
    w_fds w !! fd = None /\ w_kids w !! pid = None /\ (forall q, ~ owns (w_cg w) pid q) /\
    exists dir, parent sock = Some dir /\ dir ∉ w_dirs w;
  law_temp w prefix dir : temp_dir h w prefix = Some dir -> dir ∉ w_dirs w;
}.

(** Directories can be removed. *)
Definition tidy : Prop := (forall s p, rmdir_ok ck s p = true) /\ (forall w d, rmtree_ok h w d = true).

Context (cfg : Config).

(** Steps that only report: they fail only with a sink that may refuse. *)
Definition silent (m : ST World Error unit) : Prop := forall w Q X,
  (forall w', res w' = res w -> Q tt w') -> (forall e w', res w' = res w -> ~ tolerant (c_sink cfg) -> X e w') -> wp m Q X w.

Lemma silent_ret : silent (mret tt).
Proof. intros w Q X HQ _. by apply HQ. Qed.

Lemma silent_bind (m1 m2 : ST World Error unit) : silent m1 -> silent m2 -> silent (m1 ≫= fun _ => m2).
Proof.
  intros H1 H2 w Q X HQ HX. apply wp_bind, H1; [|done]. intros w1 E1. apply H2.
  - intros w2 E2. apply HQ. congruence.
  - intros e w2 E2. apply HX. congruence.
Qed.

Lemma silent_audit e : silent (audit cfg e).
Proof.
  intros w Q X HQ HX. unfold wp, audit. destruct (c_sink cfg) as [sink|] eqn:Es; [|by apply HQ].
  pose proof (emit_tolerant sink e (w_events w)) as Ht. destruct (emit sink e (w_events w)) as [l [[]|err]].
  - by apply HQ.
  - apply HX; [done|]. intros Htol. destruct (Ht Htol) as [? ?]. done.
Qed.

Lemma silent_layers f : silent (modify (fun w => set_layers (f w).1 (f w).2 w)).
Proof. intros w Q X HQ _. by apply HQ. Qed.

Lemma silent_applied l d : silent (applied cfg l d).
Proof. apply silent_bind; [apply silent_audit|]. apply (silent_layers (fun w => (w_applied w ++ [l], w_skipped w))). Qed.
Lemma silent_skipped l r : silent (skipped cfg l r).
Proof. apply silent_bind; [apply silent_audit|]. apply (silent_layers (fun w => (w_applied w, w_skipped w ++ [l]))). Qed.
Lemma silent_push l : silent (push_applied l).
Proof. apply (silent_layers (fun w => (w_applied w ++ [l], w_skipped w))). Qed.

Lemma silent_get {A} (f : World -> A) (m : A -> ST World Error unit) : (forall a, silent (m a)) -> silent (get f ≫= m).
Proof. intros Hm w Q X HQ HX. by apply Hm. Qed.

Ltac silent := repeat first
  [ apply silent_ret | apply silent_audit | apply silent_applied | apply silent_skipped | apply silent_push
  | apply silent_get; intros ? | apply silent_bind | case_match ].

Lemma silent_init cmd args : silent (sandbox_init cfg cmd args).
Proof. apply silent_audit. Qed.
Lemma silent_dns p : silent (dns_layer h cfg p).
Proof. unfold dns_layer. silent. Qed.
Lemma silent_unotify p : silent (unotify_layer h cfg p).
Proof. unfold unotify_layer. silent. Qed.
Lemma silent_pre_exec pr p : silent (pre_exec_events cfg pr p).
Proof. unfold pre_exec_events. silent. Qed.
Lemma silent_policy netns socket : silent (policy_events cfg netns socket).
Proof. unfold policy_events. silent. Qed.

(** Steps that return a value and touch no resource, on success or failure. *)
Definition quiet {A} (m : ST World Error A) (P : A -> Prop) : Prop :=
  forall w, wp m (fun a w' => res w' = res w /\ P a) (fun _ w' => res w' = res w) w.

Lemma quiet_use {A} (m : ST World Error A) P Q X w : quiet m P ->
  (forall a w', res w' = res w -> P a -> Q a w') -> (forall e w', res w' = res w -> X e w') -> wp m Q X w.
Proof. intros Hm HQ HX. eapply wp_mono; [apply Hm|intros a w' []; auto|auto]. Qed.

Lemma quiet_bind {A B} (m : ST World Error A) (f : A -> ST World Error B) P P' :
  quiet m P -> (forall a, P a -> quiet (f a) P') -> quiet (m ≫= f) P'.
Proof.
  intros Hm Hf w. apply wp_bind. apply (quiet_use m P); [done| |done]. intros a w1 E Ha.
  eapply wp_mono; [by apply Hf| |]; cbn; intros ? ? ?; [intuition congruence|congruence].
Qed.

Lemma quiet_ret {A} (a : A) (P : A -> Prop) : P a -> quiet (mret a) P.
Proof. by intros H w. Qed.

Lemma quiet_lift {A} (r : Result A) (P : A -> Prop) : (forall a, r = Ok a -> P a) -> quiet (lift_result r) P.
Proof. intros H w. unfold wp, lift_result. destruct r; [auto|done]. Qed.

Lemma quiet_silent m : silent m -> quiet m (fun _ => True).
Proof. intros H w. by apply H. Qed.

Lemma quiet_wrapper : quiet (wrapper_layers h cfg) (fun _ => True).
Proof.
  unfold wrapper_layers. repeat case_match; try (by intros w); apply quiet_silent; silent.
Qed.

(** The namespaces in which the command line is run: a user namespace with a network namespace (and a mount
    namespace, in which the wrapper captures DNS), or only a user namespace for the PID namespace of the wrapper. *)
Definition unshared (netns : bool) : list bytes :=
  if netns then
    [bs "unshare"; bs "--user"; bs "--net"]
    ++ (if dns_capture (c_profile cfg) && mount_ns_available h && bool_decide (is_Some (env_wrapper_path h))
        then [bs "--mount"] else [])
    ++ [bs "--map-root-user"; bs "--"]
  else if use_pidns (c_profile cfg) then [bs "unshare"; bs "--user"; bs "--map-root-user"; bs "--"] else [].

(** The command line: the wrapper with the command as its arguments, or, where there is no wrapper, the command
    itself; in the namespaces that are wanted. *)
Definition runs_command (netns : bool) (cmd : bytes) (args argv : list bytes) : Prop :=
  argv = unshared netns ++ match env_wrapper_path h with
                           | Some w => [Utf8.lossy w; bs "--"; cmd]
                           | None => [cmd]
                           end ++ args.

Lemma quiet_command netns cmd args :
  quiet (command_line h cfg netns cmd args) (fun r => runs_command netns cmd args (r.1 :: r.2)).
Proof.
  unfold command_line, runs_command, unshared, wrapped, dns_active, use_wrapper.
  destruct (env_wrapper_path h) as [wr|]; destruct netns;
    (eapply quiet_bind; [apply quiet_silent; silent|]); intros _ _; apply quiet_ret.
  - rewrite (bool_decide_true (is_Some (Some wr))) by by eexists. cbn [andb orb negb]. rewrite !andb_true_r.
    destruct (dns_capture (c_profile cfg)), (mount_ns_available h); reflexivity.
  - by destruct (use_pidns (c_profile cfg)).
  - rewrite (bool_decide_false (is_Some None)) by by intros [? ?]. rewrite !andb_false_r. reflexivity.
  - by destruct (use_pidns (c_profile cfg)).
Qed.

(** ** The environment *)

(** Variables that name a descriptor of the wrapper, and what it is. *)
Definition FD_VARS : list (string * Desc) :=
  [("ARAPUCA_AUDIT_FD", PipeWrite AuditPipe); ("ARAPUCA_DNS_AUDIT_FD", PipeWrite DnsPipe);
   ("ARAPUCA_UNOTIFY_AUDIT_FD", PipeWrite UnotifyPipe); ("ARAPUCA_PID_REPORT_FD", PipeWrite PidPipe);
   ("ARAPUCA_CGROUP_SYNC_FD", PipeRead SyncPipe)]%string.
Definition FD_NAMES : list bytes := map (fun x => bs x.1) FD_VARS.

(** The variables come from [launch_env], and none of them names a descriptor. *)
Definition env_ok (tmp : bytes) (socket : option bytes) (netns : bool) (env : list (bytes * bytes)) : Prop :=
  (use_wrapper h = true -> launch_env (c_profile cfg) tmp socket netns (c_env cfg) = Ok env) /\
  forall kv, kv ∈ env -> kv.1 ∉ FD_NAMES.

Lemma wrapper_env_names p env : wrapper_env p = Ok env -> forall kv, kv ∈ env -> kv.1 ∉ FD_NAMES.
Proof.
  intros H kv Hin. assert (HF : Forall (fun n => n ∉ FD_NAMES) env.*1).
  { rewrite (wrapper_env_list p env H).
    assert (K : forall c (kv : bytes * bytes), (when c kv).*1 = if c then [kv.1] else []) by (by intros []).
    rewrite !fmap_app, !K. simpl.
    destruct (negb _), (negb _), (0 <? max_file_size_mb p), (0 <? max_open_files p), (0 <? cpu_timeout_secs p),
      (seccomp_debug p); by_eval. }
  rewrite list.Forall_forall in HF. apply HF. by apply list_elem_of_fmap_2.
Qed.

Lemma caller_env_names kv : kv ∈ (filter_caller_env (c_env cfg)).1 -> kv.1 ∉ FD_NAMES.
Proof.
  destruct kv as [n v]. intros [_ Hd]%filter_caller_env_passed Hn. apply Hd. left. exists "ARAPUCA_"%string.
  split; [apply list_elem_of_here|]. apply starts_with_prefix. cbn in Hn.
  assert (HF : Forall (fun n => starts_with (bs "ARAPUCA_") n = true) FD_NAMES) by by_eval.
  rewrite list.Forall_forall in HF. by apply HF.
Qed.

Lemma literal_names (l : list (bytes * bytes)) : Forall (fun n => n ∉ FD_NAMES) l.*1 -> forall kv, kv ∈ l -> kv.1 ∉ FD_NAMES.
Proof. intros HF kv Hin. rewrite list.Forall_forall in HF. apply HF. by apply list_elem_of_fmap_2. Qed.

Definition socket_of (proxy : option (bytes * Z * Z)) : option bytes :=
  match proxy with Some (sock, _, _) => Some sock | None => c_proxy_socket cfg end.

Lemma quiet_environment tmp proxy netns :
  quiet (environment h cfg tmp proxy netns) (env_ok tmp (socket_of proxy) netns).
Proof.
  unfold environment. fold (socket_of proxy). set (socket := socket_of proxy).
  eapply (quiet_bind _ _ (fun wenv => (use_wrapper h = true -> wrapper_env (launch_profile (c_profile cfg) tmp) = Ok wenv) /\
    forall kv, kv ∈ wenv -> kv.1 ∉ FD_NAMES)).
  { destruct (use_wrapper h); [apply quiet_lift|apply quiet_ret; set_solver].
    intros wenv H. split; [done|]. by eapply wrapper_env_names. }
  intros wenv [Hw Hn]. eapply quiet_bind; [apply quiet_silent; destruct proxy; silent|]. intros _ _.
  eapply (quiet_bind _ _ (fun b => bridge_env netns socket = Ok b)); [by apply quiet_lift|]. intros b Hb.
  eapply quiet_bind; [apply quiet_silent; destruct b; silent|]. intros _ _.
  pose proof caller_env_names as Hc. destruct (filter_caller_env (c_env cfg)) as [passed dropped] eqn:Ef.
  eapply quiet_bind; [apply quiet_silent, silent_audit|]. intros _ _.
  eapply quiet_bind; [apply quiet_silent, silent_push|]. intros _ _. apply quiet_ret. split.
  - intros Hu. unfold launch_env. rewrite (Hw Hu). cbn. rewrite Hb. cbn. by rewrite Ef, <- !app_assoc.
  - intros kv. rewrite !elem_of_app. intros [[[[H|H]|H]|H]|H].
    + revert kv H. apply literal_names. by_eval.
    + by apply Hn.
    + revert kv H. apply literal_names. destruct socket; cbn; [|constructor]. constructor; [by_eval|constructor].
    + rewrite (bridge_env_key _ _ _ Hb kv H). by_eval.
    + by apply Hc.
Qed.

(** ** Pipes *)

Section Pipes.
Context (HL : LaunchLaws) (w0 : World) (l0 : list (Z * Desc)).

(** The ends that the child gets after the caller's descriptors: the variable, the descriptor and what it is. *)
Record ends_ok (pr : Prep) (ends : list (string * Z * Desc)) : Prop := {
  en_inherit : inherit pr = c_extra_fds cfg ++ map (fun e => e.1.2) ends;
  en_nodup : NoDup (map (fun e => e.1.2) ends);
  en_vars e : e ∈ ends -> (e.1.1, e.2) ∈ FD_VARS;
  en_extra kv : kv ∈ extra pr -> kv.1 ∈ FD_NAMES ->
    exists i e, ends !! i = Some e /\ kv = (bs e.1.1, dec (3 + len (c_extra_fds cfg) + Z.of_nat i));
  en_config kv : kv ∈ extra pr -> kv.1 ∉ map bs config_names;
}.

(** While the pipes are made: the guard has [g], and [l0] was taken before. *)
Record piping (pr : Prep) (g : list (Z * Desc)) (w : World) : Prop := {
  pi_leaves : leaves w0 (g ++ l0) w;
  pi_guard : w_guard w = g.*1;
  pi_ends : exists ends, ends_ok pr ends /\ forall e, e ∈ ends -> (e.1.2, e.2) ∈ g /\ 0 <= e.1.2;
  pi_rest : w_kids w = w_kids w0 /\ w_dirs w = w_dirs w0;
}.

Lemma piping_res pr g w w' : res w' = res w -> piping pr g w -> piping pr g w'.
Proof.
  intros [= E1 _ E3 E4 E5] [H1 H2 H3 H4]. split; [by eapply leaves_eq|by rewrite E5|done|by rewrite E3, E4].
Qed.

Lemma ends_pass pr ends fd n d : ends_ok pr ends -> (n, d) ∈ FD_VARS -> fd ∉ map (fun e => e.1.2) ends ->
  ends_ok (pass_end pr fd n) (ends ++ [(n, fd, d)]).
Proof.
  intros [H1 H2 H3 H4 H5] Hn Hfd. split; cbn.
  - by rewrite H1, map_app, app_assoc.
  - rewrite map_app. apply list.NoDup_app. split_and!; [done| |apply NoDup_singleton].
    intros x Hx ->%list_elem_of_singleton. done.
  - intros e [He| ->%list_elem_of_singleton]%elem_of_app; [by apply H3|done].
  - intros kv [Hk|Hk]%elem_of_app Hn'.
    + destruct (H4 kv Hk Hn') as (i & e & Hi & ->). exists i, e. split; [by apply lookup_app_l_Some|done].
    + apply list_elem_of_singleton in Hk as ->. exists (length ends), (n, fd, d).
      split; [by rewrite lookup_app_r, Nat.sub_diag|]. cbn. rewrite H1. unfold len. rewrite length_app, length_map.
      by rewrite Nat2Z.inj_add, Z.add_assoc.
  - intros kv [Hk|Hk]%elem_of_app; [by apply H5|]. apply list_elem_of_singleton in Hk as ->.
    assert (HF : Forall (fun x => bs x.1 ∉ map bs config_names) FD_VARS) by by_eval.
    rewrite list.Forall_forall in HF. by apply (HF (n, d)).
Qed.

Lemma ends_other pr ends kv : ends_ok pr ends -> kv.1 ∉ FD_NAMES -> kv.1 ∉ map bs config_names ->
  ends_ok {| inherit := inherit pr; extra := extra pr ++ [kv] |} ends.
Proof.
  intros [H1 H2 H3 H4 H5] Hk Hc. split; cbn; try done.
  - intros x [Hx| ->%list_elem_of_singleton]%elem_of_app Hn; [by apply H4|done].
  - intros x [Hx| ->%list_elem_of_singleton]%elem_of_app; [by apply H5|done].
Qed.

Lemma piping_other pr g w kv : piping pr g w -> kv.1 ∉ FD_NAMES -> kv.1 ∉ map bs config_names ->
  piping {| inherit := inherit pr; extra := extra pr ++ [kv] |} g w.
Proof.
  intros [H1 H2 (ends & He & Ho) H4] Hk Hc. split; try done. exists ends. split; [by apply ends_other|done].
Qed.

(** One end of a new pipe is passed on. *)
Lemma piping_passed pr g w p a b fd d n : piping pr g w -> w_fds w !! a = None -> w_fds w !! b = None -> a <> b ->
  0 <= a -> 0 <= b -> (fd = a /\ d = PipeRead p) \/ (fd = b /\ d = PipeWrite p) -> (n, d) ∈ FD_VARS ->
  piping (pass_end pr fd n) (g ++ pipe_own p (Some (a, b)))
    (set_guard (w_guard w ++ [a; b]) (set_fds (<[b := (PipeWrite p, true)]> (<[a := (PipeRead p, true)]> (w_fds w))) w)).
Proof.
  intros [H1 H2 (ends & He & Ho) H4] Ha Hb Hab Hpa Hpb Hfd Hn. split.
  - apply (leaves_perm _ ((b, PipeWrite p) :: (a, PipeRead p) :: g ++ l0)); [|cbn; solve_Permutation].
    pose proof (leaves_open _ _ _ a (PipeRead p) H1 Ha) as H5.
    eapply leaves_eq, (leaves_open _ _ _ b (PipeWrite p) H5); [done|]. cbn. by rewrite lookup_insert_ne.
  - cbn. by rewrite H2, fmap_app.
  - exists (ends ++ [(n, fd, d)]). split.
    + apply ends_pass; [done|done|]. intros (e & E & Hin)%list_elem_of_fmap. destruct (Ho e Hin) as [Hg _].
      destruct (leaves_in _ _ _ e.1.2 e.2 H1) as [Hs _]; [apply elem_of_app; by left|]. rewrite <- E in Hs.
      destruct Hfd as [[-> _]|[-> _]]; congruence.
    + intros e [Hin| ->%list_elem_of_singleton]%elem_of_app.
      * destruct (Ho e Hin) as [Hg Hpos]. split; [apply elem_of_app; by left|done].
      * cbn. destruct Hfd as [[-> ->]|[-> ->]]; (split; [|done]); apply elem_of_app; right; set_solver.
  - done.
Qed.

(** What a step that makes a pipe leaves. *)
Definition passed (p : Pipe) (g : list (Z * Desc)) (c : Cgroups) (x : option (Z * Z) * Prep) (w : World) : Prop :=
  piping x.2 (g ++ pipe_own p x.1) w /\ w_cg w = c.

Lemma passed_none p pr g w w' : res w' = res w -> piping pr g w -> passed p g (w_cg w) (None, pr) w'.
Proof. intros E Hp. split; [cbn; rewrite app_nil_r; by eapply piping_res|by injection E]. Qed.

Lemma wp_pass_write wanted p n pr g w Q X : piping pr g w -> (n, PipeWrite p) ∈ FD_VARS ->
  (forall x w', passed p g (w_cg w) x w' -> Q x w') -> wp (pass_write h wanted p n pr) Q X w.
Proof.
  intros Hp Hn HQ. eapply (wp_mono _ (passed p g (w_cg w)) _ X); [|done..]. unfold pass_write.
  destruct wanted; [|by apply passed_none].
  apply wp_bind. unfold wp, make_pipe. destruct (pipe2 h w) as [[a b]|] eqn:E; [|by apply passed_none].
  apply (law_pipe2 HL) in E as (Hpa & Hpb & Hab & Ha & Hb). split; [|done]. eapply piping_passed; eauto.
Qed.

(** No pipe could be made when the launcher had the children [kids] and held no more than [n] descriptors beyond those
    of [s]. *)
Definition no_pipe (s : World) (kids : gmap Z Kid) (n : nat) : Prop :=
  exists w1 own, pipe2 h w1 = None /\ w_kids w1 = kids /\ leaves s own w1 /\ (length own <= n)%nat.

Lemma length_pipe_own p o : (length (pipe_own p o) <= 2)%nat.
Proof. destruct o; cbn; lia. Qed.

(** Where there is a group there is a pipe to hold the child back, and a variable that names it, unless the pipe
    cannot be made: at that point the launcher has made at most four other pipes. *)
Definition sync_made (group : option bytes) (sync : option (Z * Z)) (pr : Prep) : Prop :=
  match sync with
  | Some _ => is_Some group /\ bs "ARAPUCA_CGROUP_SYNC_FD" ∈ (extra pr).*1
  | None => group = None \/ no_pipe w0 (w_kids w0) (8 + length l0)
  end.

Lemma wp_sync group pr g w Q X : piping pr g w -> (length g <= 8)%nat ->
  (forall x w', passed SyncPipe g (w_cg w) x w' -> sync_made group x.1 x.2 -> Q x w') -> wp (sync_pipe h group pr) Q X w.
Proof.
  intros Hp Hg HQ. eapply (wp_mono _ (fun x w' => passed SyncPipe g (w_cg w) x w' /\ sync_made group x.1 x.2) _ X); [|naive_solver..].
  unfold sync_pipe. destruct group as [p|]; [|by split; [apply passed_none|left]].
  apply wp_bind. unfold wp, make_pipe. destruct (pipe2 h w) as [[a b]|] eqn:E.
  2:{ split; [by apply passed_none|]. right. exists w, (g ++ l0). destruct Hp as [Hl _ _ [Hk _]].
      rewrite length_app. split_and!; [done..|lia]. }
  apply (law_pipe2 HL) in E as (Hpa & Hpb & Hab & Ha & Hb). split.
  - split; [|done]. eapply piping_passed; eauto. unfold FD_VARS. set_solver.
  - split; [by eexists|]. cbn. rewrite fmap_app. apply elem_of_app. right. apply list_elem_of_here.
Qed.

(** ** The control group *)

Definition rest (w : World) := (w_fds w, w_kids w, w_dirs w, w_guard w).

Lemma res_rest w w' : res w' = res w -> rest w' = rest w /\ w_cg w' = w_cg w.
Proof. intros [= E1 E2 E3 E4 E5]. unfold rest. split; congruence. Qed.

(** From [c0] to [c] the group is made, and holds exactly the processes [ps]. *)
Definition member (mgr : option CgroupManager) (l : CgroupLimits) (c0 : Cgroups) (group : option bytes) (ps : list Z)
    (c : Cgroups) : Prop :=
  killed c = killed c0 /\
  match group with
  | Some p => exists m st g, mgr = Some m /\ groups c0 !! p = None /\ groups c !! p = Some g /\ procs g = ps /\
      limited m l st g /\ (forall q, q <> p -> groups c !! q = groups c0 !! q) /\
      (cgroup_policy (c_profile cfg) = Required -> degraded st = [])
  | None => (tidy -> c = c0) /\ (cgroup_policy (c_profile cfg) = Required -> has_limits l = false) /\
      forall q g, groups c0 !! q = Some g -> groups c !! q = Some g
  end.

(** With no limit applied although some are wanted, a controller is missing. *)
Lemma degraded_some m l st g : limited m l st g -> has_limits l = true ->
  wants_memory m l || wants_pids m l || wants_cpu m l = false -> degraded st <> [].
Proof.
  intros [_ _ _ Hd _ _ _ _] Hl Hw Hn. rewrite Hd in Hn. unfold has_limits, wants_memory, wants_pids, wants_cpu, lacking in *.
  destruct (0 <? memory_max_mb l), (0 <? pids_max l), (0 <? cpu_max_pct l); try done;
  destruct (has_controller m "memory"), (has_controller m "pids"), (has_controller m "cpu"); done.
Qed.

Lemma destroy_group_empty m p g w : tidy -> groups (w_cg w) !! p = Some g -> procs g = [] ->
  rest (destroy_group ck (Some m) (Some p) w) = rest w /\
  w_cg (destroy_group ck (Some m) (Some p) w) = {| groups := delete p (groups (w_cg w)); killed := killed (w_cg w) |}.
Proof.
  intros [Hr _] Hp Hg. unfold destroy_group, lift_cg. by rewrite (destroy_empty ck p g) by (try done; apply HL).
Qed.

Lemma destroy_group_rest mgr path w : rest (destroy_group ck mgr path w) = rest w.
Proof. unfold destroy_group, lift_cg. destruct mgr, path; try done. by destruct (destroy ck _ _). Qed.

Definition group_failed (w : World) (w' : World) : Prop :=
  rest w' = rest w /\ (tolerant (c_sink cfg) -> tidy -> w_cg w' = w_cg w).

Lemma wp_create m l w : has_limits l = true -> wp (create_group ck cfg m l)
  (fun r w' => rest w' = rest w /\ killed (w_cg w') = killed (w_cg w) /\ exists g, limited m l (status r) g /\
    match path r with
    | Some p => groups (w_cg w) !! p = None /\ groups (w_cg w') !! p = Some g /\ procs g = [] /\
        forall q, q <> p -> groups (w_cg w') !! q = groups (w_cg w) !! q
    | None => degraded (status r) <> [] /\ (tidy -> w_cg w' = w_cg w) /\
        forall q g, groups (w_cg w) !! q = Some g -> groups (w_cg w') !! q = Some g
    end) (fun _ => group_failed w) w.
Proof.
  intros Hl. unfold wp, create_group, lift_cg. destruct (create ck m (c_task_id cfg) l (w_cg w)) as [c [r|e]] eqn:E;
    apply create_run in E as (Hk & Hq & Hr).
  - destruct Hr as (_ & Hnew & g & Hlim & Hp). split; [done|]. split; [done|]. exists g. split; [done|].
    destruct (path r) as [p|]; cbn.
    + by destruct Hp as (-> & Hg & Hpr & _).
    + destruct Hp as (Hw & Hrm). split; [by eapply degraded_some|]. split; [intros [Ht _]; apply Hrm; intros s; apply Ht|].
      intros q g' Hg'. rewrite Hq; [done|]. intros ->. congruence.
  - split; [done|]. intros _ [Ht _]. cbn. apply Hr. intros s. apply Ht.
Qed.

Lemma failed_audit w w1 w2 : rest w1 = rest w -> res w2 = res w1 -> ~ tolerant (c_sink cfg) -> group_failed w w2.
Proof. intros E1 [E2 _]%res_rest Hn. split; [congruence|done]. Qed.

Lemma wp_group_found m l w r g w1 : has_limits l = true -> rest w1 = rest w -> killed (w_cg w1) = killed (w_cg w) ->
  limited m l (status r) g -> (cgroup_policy (c_profile cfg) = Required -> degraded (status r) = []) ->
  match path r with
  | Some p => groups (w_cg w) !! p = None /\ groups (w_cg w1) !! p = Some g /\ procs g = [] /\
      forall q, q <> p -> groups (w_cg w1) !! q = groups (w_cg w) !! q
  | None => degraded (status r) <> [] /\ (tidy -> w_cg w1 = w_cg w) /\
      forall q g, groups (w_cg w) !! q = Some g -> groups (w_cg w1) !! q = Some g
  end ->
  wp (match path r with
      | Some p =>
        _ ← applied cfg Layer.Cgroup
              (Some (Detail.Cgroup (sanitize_audit_string (Utf8.lossy p)) (swap_disabled (status r)) (degraded (status r))));
        mret (Some p)
      | None => _ ← skipped cfg Layer.Cgroup NotAvailable; mret None
      end) (fun group w' => rest w' = rest w /\ member (Some m) l (w_cg w) group [] (w_cg w')) (fun _ => group_failed w) w1.
Proof.
  intros Hl Er Ek Hlim Hreq Hp. destruct (path r) as [p|]; apply wp_bind.
  - apply silent_applied; [|intros ? ?; by apply failed_audit]. intros w2 [E2 E3]%res_rest. split; [congruence|].
    rewrite E3. split; [done|]. destruct Hp as (H1 & H2 & H3 & H4). by exists m, (status r), g.
  - apply silent_skipped; [|intros ? ?; by apply failed_audit]. intros w2 [E2 E3]%res_rest. split; [congruence|].
    rewrite E3. split; [done|]. destruct Hp as (Hd & Ht & Hg). split; [done|]. split; [|done].
    intros H. by apply Hreq in H.
Qed.

Lemma wp_group mgr l w : wp (make_group ck cfg mgr l)
  (fun group w' => rest w' = rest w /\ member mgr l (w_cg w) group [] (w_cg w')) (fun _ => group_failed w) w.
Proof.
  assert (Hnone : (cgroup_policy (c_profile cfg) = Required -> has_limits l = false) -> member mgr l (w_cg w) None [] (w_cg w)).
  { intros H. split; [done|]. split; [done|]. by split. }
  unfold make_group. destruct mgr as [m|]; destruct (has_limits l) eqn:El; try (by split; [|apply Hnone]).
  - apply wp_bind. eapply wp_mono; [by apply wp_create| |done]. cbn. intros r w1 (Er & Ek & g & Hlim & Hp).
    apply wp_bind. destruct (decide (degraded (status r) = [])) as [Hd|Hd]; [by eapply wp_group_found|].
    destruct (cgroup_policy (c_profile cfg)) eqn:Ec; [|by eapply wp_group_found; try done; rewrite Ec].
    change (group_failed w (destroy_group ck (Some m) (path r) w1)). split; [by rewrite destroy_group_rest|].
    intros _ Ht. destruct (path r) as [p|]; [|by apply Hp].
    destruct Hp as (H1 & H2 & H3 & H4). destruct (destroy_group_empty m p g w1 Ht H2 H3) as [_ ->].
    destruct (w_cg w) as [gs ks]. cbn in *. rewrite Ek. f_equal. apply map_eq. intros q.
    destruct (decide (q = p)) as [->|Hq]; [by rewrite lookup_delete_eq|]. by rewrite lookup_delete_ne, H4.
  - destruct (cgroup_policy (c_profile cfg)); [done|]. apply wp_bind, silent_skipped; [|intros ? ?; by apply failed_audit].
    intros w2 [E2 E3]%res_rest. split; [done|]. rewrite E3. by apply Hnone.
Qed.

(** ** Everything before the start *)

Definition all_pipes (q : Prepared) : list (Z * Desc) :=
  pipe_own AuditPipe (p_audit q) ++ pipe_own DnsPipe (p_dns q) ++ pipe_own UnotifyPipe (p_unotify q)
  ++ pipe_own PidPipe (p_pid q) ++ pipe_own SyncPipe (p_sync q).

Lemma unotify_env_key p kv : unotify_env p = Some kv -> kv.1 = bs "ARAPUCA_UNOTIFY_CONFIG".
Proof. unfold unotify_env. repeat case_match; by intros [= <-]. Qed.

Definition prepare_failed (c : Cgroups) (w : World) : Prop :=
  exists pr g, piping pr g w /\ (tolerant (c_sink cfg) -> tidy -> w_cg w = c).

Lemma prepare_audit pr g w1 w2 c : piping pr g w1 -> res w2 = res w1 -> ~ tolerant (c_sink cfg) -> prepare_failed c w2.
Proof. intros Hp E Hn. exists pr, g. split; [by eapply piping_res|done]. Qed.

Lemma piping_rest pr g w w' : rest w' = rest w -> piping pr g w -> piping pr g w'.
Proof.
  intros [= E1 E3 E4 E5] [H1 H2 H3 H4]. split; [by eapply leaves_eq|by rewrite E5|done|by rewrite E3, E4].
Qed.

Lemma wp_prepare mgr netns socket w : leaves w0 l0 w -> w_guard w = [] -> w_kids w = w_kids w0 -> w_dirs w = w_dirs w0 ->
  wp (prepare ck h cfg mgr netns socket)
    (fun q w' => piping (p_prep q) (all_pipes q) w' /\ sync_made (p_group q) (p_sync q) (p_prep q) /\
       member mgr (limits_of cfg netns) (w_cg w) (p_group q) [] (w_cg w'))
    (fun _ => prepare_failed (w_cg w)) w.
Proof.
  intros Hh Hg Hk Hd. unfold prepare. apply wp_bind.
  assert (H0 : piping {| inherit := c_extra_fds cfg; extra := [] |} [] w).
  { split; try done. exists []. split; [|by intros ? ?%elem_of_nil].
    split; cbn; [by rewrite app_nil_r|apply NoDup_nil_2|by intros ? ?%elem_of_nil..]. }
  eapply wp_pass_write; [exact H0|by_eval|]. intros [audit_pipe pr1] w1 [H1 C1].
  apply wp_bind. eapply wp_pass_write; [exact H1|by_eval|]. intros [dns_pipe pr2] w2 [H2 C2].
  apply wp_bind, silent_dns; [|intros; by eapply prepare_audit]. intros w3 E3. apply (piping_res _ _ _ _ E3) in H2.
  apply res_rest in E3 as [_ C3].
  apply wp_bind. eapply wp_pass_write; [exact H2|by_eval|]. intros [unotify_pipe pr4] w4 [H4 C4].
  set (pr5 := match unotify_pipe with Some _ => _ | None => _ end).
  assert (H5 : piping pr5 ((([] ++ pipe_own AuditPipe audit_pipe) ++ pipe_own DnsPipe dns_pipe) ++ pipe_own UnotifyPipe unotify_pipe) w4).
  { unfold pr5. destruct unotify_pipe; [|done]. destruct (unotify_env (c_profile cfg)) as [kv|] eqn:Eu; [|done].
    apply unotify_env_key in Eu. apply piping_other; [done|rewrite Eu; by_eval..]. }
  apply wp_bind, silent_unotify; [|intros; by eapply prepare_audit]. intros w5 E5. apply (piping_res _ _ _ _ E5) in H5.
  apply res_rest in E5 as [_ C5]. set (pidns := use_pidns (c_profile cfg) && use_wrapper h).
  set (pr6 := if pidns then _ else pr5). assert (H6 : piping pr6 ((([] ++ pipe_own AuditPipe audit_pipe) ++ pipe_own DnsPipe dns_pipe) ++ pipe_own UnotifyPipe unotify_pipe) w5).
  { unfold pr6. destruct pidns; [|done]. apply piping_other; [done|by_eval..]. }
  apply wp_bind. eapply wp_pass_write; [exact H6|by_eval|]. intros [pid_pipe pr7] w7 [H7 C7].
  apply wp_bind. eapply wp_mono; [apply wp_group| |]; cbn.
  2:{ intros e w' [E8 Hc]. exists pr7. eexists. split; [by eapply piping_rest|]. intros. rewrite Hc by done. congruence. }
  intros group w8 [E8 H8]. apply (piping_rest _ _ _ _ E8) in H7.
  apply wp_bind. eapply wp_sync; [exact H7| |].
  { rewrite !length_app. cbn [fst snd length]. pose proof (length_pipe_own AuditPipe audit_pipe).
    pose proof (length_pipe_own DnsPipe dns_pipe). pose proof (length_pipe_own UnotifyPipe unotify_pipe).
    pose proof (length_pipe_own PidPipe pid_pipe). lia. }
  intros [sync pr9] w9 [H9 C9] Hsync.
  apply wp_bind, silent_pre_exec; [|intros; by eapply prepare_audit]. intros w10 E10. apply (piping_res _ _ _ _ E10) in H9.
  apply res_rest in E10 as [_ C10].
  apply wp_bind, silent_policy; [|intros; by eapply prepare_audit]. intros w11 E11. apply (piping_res _ _ _ _ E11) in H9.
  apply res_rest in E11 as [_ C11]. split; [|split; [exact Hsync|]].
  - cbn in *. unfold all_pipes. cbn. by rewrite <- !app_assoc in H9.
  - cbn. replace (w_cg w11) with (w_cg w8) by congruence. by replace (w_cg w) with (w_cg w7) by congruence.
Qed.
End Pipes.
End Spec.

(** ** The child's descriptors *)

Section Child.
Context (k : DupKernel Desc) (Hk : dupfd_law k).

(** From [t] to [t'] nothing below 3 changes and nothing becomes inheritable but the positions of [inh], which hold
    the descriptors of [inh] in order. *)
Record inherited (inh : list Z) (t t' : Table) : Prop := {
  in_at j fd d b : inh !! j = Some fd -> t !! fd = Some (d, b) -> t' !! (3 + Z.of_nat j) = Some (d, false);
  in_only x d : t' !! x = Some (d, false) -> 3 <= x < 3 + len inh \/ t !! x = Some (d, false);
  in_keep x : ~ 3 <= x < 3 + len inh -> x ∉ inh -> t' !! x = t !! x;
}.

Lemma remap_inherited inh t t' : NoDup inh -> Forall (fun fd => is_Some (t !! fd)) inh ->
  (if decide (inh = []) then mret tt else remap_fds k inh) t = (t', Ok tt) -> inherited inh t t'.
Proof.
  intros Hn Ho Hrun. case_decide as E.
  - injection Hrun as <-. subst inh. by split; auto.
  - destruct (remap_fds_run k inh t t' (Ok tt) Hk Hn Ho Hrun) as [[Ht Hc Hf] Hi]. rewrite Z.add_0_r in *. split.
    + intros j fd d b Hj Hfd. eapply Ht; [exact Hj|exact Hfd].
    + intros x d Hx. by destruct (Hi x d Hx); auto.
    + intros x Hx Hnx. by apply Hf.
Qed.

(** The slave after it has been moved: it is above the positions. *)
Record evacuated_slave (c : Z) (inh : list Z) (d : Desc) (t t1 : Table) (s' : Z) : Prop := {
  es_range : 3 <= s' /\ ~ 3 <= s' < c;
  es_other : s' ∉ inh;
  es_desc : exists b, t1 !! s' = Some (d, b);
  es_inh fd : fd ∈ inh -> t1 !! fd = t !! fd;
  es_only x e : t1 !! x = Some (e, false) -> t !! x = Some (e, false);
}.

Lemma evacuate_slave_run s c (inh : list Z) d b t t1 r : 3 <= s -> 3 <= c -> s ∉ inh ->
  (forall fd, fd ∈ inh -> is_Some (t !! fd)) -> t !! s = Some (d, b) ->
  evacuate_slave k (Some s) c t = (t1, Ok r) -> exists s', r = Some s' /\ evacuated_slave c inh d t t1 s'.
Proof.
  intros Hs Hc Hn Ho Hd. unfold evacuate_slave. destruct ((3 <=? s) && (s <? c)) eqn:E.
  - unfold checked_call, mbind, ST_bind, fcntl_dupfd_cloexec. rewrite Hd. destruct (dupfd k t c) as [high|] eqn:Eh; [|done].
    apply Hk in Eh as [Hlow Hnone]. intros [= <- <-]. exists high. split; [done|].
    assert (high <> s) as Hne by (intros ->; congruence).
    assert (Hni : high ∉ inh) by (intros Hin; destruct (Ho _ Hin); congruence). split; [lia|done| | |].
    + exists true. by rewrite lookup_delete_ne, lookup_insert_eq.
    + intros fd Hin. rewrite lookup_delete_ne, lookup_insert_ne; [done|intros ->; done..].
    + intros x e [_ Hx]%lookup_delete_Some. apply lookup_insert_Some in Hx as [[_ ?]|[_ ?]]; [done|done].
  - intros [= <- <-]. exists s. split; [done|]. split; [bsplit; lia|done|by exists b|done|done].
Qed.

Lemma slave_streams_run ctty s' d b t t' : 3 <= s' -> t !! s' = Some (d, b) ->
  slave_streams k ctty (Some s') t = (t', Ok tt) ->
  (forall x, 0 <= x < 3 -> t' !! x = Some (d, false)) /\ (forall x, ~ 0 <= x < 3 -> x <> s' -> t' !! x = t !! x) /\ t' !! s' = None.
Proof.
  intros Hs Hd. unfold slave_streams. destruct ctty; [|done]. cbn [negb].
  assert (Hdup : forall (u : Table) x v, u !! s' = Some (d, v) -> 0 <= x < 3 -> forall (f : Z -> ST Table unit unit) u',
    (checked_call (dup2 k s' x) ≫= f) u = (u', Ok tt) -> f x (<[x := (d, false)]> u) = (u', Ok tt)).
  { intros u x v Hu Hx f u'. unfold checked_call, mbind, ST_bind, dup2. rewrite Hu. by destruct (dup2_fails k u s' x). }
  intros H. eapply Hdup in H; [|exact Hd|lia]. eapply Hdup in H; [|by rewrite lookup_insert_ne by lia|lia].
  eapply Hdup in H; [|by rewrite !lookup_insert_ne by lia|lia].
  rewrite (proj2 (Z.ltb_lt 2 s')) in H by lia. injection H as <-. split_and!.
  - intros x Hx. rewrite lookup_delete_ne by lia.
    assert (x = 0 \/ x = 1 \/ x = 2) as [->|[->| ->]] by lia; rewrite ?lookup_insert_eq, ?lookup_insert_ne by lia;
      rewrite ?lookup_insert_eq, ?lookup_insert_ne, ?lookup_insert_eq by lia; done.
  - intros x Hx Hne. rewrite lookup_delete_ne by done. by rewrite !lookup_insert_ne by lia.
  - apply lookup_delete_eq.
Qed.

(** The descriptors with which the child executes its program. *)
Record child_fds (inh : list Z) (slave : option Z) (t t' : Table) : Prop := {
  cf_at j fd d b : inh !! j = Some fd -> t !! fd = Some (d, b) -> t' !! (3 + Z.of_nat j) = Some (d, false);
  cf_only x d : t' !! x = Some (d, false) -> 0 <= x < 3 + len inh \/ t !! x = Some (d, false);
  cf_streams x : 0 <= x < 3 -> t' !! x = match slave with
    | Some s => match t !! s with Some (d, _) => Some (d, false) | None => None end
    | None => t !! x
    end;
}.

Lemma pre_exec_run ctty slave inh t t' : NoDup inh -> Forall (fun fd => 3 <= fd /\ is_Some (t !! fd)) inh ->
  (forall s, slave = Some s -> 3 <= s /\ (s ∉ inh) /\ is_Some (t !! s)) ->
  pre_exec k ctty slave inh t = (t', Ok tt) -> child_fds inh slave t t'.
Proof.
  intros Hn Ho Hs. assert (Hlen : 0 <= len inh) by apply len_nonneg. rewrite list.Forall_forall in Ho.
  assert (Hlow : forall x, 0 <= x < 3 -> x ∉ inh) by (intros x Hx [? _]%Ho; lia). unfold pre_exec.
  intros (t1 & r & He & H)%ST_bind_ok. apply ST_bind_ok in H as (t2 & [] & Hr & H).
  destruct slave as [s|].
  - destruct (Hs s eq_refl) as (Hs3 & Hsi & [[d b] Hd]). apply (evacuate_slave_run s _ inh d b) in He; [|done|lia|done|by intros fd []%Ho|done].
    destruct He as (s' & -> & [[Hr1 Hr2] Eo [b' Ed] Ei Eonly]).
    apply remap_inherited in Hr as [Rat Ronly Rkeep]; [|done|apply list.Forall_forall; intros fd Hfd; rewrite Ei by done; by apply Ho].
    assert (Hd2 : t2 !! s' = Some (d, b')) by (rewrite Rkeep; done).
    apply (slave_streams_run ctty s' d b' t2 t' Hr1 Hd2) in H as (S1 & S2 & S3). split.
    + intros j fd e v Hj Hfd. assert (j < length inh)%nat by (by eapply lookup_lt_Some).
      rewrite S2 by (unfold len in *; lia). eapply Rat; [exact Hj|]. rewrite Ei by (by eapply list_elem_of_lookup_2). exact Hfd.
    + intros x e Hx. destruct (decide (0 <= x < 3)) as [?|Hx3]; [left; lia|]. destruct (decide (x = s')) as [->|Hne]; [congruence|].
      rewrite S2 in Hx by done. destruct (Ronly x e Hx) as [?|Hx1]; [left; lia|right; by apply Eonly].
    + intros x Hx. by rewrite S1, Hd.
  - injection He as <- <-. injection H as <-.
    apply remap_inherited in Hr as [Rat Ronly Rkeep]; [|done|apply list.Forall_forall; intros fd Hfd; by apply Ho]. split.
    + exact Rat.
    + intros x e Hx. destruct (Ronly x e Hx); [left; lia|by right].
    + intros x Hx. apply Rkeep; [lia|by apply Hlow].
Qed.
End Child.
