(* ===== verification/LaunchSpec.v ===== *)
(** * LaunchSpec: what a launch takes and gives back

    The launcher of [Launch]: the resources that it holds at each point, the
    descriptors and variables that the child starts with, and its control group. *)

From stdpp Require Import gmap.
From S2P Require Import Prelude Text Paths Validate Env Seccomp Helpers Wrapper.
From S2P Require Import Fds Cgroup AuditLog Launch LaunchPrep.

(** ** The start *)

Section Start.
Context {T : Seccomp.Target} (k : DupKernel Desc) (ck : CgKernel) (h : LaunchHost) (cfg : Config).
Context (HL : LaunchLaws k ck h).

(** What the child executes, if it gets that far. *)
Definition executed (c : Command) (pr : Prep) (t : Table) (i : option Image) : Prop :=
  match i with
  | Some im => program im = cmd_program c /\ arguments im = cmd_args c /\ variables im = cmd_env c ++ extra pr /\
      directory im = cmd_dir c /\ exists ctty t',
      pre_exec k ctty (cmd_slave c) (inherit pr)
        (child_streams (cmd_tty c) (cmd_stdin c) (cmd_stdout c) (cmd_stderr c) t) = (t', Ok tt) /\
      descriptors im = after_exec t'
  | None => True
  end.

Lemma wp_spawn c pr w : wp (spawn k h c pr)
  (fun pid w' => exists i, w' = set_kids (<[pid := {| image := i; released := None |}]> (w_kids w)) w /\
     w_kids w !! pid = None /\ 0 < pid < 2 ^ 31 /\ (forall q, ~ owns (w_cg w) pid q) /\ executed c pr (w_fds w) i)
  (fun _ w' => res w' = res w) w.
Proof.
  unfold wp, spawn. destruct (fork_pid h w) as [pid|] eqn:Ef; [|done]. destruct (law_fork _ _ _ HL w pid Ef) as (Hn & Hp & Ho).
  destruct (setup_ok h w); [|done]. cbn [negb]. destruct (reparented h w); [by exists None|].
  destruct (pre_exec _ _ _ _ _) as [t' [[]|e]] eqn:Ep; [|done].
  destruct (exec_ok h w (cmd_program c)); [|done]. eexists (Some _). do 4 (split; [done|]). do 4 (split; [done|]).
  by exists (tty_ok h w), t'.
Qed.

Lemma after_exec_lookup t x d b : after_exec t !! x = Some (d, b) <-> t !! x = Some (d, false) /\ b = false.
Proof. unfold after_exec. rewrite map_lookup_filter_Some. cbn. split; intros [Ht ->]; by rewrite Ht. Qed.

(** *** The group of the child *)

Section Group.
Context (mgr : option CgroupManager) (l : CgroupLimits) (c0 : Cgroups) (group : option bytes).

Abbreviation member := (member ck h cfg mgr l c0 group).

Lemma leave_all c pid : (forall q, ~ owns c pid q) -> leave pid <$> groups c = groups c.
Proof.
  intros Hn. apply map_eq. intros q. rewrite lookup_fmap. destruct (groups c !! q) as [g|] eqn:E; [|done]. cbn. f_equal.
  apply leave_id. intros Hin. apply (Hn q). by exists g.
Qed.

Lemma limited_knobs m st g g' : knobs g' = knobs g -> limited m l st g -> limited m l st g'.
Proof. intros E [H1 H2 H3 H4 H5 H6 H7 H8]. unfold memory_set in *. by split; unfold memory_set; rewrite ?E. Qed.

Lemma member_fresh ps c pid : member ps c -> (forall q, ~ owns c pid q) -> forall q, ~ owns c0 pid q.
Proof.
  intros [_ Hm] Hn q (g & Hg & Hin). apply (Hn q). exists g. split; [|done]. destruct group as [p|].
  - destruct Hm as (m & st & g' & _ & Hnew & _ & _ & _ & Ho & _). rewrite Ho; [done|]. intros ->. congruence.
  - destruct Hm as (_ & _ & Hs). by apply Hs.
Qed.

(** Killing the child and removing the group gives back the groups of before. *)
Lemma member_removed ps c pid w : member ps c -> ps = [] \/ ps = [pid] -> (forall q, ~ owns c0 pid q) -> tidy ck h ->
  w_cg w = kill_pid pid c ->
  groups (w_cg (destroy_group ck mgr group w)) = groups c0 /\ killed (w_cg (destroy_group ck mgr group w)) = pid :: killed c0.
Proof.
  intros [Hk Hm] Hps Hn Ht Hw. destruct group as [p|]; cycle 1.
  { assert (E : destroy_group ck mgr None w = w) by (by destruct mgr). rewrite E, Hw. cbn. destruct Hm as [Hc _].
    rewrite (Hc Ht). split; [by apply leave_all|done]. }
  destruct Hm as (m & st & g & -> & Hnew & Hg & Hp & _ & Ho & _).
  assert (Hg1 : groups (w_cg w) !! p = Some (leave pid g)) by (by rewrite Hw; cbn; rewrite lookup_fmap, Hg).
  assert (Hpr : procs (leave pid g) = []).
  { unfold leave. cbn. rewrite Hp. destruct Hps as [->| ->]; [done|]. cbn. by rewrite Z.eqb_refl. }
  destruct (destroy_group_empty k ck h HL m p _ w Ht Hg1 Hpr) as [_ ->]. rewrite Hw. cbn. split; [|by rewrite Hk].
  apply map_eq. intros q. destruct (decide (q = p)) as [->|Hq]; [by rewrite lookup_delete_eq|].
  rewrite lookup_delete_ne, lookup_fmap, Ho by done. rewrite <- lookup_fmap. by rewrite leave_all.
Qed.

(** Without a child only the group has to go. *)
Lemma member_undone c w : member [] c -> tidy ck h -> w_cg w = c -> w_cg (destroy_group ck mgr group w) = c0.
Proof.
  intros [Hk Hm] Ht Hw. destruct group as [p|]; cycle 1.
  { assert (E : destroy_group ck mgr None w = w) by (by destruct mgr). rewrite E, Hw. by apply Hm. }
  destruct Hm as (m & st & g & -> & Hnew & Hg & Hp & _ & Ho & _). rewrite <- Hw in Hg.
  destruct (destroy_group_empty k ck h HL m p g w Ht Hg Hp) as [_ ->]. rewrite Hw, Hk. destruct c0 as [gs ks]. cbn in *. f_equal.
  apply map_eq. intros q. destruct (decide (q = p)) as [->|Hq]; [by rewrite lookup_delete_eq|]. by rewrite lookup_delete_ne, Ho.
Qed.
End Group.

(** *** The steps after the spawn *)

Lemma close_wr (p : option (Z * Z)) w :
  match p with Some (_, b) => close_fd b w | None => w end = close_fds (option_list (snd <$> p)) w.
Proof. by destruct p as [[]|]. Qed.
Lemma close_rd (p : option (Z * Z)) w :
  match p with Some (a, _) => close_fd a w | None => w end = close_fds (option_list (fst <$> p)) w.
Proof. by destruct p as [[]|]. Qed.

Lemma close_fds_cg c w : w_cg (close_fds c w) = w_cg w.
Proof. by destruct (close_fds_rest c w). Qed.

Section Running.
Context (w0 : World).

Record running (F : list (Z * Desc)) (kids : gmap Z Kid) (w : World) : Prop := {
  ru_fds : leaves w0 F w;
  ru_kids : w_kids w = kids;
  ru_dirs : w_dirs w = w_dirs w0;
}.

Lemma running_close c F kids w : running (c ++ F) kids w -> running F kids (close_fds c.*1 w).
Proof.
  intros [H1 H2 H3]. destruct (close_fds_rest c.*1 w) as (_ & E2 & E3 & _).
  split; [by apply leaves_close_fds|by rewrite E2|by rewrite E3].
Qed.

Lemma running_tag d o F kids w : running (tag d o ++ F) kids w -> running F kids (close_fds (option_list o) w).
Proof. intros H%running_close. by rewrite tag_fst in H. Qed.

Lemma running_pipe p o F kids w : running (pipe_own p o ++ F) kids w -> running F kids (close_fds (pipe_fds o) w).
Proof. intros H%running_close. by rewrite pipe_own_fst in H. Qed.

Lemma running_pty o F kids w : running (pty_own o ++ F) kids w -> running F kids (close_fds (pipe_fds o) w).
Proof. intros H%running_close. by rewrite pty_own_fst in H. Qed.

Lemma running_perm F F' kids w : running F kids w -> F ≡ₚ F' -> running F' kids w.
Proof. intros [H1 H2 H3] Hf. split; [by eapply leaves_perm|done..]. Qed.

Lemma running_rest F kids w w' : rest w' = rest w -> running F kids w -> running F kids w'.
Proof. intros [= E1 E2 E3 E4] [H1 H2 H3]. split; [by eapply leaves_eq|congruence..]. Qed.

Lemma running_res F kids w w' : res w' = res w -> running F kids w -> running F kids w'.
Proof. intros [E _]%res_rest. by apply running_rest. Qed.

Lemma wp_open_pidfd F kids w pid' Q X : running F kids w ->
  (forall fd w', running (tag (PidFd pid') fd ++ F) kids w' -> w_cg w' = w_cg w -> Q fd w') -> wp (open_pidfd h pid') Q X w.
Proof.
  intros Hr HQ. unfold wp, open_pidfd. destruct (pidfd_open h w pid') as [fd|] eqn:E.
  - apply (law_pidfd _ _ _ HL) in E. apply (HQ (Some fd)); [|done]. destruct Hr as [H1 H2 H3]. split; [by apply leaves_open|done..].
  - apply (HQ None); [by eapply running_res; [|exact Hr]|done].
Qed.

Lemma wp_keep_read p o F kids w Q X : running (pipe_own p o ++ F) kids w ->
  (forall fd w', running (tag (PipeRead p) fd ++ F) kids w' -> w_cg w' = w_cg w -> Q fd w') -> wp (keep_read o) Q X w.
Proof.
  intros Hr HQ. unfold keep_read. destruct o as [[a b]|]; [|by apply (HQ None)].
  apply (HQ (Some a)); [|done]. apply (running_tag (PipeWrite p) (Some b)). eapply running_perm; [exact Hr|].
  unfold pipe_own. cbn. solve_Permutation.
Qed.
End Running.

(** Permutations of what is held. *)
Ltac same_list := unfold pipe_own, pty_own, all_pipes; cbn [fmap option_fmap option_map fst snd]; solve_Permutation.

Section Steps.
Context (w0 : World) (mgr : option CgroupManager) (l : CgroupLimits) (q : Prepared) (pty : option (Z * Z)).
Context (std : list (Z * Desc)) (fd0 : option Z) (pid : Z) (Hkid : w_kids w0 !! pid = None) (Hpid : 0 < pid < 2 ^ 31).
Context (Hown : forall p, ~ owns (w_cg w0) pid p).

Abbreviation running := (running w0).

Abbreviation member := (member ck h cfg mgr l (w_cg w0) (p_group q)).

Lemma running_kill_wait F kid w : running F (<[pid := kid]> (w_kids w0)) w -> running F (w_kids w0) (kill_wait pid w).
Proof.
  intros [H1 H2 H3]. split; [by apply (leaves_eq _ _ w)| |done]. cbn. rewrite H2. by apply delete_insert_id.
Qed.

(** The child is gone, and all that was taken for it is given back. *)
Definition undone (F : list (Z * Desc)) (w : World) : Prop :=
  running F (w_kids w0) w /\ groups (w_cg w) = groups (w_cg w0) /\ killed (w_cg w) = pid :: killed (w_cg w0).

Abbreviation F_rest := (tag (PidFd pid) fd0 ++ std).
Definition F_checked : list (Z * Desc) :=
  pipe_own PidPipe (p_pid q) ++ pipe_own DnsPipe (p_dns q) ++ pipe_own UnotifyPipe (p_unotify q) ++ tag PtyMaster (fst <$> pty) ++ F_rest.
Definition F_released : list (Z * Desc) := pipe_own AuditPipe (p_audit q) ++ F_checked.
Definition F_added : list (Z * Desc) := tag (PipeWrite SyncPipe) (snd <$> p_sync q) ++ F_released.

Lemma wp_add_child kid w : running F_added (<[pid := kid]> (w_kids w0)) w -> member [] (w_cg w) ->
  wp (add_child ck mgr pty q pid)
    (fun _ w' => running F_added (<[pid := kid]> (w_kids w0)) w' /\ member [pid] (w_cg w'))
    (fun _ w' => tidy ck h -> undone F_rest w') w.
Proof.
  intros Hr Hm. unfold wp, add_child. pose proof Hm as [Hk Hg]. destruct (p_group q) as [p|] eqn:Eg; cycle 1.
  { by destruct mgr. }
  destruct Hg as (m & st & g & Em & Hnew & Hg & Hp & Hlim & Ho & Hreq). rewrite Em. unfold lift_cg at 1.
  destruct (add_pid_run ck p pid g (w_cg w) Hpid Hg) as [[e ->]|(c & -> & Hkc & Hgc & Hoc)].
  - intros Ht. rewrite close_wr, close_rd. unfold undone.
    assert (Hd : w_cg (kill_wait pid (close_fds (option_list (snd <$> p_sync q)) (set_cg (w_cg w) w))) = kill_pid pid (w_cg w)).
    { cbn. by rewrite close_fds_cg. }
    destruct (member_removed mgr l (w_cg w0) (Some p) [] (w_cg w) pid _ Hm (or_introl eq_refl) Hown Ht Hd) as [G1 G2].
    rewrite Em in G1, G2. unfold close_pipe. rewrite !close_fds_cg. split; [|done].
    apply (running_tag _ PtyMaster), (running_pipe _ UnotifyPipe), (running_pipe _ PidPipe), (running_pipe _ DnsPipe),
      (running_pipe _ AuditPipe). eapply running_rest; [apply (destroy_group_rest ck (Some m) (Some p))|].
    eapply running_kill_wait. apply (running_tag _ (PipeWrite SyncPipe)).
    eapply running_perm; [by eapply running_res; [|exact Hr]|]. unfold F_added, F_released, F_checked. same_list.
  - split; [by eapply running_rest; [|exact Hr]|]. split; [by rewrite <- Hk|]. exists m, st.
    eexists. split; [done|]. split; [done|]. split; [exact Hgc|]. split; [cbn; by rewrite Hp|].
    split; [by eapply limited_knobs; [|exact Hlim]|]. split; [|done]. intros x Hx. cbn. rewrite Hoc, Ho by done.
    by rewrite <- lookup_fmap, leave_all.
Qed.

(** The child after it has got its byte, if it waits for one. *)
Definition let_go (c : Cgroups) (kid : Kid) : Kid :=
  {| image := image kid; released := match p_sync q with Some _ => Some c | None => released kid end |}.

Lemma wp_release kid w X : running F_added (<[pid := kid]> (w_kids w0)) w ->
  wp (release_child q pid) (fun _ w' => running F_released (<[pid := let_go (w_cg w) kid]> (w_kids w0)) w' /\ w_cg w' = w_cg w) X w.
Proof.
  intros Hr. unfold release_child, let_go. unfold F_added in Hr. destruct (p_sync q) as [[a b]|].
  - split; [|done]. apply (running_tag _ (PipeWrite SyncPipe) (Some b)).
    destruct Hr as [H1 H2 H3]. split; [by apply (leaves_eq _ _ w)| |done]. cbn. rewrite H2. by rewrite alter_insert_eq.
  - split; [|done]. by destruct kid.
Qed.

Lemma wp_check kid w : running F_released (<[pid := kid]> (w_kids w0)) w -> member [pid] (w_cg w) ->
  wp (check_wrapper ck h mgr pty q pid)
    (fun _ w' => running F_checked (<[pid := kid]> (w_kids w0)) w' /\ w_cg w' = w_cg w)
    (fun _ w' => tidy ck h -> undone F_rest w') w.
Proof.
  intros Hr Hm. unfold check_wrapper, F_released in *. destruct (p_audit q) as [[a b]|] eqn:Ea; [|by split].
  assert (Hc : running F_checked (<[pid := kid]> (w_kids w0)) (close_fd a (close_fd b w))).
  { apply (running_close _ [(b, PipeWrite AuditPipe); (a, PipeRead AuditPipe)]). eapply running_perm; [exact Hr|].
    unfold pipe_own. cbn. solve_Permutation. }
  unfold wp, mbind, ST_bind, modify, get. destruct (validate_wrapper_audit _); [|by split].
  unfold abandon. intros Ht. rewrite close_rd. unfold undone.
  set (w1 := close_fd a (close_fd b w)) in *. set (w2 := close_fds (option_list (fst <$> pty)) _).
  assert (Hd : w_cg w2 = kill_pid pid (w_cg w)) by (unfold w2, close_pipe; by rewrite !close_fds_cg).
  destruct (member_removed mgr l (w_cg w0) (p_group q) [pid] (w_cg w) pid w2 Hm (or_intror eq_refl) Hown Ht Hd) as [G1 G2].
  split; [|done]. eapply running_rest; [apply destroy_group_rest|]. unfold w2, close_pipe.
  apply (running_tag _ PtyMaster), (running_pipe _ UnotifyPipe), (running_pipe _ DnsPipe), (running_pipe _ PidPipe).
  eapply running_kill_wait, Hc.
Qed.

(** The descriptors after the report has been read. *)
Definition F_reported (r : option Z * option Z) : list (Z * Desc) :=
  pipe_own DnsPipe (p_dns q) ++ pipe_own UnotifyPipe (p_unotify q) ++ tag PtyMaster (fst <$> pty)
  ++ tag (PidFd (default pid r.2)) r.1 ++ std.

Lemma wp_report kids w X : running F_checked kids w ->
  wp (read_report h q fd0) (fun r w' => running (F_reported r) kids w' /\ w_cg w' = w_cg w) X w.
Proof.
  intros Hr. unfold read_report, F_checked in *. destruct (p_pid q) as [[a b]|] eqn:Ep; [|by split].
  assert (Hc : running (F_reported (fd0, None)) kids (close_fd a (close_fd b w))).
  { apply (running_close _ [(b, PipeWrite PidPipe); (a, PipeRead PidPipe)]). eapply running_perm; [exact Hr|].
    unfold pipe_own, F_reported. cbn. solve_Permutation. }
  unfold wp. unfold mbind at 1 2 3, ST_bind at 1 2 3, modify at 1 2, get. destruct (read_four _) as [four|]; [|by split].
  destruct (0 <? i32_le four); [|by split]. apply wp_bind. eapply wp_open_pidfd; [exact Hc|]. intros fd w' Hr' Ec.
  apply wp_bind. unfold wp, modify, mret, ST_ret. rewrite close_fds_cg. split; [|done].
  apply (running_tag _ (PidFd pid)). eapply running_perm; [exact Hr'|]. unfold F_reported. cbn [fst snd default]. same_list.
Qed.
End Steps.

(** What the handle holds besides the proxy. *)
Definition handle_own (p : Handle) : list (Z * Desc) :=
  tag (PipeRead DnsPipe) (dns_audit_pipe p) ++ tag (PipeRead UnotifyPipe) (unotify_audit_pipe p)
  ++ tag (PidFd (default (child p) (target_pid p))) (pidfd p) ++ tag PtyMaster (pty_master p).

(** The outcome of the start, from the world [w0] before anything was taken and [t], the table at the spawn. *)
Record started (w0 : World) (mgr : option CgroupManager) (l : CgroupLimits) (q : Prepared) (std : list (Z * Desc)) (c : Command)
    (t : Table) (p : Handle) (w : World) : Prop := {
  st_new : w_kids w0 !! child p = None /\ 0 < child p < 2 ^ 31 /\ forall q, ~ owns (w_cg w0) (child p) q;
  st_kid : exists i, w_kids w = <[child p := {| image := i; released := (fun _ => w_cg w) <$> p_sync q |}]> (w_kids w0) /\
    executed c (p_prep q) t i;
  st_fds : leaves w0 (handle_own p ++ std) w;
  st_dirs : w_dirs w = w_dirs w0;
  st_group : member ck h cfg mgr l (w_cg w0) (p_group q) [child p] (w_cg w);
  st_path : cgroup_path p = p_group q /\ cgroup_mgr p = mgr;
}.

(** Nothing is left but [std], and only processes of this launch were killed. *)
Record given_back (w0 : World) (std : list (Z * Desc)) (w : World) : Prop := {
  gb_fds : leaves w0 std w;
  gb_kids : w_kids w = w_kids w0;
  gb_dirs : w_dirs w = w_dirs w0;
  gb_groups : groups (w_cg w) = groups (w_cg w0);
  gb_killed x : x ∈ killed (w_cg w) -> x ∈ killed (w_cg w0) \/ w_kids w0 !! x = None;
}.

Lemma wp_on_err {A} clean (m : ST World Error A) Q X w : wp m Q (fun e w' => X e (clean w')) w -> wp (on_err clean m) Q X w.
Proof. unfold wp, on_err. by destruct (m w) as [w' [a|e]]. Qed.

Lemma audit_res e w : res (audit cfg e w).1 = res w.
Proof. unfold audit. destruct (c_sink cfg); [|done]. by destruct (emit _ _ _). Qed.

Lemma spawn_failed_back w0 mgr l q pty std w : running w0 (all_pipes q ++ pty_own pty ++ std) (w_kids w0) w ->
  member ck h cfg mgr l (w_cg w0) (p_group q) [] (w_cg w) -> tidy ck h -> given_back w0 std (spawn_failed ck cfg mgr pty q w).
Proof.
  intros Hr Hm Ht. unfold spawn_failed, close_pipe. set (w1 := (audit _ _ w).1).
  assert (E1 : res w1 = res w) by apply audit_res. apply (running_res _ _ _ _ _ E1) in Hr. apply res_rest in E1 as [_ E1].
  set (w2 := close_fds (pipe_fds pty) _). assert (E2 : w_cg w2 = w_cg w) by (unfold w2; by rewrite !close_fds_cg).
  assert (Hr2 : running w0 std (w_kids w0) w2).
  { apply running_pty, (running_pipe _ SyncPipe), (running_pipe _ PidPipe), (running_pipe _ UnotifyPipe),
      (running_pipe _ DnsPipe), (running_pipe _ AuditPipe). eapply running_perm; [exact Hr|]. same_list. }
  apply (running_rest _ _ _ _ _ (destroy_group_rest ck mgr (p_group q) w2)) in Hr2 as [H1 H2 H3].
  pose proof (member_undone mgr l _ _ _ w2 Hm Ht E2) as E3. split; try done; rewrite E3; [done|by left].
Qed.

Lemma undone_back w0 pid fd0 std w : w_kids w0 !! pid = None -> undone w0 pid (tag (PidFd pid) fd0 ++ std) w ->
  given_back w0 std (close_fds (option_list fd0) w).
Proof.
  intros Hn (Hr & Hg & Hk). apply running_tag in Hr as [H1 H2 H3].
  split; [exact H1|exact H2|exact H3|..]; rewrite close_fds_cg; [done|].
  rewrite Hk. intros x [->|Hx]%elem_of_cons; auto.
Qed.

Lemma wp_modify (f : World -> World) (Q : unit -> World -> Prop) (X : Error -> World -> Prop) w :
  Q tt (f w) -> wp (modify f) Q X w.
Proof. done. Qed.

(** The launcher closes the slave and the child's end of the sync pipe. *)
Lemma running_added w0 q pty std fd0 pid kids w :
  running w0 (tag (PidFd pid) fd0 ++ all_pipes q ++ pty_own pty ++ std) kids w ->
  running w0 (F_added q pty std fd0 pid) kids
    (close_fds (option_list (fst <$> p_sync q)) (close_fds (option_list (snd <$> pty)) w)).
Proof.
  intros Hr. apply (running_tag _ (PipeRead SyncPipe)), (running_tag _ PtySlave). eapply running_perm; [exact Hr|].
  unfold F_added, F_released, F_checked. same_list.
Qed.

(** The fields of the handle that come from the launch. *)
Definition handle_of (tmp : bytes) (proxy : option (bytes * Z * Z)) (p : Handle) : Prop :=
  tmp_dir p = tmp /\ connect_proxy_pid p = (fun x => x.1.2) <$> proxy /\ connect_proxy_pidfd p = snd <$> proxy /\
  connect_proxy_socket p = (fun x => x.1.1) <$> proxy /\ waited p = false /\ audit_ctx p = c_sink cfg.

Lemma wp_start w0 mgr l q pty std c tmp proxy w : running w0 (all_pipes q ++ pty_own pty ++ std) (w_kids w0) w ->
  member ck h cfg mgr l (w_cg w0) (p_group q) [] (w_cg w) ->
  wp (start k ck h cfg mgr tmp proxy pty c q)
    (fun p w' => started w0 mgr l q std c (w_fds w) p w' /\ handle_of tmp proxy p)
    (fun _ w' => tolerant (c_sink cfg) -> tidy ck h -> given_back w0 std w') w.
Proof.
  intros Hr Hm. unfold start. apply wp_bind, wp_on_err. eapply wp_mono; [apply wp_spawn| |]; cbn.
  2:{ intros e w' E _ Ht. eapply spawn_failed_back; [by eapply running_res| |done]. apply res_rest in E as [_ E]. by rewrite E. }
  intros pid w1 (i & -> & Hnew & Hpid & Hown & Hexec). rewrite (ru_kids _ _ _ _ Hr) in *.
  set (kid := {| image := i; released := None |}). set (w1 := set_kids _ _).
  assert (Hown0 := member_fresh _ _ _ _ _ _ _ Hm Hown).
  assert (Hr1 : running w0 (all_pipes q ++ pty_own pty ++ std) (<[pid := kid]> (w_kids w0)) w1).
  { destruct Hr as [H1 H2 H3]. split; [by apply (leaves_eq _ _ w)|done|done]. }
  apply wp_bind. eapply wp_open_pidfd; [exact Hr1|]. intros fd0 w2 Hr2 C2. apply wp_bind.
  apply wp_modify, wp_bind, wp_modify. apply running_added in Hr2. set (w4 := close_fds _ (close_fds _ w2)) in *.
  assert (C4 : w_cg w4 = w_cg w) by (unfold w4; by rewrite !close_fds_cg, C2). rewrite <- C4 in Hm.
  apply wp_bind, wp_on_err, wp_bind. eapply wp_mono; [by eapply wp_add_child| |]; cbn.
  2:{ intros e w' Hu _ Ht. eapply undone_back; [done|by apply Hu]. }
  intros _ w5 [Hr5 Hm5]. apply wp_bind. eapply (wp_mono _ _ _ (fun _ _ => False)); [by eapply wp_release| |done]; cbn.
  intros _ w6 [Hr6 C6]. rewrite <- C6 in Hm5. eapply wp_mono; [by eapply wp_check| |]; cbn.
  2:{ intros e w' Hu _ Ht. eapply undone_back; [done|by apply Hu]. }
  intros _ w7 [Hr7 C7]. rewrite <- C7 in Hm5. apply wp_bind.
  eapply (wp_mono _ _ _ (fun _ _ => False)); [by eapply wp_report| |done]. intros [fd target] w8 [Hr8 C8].
  rewrite <- C8 in Hm5. apply wp_bind. eapply wp_keep_read with (p := DnsPipe); [exact Hr8|].
  intros dns w9 Hr9 C9. rewrite <- C9 in Hm5. apply wp_bind.
  eapply wp_keep_read with (p := UnotifyPipe); [eapply running_perm; [exact Hr9|apply Permutation_app_swap_app]|].
  intros unotify w10 Hr10 C10. rewrite <- C10 in Hm5. apply wp_bind, wp_on_err, silent_audit; [|done].
  intros w11 E11. apply (running_res _ _ _ _ _ E11) in Hr10 as [R1 R2 R3]. apply res_rest in E11 as [_ C11]. rewrite <- C11 in Hm5.
  split; [|done]. split; cbn; try done.
  - exists i. split; [|exact Hexec]. rewrite R2, C11, C10, C9, C8, C7, C6. unfold let_go. cbn. by destruct (p_sync q).
  - eapply leaves_perm; [exact R1|]. unfold handle_own. cbn. same_list.
Qed.

(** ** The child's image *)

Lemma eq_comm {A} (x y : A) : x = y <-> y = x.
Proof. by split. Qed.

(** What the child starts with: every variable that names a descriptor names the right one; the caller's descriptors
    are at 3, 4, ...; beyond the standard streams there are only these, the ends of the launcher's pipes that are
    meant for the child, and what the launcher itself was given as inheritable. *)
Record image_ok (w0 : World) (tmp : bytes) (socket : option bytes) (netns : bool) (im : Image) : Prop := {
  im_vars n v d : (bs n, v) ∈ variables im -> (n, d) ∈ FD_VARS -> exists j, v = dec j /\ descriptors im !! j = Some (d, false);
  im_extra j fd d b : c_extra_fds cfg !! j = Some fd -> w_fds w0 !! fd = Some (d, b) ->
    descriptors im !! (3 + Z.of_nat j) = Some (d, false);
  im_only x d b : descriptors im !! x = Some (d, b) -> b = false /\
    (0 <= x < 3 + len (c_extra_fds cfg) \/ d ∈ FD_VARS.*2 \/ w_fds w0 !! x = Some (d, false));
  im_env : use_wrapper h = true -> exists env extra, variables im = env ++ extra /\
    launch_env (c_profile cfg) tmp socket netns (c_env cfg) = Ok env /\ forall kv, kv ∈ extra -> kv.1 ∉ map bs config_names;
  im_tty x : c_tty cfg = true -> 0 <= x < 3 -> descriptors im !! x = Some (PtySlave, false);
  im_streams i fd d b : c_tty cfg = false ->
    [cfg_stdin (c_stdio cfg); cfg_stdout (c_stdio cfg); cfg_stderr (c_stdio cfg)] !! i = Some (Some fd) ->
    w_fds w0 !! fd = Some (d, b) -> descriptors im !! Z.of_nat i = Some (d, false);
}.

(** The duplicate of a stream's source. *)
Definition stream_src (w0 : World) (src : option Z) (own : list (Z * Desc)) (dup : option Z) : Prop :=
  forall fd d b, src = Some fd -> w_fds w0 !! fd = Some (d, b) -> exists hi, dup = Some hi /\ (hi, d) ∈ own.

Lemma stream_src_mono w0 src own own' dup : own ⊆ own' -> stream_src w0 src own dup -> stream_src w0 src own' dup.
Proof. intros Hs H fd d b E Hfd. destruct (H fd d b E Hfd) as (hi & -> & Hhi). exists hi. split; [done|by apply Hs]. Qed.

Section Image.
Context (w0 : World) (l0 : list (Z * Desc)) (q : Prepared) (w : World) (c : Command) (pty : option (Z * Z)).
Context (tmp : bytes) (socket : option bytes) (netns : bool).
Context (Hpi : piping cfg w0 l0 (p_prep q) (all_pipes q) w).
Context (Hstd : forall x, 0 <= x < 3 -> is_Some (w_fds w0 !! x)).
Context (Hopen : forall fd, fd ∈ c_extra_fds cfg -> is_Some (w_fds w0 !! fd)).
Context (Hval : validate_extra_fds (c_extra_fds cfg) (c_stdio cfg) = Ok tt).

Abbreviation own := (all_pipes q ++ l0).

Lemma own_new fd d : (fd, d) ∈ own -> ~ 0 <= fd < 3 /\ w_fds w0 !! fd = None.
Proof.
  intros Hd. destruct (leaves_in _ _ _ _ _ (pi_leaves _ _ _ _ _ _ Hpi) Hd) as [_ Hn]. split; [|done].
  intros Hx%Hstd. rewrite Hn in Hx. by destruct Hx.
Qed.

Lemma table_old fd : is_Some (w_fds w0 !! fd) -> w_fds w !! fd = w_fds w0 !! fd.
Proof.
  intros [v Hs]. destruct (pi_leaves _ _ _ _ _ _ Hpi) as [[H1 H2] _]. rewrite H1.
  destruct (list_to_map own !! fd) eqn:E; [|done]. apply H2 in E. congruence.
Qed.

Lemma table_own fd d : (fd, d) ∈ own -> w_fds w !! fd = Some (d, true).
Proof. intros Hd. by apply (leaves_in _ _ _ _ _ (pi_leaves _ _ _ _ _ _ Hpi)). Qed.

Lemma own_end fd d : (fd, d) ∈ all_pipes q -> (fd, d) ∈ own.
Proof. intros Hd. apply elem_of_app. by left. Qed.
Lemma own_base fd d : (fd, d) ∈ l0 -> (fd, d) ∈ own.
Proof. intros Hd. apply elem_of_app. by right. Qed.

Lemma streams_above tty stdin stdout stderr (t : Table) x : ~ 0 <= x < 3 -> child_streams tty stdin stdout stderr t !! x = t !! x.
Proof.
  intros Hx. unfold child_streams, redirect. destruct tty; [by rewrite !lookup_insert_ne by lia|].
  repeat case_match; rewrite ?lookup_insert_ne by lia; done.
Qed.

(** The list of descriptors that [remap_fds] gets. *)
Lemma inherit_ok tty stdin stdout stderr : let t := child_streams tty stdin stdout stderr (w_fds w) in
  NoDup (inherit (p_prep q)) /\ Forall (fun fd => 3 <= fd /\ is_Some (t !! fd)) (inherit (p_prep q)).
Proof.
  intros t. apply validate_extra_fds_ok in Hval as [Hnd Hge]. destruct (pi_ends _ _ _ _ _ _ Hpi) as (ends & [Hi Hn _ _ _] & He).
  rewrite Hi. split.
  - apply list.NoDup_app. split_and!; [done| |done]. intros fd Hin (e & -> & Hin')%list_elem_of_fmap.
    apply Hopen in Hin. destruct (He e Hin') as [He1 _]. destruct (own_new _ _ (own_end _ _ He1)) as [_ Hnone].
    rewrite Hnone in Hin. by destruct Hin.
  - rewrite list.Forall_forall in *. intros fd [Hin|(e & -> & Hin)%list_elem_of_fmap]%elem_of_app.
    + pose proof (Hge fd Hin) as H3. unfold base in H3. split; [done|]. unfold t. rewrite streams_above by lia.
      rewrite table_old by (by apply Hopen). by apply Hopen.
    + destruct (He e Hin) as [He1 He2]. destruct (own_new _ _ (own_end _ _ He1)) as [H3 _]. split; [lia|].
      unfold t. rewrite streams_above by lia. rewrite (table_own _ _ (own_end _ _ He1)). by eexists.
Qed.

(** The command agrees with the configuration. *)
Record command_ok : Prop := {
  co_tty : cmd_tty c = c_tty cfg;
  co_pty : if c_tty cfg then exists m s, pty = Some (m, s) /\ (s, PtySlave) ∈ l0 /\ 0 <= s else pty = None;
  co_slave : cmd_slave c = snd <$> pty;
  co_env : env_ok h cfg tmp socket netns (cmd_env c);
  co_stdin : stream_src w0 (cfg_stdin (c_stdio cfg)) l0 (cmd_stdin c);
  co_stdout : stream_src w0 (cfg_stdout (c_stdio cfg)) l0 (cmd_stdout c);
  co_stderr : stream_src w0 (cfg_stderr (c_stdio cfg)) l0 (cmd_stderr c);
}.
Context (Hc : command_ok).

Abbreviation t := (child_streams (cmd_tty c) (cmd_stdin c) (cmd_stdout c) (cmd_stderr c) (w_fds w)).

Lemma slave_ok s : cmd_slave c = Some s -> 3 <= s /\ (s ∉ inherit (p_prep q)) /\ t !! s = Some (PtySlave, true).
Proof.
  rewrite (co_slave Hc). pose proof (co_pty Hc) as Hp. destruct (c_tty cfg); [|by rewrite Hp].
  destruct Hp as (m & s1 & -> & Hs1%own_base & Hpos). intros [= <-].
  destruct (own_new _ _ Hs1) as [H3 Hnone]. split; [lia|]. split.
  - destruct (pi_ends _ _ _ _ _ _ Hpi) as (ends & [Hi _ Hv _ _] & He). rewrite Hi.
    intros [Hin|(e & -> & Hin)%list_elem_of_fmap]%elem_of_app.
    + apply Hopen in Hin. rewrite Hnone in Hin. by destruct Hin.
    + destruct (He e Hin) as [He1%own_end%table_own _]. rewrite (table_own _ _ Hs1) in He1. injection He1 as Hs. apply Hv in Hin.
      rewrite <- Hs in Hin.
      assert (HF : Forall (fun x => x.2 <> PtySlave) FD_VARS) by by_eval. rewrite list.Forall_forall in HF. by apply (HF _ Hin).
  - rewrite streams_above by lia. by apply table_own.
Qed.

Lemma child_run ctty t' : pre_exec k ctty (cmd_slave c) (inherit (p_prep q)) t = (t', Ok tt) ->
  child_fds (inherit (p_prep q)) (cmd_slave c) t t'.
Proof.
  destruct (inherit_ok (cmd_tty c) (cmd_stdin c) (cmd_stdout c) (cmd_stderr c)) as [Hn Ho].
  apply pre_exec_run; [apply HL|done|done|]. intros s (H1 & H2 & H3)%slave_ok. by rewrite H3.
Qed.

Lemma stream_lookup i fd d b : c_tty cfg = false ->
  [cfg_stdin (c_stdio cfg); cfg_stdout (c_stdio cfg); cfg_stderr (c_stdio cfg)] !! i = Some (Some fd) ->
  w_fds w0 !! fd = Some (d, b) -> t !! Z.of_nat i = Some (d, false) /\ (i < 3)%nat.
Proof.
  intros Ht Hi Hfd. rewrite (co_tty Hc), Ht. unfold child_streams.
  assert (Hsrc : forall src dup, stream_src w0 src l0 dup -> src = Some fd ->
    exists hi, dup = Some hi /\ w_fds w !! hi = Some (d, true)).
  { intros src dup Hs E. destruct (Hs fd d b E Hfd) as (hi & -> & Hhi). exists hi. split; [done|]. by apply table_own, own_base. }
  assert (Hred : forall u x y src, x <> y -> redirect (w_fds w) x src u !! y = u !! y).
  { intros u x y src Hxy. unfold redirect. repeat case_match; by rewrite ?lookup_insert_ne. }
  assert (Hhit : forall u x hi, w_fds w !! hi = Some (d, true) -> redirect (w_fds w) x (Some hi) u !! x = Some (d, false)).
  { intros u x hi Hhi. unfold redirect. cbn. rewrite Hhi. apply lookup_insert_eq. }
  destruct i as [|[|[|i]]]; [..|done]; cbn in Hi; injection Hi as Hi.
  - destruct (Hsrc _ _ (co_stdin Hc) Hi) as (hi & -> & Hhi). rewrite !Hred by lia. split; [by apply Hhit|lia].
  - destruct (Hsrc _ _ (co_stdout Hc) Hi) as (hi & -> & Hhi). rewrite Hred by lia. split; [by apply Hhit|lia].
  - destruct (Hsrc _ _ (co_stderr Hc) Hi) as (hi & -> & Hhi). split; [by apply Hhit|lia].
Qed.

Lemma fd_vars_fun n n' d d' : (n, d) ∈ FD_VARS -> (n', d') ∈ FD_VARS -> bs n = bs n' -> d = d'.
Proof.
  assert (HF : Forall (fun x => Forall (fun y => bs x.1 = bs y.1 -> x.2 = y.2) FD_VARS) FD_VARS) by by_eval.
  intros H1 H2 E. rewrite list.Forall_forall in HF. specialize (HF _ H1). rewrite list.Forall_forall in HF.
  by apply (HF _ H2).
Qed.

(** An end of a pipe in the child. *)
Lemma end_lookup ctty t' ends i e : pre_exec k ctty (cmd_slave c) (inherit (p_prep q)) t = (t', Ok tt) ->
  ends_ok cfg (p_prep q) ends -> (forall e, e ∈ ends -> (e.1.2, e.2) ∈ all_pipes q /\ 0 <= e.1.2) -> ends !! i = Some e ->
  t' !! (3 + len (c_extra_fds cfg) + Z.of_nat i) = Some (e.2, false).
Proof.
  intros Hrun%child_run [Hi _ _ _ _] He Hlook. destruct (He e) as [He1 He2]; [by eapply list_elem_of_lookup_2|].
  unfold len. rewrite <- Z.add_assoc, <- Nat2Z.inj_add. eapply (cf_at _ _ _ _ Hrun _ e.1.2 _ true).
  - rewrite Hi, lookup_app_r by lia. rewrite Nat.add_comm, Nat.add_sub. by rewrite list_lookup_fmap, Hlook.
  - apply own_end in He1. destruct (own_new _ _ He1) as [H3 _]. rewrite streams_above by lia. by apply table_own.
Qed.

Lemma executed_ok im : executed c (p_prep q) (w_fds w) (Some im) -> image_ok w0 tmp socket netns im.
Proof.
  intros (_ & _ & Hvars & _ & ctty & t' & Hrun & Hd). pose proof Hrun as Hcf. apply child_run in Hcf.
  destruct (pi_ends _ _ _ _ _ _ Hpi) as (ends & Hok & He). pose proof Hok as [Hi _ Hv Hx Hcfg].
  destruct (co_env Hc) as [Henv Hnames].
  assert (Hat : forall x d, t' !! x = Some (d, false) -> descriptors im !! x = Some (d, false)).
  { intros x d H. rewrite Hd. by apply after_exec_lookup. }
  split.
  - intros n v d Hin Hfd. rewrite Hvars in Hin. assert (Hn : bs n ∈ FD_NAMES) by (by apply (list_elem_of_fmap_2 (fun x => bs x.1) _ (n, d))).
    apply elem_of_app in Hin as [Hin|Hin]; [by apply Hnames in Hin|]. destruct (Hx _ Hin Hn) as (i & e & Hlook & [= E ->]).
    exists (3 + len (c_extra_fds cfg) + Z.of_nat i). split; [done|]. apply Hat.
    rewrite (fd_vars_fun n e.1.1 d e.2 Hfd); [by eapply end_lookup|apply Hv; by eapply list_elem_of_lookup_2|done].
  - intros j fd d b Hj Hfd. apply Hat. eapply (cf_at _ _ _ _ Hcf); [rewrite Hi; by apply lookup_app_l_Some|].
    apply validate_extra_fds_ok in Hval as [_ Hge]. rewrite list.Forall_forall in Hge.
    pose proof (Hge fd ltac:(by eapply list_elem_of_lookup_2)) as H3. unfold base in H3. rewrite streams_above by lia.
    rewrite table_old by (by rewrite Hfd). exact Hfd.
  - intros x d b Hlook. rewrite Hd in Hlook. apply after_exec_lookup in Hlook as [Hlook ->]. split; [done|].
    destruct (cf_only _ _ _ _ Hcf x d Hlook) as [Hr|Hr].
    + destruct (decide (x < 3 + len (c_extra_fds cfg))) as [?|Hge]; [left; lia|right; left].
      rewrite Hi, len_app in Hr. set (i := Z.to_nat (x - 3 - len (c_extra_fds cfg))).
      destruct (lookup_lt_is_Some_2 ends i) as [e Hlook_e]; [unfold len in *; rewrite length_map in Hr; lia|].
      pose proof (end_lookup ctty t' ends i e Hrun Hok He Hlook_e) as Hx'.
      replace (3 + len (c_extra_fds cfg) + Z.of_nat i) with x in Hx' by lia. rewrite Hx' in Hlook. injection Hlook as <-.
      apply (list_elem_of_fmap_2 snd _ (e.1.1, e.2)), Hv. by eapply list_elem_of_lookup_2.
    + destruct (decide (0 <= x < 3)) as [?|Hge]; [left; pose proof (len_nonneg (c_extra_fds cfg)); lia|right; right].
      rewrite streams_above in Hr by lia. destruct (pi_leaves _ _ _ _ _ _ Hpi) as [[H1 _] _]. rewrite H1 in Hr.
      by destruct (list_to_map own !! x).
  - intros Hu. exists (cmd_env c), (extra (p_prep q)). split; [done|]. split; [by apply Henv|done].
  - intros x Htty Hx3. apply Hat. rewrite (cf_streams _ _ _ _ Hcf) by done. pose proof (co_pty Hc) as Hp. rewrite Htty in Hp.
    destruct Hp as (m & s & Ep & _). assert (Hs : cmd_slave c = Some s) by (by rewrite (co_slave Hc), Ep).
    destruct (slave_ok s Hs) as (_ & _ & Hlook). by rewrite Hs, Hlook.
  - intros i fd d b Htty Hlook Hfd. destruct (stream_lookup i fd d b Htty Hlook Hfd) as [Ht H3]. apply Hat.
    rewrite (cf_streams _ _ _ _ Hcf) by lia. pose proof (co_pty Hc) as Hp. rewrite Htty in Hp.
    by rewrite (co_slave Hc), Hp.
Qed.
End Image.

(** ** The sandbox *)

Section Sandbox.
Context (w0 : World) (Hguard : w_guard w0 = []) (mgr : option CgroupManager) (tmp : bytes) (proxy : option (bytes * Z * Z)).
Context (cmd : bytes) (args : list bytes).

Abbreviation socket := (socket_of cfg proxy).
Abbreviation netns := (netns_of cfg proxy).

(** The caller's descriptors are open, and so are the standard streams. *)
Definition streams_open : Prop :=
  (forall x, 0 <= x < 3 -> is_Some (w_fds w0 !! x)) /\ forall fd, fd ∈ c_extra_fds cfg -> is_Some (w_fds w0 !! fd).

(** The child waits: it was let go on when the control groups were as they are in [w], and it has the variable that
    names the pipe on which it waits; unless there is no group or no pipe could be made. *)
Definition held_back (s : World) (kids : gmap Z Kid) (n : nat) (p : Handle) (kid : Kid) (w : World) : Prop :=
  match released kid with
  | Some c => is_Some (cgroup_path p) /\ c = w_cg w /\
      forall im, image kid = Some im -> bs "ARAPUCA_CGROUP_SYNC_FD" ∈ (variables im).*1
  | None => cgroup_path p = None \/ no_pipe h s kids n
  end.

(** A started sandbox: the resources of its handle and [std] are taken, and nothing else. *)
Record sandboxed (std : list (Z * Desc)) (p : Handle) (w : World) : Prop := {
  sb_new : w_kids w0 !! child p = None /\ 0 < child p < 2 ^ 31 /\ forall q, ~ owns (w_cg w0) (child p) q;
  sb_kid : exists kid, w_kids w = <[child p := kid]> (w_kids w0) /\
    held_back w0 (w_kids w0) 13 p kid w /\
    forall im, image kid = Some im -> runs_command h cfg netns cmd args (program im :: arguments im) /\
      directory im = c_work_dir cfg /\ (streams_open -> image_ok w0 tmp socket netns im);
  sb_fds : leaves w0 (handle_own p ++ std) w;
  sb_dirs : w_dirs w = w_dirs w0;
  sb_group : member ck h cfg mgr (limits_of cfg netns) (w_cg w0) (cgroup_path p) [child p] (w_cg w);
  sb_mgr : cgroup_mgr p = mgr;
  sb_handle : handle_of tmp proxy p;
}.

Definition failed (std : list (Z * Desc)) (w : World) : Prop :=
  tolerant (c_sink cfg) -> tidy ck h -> c_tty cfg = false -> given_back w0 std w.

Lemma sandboxed_close fd d std p w : sandboxed ((fd, d) :: std) p w -> sandboxed std p (close_fd fd w).
Proof.
  intros [H1 H2 H3 H4 H5 H6 H7]. split; try done. eapply leaves_close, leaves_perm; [exact H3|].
  symmetry. apply Permutation_middle.
Qed.

Lemma failed_close fd d std w : failed ((fd, d) :: std) w -> failed std (close_fd fd w).
Proof.
  intros H Hs Ht Hn. destruct (H Hs Ht Hn) as [H1 H2 H3 H4 H5]. split; try done. by eapply leaves_close.
Qed.

(** The world while the streams are set up. *)
Record staged (pty : option (Z * Z)) (std : list (Z * Desc)) (w : World) : Prop := {
  sg_leaves : leaves w0 (pty_own pty ++ std) w;
  sg_guard : w_guard w = [];
  sg_rest : w_kids w = w_kids w0 /\ w_dirs w = w_dirs w0 /\ w_cg w = w_cg w0;
}.

Lemma staged_failed std w : staged None std w -> failed std w.
Proof. intros [H _ (E1 & E2 & E3)] _ _ _. split; try done; rewrite E3; [done|by left]. Qed.

Lemma wp_stdio pty std w src (f : option Z -> ST World Error Handle) :
  staged pty std w -> (c_tty cfg = true -> src = None) -> (c_tty cfg = false -> pty = None) ->
  (forall dup own w1, staged pty (own ++ std) w1 -> (length own <= 1)%nat -> stream_src w0 src (own ++ std) dup ->
    wp (f dup) (sandboxed (own ++ std)) (fun _ => failed (own ++ std)) w1) ->
  wp (with_stdio k (c_tty cfg) src f) (sandboxed std) (fun _ => failed std) w.
Proof.
  intros Hs Hsrc Hpty Hf. unfold with_stdio. destruct (c_tty cfg) eqn:Et.
  { apply (Hf None [] w); [done|cbn; lia|]. intros fd d b E. by rewrite Hsrc in E. }
  destruct src as [fd|]; [|by apply (Hf None [] w); [|cbn; lia|]]. unfold wp, fcntl_dupfd_cloexec.
  assert (Hfail : failed std (set_fds (w_fds w) w)).
  { eapply staged_failed. rewrite <- (Hpty eq_refl). destruct Hs as [H1 H2 H3]. split; [by apply (leaves_eq _ _ w)|done..]. }
  destruct (w_fds w !! fd) as [[d b]|] eqn:Efd; [|done]. destruct (dupfd k (w_fds w) 0) as [hi|] eqn:Ed; [|done].
  apply (law_dupfd _ _ _ HL) in Ed as [Hpos Hnone]. set (w1 := set_fds _ w). unfold finally.
  destruct Hs as [H1 H2 H3]. assert (Hs1 : staged pty ([(hi, d)] ++ std) w1).
  { split; [|done|done]. eapply leaves_perm; [by apply leaves_open|]. cbn. apply Permutation_middle. }
  specialize (Hf (Some hi) _ w1 Hs1 ltac:(cbn; lia)). unfold wp in Hf.
  destruct (f (Some hi) w1) as [w2 [p|e]]; [eapply sandboxed_close|eapply failed_close]; apply Hf;
    intros fd' d' b' [= <-] Hfd'; exists hi; (split; [done|]); replace d' with d; try apply list_elem_of_here;
    destruct H1 as [[Hh Hn] _]; rewrite Hh in Efd; destruct (list_to_map _ !! fd) eqn:Eo; try congruence;
    apply Hn in Eo; congruence.
Qed.

(** The terminal, if one is wanted. *)
Definition pty_ok (pty : option (Z * Z)) : Prop := if c_tty cfg then exists m s, pty = Some (m, s) /\ 0 <= s else pty = None.

Lemma wp_pty w Q : res w = res w0 ->
  (forall pty w', staged pty [] w' -> pty_ok pty ->
     (c_tty cfg = true -> c_stdio cfg = {| cfg_stdin := None; cfg_stdout := None; cfg_stderr := None |}) -> Q pty w') ->
  wp (open_pty h cfg) Q (fun _ => failed []) w.
Proof.
  intros Hres HQ. assert (Hs0 : forall w', res w' = res w -> staged None [] w').
  { intros w' E. rewrite Hres in E. injection E as E1 E2 E3 E4 E5. split; [by apply leaves_refl|congruence|done]. }
  unfold open_pty, pty_ok in *. destruct (c_tty cfg) eqn:Et; [|by apply (HQ None w); [apply Hs0|..]].
  destruct (existsb _ _) eqn:Ex; [by apply staged_failed, Hs0|]. unfold wp.
  destruct (openpty h w) as [[m s]|] eqn:Eo; [|by apply staged_failed, Hs0].
  apply (law_openpty _ _ _ HL) in Eo as (Hm & Hs & Hne & Nm & Ns). destruct (Hs0 w eq_refl) as [H1 H2 H3].
  apply HQ.
  - split; [|done|done]. apply (leaves_perm _ [(s, PtySlave); (m, PtyMaster)]); [|cbn; solve_Permutation].
    pose proof (leaves_open _ _ _ m PtyMaster H1 Nm) as H4.
    eapply leaves_eq, (leaves_open _ _ _ s PtySlave H4); [done|]. cbn. by rewrite lookup_insert_ne.
  - by exists m, s.
  - intros _. cbn in Ex. destruct (c_stdio cfg) as [[] [] []]; try done.
Qed.

Lemma prepare_back pty std w w' : staged pty std w -> (c_tty cfg = false -> pty = None) ->
  prepare_failed ck h cfg w0 (pty_own pty ++ std) (w_cg w) w' -> failed std (close_guard w').
Proof.
  intros Hs Hp (pr & g & [H1 H2 H3 [H4 H5]] & Hc) Htol Ht Htty. rewrite (Hp Htty) in *. specialize (Hc Htol Ht).
  destruct Hs as [_ _ (_ & _ & C)]. unfold close_guard. rewrite H2. destruct (close_fds_rest g.*1 w') as (E1 & E2 & E3 & _).
  split; cbn; rewrite ?E1, ?E2, ?E3, ?Hc, ?C; try done; [|by left].
  apply (leaves_eq _ _ (close_fds g.*1 w')); [done|]. by apply leaves_close_fds.
Qed.

Lemma wp_inner pty std w env prog argv stdin stdout stderr : staged pty std w -> (length std <= 3)%nat -> pty_ok pty ->
  env_ok h cfg tmp socket netns env -> validate_extra_fds (c_extra_fds cfg) (c_stdio cfg) = Ok tt ->
  runs_command h cfg netns cmd args (prog :: argv) -> stream_src w0 (cfg_stdin (c_stdio cfg)) std stdin ->
  stream_src w0 (cfg_stdout (c_stdio cfg)) std stdout -> stream_src w0 (cfg_stderr (c_stdio cfg)) std stderr ->
  wp (q ← on_err close_guard (prepare ck h cfg mgr netns socket);
      _ ← modify (set_guard []);
      start k ck h cfg mgr tmp proxy pty
        {| cmd_program := prog; cmd_args := argv; cmd_env := env; cmd_dir := c_work_dir cfg; cmd_tty := c_tty cfg;
           cmd_slave := snd <$> pty; cmd_stdin := stdin; cmd_stdout := stdout; cmd_stderr := stderr |} q)
    (sandboxed std) (fun _ => failed std) w.
Proof.
  intros Hs Hstd3 Hp Henv Hval Hrun Hin Hout Herr. apply wp_bind, wp_on_err.
  assert (Hnone : c_tty cfg = false -> pty = None) by (unfold pty_ok in Hp; by destruct (c_tty cfg)).
  pose proof Hs as [H1 H2 (H4 & H5 & H6)].
  eapply wp_mono; [by apply (wp_prepare k ck h cfg HL w0 (pty_own pty ++ std))| |]; cbn beta.
  2:{ intros e w'. by eapply prepare_back. }
  intros q w1 (Hpi & Hsync & Hm). apply wp_bind, wp_modify. rewrite H6 in Hm.
  assert (Hr : running w0 (all_pipes q ++ pty_own pty ++ std) (w_kids w0) (set_guard [] w1)).
  { destruct Hpi as [P1 P2 P3 [P4 P5]]. by split; [apply (leaves_eq _ _ w1)|..]. }
  eapply wp_mono; [by apply (wp_start w0 mgr (limits_of cfg netns) _ _ std)| |]; cbn beta.
  2:{ intros e w' Hb Htol Ht _. by apply Hb. }
  intros p w2 [[Snew (i & Skid & Sx) Sfds Sdirs Sgroup [Spath Smgr]] Hh]. split; try done; [|by rewrite Spath].
  eexists. split; [exact Skid|]. split.
  - unfold held_back. cbn. rewrite Spath. unfold sync_made in Hsync. destruct (p_sync q).
    2:{ destruct Hsync as [?|(v & own & V1 & V2 & V3 & V4)]; [by left|right]. exists v, own. split_and!; try done.
        rewrite length_app in V4. assert (length (pty_own pty) <= 2)%nat by (destruct pty; cbn; lia). lia. }
    cbn.
    destruct Hsync as [Hg Hv]. split; [done|]. split; [done|]. intros im ->. destruct Sx as (_ & _ & -> & _).
    rewrite fmap_app. apply elem_of_app. by right.
  - cbn. intros im ->. split; [|split].
    + by destruct Sx as (-> & -> & _).
    + by destruct Sx as (_ & _ & _ & -> & _).
    + intros [Hstd Hopen]. eapply (executed_ok w0 _ q w1 _ pty); try done. split; cbn; try done.
      * unfold pty_ok in Hp. destruct (c_tty cfg); [|done]. destruct Hp as (m & s & -> & Hpos). exists m, s. split; [done|].
        split; [apply list_elem_of_further, list_elem_of_here|done].
      * eapply stream_src_mono; [|exact Hin]. set_solver.
      * eapply stream_src_mono; [|exact Hout]. set_solver.
      * eapply stream_src_mono; [|exact Herr]. set_solver.
Qed.

Lemma wp_sandbox : wp (launch_sandbox k ck h cfg mgr tmp proxy cmd args) (sandboxed []) (fun _ => failed []) w0.
Proof.
  assert (Hback : forall w, res w = res w0 -> failed [] w).
  { intros w [= E1 E2 E3 E4 E5] _ _ _. split; try done; [by apply leaves_refl|congruence|rewrite E2; by left]. }
  unfold launch_sandbox. apply wp_bind. eapply quiet_use; [apply quiet_command| |by auto]. intros [prog argv] w1 E1 Hrun.
  apply wp_bind. eapply quiet_use; [apply quiet_environment| |intros e w' E; apply Hback; congruence]. intros env w2 E2 Henv.
  apply wp_bind. eapply (quiet_use _ (fun _ => validate_extra_fds (c_extra_fds cfg) (c_stdio cfg) = Ok tt));
    [apply quiet_lift; by intros []| |intros e w' E; apply Hback; congruence]. intros _ w3 E3 Hval.
  apply wp_bind, wp_pty; [congruence|]. intros pty w4 Hs Hp Hstd.
  assert (Hnone : c_tty cfg = false -> pty = None) by (unfold pty_ok in Hp; by destruct (c_tty cfg)).
  eapply wp_stdio; [exact Hs|intros Ht; by rewrite (Hstd Ht)|done|]. intros stdin own1 w5 Hs1 N1 S1.
  eapply wp_stdio; [exact Hs1|intros Ht; by rewrite (Hstd Ht)|done|]. intros stdout own2 w6 Hs2 N2 S2.
  eapply wp_stdio; [exact Hs2|intros Ht; by rewrite (Hstd Ht)|done|]. intros stderr own3 w7 Hs3 N3 S3.
  eapply wp_inner; try done.
  - rewrite !length_app. cbn [length]. lia.
  - eapply stream_src_mono; [|exact S1]. set_solver.
  - eapply stream_src_mono; [|exact S2]. set_solver.
Qed.
End Sandbox.

(** ** The whole launch *)

(** The network namespace is implied by a list of allowed hosts. *)
Definition netns_eff : bool := use_netns (c_profile cfg) || negb (bool_decide (c_allowed_hosts cfg = [])).
Definition socket_eff (p : Handle) : option bytes :=
  match connect_proxy_socket p with Some s => Some s | None => c_proxy_socket cfg end.

(** The children besides the sandbox. *)
Definition with_proxy (p : Handle) (kids : gmap Z Kid) : gmap Z Kid :=
  match connect_proxy_pid p with Some pid => <[pid := {| image := None; released := None |}]> kids | None => kids end.
Definition proxy_dir (p : Handle) : gset bytes :=
  match connect_proxy_socket p ≫= parent with Some dir => {[ dir ]} | None => ∅ end.

Definition handle_res (p : Handle) : list (Z * Desc) :=
  handle_own p ++ tag (PidFd (default 0 (connect_proxy_pid p))) (connect_proxy_pidfd p).

Lemma handle_res_fds p : (handle_res p).*1 ≡ₚ handle_fds p.
Proof. unfold handle_res, handle_own, handle_fds. rewrite !fmap_app, !tag_fst. solve_Permutation. Qed.

Record launched (w : World) (mgr : option CgroupManager) (cmd : bytes) (args : list bytes) (p : Handle) (w' : World) : Prop := {
  la_new : w_kids w !! child p = None /\ 0 < child p < 2 ^ 31 /\ forall q, ~ owns (w_cg w) (child p) q;
  la_kid : exists kid, w_kids w' = <[child p := kid]> (with_proxy p (w_kids w)) /\
    held_back w (with_proxy p (w_kids w)) 14 p kid w' /\
    forall im, image kid = Some im -> runs_command h cfg netns_eff cmd args (program im :: arguments im) /\
      directory im = c_work_dir cfg /\ (streams_open w -> image_ok w (tmp_dir p) (socket_eff p) netns_eff im);
  la_fds : leaves w (handle_res p) w';
  la_dirs : w_dirs w' = {[ tmp_dir p ]} ∪ proxy_dir p ∪ w_dirs w;
  la_group : member ck h cfg mgr (limits_of cfg netns_eff) (w_cg w) (cgroup_path p) [child p] (w_cg w');
  la_rest : cgroup_mgr p = mgr /\ waited p = false /\ audit_ctx p = c_sink cfg;
  la_proxy pid : connect_proxy_pid p = Some pid -> w_kids w !! pid = None /\ pid <> child p /\ forall q, ~ owns (w_cg w) pid q;
  la_dir : tmp_dir p ∉ w_dirs w /\ forall dir, dir ∈ proxy_dir p -> dir ∉ w_dirs w /\ dir <> tmp_dir p;
  la_socket sock : connect_proxy_socket p = Some sock -> is_Some (parent sock) /\ is_Some (connect_proxy_pid p) /\ is_Some (connect_proxy_pidfd p);
  la_pids : is_Some (connect_proxy_pid p) <-> is_Some (connect_proxy_pidfd p);
}.

(** After a failed launch: everything is as before, except that a child may not be reaped yet; it is dead. *)
Record unlaunched (w w' : World) : Prop := {
  un_fds : w_fds w' = w_fds w;
  un_dirs : w_dirs w' = w_dirs w;
  un_groups : groups (w_cg w') = groups (w_cg w);
  un_kids pid : w_kids w' !! pid = w_kids w !! pid \/ (w_kids w !! pid = None /\ pid ∈ killed (w_cg w'));
  un_killed x : x ∈ killed (w_cg w') -> x ∈ killed (w_cg w) \/ w_kids w !! x = None;
}.

Definition launch_failed (w w' : World) : Prop :=
  tolerant (c_sink cfg) -> tidy ck h -> c_tty cfg = false -> unlaunched w w'.

Lemma unlaunched_res w w' : w_fds w' = w_fds w -> w_cg w' = w_cg w -> w_kids w' = w_kids w -> w_dirs w' = w_dirs w -> unlaunched w w'.
Proof. intros E1 E2 E3 E4. split; try done; rewrite ?E2, ?E3; auto. Qed.

(** The guard of the proxy. *)
Lemma drop_proxy_back w1 wp sock pid fd w' : proxy_fork h w1 = Ok (sock, pid, fd) ->
  w_fds wp = <[fd := (PidFd pid, true)]> (w_fds w1) -> w_cg wp = w_cg w1 ->
  w_kids wp = <[pid := {| image := None; released := None |}]> (w_kids w1) ->
  w_dirs wp = {[ default [] (parent sock) ]} ∪ w_dirs w1 -> tidy ck h ->
  given_back wp [] w' -> unlaunched w1 (drop_proxy h (Some (sock, pid, fd)) w').
Proof.
  intros Hf E1 E2 E3 E4 [_ Ht] [G1 G2 G3 G4 G5]. destruct (law_proxy _ _ _ HL _ _ _ _ Hf) as (N1 & N2 & N3 & dir & Ed & N4).
  rewrite Ed in E4. cbn in E4. apply leaves_nil in G1. rewrite E1 in G1. rewrite E3 in G2. rewrite E4 in G3. rewrite E2 in G4.
  assert (Hall : leave pid <$> groups (w_cg w1) = groups (w_cg w1)) by by apply leave_all.
  assert (Hkl : forall x, x ∈ pid :: killed (w_cg w') -> x ∈ killed (w_cg w1) \/ w_kids w1 !! x = None).
  { intros x [->|Hx]%elem_of_cons; [by right|]. destruct (G5 x Hx) as [H|H]; [left; by rewrite <- E2|].
    rewrite E3 in H. apply lookup_insert_None in H as [? _]. by right. }
  unfold drop_proxy, cleanup_connect_proxy. cbn [mbind option_bind]. rewrite Ed. unfold rmtree. rewrite Ht.
  destruct (exited_yet h _ pid); split; cbn; rewrite ?G1, ?G2, ?G3, ?G4, ?Hall; try done.
  - by rewrite delete_insert_id.
  - set_solver.
  - intros x. left. by rewrite delete_insert_id.
  - by rewrite delete_insert_id.
  - set_solver.
  - intros x. destruct (decide (x = pid)) as [->|Hx]; [right; split; [done|apply list_elem_of_here]|left].
    by rewrite lookup_insert_ne.
Qed.

(** What [start_proxy] has done. *)
Definition proxied (w1 : World) (proxy : option (bytes * Z * Z)) (wp : World) : Prop :=
  w_guard wp = w_guard w1 /\ w_cg wp = w_cg w1 /\
  match proxy with
  | None => c_allowed_hosts cfg = [] /\ w_fds wp = w_fds w1 /\ w_kids wp = w_kids w1 /\ w_dirs wp = w_dirs w1
  | Some (sock, pid, fd) => c_allowed_hosts cfg <> [] /\ proxy_fork h w1 = Ok (sock, pid, fd) /\
      w_fds wp = <[fd := (PidFd pid, true)]> (w_fds w1) /\
      w_kids wp = <[pid := {| image := None; released := None |}]> (w_kids w1) /\
      w_dirs wp = {[ default [] (parent sock) ]} ∪ w_dirs w1
  end.

Lemma wp_proxy w1 : wp (start_proxy h cfg) (fun proxy => proxied w1 proxy) (fun _ w' => res w' = res w1) w1.
Proof.
  unfold wp, start_proxy. destruct (decide (c_allowed_hosts cfg = [])) as [E|E]; [done|].
  destruct (proxy_fork h w1) as [[[sock pid] fd]|e] eqn:Ef; done.
Qed.

Lemma unlaunched_proxy w1 proxy wp w' : proxied w1 proxy wp -> tidy ck h -> given_back wp [] w' ->
  unlaunched w1 (drop_proxy h proxy w').
Proof.
  destruct proxy as [[[sock pid] fd]|]; intros (_ & Ec & H); [|intros _ [G1 G2 G3 G4 G5]].
  - destruct H as (_ & Ef & E1 & E2 & E3). intros Ht Hg. by eapply drop_proxy_back.
  - destruct H as (_ & E1 & E2 & E3). apply leaves_nil in G1. cbn.
    split; try congruence; intros x; rewrite ?G2, ?E2; [by left|]. rewrite <- E2, <- Ec. apply G5.
Qed.

Definition proxy_own (proxy : option (bytes * Z * Z)) : list (Z * Desc) :=
  match proxy with Some (_, pid, fd) => [(fd, PidFd pid)] | None => [] end.

Lemma leaves_proxy w1 proxy wp : proxied w1 proxy wp -> leaves w1 (proxy_own proxy) wp.
Proof.
  destruct proxy as [[[sock pid] fd]|]; intros (_ & _ & H); [|by apply leaves_refl; destruct H as (_ & ? & _)].
  destruct H as (_ & Ef & E1 & _). destruct (law_proxy _ _ _ HL _ _ _ _ Ef) as (N1 & _).
  eapply leaves_eq, (leaves_open _ [] w1 fd (PidFd pid)); [exact E1|by apply leaves_refl|done].
Qed.

(** The proxy adds no descriptor that the sandbox inherits. *)
Lemma proxied_fds w1 proxy wp : proxied w1 proxy wp ->
  (forall x v, w_fds w1 !! x = Some v -> w_fds wp !! x = Some v) /\
  (forall x d, w_fds wp !! x = Some (d, false) -> w_fds w1 !! x = Some (d, false)).
Proof.
  intros [[H1 H2] _]%leaves_proxy. split; intros x v Hx; [rewrite H1|rewrite H1 in Hx];
    destruct (list_to_map _ !! x) eqn:E; try done. apply H2 in E. congruence.
Qed.

Lemma image_ok_proxied w1 proxy wp tmp socket netns im : proxied w1 proxy wp -> image_ok wp tmp socket netns im ->
  image_ok w1 tmp socket netns im.
Proof.
  intros (Hup & Hdown)%proxied_fds [I1 I2 I3 I4 I5 I6]. split; eauto.
  intros x d b Hx. destruct (I3 x d b Hx) as [? [?|[?|?]]]; eauto.
Qed.

Lemma image_ok_fds w w1 tmp socket netns im : w_fds w1 = w_fds w -> image_ok w1 tmp socket netns im -> image_ok w tmp socket netns im.
Proof. intros E [I1 I2 I3 I4 I5 I6]. rewrite E in *. by split. Qed.

Lemma netns_proxied w1 proxy wp : proxied w1 proxy wp -> netns_of cfg proxy = netns_eff.
Proof.
  unfold netns_of, netns_eff. intros (_ & _ & H). f_equal.
  destruct proxy as [[[sock pid] fd]|]; destruct H as [E _]; cbn; [by rewrite bool_decide_false|by rewrite bool_decide_true].
Qed.

Lemma launched_sandbox w w1 proxy wp mgr tmp cmd args p w' : w_fds w1 = w_fds w -> w_cg w1 = w_cg w -> w_kids w1 = w_kids w ->
  w_dirs w1 = {[ tmp ]} ∪ w_dirs w -> tmp ∉ w_dirs w -> proxied w1 proxy wp -> sandboxed wp mgr tmp proxy cmd args [] p w' ->
  launched w mgr cmd args p w'.
Proof.
  intros E1 E2 E3 E4 Htmp Hp [(S1 & S1' & S1'') S2 S3 S4 S5 S6 (H1 & H2 & H3 & H4 & H5 & H6)].
  pose proof (netns_proxied _ _ _ Hp) as Hn. rewrite Hn in *.
  assert (Hs : socket_of cfg proxy = socket_eff p) by (unfold socket_eff; rewrite H4; by destruct proxy as [[[]]|]). rewrite Hs in *.
  assert (Hk : w_kids wp = with_proxy p (w_kids w)).
  { unfold with_proxy. rewrite H2, <- E3. destruct proxy as [[[]]|], Hp as (_ & _ & Hp); [|tauto].
    destruct Hp as (_ & _ & _ & Hp & _). exact Hp. }
  pose proof (proxied_fds _ _ _ Hp) as (Hup & _). rewrite Hk in S1, S2.
  assert (Ec : w_cg wp = w_cg w) by (destruct Hp as (_ & Ec & _); congruence). rewrite Ec in *. split.
  - split; [|done]. unfold with_proxy in S1. destruct (connect_proxy_pid p); [|done]. by apply lookup_insert_None in S1 as [? _].
  - destruct S2 as (kid & Ek & Hr & Him). exists kid. split; [done|]. split.
    { unfold held_back in *. destruct (released kid); [done|]. destruct Hr as [?|(v & own & V1 & V2 & V3 & V4)]; [by left|right].
      exists v, (own ++ proxy_own proxy). split_and!; try done.
      - apply (leaves_base w1); [done|]. eapply leaves_trans; [by apply leaves_proxy|done].
      - rewrite length_app. assert (length (proxy_own proxy) <= 1)%nat by (destruct proxy as [[[]]|]; cbn; lia). lia. }
    intros im Hi. specialize (Him im Hi).
    destruct Him as (A & B & Him). split; [done|]. split; [done|]. intros [O1 O2]. rewrite H1. apply (image_ok_fds _ w1); [done|].
    eapply image_ok_proxied; [exact Hp|]. apply Him. rewrite <- E1 in O1, O2.
    split; intros x Hx; [destruct (O1 x Hx) as [v Hv]|destruct (O2 x Hx) as [v Hv]]; exists v; auto.
  - rewrite app_nil_r in S3. apply (leaves_base w1); [done|]. replace (handle_res p) with (handle_own p ++ proxy_own proxy).
    { eapply leaves_trans; [by apply leaves_proxy|done]. }
    unfold handle_res. rewrite H2, H3. by destruct proxy as [[[]]|].
  - rewrite S4, H1. unfold proxy_dir. rewrite H4. destruct proxy as [[[sock pid] fd]|], Hp as (_ & _ & Hp).
    + destruct Hp as (_ & Ef & _ & _ & Ed). destruct (law_proxy _ _ _ HL _ _ _ _ Ef) as (_ & _ & _ & dir & Edir & _).
      rewrite Ed, E4. cbn. rewrite Edir. cbn. set_solver.
    + destruct Hp as (_ & _ & _ & ->). rewrite E4. cbn. set_solver.
  - done.
  - done.
  - intros pid Hpid. unfold with_proxy in S1. rewrite Hpid in S1. apply lookup_insert_None in S1 as [_ Hne].
    rewrite H2 in Hpid. destruct proxy as [[[sock ?] fd]|]; [|done]. injection Hpid as ->.
    destruct Hp as (_ & _ & _ & Ef & _). rewrite <- E2, <- E3. destruct (law_proxy _ _ _ HL _ _ _ _ Ef) as (_ & ? & ? & _). done.
  - rewrite H1. split; [done|]. intros dir Hdir. unfold proxy_dir in Hdir. rewrite H4 in Hdir.
    destruct proxy as [[[sock pid] fd]|]; [|set_solver]. destruct Hp as (_ & _ & _ & Ef & _).
    destruct (law_proxy _ _ _ HL _ _ _ _ Ef) as (_ & _ & _ & d & Ed & Hd). cbn in Hdir. rewrite Ed in Hdir.
    apply elem_of_singleton in Hdir as ->. rewrite E4 in Hd. set_solver.
  - intros sock. rewrite H2, H3, H4. destruct proxy as [[[s0 pid] fd]|]; [|done]. intros [= <-]. destruct Hp as (_ & _ & _ & Ef & _).
    destruct (law_proxy _ _ _ HL _ _ _ _ Ef) as (_ & _ & _ & d & Ed & _). rewrite Ed. cbn. eauto.
  - rewrite H2, H3. destruct proxy as [[[]]|]; cbn; split; eauto; by intros [].
Qed.

(** The temporary directory is removed with an error. *)
Lemma unlaunched_tmp w w1 tmp w' : tidy ck h -> tmp ∉ w_dirs w -> w_fds w1 = w_fds w -> w_cg w1 = w_cg w ->
  w_kids w1 = w_kids w -> w_dirs w1 = {[ tmp ]} ∪ w_dirs w -> unlaunched w1 w' -> unlaunched w (rmtree h tmp w').
Proof.
  intros [_ Ht] Hn E1 E2 E3 E4 [U1 U2 U3 U4 U5]. rewrite ?E1, ?E2, ?E3, ?E4 in *. unfold rmtree. rewrite Ht.
  split; cbn; try done. rewrite U2. set_solver.
Qed.

(** Every run of [launch]. *)
Lemma launch_run w mgr cmd args :
  wp (launch k ck h mgr cfg cmd args) (launched w mgr cmd args) (fun _ => launch_failed w) w.
Proof.
  assert (Hback : forall w', res w' = res w -> launch_failed w w').
  { intros w' [= E1 E2 E3 E4 _] _ _ _. by apply unlaunched_res. }
  unfold launch. do 4 (apply wp_bind; eapply (quiet_use _ (fun _ => True));
    [by apply quiet_lift| |intros e w' E; apply Hback; congruence]; let wn := fresh "wn" in intros ? wn ? _).
  match goal with H : res ?x = res _ |- wp _ _ _ ?x => set (wa := x) in *; assert (Ea : res wa = res w) by congruence end.
  apply wp_bind. unfold wp at 1, make_tmp_dir. destruct (temp_dir _ _ _) as [tmp|] eqn:Et; [|by apply Hback].
  apply (law_temp _ _ _ HL) in Et. injection Ea as A1 A2 A3 A4 _. rewrite A4 in Et. apply wp_on_err.
  assert (Hin : forall w1, res w1 = (w_fds w, w_cg w, w_kids w, {[tmp]} ∪ w_dirs w, []) -> launch_failed w (rmtree h tmp w1)).
  { intros w1 [= E1 E2 E3 E4 _] _ Ht _. by apply (unlaunched_tmp _ w1); [..|apply unlaunched_res]. }
  apply wp_bind, wp_modify, wp_bind.
  eapply (quiet_use _ (fun _ => True)); [eapply quiet_silent, silent_init| |];
    [|intros e w' E; apply Hin; rewrite E; unfold res; cbn; congruence].
  intros _ w2 E2 _. apply wp_bind. eapply quiet_use; [apply quiet_wrapper| |];
    [|intros e w' E; apply Hin; rewrite E, E2; unfold res; cbn; congruence].
  intros _ w3 E3 _. assert (F : res w3 = (w_fds w, w_cg w, w_kids w, {[tmp]} ∪ w_dirs w, [])).
  { rewrite E3, E2. unfold res. cbn. congruence. }
  apply wp_bind. eapply wp_mono; [apply wp_proxy| |]; [|cbn; intros e w' E; apply Hin; congruence].
  injection F as F1 F2 F3 F4 F5. intros proxy w4 Hp. apply wp_on_err. eapply wp_mono; [apply wp_sandbox| |].
  - destruct Hp as (-> & _). done.
  - intros p w' Hs. by eapply (launched_sandbox w w3).
  - intros e w' Hf Hs Ht Hty. apply (unlaunched_tmp _ w3); try done. eapply unlaunched_proxy; [exact Hp|done|]. by apply Hf.
Qed.

(** C2: a launch accounts for all it takes. When it succeeds, the launcher has one child more (and the CONNECT proxy's
    process if hosts are allowed), the descriptors of the handle, all closed on exec, the temporary directory and the
    proxy's, and no control group has changed but a new one. When it fails, on a host whose directories can be
    removed, with no terminal and a sink that does not refuse events, descriptors, directories and control groups are
    as before, every child that is not reaped is dead, and no process was killed that existed before. *)
Theorem launch_accounts w mgr cmd args w' r : launch k ck h mgr cfg cmd args w = (w', r) ->
  match r with
  | Ok p => leaves w (handle_res p) w' /\ handle_fds p ≡ₚ (handle_res p).*1 /\ w_dirs w' = {[ tmp_dir p ]} ∪ proxy_dir p ∪ w_dirs w /\
      w_kids w !! child p = None /\ (exists kid, w_kids w' = <[child p := kid]> (with_proxy p (w_kids w))) /\
      (forall pid, connect_proxy_pid p = Some pid -> w_kids w !! pid = None /\ pid <> child p) /\
      killed (w_cg w') = killed (w_cg w) /\
      forall q g, groups (w_cg w) !! q = Some g -> groups (w_cg w') !! q = Some g
  | Err _ => tolerant (c_sink cfg) -> tidy ck h -> c_tty cfg = false -> unlaunched w w'
  end.
Proof.
  intros E. pose proof (launch_run w mgr cmd args) as H. unfold wp in H. rewrite E in H. destruct r as [p|e]; [|exact H].
  destruct H as [[L1 _] (kid & L2 & _) L3 L4 [L5 L6] _ L8 _ _ _]. split_and!; try done; [by rewrite handle_res_fds|by exists kid|naive_solver|]. intros q g Hq.
  destruct (cgroup_path p) as [path|]; [|by apply L6]. destruct L6 as (m & st & g' & _ & Hn & _ & _ & _ & Ho & _).
  rewrite Ho; [done|]. by intros ->; rewrite Hn in Hq.
Qed.

(** C5: what the child of a launch executes: exactly the wrapper with the command and its arguments, or the command and
    its arguments themselves where there is no wrapper, after [unshare] with the namespaces of the configuration; in
    the directory of the configuration; where there is a wrapper, with an environment that encodes the profile; every variable that names a descriptor names the right end of the right pipe; the caller's descriptors are at 3,
    4, ... in order, the standard streams are as configured, and nothing else is inherited that the launcher did not
    hold as inheritable. *)
Theorem launch_child w mgr cmd args w' p : launch k ck h mgr cfg cmd args w = (w', Ok p) -> streams_open w ->
  exists kid, w_kids w' !! child p = Some kid /\
  forall im, image kid = Some im -> runs_command h cfg netns_eff cmd args (program im :: arguments im) /\
    directory im = c_work_dir cfg /\ image_ok w (tmp_dir p) (socket_eff p) netns_eff im.
Proof.
  intros E Ho. pose proof (launch_run w mgr cmd args) as H. unfold wp in H. rewrite E in H.
  destruct (la_kid _ _ _ _ _ _ H) as (kid & Hk & _ & Hi). exists kid. split; [by rewrite Hk, lookup_insert_eq|].
  intros im Him. destruct (Hi im Him) as (? & ? & ?). auto.
Qed.

(** C4: resource limits hold from the start. If the handle has a control group, it is a new group with the child as its
    only process and the limits of the profile. The child has been told of a pipe on which the wrapper waits before it
    executes anything ([Wrapper.cgroup_sync_waits]), by a variable that names the descriptor at which it is, and the
    launcher has let it go on when the groups were as they are now, with the child in its group. There is no such pipe
    only if there is no group or [pipe2] failed when the launcher held at most 14 more descriptors than at first: then
    the launch continues all the same, and the child can run before it is in its group, as a child without the wrapper
    can. If the policy requires the limits, there is such
    a group with none of them missing, or the profile asks for none. *)
Theorem launch_limits w mgr cmd args w' p : launch k ck h mgr cfg cmd args w = (w', Ok p) ->
  exists kid, w_kids w' !! child p = Some kid /\
  match released kid with
  | Some c => is_Some (cgroup_path p) /\ c = w_cg w' /\
      forall im, image kid = Some im -> exists v, (bs "ARAPUCA_CGROUP_SYNC_FD", v) ∈ variables im /\
        (streams_open w -> exists j, v = dec j /\ descriptors im !! j = Some (PipeRead SyncPipe, false))
  | None => cgroup_path p = None \/ no_pipe h w (with_proxy p (w_kids w)) 14
  end /\
  match cgroup_path p with
  | Some path => exists m st g, mgr = Some m /\ groups (w_cg w) !! path = None /\ groups (w_cg w') !! path = Some g /\
      procs g = [child p] /\ limited m (limits_of cfg netns_eff) st g /\
      (cgroup_policy (c_profile cfg) = Required -> degraded st = [])
  | None => cgroup_policy (c_profile cfg) = Required -> has_limits (limits_of cfg netns_eff) = false
  end.
Proof.
  intros E. pose proof (launch_run w mgr cmd args) as H. unfold wp in H. rewrite E in H.
  destruct (la_kid _ _ _ _ _ _ H) as (kid & Hk & Hr & Hi). exists kid. split; [by rewrite Hk, lookup_insert_eq|].
  split.
  { unfold held_back in Hr. destruct (released kid) as [c|]; [|exact Hr]. destruct Hr as (Hg & Hc & Hv). do 2 (split; [done|]).
    intros im Him. destruct (proj1 (list_elem_of_fmap _ _ _) (Hv im Him)) as ([n v] & En & Hin).
    change (bs "ARAPUCA_CGROUP_SYNC_FD" = n) in En. subst n.
    exists v. split; [done|]. intros Ho. destruct (Hi im Him) as (_ & _ & Hok). eapply (im_vars _ _ _ _ _ (Hok Ho) "ARAPUCA_CGROUP_SYNC_FD"); [exact Hin|by_eval]. }
  destruct (la_group _ _ _ _ _ _ H) as [_ Hg]. destruct (cgroup_path p); [|tauto].
  destruct Hg as (m & st & g & ? & ? & ? & ? & ? & _ & ?). by exists m, st, g.
Qed.
End Start.

(** ** A launch on a concrete host *)

Definition free_fd (w : World) (fd : Z) : bool := bool_decide (w_fds w !! fd = None).
Definition two_free (w : World) : option (Z * Z) :=
  r ← List.find (free_fd w) (seqZ 3 64);
  wr ← List.find (fun fd => free_fd w fd && negb (fd =? r)) (seqZ 3 64);
  Some (r, wr).
Definition free_pid (w : World) (pid : Z) : bool :=
  bool_decide (w_kids w !! pid = None) && forallb (fun kv => negb (bool_decide (pid ∈ procs kv.2))) (map_to_list (groups (w_cg w))).
Definition demo_socket : bytes := bs "/tmp/arapuca-proxy-1/connect.sock".

Definition demo_host : LaunchHost := {|
  h_canonicalize := Some;
  h_is_dir _ := true;
  selfexec_enabled := false;
  current_exe := Some (bs "/usr/bin/launcher");
  path_var := Some (bs "/bin:/usr/bin");
  h_is_file f := bool_decide (f = bs "/usr/bin/arapuca");
  h_serde := false;
  abi_version := 4;
  mount_ns_available := true;
  temp_dir w prefix := let dir := bs "/tmp/" ++ prefix ++ bs "x" in if decide (dir ∈ w_dirs w) then None else Some dir;
  rmtree_ok _ _ := true;
  proxy_fork w :=
    match List.find (free_fd w) (seqZ 3 64) with
    | Some fd => if free_pid w 2000 && negb (bool_decide (bs "/tmp/arapuca-proxy-1" ∈ w_dirs w))
                 then Ok (demo_socket, 2000, fd) else Err (Process "fork CONNECT proxy: {e}")
    | None => Err (Process "fork CONNECT proxy: {e}")
    end;
  openpty := two_free;
  pipe2 := two_free;
  fork_pid w := if free_pid w 1000 then Some 1000 else None;
  setup_ok _ := true;
  reparented _ := false;
  tty_ok _ := true;
  exec_ok _ _ := true;
  pidfd_open w _ := List.find (free_fd w) (seqZ 3 64);
  audit_reads _ := [Eof];
  report_reads _ := [Data [232; 3; 0; 0]];
  exited_yet _ _ := true;
|}.

Definition demo_dup : DupKernel Desc := {|
  dupfd t low := head (filter (fun fd => t !! fd = None) (seqZ low 64));
  dup2_fails _ _ _ := false;
|}.

Lemma find_free w fd : List.find (free_fd w) (seqZ 3 64) = Some fd -> 0 <= fd /\ w_fds w !! fd = None.
Proof. intros [Hin%list_elem_of_In%elem_of_seqZ Hf%bool_decide_eq_true]%find_some. split; [lia|done]. Qed.

Lemma two_free_spec w r wr : two_free w = Some (r, wr) ->
  0 <= r /\ 0 <= wr /\ r <> wr /\ w_fds w !! r = None /\ w_fds w !! wr = None.
Proof.
  unfold two_free. destruct (List.find (free_fd w) _) as [x|] eqn:E; [|done]. apply find_free in E as [? ?]. cbn.
  destruct (List.find _ _) as [y|] eqn:Ey; [|done]. intros [= <- <-].
  apply find_some in Ey as [Hin%list_elem_of_In%elem_of_seqZ Hy]. unfold free_fd in Hy. bsplit. repeat split; done || lia.
Qed.

Lemma free_pid_spec w pid : free_pid w pid = true -> w_kids w !! pid = None /\ forall q, ~ owns (w_cg w) pid q.
Proof.
  intros [H1%bool_decide_eq_true H2]%andb_true_iff. split; [done|]. intros q (g & Hg & Hin). rewrite forallb_forall in H2.
  apply elem_of_map_to_list, list_elem_of_In, H2 in Hg. cbn in Hg. by rewrite bool_decide_true in Hg.
Qed.

Lemma demo_laws entries : LaunchLaws demo_dup (Cgroup.demo_kernel entries) demo_host.
Proof.
  split; cbn.
  - intros t low fd Hh. cbn in Hh. apply head_Some_elem_of, list_elem_of_filter in Hh as [Hn Hin%elem_of_seqZ]. split; [lia|done].
  - apply demo_kernel_laws.
  - apply two_free_spec.
  - apply two_free_spec.
  - intros w _ fd ?%find_free. tauto.
  - intros w pid. destruct (free_pid w 1000) eqn:E; [|done]. intros [= <-]. apply free_pid_spec in E as [? ?]. by split_and!.
  - intros w sock pid fd. destruct (List.find _ _) eqn:Ef; [|done]. apply find_free in Ef as [? ?].
    destruct (_ && _) eqn:E; [|done]. intros [= <- <- <-]. apply andb_true_iff in E as [[? ?]%free_pid_spec Hd].
    split_and!; try done. exists (bs "/tmp/arapuca-proxy-1"). split; [by vm_compute|]. intros Hin. by rewrite bool_decide_true in Hd.
  - intros w prefix dir. case_decide; [done|]. by intros [= <-].
Qed.

(** A profile with all layers on, a host for the proxy, and two descriptors of the caller. *)
Definition demo_profile : Profile :=
  {| isolation := IsoProcess; read_paths := [bs "/usr"]; write_paths := [bs "/work"]; max_memory_mb := 512; max_cpu_pct := 0;
     max_pids := 100; cgroup_policy := Required; cpu_timeout_secs := 0; max_file_size_mb := 0; max_open_files := 0;
     allow_exec := false; use_netns := false; use_pidns := true; dns_capture := true; lpac := false; seccomp_profile := Strict;
     audit_file_access := false; audit_network := true; seccomp_debug := false; allow_proxy_env := false;
     allow_keychain := false |}.
Definition demo_config : Config :=
  {| c_profile := demo_profile; c_task_id := bs "t2"; c_phase := bs "run"; c_work_dir := Some (bs "/work");
     c_stdio := {| cfg_stdin := None; cfg_stdout := Some 7; cfg_stderr := None |}; c_extra_fds := [9; 3]; c_tty := false;
     c_proxy_socket := None; c_allowed_hosts := [{| host := bs "example.org"; port := 443 |}];
     c_env := [(bs "TERM", bs "xterm")]; c_sink := None; c_verbosity := Standard; c_principal := None; c_correlation_id := None |}.
Definition demo_world : World :=
  {| w_fds := list_to_map [(0, (Opened 0, false)); (1, (Opened 1, false)); (2, (Opened 2, false)); (3, (Opened 3, true));
                           (7, (Opened 7, true)); (9, (Opened 9, true))];
     w_cg := demo_cgroups; w_kids := ∅; w_dirs := ∅; w_events := []; w_guard := []; w_applied := []; w_skipped := []; w_ticks := 0 |}.
Definition demo_mgr : option CgroupManager := Some {| base_path := demo_scope; controllers := map bs ["memory"; "pids"; "cpu"]%string |}.
Definition demo_run (mgr : option CgroupManager) : World * result Error Handle :=
  @launch Helpers.Demo.linux demo_dup (Cgroup.demo_kernel []) demo_host mgr demo_config (bs "/bin/tool") [bs "-x"] demo_world.

Lemma demo_open : streams_open demo_config demo_world.
Proof.
  split; intros x Hx.
  - assert (x = 0 \/ x = 1 \/ x = 2) as [->|[->| ->]] by lia; by eexists.
  - cbn in Hx. rewrite !elem_of_cons in Hx. destruct Hx as [->|[->|[]%elem_of_nil]]; by eexists.
Qed.

Definition succeeds (r : World * result Error Handle) : bool := match r.2 with Ok _ => true | Err _ => false end.

Lemma demo_succeeds : succeeds (demo_run demo_mgr) = true.
Proof. by vm_compute. Qed.
Lemma demo_fails : succeeds (demo_run None) = false.
Proof. by vm_compute. Qed.

Lemma demo_handle : match (demo_run demo_mgr).2 with
  | Ok p => (handle_res p, connect_proxy_pid p) = ([(6, PipeRead DnsPipe); (10, PidFd 1000); (4, PidFd 2000)], Some 2000)
  | Err _ => False end.
Proof. by vm_compute. Qed.
Lemma demo_kid : match demo_run demo_mgr with
  | (w', Ok p) => is_Some (w_kids w' !! child p ≫= image) /\ is_Some (w_kids w' !! child p ≫= released) /\ is_Some (cgroup_path p)
  | _ => False end.
Proof.
  assert (E : match demo_run demo_mgr with
    | (w', Ok p) => bool_decide (is_Some (w_kids w' !! child p ≫= image)) && bool_decide (is_Some (w_kids w' !! child p ≫= released))
        && bool_decide (is_Some (cgroup_path p))
    | _ => false end = true) by by vm_compute.
  destruct (demo_run demo_mgr) as [w' [p|e]]; [|done]. by rewrite !andb_true_iff, !bool_decide_eq_true in E; tauto.
Qed.
Lemma demo_killed : killed (w_cg (demo_run None).1) = [2000].
Proof. by vm_compute. Qed.
Lemma demo_tidy entries : tidy (Cgroup.demo_kernel entries) demo_host.
Proof. by split. Qed.

(** With a manager the launch succeeds; without one it fails, after the proxy was started, and takes everything back. *)
Lemma launch_accounts_witness :
  match demo_run demo_mgr with
  | (w', Ok p) => leaves demo_world [(6, PipeRead DnsPipe); (10, PidFd 1000); (4, PidFd 2000)] w' /\ w_kids w' !! child p <> None /\ connect_proxy_pid p = Some 2000
  | _ => False
  end /\
  match demo_run None with
  | (w', Err _) => w_fds w' = w_fds demo_world /\ w_dirs w' = ∅ /\ killed (w_cg w') = [2000]
  | _ => False
  end.
Proof.
  pose proof demo_succeeds as S1. pose proof demo_fails as S2. pose proof demo_handle as S3. pose proof demo_killed as S4. split.
  - destruct (demo_run demo_mgr) as [w' [p|e]] eqn:E; [|discriminate S1].
    destruct (launch_accounts _ _ _ _ (demo_laws _) _ _ _ _ _ _ E) as (H1 & _ & _ & _ & (kid & H2) & _). cbn [snd] in S3.
    injection S3 as E1 E2. rewrite E1 in H1. split; [exact H1|]. split; [rewrite H2, lookup_insert_eq; discriminate|exact E2].
  - destruct (demo_run None) as [w' [p|e]] eqn:E; [discriminate S2|].
    destruct (launch_accounts _ _ _ _ (demo_laws _) _ _ _ _ _ _ E I (demo_tidy _) eq_refl) as [H1 H2 _ _ _].
    split; [exact H1|]. split; [exact H2|exact S4].
Defined.

Lemma launch_child_witness :
  match demo_run demo_mgr with
  | (w', Ok p) => exists kid im, w_kids w' !! child p = Some kid /\ image kid = Some im /\
      runs_command demo_host demo_config true (bs "/bin/tool") [bs "-x"] (program im :: arguments im) /\
      descriptors im !! 3 = Some (Opened 9, false) /\ descriptors im !! 4 = Some (Opened 3, false) /\
      descriptors im !! 1 = Some (Opened 7, false)
  | _ => False
  end.
Proof.
  pose proof demo_kid as S1. destruct (demo_run demo_mgr) as [w' [p|e]] eqn:E; [|exact S1].
  destruct (launch_child _ _ _ _ (demo_laws _) _ _ _ _ _ _ E demo_open) as (kid & Hk & Hi).
  destruct S1 as [[im Him] _]. rewrite Hk in Him. cbn in Him.
  destruct (Hi im Him) as (H1 & _ & [_ H2 _ _ _ H3]). exists kid, im. split; [exact Hk|].
  split; [exact Him|]. split; [exact H1|]. split; [by apply (H2 0%nat 9 _ true)|]. split; [by apply (H2 1%nat 3 _ true)|].
  by apply (H3 1%nat 7 _ true).
Defined.

Lemma launch_limits_witness :
  match demo_run demo_mgr with
  | (w', Ok p) => exists kid path g, w_kids w' !! child p = Some kid /\ released kid = Some (w_cg w') /\
      cgroup_path p = Some path /\ groups (w_cg w') !! path = Some g /\ procs g = [child p] /\
      (exists im j, image kid = Some im /\ descriptors im !! j = Some (PipeRead SyncPipe, false)) /\
      knobs g !! bs "memory.max" = Some (bs "536870912")
  | _ => False
  end.
Proof.
  pose proof demo_kid as S1. destruct (demo_run demo_mgr) as [w' [p|e]] eqn:E; [|exact S1].
  destruct (launch_limits _ _ _ _ (demo_laws _) _ _ _ _ _ _ E) as (kid & Hk & Hr & Hg).
  destruct S1 as ([im Him] & [c Hc] & [path Hp]). rewrite Hk in Hc, Him. cbn in Hc, Him. rewrite Hc in Hr.
  destruct Hr as (_ & Ec & Hv). destruct (Hv im Him) as (v & _ & Hj). destruct (Hj demo_open) as (j & _ & Hd').
  rewrite Hp in Hg. destruct Hg as (m & st & g & [= <-] & _ & Hg & Hps & Hlim & Hd). exists kid, path, g.
  split; [exact Hk|]. split; [rewrite Hc, Ec; reflexivity|]. split; [exact Hp|]. split; [exact Hg|].
  split; [exact Hps|]. split; [exists im, j; split; [exact Him|exact Hd']|]. destruct Hlim as [_ _ _ _ Hm _ _ _]. apply Hm. reflexivity.
Defined.
