(* ===== verification/EndToEnd.v ===== *)
(** * From the launch to the command

    The launcher ([Launch]) starts the wrapper ([Wrapper]) with an environment and
    descriptors.  The theorem follows a sandbox across that border: what the
    launcher was asked for is in force when the command is executed. *)

From stdpp Require Import gmap.
From S2P Require Import Prelude Text Paths Validate Env Bridge Seccomp Unotify Allowlists Landlock Rlimit Process Helpers Wrapper.
From S2P Require Import Fds Cgroup AuditLog Launch LaunchPrep LaunchSpec.

Section EndToEnd.
Context `{T : Seccomp.Target} `{SC : Seccompiler} {LW : SeccompilerLaws SC} (k : DupKernel Desc) (ck : CgKernel) (lh : LaunchHost) (h : Host).

(** C1: a launched command runs under the profile of its configuration. Take a launch that returns a handle, the image
    that its child executes, and a wrapper process that starts with the variables of this image and the arguments
    after [unshare]. If it executes the command, on either path of the wrapper and whatever the kernel answers, the
    Landlock rules are those of the profile's paths and the temporary directory of the handle as the wrapper reads
    them: lossy UTF-8 text, without surrounding white space, empty ones left out. For paths that are UTF-8 text without
    surrounding white space these are the paths themselves; another path can reach Landlock as a different one. The
    seccomp verdict of every system call is at least as strict as the profile's, the resource limits are the profile's
    for all values of the fields' type [u64] (a file size of more bytes than a [u64] counts becomes the largest [u64],
    that is no limit), and the process dies with its parent and cannot gain privileges. *)
Theorem launch_enforced cfg mgr cmd args w w' hd kid im wr q p target argv envp :
  LaunchLaws k ck lh -> launch k ck lh mgr cfg cmd args w = (w', Ok hd) -> streams_open cfg w ->
  w_kids w' !! child hd = Some kid -> image kid = Some im -> env_wrapper_path lh = Some wr ->
  host_ok h -> seccomp_supported = true -> numbers_distinct ->
  (forall which, NoDup (map fst (helper_table which))) -> fds_ok (fds q) ->
  limits_typed (c_profile cfg) ->
  (forall x, var_os (environ q) x = var_os (reverse (variables im)) x) ->
  let own := Utf8.lossy wr :: bs "--" :: cmd :: args in
  (exists pre, program im :: arguments im = pre ++ own) /\
  (Forall plain_path (read_paths (c_profile cfg) ++ write_paths (c_profile cfg) ++ [tmp_dir hd]) ->
   as_read (launch_profile (c_profile cfg) (tmp_dir hd)) = launch_profile (c_profile cfg) (tmp_dir hd)) /\
  (run_wrapper_path h (len own) own q = (p, Err (Exec target argv envp)) \/
   wrapper_path h own q = (p, Err (Exec target argv envp)) ->
   (exists rules, domains p = rules :: domains q /\
     Landlock.apply (landlock_host h) (as_read (launch_profile (c_profile cfg) (tmp_dir hd))) (Some target) = Enforced rules) /\
   (forall d, rank (seccomp_policy (seccomp_profile (c_profile cfg)) d) <= rank (kernel_verdict (filters p) d)) /\
   Rlimit.enforced_limits (c_profile cfg) (limits q) (limits p) /\ pdeathsig p = true /\ no_new_privs p = true).
Proof.
  intros HL E Ho Hk Hi Hwr Hh Hs Hnum Htab Hf Hlim He own.
  pose proof (launch_run k ck lh cfg HL w mgr cmd args) as H. unfold wp in H. rewrite E in H.
  destruct (la_kid _ _ _ _ _ _ _ _ _ H) as (kid' & Hk' & _ & Him). rewrite Hk', lookup_insert_eq in Hk.
  injection Hk as ->. destruct (Him im Hi) as (Hrun & _ & Hok). unfold runs_command in Hrun. rewrite Hwr in Hrun.
  split; [by eexists|]. split; [apply as_read_plain|]. destruct (im_env _ _ _ _ _ _ _ (Hok Ho)) as (env & extra & Ev & Hl & Hx).
  { unfold use_wrapper. by rewrite Hwr. }
  rewrite Ev in He. intros Hends.
  eapply (launched_profile h (c_profile cfg)); try done. intros name Hn Hin. apply list_elem_of_fmap in Hin as ([key v] & Ek & Hkv).
  apply Hx in Hkv. cbn [fst] in Ek, Hkv. rewrite <- Ek in Hkv. apply Hkv, list_elem_of_In, in_map. by apply list_elem_of_In.
Qed.
End EndToEnd.

(** ** A launch and its wrapper on concrete hosts *)

(** The profile of the wrapper's own example, and one descriptor of the caller. *)
Definition plain_config : Config :=
  {| c_profile := demo_launch_profile; c_task_id := bs "t2"; c_phase := bs "run"; c_work_dir := None;
     c_stdio := {| cfg_stdin := None; cfg_stdout := None; cfg_stderr := None |}; c_extra_fds := [9]; c_tty := false;
     c_proxy_socket := None; c_allowed_hosts := []; c_env := demo_caller; c_sink := None; c_verbosity := Standard;
     c_principal := None; c_correlation_id := None |}.
Definition plain_run : World * result Error Handle :=
  @launch Helpers.Demo.linux demo_dup (Cgroup.demo_kernel []) demo_host demo_mgr plain_config (bs "/bin/tool") [bs "-x"] demo_world.
Definition plain_vars : list (bytes * bytes) :=
  match plain_run with
  | (w', Ok hd) => match w_kids w' !! child hd ≫= image with Some im => variables im | None => [] end
  | _ => []
  end.
Definition plain_start : @Proc Demo.crate := Demo.start (reverse plain_vars).
Definition plain_args : list bytes := [bs "/usr/bin/arapuca"; bs "--"; bs "/bin/tool"; bs "-x"].
Definition plain_wrapper := @run_wrapper_path Demo.linux Demo.crate (Demo.host 0) 4 plain_args plain_start.

Lemma plain_open : streams_open plain_config demo_world.
Proof.
  split; intros x Hx.
  - assert (x = 0 \/ x = 1 \/ x = 2) as [->|[->| ->]] by lia; by eexists.
  - cbn in Hx. apply list_elem_of_singleton in Hx as ->. by eexists.
Qed.

Lemma plain_kid : match plain_run with
  | (w', Ok hd) => tmp_dir hd = bs "/tmp/arapuca-t2-x" /\
      exists kid im, w_kids w' !! child hd = Some kid /\ image kid = Some im /\ variables im = plain_vars
  | _ => False end.
Proof.
  assert (E : match plain_run with
    | (w', Ok hd) => bool_decide (tmp_dir hd = bs "/tmp/arapuca-t2-x") && bool_decide (is_Some (w_kids w' !! child hd ≫= image))
    | _ => false end = true) by by vm_compute.
  unfold plain_vars. destruct plain_run as [w' [hd|e]]; [|done].
  apply andb_true_iff in E as [E1%bool_decide_eq_true [im E2]%bool_decide_eq_true]. split; [done|].
  destruct (w_kids w' !! child hd) as [kid|]; [|done]. cbn in E2. exists kid, im. cbn. rewrite E2. auto.
Qed.

Lemma plain_wrapper_exec : exists envp,
  plain_wrapper = (plain_wrapper.1, Err (Exec (bs "/bin/tool") [bs "/bin/tool"; bs "-x"] envp)).
Proof.
  assert (E : match plain_wrapper.2 with
    | Err (Exec t a _) => bool_decide (t = bs "/bin/tool" /\ a = [bs "/bin/tool"; bs "-x"]) | _ => false end = true) by by vm_compute.
  destruct plain_wrapper as [p [[]|[]]]; try done. apply bool_decide_eq_true in E as [-> ->]. by eexists.
Qed.

Lemma launch_enforced_witness :
  match plain_run with
  | (w', Ok hd) => exists rules, domains plain_wrapper.1 = [rules] /\
      @Landlock.apply Demo.linux (landlock_host (Demo.host 0)) (launch_profile demo_launch_profile (tmp_dir hd)) (Some (bs "/bin/tool"))
      = Enforced rules
  | _ => False
  end.
Proof.
  pose proof plain_kid as S1. destruct plain_wrapper_exec as [envp S2].
  destruct plain_run as [w' [hd|e]] eqn:E; [|exact S1]. destruct S1 as (Et & kid & im & Hk & Hi & Hv).
  destruct (@launch_enforced Demo.linux Demo.crate Seccomp.Reference.laws demo_dup (Cgroup.demo_kernel []) demo_host (Demo.host 0)
    plain_config demo_mgr (bs "/bin/tool") [bs "-x"] demo_world w' hd kid im (bs "/usr/bin/arapuca") plain_start plain_wrapper.1
    (bs "/bin/tool") [bs "/bin/tool"; bs "-x"] envp) as (_ & Hp & H).
  - apply demo_laws.
  - exact E.
  - exact plain_open.
  - exact Hk.
  - exact Hi.
  - vm_compute. reflexivity.
  - apply Demo.host_is_ok.
  - by_eval.
  - exact demo_numbers.
  - exact Demo.tables_distinct.
  - apply Demo.start_fds.
  - by_eval.
  - intros x. rewrite Hv. reflexivity.
  - destruct (H (or_introl S2)) as [Hd _]. rewrite Hp in Hd by (rewrite Et; by_eval). exact Hd.
Defined.
