(* ===== verification/Handle.v ===== *)
(** * Handle: a running sandbox ([process.rs])

    The operations on the handle that a launch returns, on Linux: signals, waiting
    with the collection of the audit pipes, statistics, clean-up and [Drop].  The
    state is the handle, the launcher's world ([Launch]) and the signals sent. *)

From stdpp Require Import gmap.
From S2P Require Import Prelude Text Paths Cgroup AuditLog Pidns Launch.

(** ** State *)

Definition SIGKILL : Z := 9.

Inductive Dest : Type := ToPidfd (fd : Z) | ToPid (pid : Z) | ToGroup (pgid : Z).

(** A signal, and whether the child (the proxy for a signal to the proxy) was still to be reaped when it was sent. *)
Record Sent : Type := { dest : Dest; signo : Z; unreaped : bool }.

(** The outcome of a [poll], again after EINTR, and of the calls that drain a pipe: [WouldBlock ready] is EAGAIN with
    the outcome of the [poll] that follows. *)
Inductive Poll : Type := PollReady | PollTimeout | PollError.
Inductive Drain : Type := Bytes (b : bytes) | End | Again | WouldBlock (ready : bool) | Failure.

(** The members of a line of the supervisor that are read. *)
Record UnotifyLine : Type := {
  event_type : bytes;
  ul_pid : Z;
  ul_path : option bytes;
  ul_flags : option Z;
  ul_is_write : option bool;
  ul_binary : option bytes;
  ul_dest : option bytes;
  ul_protocol : option bytes;
  ul_syscall : option bytes;
  ul_count : option Z;
}.

(** The kernel's answers, and the JSON reader ([serde_json], not part of the repository). *)
Record HandleHost : Type := {
  signal_fails : World -> Dest -> Z -> bool;
  wait_status : World -> Z -> option Z;
  members : World -> Z -> list Z;
  pipe_poll : World -> Z -> Poll;
  pipe_drain : World -> Z -> list Drain;
  serde_dns : bytes -> option (bytes * bytes);
  serde_unotify : bytes -> option UnotifyLine;
}.

(** [forked] is the variant of the child's handle. *)
Record Held : Type := { hd : Handle; forked : bool; hw : World; sent : list Sent }.

Definition set_hd (p : Handle) (x : Held) : Held := {| hd := p; forked := forked x; hw := hw x; sent := sent x |}.
Definition set_hw (w : World) (x : Held) : Held := {| hd := hd x; forked := forked x; hw := w; sent := sent x |}.

Definition with_child (c : Z) (p : Handle) : Handle :=
  {| child := c; tmp_dir := tmp_dir p; cgroup_path := cgroup_path p; cgroup_mgr := cgroup_mgr p;
     dns_audit_pipe := dns_audit_pipe p; unotify_audit_pipe := unotify_audit_pipe p; pidfd := pidfd p;
     target_pid := target_pid p; waited := waited p; connect_proxy_pid := connect_proxy_pid p;
     connect_proxy_pidfd := connect_proxy_pidfd p; connect_proxy_socket := connect_proxy_socket p;
     pty_master := pty_master p; audit_ctx := audit_ctx p; final_stats := final_stats p |}.
Definition with_pipes (dns unotify : option Z) (p : Handle) : Handle :=
  {| child := child p; tmp_dir := tmp_dir p; cgroup_path := cgroup_path p; cgroup_mgr := cgroup_mgr p;
     dns_audit_pipe := dns; unotify_audit_pipe := unotify; pidfd := pidfd p;
     target_pid := target_pid p; waited := waited p; connect_proxy_pid := connect_proxy_pid p;
     connect_proxy_pidfd := connect_proxy_pidfd p; connect_proxy_socket := connect_proxy_socket p;
     pty_master := pty_master p; audit_ctx := audit_ctx p; final_stats := final_stats p |}.
Definition with_waited (p : Handle) : Handle :=
  {| child := child p; tmp_dir := tmp_dir p; cgroup_path := cgroup_path p; cgroup_mgr := cgroup_mgr p;
     dns_audit_pipe := dns_audit_pipe p; unotify_audit_pipe := unotify_audit_pipe p; pidfd := pidfd p;
     target_pid := target_pid p; waited := true; connect_proxy_pid := connect_proxy_pid p;
     connect_proxy_pidfd := connect_proxy_pidfd p; connect_proxy_socket := connect_proxy_socket p;
     pty_master := pty_master p; audit_ctx := audit_ctx p; final_stats := final_stats p |}.
Definition with_stats (s : ResourceUsage) (p : Handle) : Handle :=
  {| child := child p; tmp_dir := tmp_dir p; cgroup_path := cgroup_path p; cgroup_mgr := cgroup_mgr p;
     dns_audit_pipe := dns_audit_pipe p; unotify_audit_pipe := unotify_audit_pipe p; pidfd := pidfd p;
     target_pid := target_pid p; waited := waited p; connect_proxy_pid := connect_proxy_pid p;
     connect_proxy_pidfd := connect_proxy_pidfd p; connect_proxy_socket := connect_proxy_socket p;
     pty_master := pty_master p; audit_ctx := audit_ctx p; final_stats := Some s |}.
Definition without_group (p : Handle) : Handle :=
  {| child := child p; tmp_dir := tmp_dir p; cgroup_path := None; cgroup_mgr := None;
     dns_audit_pipe := dns_audit_pipe p; unotify_audit_pipe := unotify_audit_pipe p; pidfd := pidfd p;
     target_pid := target_pid p; waited := waited p; connect_proxy_pid := connect_proxy_pid p;
     connect_proxy_pidfd := connect_proxy_pidfd p; connect_proxy_socket := connect_proxy_socket p;
     pty_master := pty_master p; audit_ctx := audit_ctx p; final_stats := final_stats p |}.

Section Handle.
Context (ck : CgKernel) (h : LaunchHost) (hh : HandleHost).

Abbreviation H := (ST Held Error).

Definition on_world (f : World -> World) : H unit := modify (fun x => set_hw (f (hw x)) x).
Definition over_world {A} (f : World -> World * A) : H A := fun x => let '(w, a) := f (hw x) in (set_hw w x, Ok a).
Definition on_handle (f : Handle -> Handle) : H unit := modify (fun x => set_hd (f (hd x)) x).

(** ** Signals *)

(** The number that [pid()] returns. *)
Definition pid (p : Handle) : Z := match target_pid p with Some tp => tp | None => child p end.

(** What a signal does: SIGKILL kills, of others only the call is recorded. *)
Definition deliver (d : Dest) (s : Z) (w : World) : World :=
  if s =? SIGKILL then
    match d with
    | ToPidfd fd => match w_fds w !! fd with Some (PidFd pid, _) => kill pid w | _ => w end
    | ToPid pid => kill pid w
    | ToGroup pgid => foldr kill w (members hh w pgid)
    end
  else w.

(** [kill] or [pidfd_send_signal]; [false] is an error. *)
Definition send (d : Dest) (s : Z) : H bool := fun x =>
  let l := sent x ++ [{| dest := d; signo := s; unreaped := bool_decide (is_Some (w_kids (hw x) !! child (hd x))) |}] in
  if signal_fails hh (hw x) d s
  then ({| hd := hd x; forked := forked x; hw := hw x; sent := l |}, Ok false)
  else ({| hd := hd x; forked := forked x; hw := deliver d s (hw x); sent := l |}, Ok true).

Definition signal (s : Z) : H unit :=
  p ← get hd;
  if waited p then stop (Process "cannot signal after wait(): process already reaped")
  else if pid p =? 0 then stop (Process "process already reaped")
  else match pidfd p with
  | Some fd => ok ← send (ToPidfd fd) s; if (ok : bool) then mret tt else stop (Syscall "pidfd_send_signal")
  | None => ok ← send (ToPid (pid p)) s; if (ok : bool) then mret tt else stop (Syscall "kill")
  end.

(** ** Audit pipes *)

Definition MAX_AUDIT_DRAIN : Z := 16777216.

(** The loop that drains a pipe; a [read] returns at most 4096 bytes. *)
Fixpoint drain (l : list Drain) (data : bytes) : bytes :=
  match l with
  | [] => data
  | d :: l =>
    if MAX_AUDIT_DRAIN <=? len data then data
    else match d with
    | Bytes b => let b := take 4096 b in if decide (b = []) then data else drain l (data ++ b)
    | End => data
    | Again => drain l data
    | WouldBlock ready => if ready then drain l data else data
    | Failure => data
    end
  end.

(** An event whose delivery may fail; the error is only logged. *)
Definition emit_logged (p : Handle) (e : Event.AuditEvent) (w : World) : World :=
  match audit_ctx p with Some sink => set_events (emit sink e (w_events w)).1 w | None => w end.

Definition dns_event (pid : Z) (line : bytes) : option Event.AuditEvent :=
  match serde_dns hh line with
  | Some (domain, qtype) =>
    Some (Event.NetworkBlocked pid (sanitize_audit_string domain) (bs "dns") (Some (sanitize_audit_string qtype)))
  | None => None
  end.

Definition unotify_event (pid : Z) (line : bytes) : option Event.AuditEvent :=
  match serde_unotify hh line with
  | Some entry =>
    let event_pid := if 0 <? ul_pid entry then ul_pid entry else pid in
    if decide (event_type entry = bs "file_access") then
      Some (Event.FileAccess event_pid (sanitize_audit_string (default [] (ul_path entry))) (default 0 (ul_flags entry))
              (default false (ul_is_write entry)))
    else if decide (event_type entry = bs "process_spawn") then
      Some (Event.ProcessSpawn event_pid (sanitize_audit_string (default [] (ul_binary entry))))
    else if decide (event_type entry = bs "network_blocked") then
      Some (Event.NetworkBlocked event_pid (sanitize_audit_string (default [] (ul_dest entry)))
              (sanitize_audit_string
                 match ul_syscall entry, ul_protocol entry with
                 | Some s, _ => s | None, Some q => q | None, None => bs "tcp" end) (Some (bs "unotify")))
    else None
  | None => None
  end.

Definition pipe_lines (data : bytes) : list bytes := List.filter (fun l => negb (bool_decide (l = []))) (lines (Utf8.lossy data)).

Definition emit_lines (p : Handle) (event : bytes -> option Event.AuditEvent) (data : bytes) (w : World) : World :=
  if h_serde h then foldl (fun w e => emit_logged p e w) w (omap event (pipe_lines data)) else w.

Definition read_dns_audit_pipe (pid : Z) : H unit := fun x =>
  match dns_audit_pipe (hd x) with
  | None => (x, Ok tt)
  | Some fd =>
    let p := with_pipes None (unotify_audit_pipe (hd x)) (hd x) in
    let w := close_fd fd (hw x) in
    let w := match pipe_poll hh (hw x) fd with
             | PollTimeout => w
             | _ => emit_lines p (dns_event pid) (drain (pipe_drain hh (hw x) fd) []) w
             end in
    (set_hw w (set_hd p x), Ok tt)
  end.

Definition read_unotify_audit_pipe (pid : Z) : H unit := fun x =>
  match unotify_audit_pipe (hd x) with
  | None => (x, Ok tt)
  | Some fd =>
    let p := with_pipes (dns_audit_pipe (hd x)) None (hd x) in
    let w := close_fd fd (hw x) in
    let w := match audit_ctx p, pipe_poll hh (hw x) fd with
             | Some _, PollReady => emit_lines p (unotify_event pid) (drain (pipe_drain hh (hw x) fd) []) w
             | _, _ => w
             end in
    (set_hw w (set_hd p x), Ok tt)
  end.

(** ** Statistics *)

Definition no_usage : ResourceUsage :=
  {| memory_current_bytes := 0; memory_peak_bytes := 0; cpu_usage_usec := 0; pid_count := 0; io_read_bytes := 0;
     io_write_bytes := 0 |}.

Definition resource_stats (p : Handle) (w : World) : ResourceUsage :=
  match cgroup_mgr p, cgroup_path p with Some _, Some path => read_stats ck path (w_cg w) | _, _ => no_usage end.

Definition oom_count (p : Handle) (w : World) : Z :=
  match cgroup_mgr p, cgroup_path p with Some _, Some path => read_oom_events ck path (w_cg w) | _, _ => 0 end.

(** ** Waiting *)

(** [ExitStatus::code] and [ExitStatus::signal]. *)
Definition status_code (s : Z) : option Z := if WIFEXITED s then Some (WEXITSTATUS s) else None.
Definition status_signal (s : Z) : option Z := if WIFSIGNALED s then Some (WTERMSIG s) else None.

(** The child has ended: it leaves its group and is no longer a child. *)
Definition reaped_child (pid : Z) (w : World) : World :=
  reap pid (set_cg {| groups := leave pid <$> groups (w_cg w); killed := killed (w_cg w) |} w).

(** [Child::wait], or [waitpid] for a forked child, whose number is then cleared. *)
Definition wait_child : H Z := fun x =>
  match wait_status hh (hw x) (child (hd x)) with
  | None => (x, Err (Process (if forked x then "waitpid: {}" else "wait: {e}")))
  | Some s =>
    (set_hw (reaped_child (child (hd x)) (hw x)) (if forked x then set_hd (with_child 0 (hd x)) x else x), Ok s)
  end.

(** Orphans in the process group of the child. *)
Definition kill_orphans (target : option Z) (pgid : Z) : H unit :=
  if bool_decide (target = None) && (1 <? pgid) then _ ← send (ToGroup pgid) SIGKILL; mret tt else mret tt.

Definition exit_events (pid status : Z) : H unit := fun x =>
  let stats := resource_stats (hd x) (hw x) in
  let p := with_stats stats (hd x) in
  let oom := oom_count p (hw x) in
  let w := emit_logged p (Event.ProcessExited pid (status_code status) (status_signal status) oom) (hw x) in
  (set_hw (emit_logged p (Event.ResourceUsage stats) w) (set_hd p x), Ok tt).

Definition wait : H Z :=
  p ← get hd;
  if waited p then stop (Process "process already waited")
  else
    status ← wait_child;
    _ ← on_handle with_waited;
    _ ← kill_orphans (target_pid p) (child p);
    _ ← read_dns_audit_pipe (pid p);
    _ ← read_unotify_audit_pipe (pid p);
    _ ← exit_events (pid p) status;
    mret status.

(** ** The end of a handle *)

Definition destroy_cgroup (p : Handle) (w : World) : World * bool :=
  match cgroup_mgr p, cgroup_path p with
  | Some _, Some path => match destroy ck path (w_cg w) with (c, r) => (set_cg c w, is_ok r) end
  | _, _ => (w, false)
  end.

Definition remove_tmp (p : Handle) (w : World) : World * bool :=
  if bool_decide (tmp_dir p ∈ w_dirs w) then (rmtree h (tmp_dir p) w, rmtree_ok h w (tmp_dir p)) else (w, true).

Definition kill_child : H unit :=
  p ← get hd;
  f ← get forked;
  if (if (f : bool) then 0 <? child p else negb (waited p)) then
    _ ← match pidfd p with Some fd => send (ToPidfd fd) SIGKILL | None => send (ToPid (child p)) SIGKILL end;
    modify (fun x => match wait_status hh (hw x) (child p) with
                     | Some _ => set_hw (reaped_child (child p) (hw x)) x | None => x end)
  else mret tt.

(** The proxy is killed by its number, and cleaned up. *)
Definition proxy_signal (p : Handle) (w : World) : list Sent :=
  match connect_proxy_pid p with
  | Some n => [{| dest := ToPid n; signo := SIGKILL; unreaped := bool_decide (is_Some (w_kids w !! n)) |}]
  | None => []
  end.

Definition end_proxy (p : Handle) : H unit :=
  modify (fun x => {| hd := hd x; forked := forked x; sent := sent x ++ proxy_signal p (hw x);
    hw := cleanup_connect_proxy h (connect_proxy_pid p) (connect_proxy_pidfd p) (connect_proxy_socket p) (hw x) |}).

(** [Drop], after which the owned descriptors are closed. *)
Definition drop : H unit :=
  p ← get hd;
  _ ← kill_child;
  _ ← (if waited p then mret tt else kill_orphans (target_pid p) (child p));
  _ ← on_world (close_fds (option_list (dns_audit_pipe p) ++ option_list (unotify_audit_pipe p)));
  _ ← end_proxy p;
  _ ← on_world (fun w => (destroy_cgroup p w).1);
  _ ← on_world (fun w => (remove_tmp p w).1);
  on_world (close_fds (option_list (pidfd p) ++ option_list (pty_master p))).

Definition cleanup : H unit :=
  p ← get hd;
  _ ← on_handle without_group;
  cgroup_destroyed ← over_world (destroy_cgroup p);
  tmpdir_removed ← over_world (remove_tmp p);
  _ ← on_world (emit_logged p (Event.SandboxCleanup cgroup_destroyed tmpdir_removed None None));
  drop.
End Handle.
