(* ===== verification/HandleSpec.v ===== *)
(** * HandleSpec: the life of a sandbox

    From the launch to the end of the handle: what the operations of [Handle] keep,
    that the end gives back all that the launch took, which processes get signals,
    and which events are reported. *)

From stdpp Require Import gmap.
From S2P Require Import Prelude Text Paths Validate Env Seccomp Helpers Wrapper.
From S2P Require Import Fds Cgroup AuditLog Pidns Launch LaunchPrep LaunchSpec Handle.

(** ** Control groups and the processes of the sandbox *)

Section Boxed.
Context (c0 : Cgroups).

(** The process is in no group but [g]. *)
Definition inside (g : option bytes) (c : Cgroups) (pid : Z) : Prop := forall q, owns c pid q -> g = Some q.

(** The groups are those of [c0] and the new group [g], whose processes are in no other. *)
Record boxed (g : option bytes) (c : Cgroups) : Prop := {
  bx_others q : g <> Some q -> groups c !! q = groups c0 !! q;
  bx_group path : g = Some path -> groups c0 !! path = None /\ is_Some (groups c !! path) /\
    forall pid, owns c pid path -> inside g c pid;
}.

Lemma owns_leave pid c c' x q : groups c' = leave pid <$> groups c -> owns c' x q -> owns c x q.
Proof.
  intros E (g & Hg & Hin). rewrite E, lookup_fmap in Hg. destruct (groups c !! q) as [g0|] eqn:E0; [|done]. injection Hg as <-.
  apply elem_of_leave in Hin as [Hin _]. by exists g0.
Qed.

Lemma inside_leave g pid c c' x : groups c' = leave pid <$> groups c -> inside g c x -> inside g c' x.
Proof. intros E H q Ho. eapply H, owns_leave; [exact E|done]. Qed.

Lemma boxed_leave g pid c c' : groups c' = leave pid <$> groups c -> inside g c pid -> boxed g c -> boxed g c'.
Proof.
  intros E Hin [H1 H2]. split.
  - intros q Hq. rewrite E, lookup_fmap, <- H1 by done. destruct (groups c !! q) as [gq|] eqn:Eq; [|done]. cbn. f_equal.
    apply leave_id. intros Hp. apply Hq, Hin. by exists gq.
  - intros path Hg. destruct (H2 path Hg) as (Hn & [gp Hs] & Ho). split; [done|]. split; [rewrite E, lookup_fmap, Hs; by eexists|].
    intros x Hx. eapply inside_leave; [exact E|]. eapply Ho, owns_leave; [exact E|done].
Qed.

Lemma boxed_kill g pid w : inside g (w_cg w) pid -> boxed g (w_cg w) -> boxed g (w_cg (kill pid w)).
Proof. intros Hin Hb. by eapply boxed_leave. Qed.

Lemma inside_kills g l w x : inside g (w_cg w) x -> inside g (w_cg (foldr kill w l)) x.
Proof. induction l as [|y l IH]; intros Hx; [done|]. cbn. eapply inside_leave; [done|by apply IH]. Qed.

Lemma boxed_kills g l w : (forall pid, pid ∈ l -> inside g (w_cg w) pid) -> boxed g (w_cg w) -> boxed g (w_cg (foldr kill w l)).
Proof.
  induction l as [|y l IH]; intros Hin Hb; [done|]. cbn. apply boxed_kill.
  - apply inside_kills, Hin, list_elem_of_here.
  - apply IH; [|done]. intros x Hx. by apply Hin, list_elem_of_further.
Qed.

(** A process that was in no group before is in no other group. *)
Lemma inside_new g c pid : boxed g c -> (forall q, ~ owns c0 pid q) -> inside g c pid.
Proof.
  intros [H1 _] Hn q (gq & Hg & Hin). destruct (decide (g = Some q)) as [?|Hq]; [done|]. exfalso. apply (Hn q).
  exists gq. split; [by rewrite <- H1|done].
Qed.

(** When the group goes, with [cgroup.kill] or not, the groups of before are left. *)
Lemma destroy_boxed ck path c : (forall s, write_err ck s path (bs "cgroup.kill") (bs "1") = None) ->
  (forall s, rmdir_ok ck s path = true) -> boxed (Some path) c ->
  groups (destroy ck path c).1 = groups c0 /\ (forall x, x ∈ killed c -> x ∈ killed (destroy ck path c).1).
Proof.
  intros Hw Hr [H1 H2]. destruct (H2 path eq_refl) as (Hn & [g Hg] & Ho).
  unfold destroy, kill_all, mbind, ST_bind, cg_write. rewrite Hw. unfold write_effect. rewrite decide_True by done. rewrite Hg.
  rewrite kill_all_state. cbn. unfold mbind, ST_bind, remove_dir. cbn. rewrite lookup_fmap, Hg. cbn.
  assert (E : procs (foldr leave g (procs g)) = []).
  { destruct (procs (foldr leave g (procs g))) as [|x l] eqn:El; [done|].
    assert (x ∈ procs (foldr leave g (procs g))) as [? []]%elem_of_leaves; [rewrite El; apply list_elem_of_here|done]. }
  rewrite E, Hr. cbn. split; [|intros x Hx; apply elem_of_app; by right]. apply map_eq. intros q.
  destruct (decide (q = path)) as [->|Hq]; [by rewrite lookup_delete_eq|]. rewrite lookup_delete_ne, lookup_fmap by done.
  rewrite <- H1 by congruence. destruct (groups c !! q) as [gq|] eqn:Eq; [|done]. cbn. f_equal. apply leaves_id.
  intros x Hx Hin. assert (Some path = Some q) as [= ->]; [|done]. apply (Ho x); [by exists g|by exists gq].
Qed.
End Boxed.

(** ** What is kept while the handle exists *)

Section Life.
Context (ck : CgKernel) (h : LaunchHost) (hh : HandleHost) (w : World) (p : Handle).

(** What a launch promises of the handle [p] it returns in the world [w] ([LaunchSpec.launched]). *)
Record fresh : Prop := {
  fr_child : w_kids w !! child p = None /\ 0 < child p /\ forall q, ~ owns (w_cg w) (child p) q;
  fr_proxy x : connect_proxy_pid p = Some x -> w_kids w !! x = None /\ x <> child p /\ forall q, ~ owns (w_cg w) x q;
  fr_dirs : (tmp_dir p ∉ w_dirs w) /\ forall dir, dir ∈ proxy_dir p -> (dir ∉ w_dirs w) /\ dir <> tmp_dir p;
  fr_pids : (is_Some (connect_proxy_pid p)) <-> (is_Some (connect_proxy_pidfd p));
}.

(** The kernel: the processes of the sandbox do not enter groups from before the launch, and a child can be waited for. *)
Record HandleLaws : Prop := {
  law_target t q : target_pid p = Some t -> ~ owns (w_cg w) t q;
  law_members v x q : x ∈ members hh v (child p) -> owns (w_cg v) x q -> groups (w_cg w) !! q = None;
  law_wait v : is_Some (w_kids v !! child p) -> is_Some (wait_status hh v (child p));
}.

Context (Hf : fresh) (HH : HandleLaws).

Definition kids_of (r : bool) (kid : Kid) : gmap Z Kid :=
  if r then with_proxy p (w_kids w) else <[child p := kid]> (with_proxy p (w_kids w)).

(** Since [w]: the descriptors [own], the group [g], the directories and the children were added; [r] tells that the
    sandbox has been reaped. *)
Record kept (g : option bytes) (r : bool) (own : list (Z * Desc)) (v : World) : Prop := {
  kp_fds : leaves w own v;
  kp_kids : exists kid, w_kids v = kids_of r kid;
  kp_dirs : w_dirs v ∖ {[ tmp_dir p ]} = proxy_dir p ∪ w_dirs w;
  kp_boxed : boxed (w_cg w) g (w_cg v);
}.

Lemma kept_child : with_proxy p (w_kids w) !! child p = None.
Proof.
  destruct Hf as [[H1 _] H2 _ _]. unfold with_proxy. destruct (connect_proxy_pid p) as [x|]; [|done].
  destruct (H2 x eq_refl) as (_ & Hx & _). by rewrite lookup_insert_ne.
Qed.

Lemma kept_res g r own v v' : res v' = res v -> kept g r own v -> kept g r own v'.
Proof. intros [= E1 E2 E3 E4 _] [H1 H2 H3 H4]. split; rewrite ?E2, ?E3, ?E4; try done. by eapply leaves_eq. Qed.

Lemma kept_kill g r own v x : inside g (w_cg v) x -> kept g r own v -> kept g r own (kill x v).
Proof. intros Hx [H1 H2 H3 H4]. split; [by apply (leaves_eq _ _ v)|done|done|by apply boxed_kill]. Qed.

Lemma kept_kills g r own v l : (forall x, x ∈ l -> inside g (w_cg v) x) -> kept g r own v -> kept g r own (foldr kill v l).
Proof.
  intros Hl [H1 H2 H3 H4]. assert (E : w_fds (foldr kill v l) = w_fds v /\ w_kids (foldr kill v l) = w_kids v /\
    w_dirs (foldr kill v l) = w_dirs v) by (clear; by induction l as [|x l (E1 & E2 & E3)]).
  destruct E as (E1 & E2 & E3). split; rewrite ?E2, ?E3; try done; [by eapply leaves_eq|by apply boxed_kills].
Qed.

Lemma kept_close g r c own v : kept g r (c ++ own) v -> kept g r own (close_fds c.*1 v).
Proof.
  intros [H1 H2 H3 H4]. destruct (close_fds_rest c.*1 v) as (E1 & E2 & E3 & _).
  split; rewrite ?E1, ?E2, ?E3; try done. by apply leaves_close_fds.
Qed.

Lemma kept_perm g r own own' v : own ≡ₚ own' -> kept g r own v -> kept g r own' v.
Proof. intros E [H1 H2 H3 H4]. split; try done. by eapply leaves_perm. Qed.

Lemma kept_inside g r own v x : kept g r own v -> (forall q, ~ owns (w_cg w) x q) -> inside g (w_cg v) x.
Proof. intros [_ _ _ H] Hx. by eapply inside_new. Qed.

Lemma kept_reaped g own v : kept g false own v -> kept g true own (reaped_child (child p) v).
Proof.
  intros Hk. pose proof (kept_inside _ _ _ _ (child p) Hk) as Hin. destruct Hk as [H1 [kid H2] H3 H4]. split; cbn; try done.
  - by apply (leaves_eq _ _ v).
  - exists kid. rewrite H2. cbn. by rewrite delete_insert_id by apply kept_child.
  - eapply boxed_leave; [done| |done]. apply Hin. by destruct Hf as [(_ & _ & ?) _ _ _].
Qed.

Lemma kept_waits g own v : kept g false own v -> is_Some (wait_status hh v (child p)).
Proof. intros [_ [kid H] _ _]. apply (law_wait HH). rewrite H. cbn. rewrite lookup_insert_eq. by eexists. Qed.

(** ** Signals *)

(** Where signals may go: by number only before the child is reaped, to the group only after it. *)
Definition dest_ok (r : bool) (d : Dest) (s : Z) : Prop :=
  match d with
  | ToPidfd fd => pidfd p = Some fd
  | ToPid n => (n = child p \/ n = pid p) /\ r = false
  | ToGroup n => n = child p /\ target_pid p = None /\ s = SIGKILL /\ r = true
  end.

Lemma pid_no_group q : ~ owns (w_cg w) (pid p) q.
Proof.
  unfold pid. destruct (target_pid p) as [t|] eqn:E; [by apply (law_target HH)|]. by destruct Hf as [(_ & _ & H) _ _ _].
Qed.

Lemma kept_deliver g r own v d s : dest_ok r d s -> (forall fd, pidfd p = Some fd -> (fd, PidFd (pid p)) ∈ own) ->
  kept g r own v -> kept g r own (deliver hh d s v).
Proof.
  intros Hd Hown Hk. unfold deliver. destruct (s =? SIGKILL); [|done].
  assert (Hp : inside g (w_cg v) (pid p)) by exact (kept_inside _ _ _ _ _ Hk pid_no_group). destruct d as [fd|n|n]; cbn in Hd.
  - destruct (leaves_in _ _ _ _ _ (kp_fds _ _ _ _ Hk) (Hown _ Hd)) as [E _]. rewrite E. by apply kept_kill.
  - destruct Hd as [[->| ->] _]; apply kept_kill; try done. eapply kept_inside; [done|]. by destruct Hf as [(_ & _ & ?) _ _ _].
  - destruct Hd as [-> _]. apply kept_kills; [|done]. intros x Hx q Ho. destruct (decide (g = Some q)) as [?|Hq]; [done|]. exfalso.
    pose proof (law_members HH _ _ _ Hx Ho) as E. destruct Ho as (gq & Eq & _).
    by rewrite (bx_others _ _ _ (kp_boxed _ _ _ _ Hk)), E in Eq.
Qed.

(** ** The invariant of the handle *)

Definition core (q : Handle) :=
  (child q, tmp_dir q, pidfd q, target_pid q, (connect_proxy_pid q, connect_proxy_pidfd q, connect_proxy_socket q), pty_master q,
   audit_ctx q).

Definition sent_ok (s : Sent) : Prop :=
  match dest s with
  | ToPidfd fd => pidfd p = Some fd
  | ToPid n => (n = child p \/ n = pid p \/ connect_proxy_pid p = Some n) /\ unreaped s = true
  | ToGroup n => n = child p /\ target_pid p = None /\ signo s = SIGKILL /\ unreaped s = false
  end.

Record alive (g : option bytes) (r : bool) (x : Held) : Prop := {
  al_core : core (hd x) = core p;
  al_group : cgroup_path (hd x) = g /\ (is_Some g -> is_Some (cgroup_mgr (hd x)));
  al_forked : forked x = false;
  al_kept : kept g r (handle_res (hd x)) (hw x);
  al_sent : Forall sent_ok (sent x);
}.

Lemma pid_core q : core q = core p -> pid q = pid p.
Proof. intros [= E1 _ _ E2 _]. unfold pid. by rewrite E1, E2. Qed.

(** A change of the world that keeps what is kept. *)
Lemma alive_world g r r' x v : kept g r' (handle_res (hd x)) v -> alive g r x -> alive g r' (set_hw v x).
Proof. intros Hk []. by split. Qed.

Lemma alive_send g r x d s (Q : bool -> Held -> Prop) X : alive g r x -> dest_ok r d s ->
  (forall b x', alive g r x' -> hd x' = hd x -> Q b x') -> wp (send hh d s) Q X x.
Proof.
  intros [A1 A2 A3 A4 A5] Hd HQ. unfold wp, send.
  assert (Hs : Forall sent_ok (sent x ++ [{| dest := d; signo := s;
    unreaped := bool_decide (is_Some (w_kids (hw x) !! child (hd x))) |}])).
  { apply Forall_app_2; [done|]. constructor; [|done]. unfold sent_ok. destruct A4 as [_ [kid Hk] _ _]. injection A1 as E1 _.
    rewrite Hk, E1. destruct d as [fd|n|n]; [done| |]; cbn in *.
    - destruct Hd as [Hn ->]. split; [tauto|]. cbn. rewrite lookup_insert_eq. by rewrite bool_decide_eq_true_2 by by eexists.
    - destruct Hd as (Hn & Ht & Hs & ->). cbn. rewrite kept_child. by rewrite bool_decide_eq_false_2 by by intros []. }
  destruct (signal_fails hh (hw x) d s); apply HQ; try done; split; try done. cbn. apply kept_deliver; [done| |done].
  intros fd Hfd. injection A1 as E1 _ E3 E4 _. unfold handle_res, handle_own, pid. rewrite E1, E3, E4, Hfd. set_solver.
Qed.

Lemma alive_orphans g x tp q (Q : unit -> Held -> Prop) X : alive g true x -> tp = target_pid p -> q = child p ->
  (forall x', alive g true x' -> hd x' = hd x -> Q tt x') -> wp (kill_orphans hh tp q) Q X x.
Proof.
  intros Ha -> -> HQ. unfold kill_orphans. case_bool_decide as Ht; [|by apply HQ]. destruct (1 <? child p); [|by apply HQ].
  apply wp_bind. eapply alive_send; [done|done|]. by auto.
Qed.

Lemma alive_signal s x : alive (cgroup_path p) (waited (hd x)) x -> alive (cgroup_path p) (waited (hd x)) (signal hh s x).1.
Proof.
  intros Ha. assert (H : wp (signal hh s) (fun _ => alive (cgroup_path p) (waited (hd x)))
    (fun _ => alive (cgroup_path p) (waited (hd x))) x); [|unfold wp in H; by destruct (signal hh s x) as [? []]].
  unfold signal. apply wp_bind. unfold wp at 1. cbn. destruct (waited (hd x)) eqn:Ew; [done|]. destruct (pid (hd x) =? 0); [done|].
  pose proof (al_core _ _ _ Ha) as [= _ _ E _]. rewrite E. destruct (pidfd p) as [fd|] eqn:Ep; apply wp_bind.
  - eapply alive_send; [done|done|]. by intros [] x' H _.
  - eapply alive_send; [done| |by intros [] x' H _]. split; [|done]. right. apply pid_core, Ha.
Qed.

(** *** Waiting *)

Lemma emit_logged_res q e v : res (emit_logged q e v) = res v.
Proof. unfold emit_logged. by destruct (audit_ctx q). Qed.

Lemma emit_lines_res q f data v : res (emit_lines h q f data v) = res v.
Proof.
  unfold emit_lines. destruct (h_serde h); [|done]. generalize (omap f (pipe_lines data)). intros l. revert v.
  induction l as [|e l IH]; intros v; [done|]. cbn. rewrite IH. apply emit_logged_res.
Qed.

Lemma alive_hd g r x q : core q = core (hd x) -> cgroup_path q = cgroup_path (hd x) -> cgroup_mgr q = cgroup_mgr (hd x) ->
  handle_res q = handle_res (hd x) -> alive g r x -> alive g r (set_hd q x).
Proof. intros E1 E2 E3 E4 []. split; cbn; rewrite ?E1, ?E2, ?E3, ?E4; done. Qed.

(** A pipe is closed, and its lines are only reported. *)
Lemma alive_read_dns g r x n (Q : unit -> Held -> Prop) X : alive g r x ->
  (forall x', alive g r x' -> waited (hd x') = waited (hd x) -> Q tt x') -> wp (read_dns_audit_pipe h hh n) Q X x.
Proof.
  intros Ha HQ. unfold wp, read_dns_audit_pipe. destruct (dns_audit_pipe (hd x)) as [fd|] eqn:E; [|by apply HQ].
  apply HQ; [|done]. destruct Ha as [A1 A2 A3 A4 A5]. split; try done.
  apply (kept_res _ _ _ (close_fd fd (hw x))); [destruct (pipe_poll _ _ _); [apply emit_lines_res|done|apply emit_lines_res]|].
  apply (kept_close _ _ [(fd, PipeRead DnsPipe)]). eapply kept_perm; [|exact A4].
  unfold handle_res, handle_own. rewrite E. cbn. by apply reflexivity.
Qed.

Lemma alive_read_unotify g r x n (Q : unit -> Held -> Prop) X : alive g r x ->
  (forall x', alive g r x' -> waited (hd x') = waited (hd x) -> Q tt x') -> wp (read_unotify_audit_pipe h hh n) Q X x.
Proof.
  intros Ha HQ. unfold wp, read_unotify_audit_pipe. destruct (unotify_audit_pipe (hd x)) as [fd|] eqn:E; [|by apply HQ].
  apply HQ; [|done]. destruct Ha as [A1 A2 A3 A4 A5]. split; try done. cbn [hw set_hw set_hd hd].
  apply (kept_res _ _ _ (close_fd fd (hw x))).
  { destruct (audit_ctx _); [|done]. destruct (pipe_poll _ _ _); [apply emit_lines_res|done|done]. }
  apply (kept_close _ _ [(fd, PipeRead UnotifyPipe)]). eapply kept_perm; [|exact A4].
  unfold handle_res, handle_own. rewrite E. cbn. solve_Permutation.
Qed.

Lemma alive_wait_child g x (Q : Z -> Held -> Prop) X : alive g false x ->
  (forall s x', alive g true x' -> hd x' = hd x -> Q s x') -> wp (wait_child hh) Q X x.
Proof.
  intros Ha HQ. pose proof Ha as [A1 A2 A3 A4 A5]. unfold wp, wait_child. injection A1 as E1 _. rewrite E1, A3.
  destruct (kept_waits _ _ _ A4) as [s Es]. rewrite Es. apply HQ; [|done]. eapply alive_world; [|done]. by apply kept_reaped.
Qed.

Lemma alive_exit g r x n s (Q : unit -> Held -> Prop) X : alive g r x ->
  (forall x', alive g r x' -> waited (hd x') = waited (hd x) -> Q tt x') -> wp (exit_events ck n s) Q X x.
Proof.
  intros Ha HQ. unfold wp, exit_events. apply HQ; [|done]. apply (alive_world _ r); [|by apply alive_hd].
  apply (kept_res _ _ _ (hw x)); [by rewrite !emit_logged_res|]. apply Ha.
Qed.

Lemma alive_wait x : alive (cgroup_path p) (waited (hd x)) x ->
  wp (wait ck h hh) (fun _ x' => alive (cgroup_path p) true x' /\ waited (hd x') = true) (fun _ x' => x' = x) x.
Proof.
  intros Ha. unfold wait. apply wp_bind. unfold wp at 1. cbn [get]. destruct (waited (hd x)) eqn:Ew; [done|].
  apply wp_bind, alive_wait_child with (cgroup_path p); [done|]. intros s x1 Ha1 E1. apply wp_bind. unfold wp at 1, on_handle, modify.
  apply wp_bind. apply (alive_orphans (cgroup_path p)); [by apply alive_hd|by injection (al_core _ _ _ Ha) as _ _ _ ->|by injection (al_core _ _ _ Ha) as ->|].
  intros x2 Ha2 E2. apply wp_bind, (alive_read_dns (cgroup_path p) true); [done|]. intros x3 Ha3 E3.
  apply wp_bind, (alive_read_unotify (cgroup_path p) true); [done|]. intros x4 Ha4 E4.
  apply wp_bind, (alive_exit (cgroup_path p) true); [done|]. intros x5 Ha5 E5. split; [done|]. by rewrite E5, E4, E3, E2.
Qed.

(** ** The end of the handle *)

(** Everything is as before the launch; the proxy is dead, but may not be reaped yet. *)
Record returned (v : World) : Prop := {
  re_fds : w_fds v = w_fds w;
  re_dirs : w_dirs v = w_dirs w;
  re_groups : groups (w_cg v) = groups (w_cg w);
  re_kids x : w_kids v !! x = w_kids w !! x \/ (connect_proxy_pid p = Some x /\ x ∈ killed (w_cg v));
}.

(** Directories can be removed and [cgroup.kill] can be written. *)
Definition clean : Prop := tidy ck h /\ forall s q, write_err ck s q (bs "cgroup.kill") (bs "1") = None.
Context (Hc : clean).

(** After the proxy: what is still to be given back. *)
Record settled (g : option bytes) (own : list (Z * Desc)) (v : World) : Prop := {
  se_fds : leaves w own v;
  se_kids x : w_kids v !! x = w_kids w !! x \/ (connect_proxy_pid p = Some x /\ x ∈ killed (w_cg v));
  se_dirs : w_dirs v ∖ {[ tmp_dir p ]} = w_dirs w;
  se_boxed : boxed (w_cg w) g (w_cg v);
}.

Lemma settled_killed g own v : kept g true own v ->
  (forall x, connect_proxy_pid p = Some x -> x ∈ killed (w_cg v)) ->
  forall v', w_fds v' = w_fds v -> w_cg v' = w_cg v -> (w_kids v' = w_kids v \/ exists x, connect_proxy_pid p = Some x /\
    w_kids v' = delete x (w_kids v)) ->
  w_dirs v' = w_dirs v ∖ proxy_dir p -> settled g own v'.
Proof.
  intros [H1 [kid H2] H3 H4] Hk v' E1 E2 E3 E4. split; [by apply (leaves_eq _ _ v)| | |by rewrite E2].
  - intros x. rewrite E2. cbn in H2. unfold with_proxy in H2. destruct (connect_proxy_pid p) as [y|] eqn:Ep.
    + destruct (decide (x = y)) as [->|Hx]; [right; auto|]. left. destruct E3 as [->|(z & [= <-] & ->)]; rewrite H2.
      * by rewrite lookup_insert_ne.
      * by rewrite lookup_delete_ne, lookup_insert_ne.
    + left. by destruct E3 as [->|(z & [=] & _)]; rewrite H2.
  - rewrite E4. destruct Hf as [_ _ [_ Hd] _]. clear -H3 Hd. apply set_eq. intros d. specialize (Hd d).
    assert (H : d ∈ w_dirs v ∖ {[ tmp_dir p ]} <-> d ∈ proxy_dir p ∪ w_dirs w) by by rewrite H3. clear H3. set_solver.
Qed.

Lemma settle_proxy g own v : kept g true (tag (PidFd (default 0 (connect_proxy_pid p))) (connect_proxy_pidfd p) ++ own) v ->
  settled g own (cleanup_connect_proxy h (connect_proxy_pid p) (connect_proxy_pidfd p) (connect_proxy_socket p) v).
Proof.
  intros Hk. destruct Hc as [[_ Ht] _]. pose proof (fr_pids Hf) as Hpf. unfold cleanup_connect_proxy, rmtree.
  assert (Hx : forall x, connect_proxy_pid p = Some x -> forall q, ~ owns (w_cg w) x q) by (intros x Hx; by apply (fr_proxy Hf)).
  assert (Hp : proxy_dir p = match connect_proxy_socket p ≫= parent with Some d => {[ d ]} | None => ∅ end) by done.
  destruct (connect_proxy_pid p) as [x|] eqn:Ex, (connect_proxy_pidfd p) as [fd|] eqn:Efd; cbn in Hk; try (by naive_solver).
  - assert (Hk' : kept g true own (close_fd fd (kill x v))).
    { apply (kept_close _ _ [(fd, PidFd x)]). apply kept_kill; [|done]. eapply kept_inside; [done|by apply Hx]. }
    assert (Hin : forall y, connect_proxy_pid p = Some y -> y ∈ killed (w_cg (close_fd fd (kill x v)))).
    { intros y [= <-]%(eq_trans (eq_sym Ex)). apply list_elem_of_here. }
    eapply settled_killed; [exact Hk'|exact Hin|..]; rewrite ?Hp; clear Hp;
      destruct (exited_yet _ _ x), (_ ≫= parent); cbn; rewrite ?Ht, ?difference_empty_L; eauto.
  - eapply settled_killed; [exact Hk|by rewrite Ex|..]; rewrite ?Hp; destruct (_ ≫= parent); cbn; rewrite ?Ht, ?difference_empty_L; auto.
Qed.

(** The group is destroyed, and nothing else changes. *)
Lemma destroy_cgroup_spec g q v : cgroup_path q = g -> (is_Some g -> is_Some (cgroup_mgr q)) -> boxed (w_cg w) g (w_cg v) ->
  let v' := (destroy_cgroup ck q v).1 in w_fds v' = w_fds v /\ w_kids v' = w_kids v /\ w_dirs v' = w_dirs v /\
    boxed (w_cg w) None (w_cg v') /\ forall x, x ∈ killed (w_cg v) -> x ∈ killed (w_cg v').
Proof.
  intros E Hm H. destruct Hc as [[Hr _] Hw]. unfold destroy_cgroup. rewrite E. destruct g as [path|]; [|by destruct (cgroup_mgr q)].
  destruct Hm as [m ->]; [by eexists|]. destruct (destroy_boxed (w_cg w) ck path (w_cg v)) as [G1 G2]; try done.
  destruct (destroy ck path (w_cg v)) as [c r]. cbn in *. split_and!; try done. split; [intros y _; cbn; by rewrite G1|done].
Qed.

Lemma settle_destroy g q own v : cgroup_path q = g -> (is_Some g -> is_Some (cgroup_mgr q)) -> settled g own v ->
  settled None own (destroy_cgroup ck q v).1.
Proof.
  intros E Hm [H1 H2 H3 H4]. destruct (destroy_cgroup_spec g q v E Hm H4) as (E1 & E2 & E3 & Hb & Hk).
  split; rewrite ?E2, ?E3; try done; [by apply (leaves_eq _ _ v)|]. intros x. destruct (H2 x) as [?|[? ?]]; [by left|right; auto].
Qed.

Lemma remove_tmp_spec q v : let v' := (remove_tmp h q v).1 in w_fds v' = w_fds v /\ w_cg v' = w_cg v /\ w_kids v' = w_kids v /\
  w_dirs v' = w_dirs v ∖ {[ tmp_dir q ]}.
Proof.
  destruct Hc as [[_ Ht] _]. unfold remove_tmp. case_bool_decide as Hd; cbn; [rewrite Ht; auto|]. split_and!; try done. set_solver.
Qed.

Lemma settle_end own v q : tmp_dir q = tmp_dir p -> settled None own v -> returned (close_fds own.*1 (remove_tmp h q v).1).
Proof.
  intros Eq [H1 H2 H3 H4]. destruct (close_fds_rest own.*1 (remove_tmp h q v).1) as (E1 & E2 & E3 & _).
  destruct (remove_tmp_spec q v) as (F1 & F2 & F3 & F4). split; rewrite ?E1, ?E2, ?E3, ?F2, ?F3, ?F4, ?Eq; try done.
  - apply leaves_nil, leaves_close_fds. rewrite app_nil_r. by eapply leaves_eq.
  - apply map_eq. intros x. by apply (bx_others _ _ _ H4).
Qed.

Lemma alive_kill_child g x (Q : unit -> Held -> Prop) X : alive g (waited (hd x)) x ->
  (forall x', alive g true x' -> hd x' = hd x -> Q tt x') -> wp (kill_child hh) Q X x.
Proof.
  intros Ha HQ. unfold kill_child. apply wp_bind. unfold wp at 1. cbn [get]. apply wp_bind. unfold wp at 1. cbn [get].
  pose proof (al_core _ _ _ Ha) as [= E1 _ E2 _]. rewrite (al_forked _ _ _ Ha).
  destruct (waited (hd x)) eqn:Ew; [exact (HQ x Ha eq_refl)|]. cbn [negb]. apply wp_bind.
  apply (wp_mono _ (fun _ x1 => alive g false x1 /\ hd x1 = hd x) _ (fun _ _ => False)); [| |done].
  - rewrite E1, E2. destruct (pidfd p) as [fd|] eqn:Ep; (eapply alive_send; [exact Ha| |by intros ? ? ? ?]); [exact Ep|].
    split; [by left|done].
  - intros _ x1 [Ha1 Hx1]. unfold wp, modify. rewrite E1. destruct (kept_waits _ _ _ (al_kept _ _ _ Ha1)) as [s ->].
    apply HQ; [|exact Hx1]. eapply alive_world; [|exact Ha1]. apply kept_reaped, Ha1.
Qed.

Lemma wp_on_world f (Q : unit -> Held -> Prop) X x : Q tt (set_hw (f (hw x)) x) -> wp (on_world f) Q X x.
Proof. done. Qed.

Lemma wp_end_proxy q (Q : unit -> Held -> Prop) X x :
  Q tt {| hd := hd x; forked := forked x; sent := sent x ++ proxy_signal q (hw x);
          hw := cleanup_connect_proxy h (connect_proxy_pid q) (connect_proxy_pidfd q) (connect_proxy_socket q) (hw x) |} ->
  wp (end_proxy h q) Q X x.
Proof. done. Qed.

(** The proxy is not reaped before its end. *)
Lemma proxy_signal_ok q v : connect_proxy_pid q = connect_proxy_pid p -> w_kids v = with_proxy p (w_kids w) ->
  Forall sent_ok (proxy_signal q v).
Proof.
  intros E Hk. unfold proxy_signal. rewrite E, Hk. unfold with_proxy. destruct (connect_proxy_pid p) as [n|] eqn:En; [|done].
  constructor; [|done]. cbn. rewrite lookup_insert_eq, bool_decide_eq_true_2 by by eexists. split; [|done]. by right; right.
Qed.

Lemma alive_drop g x : alive g (waited (hd x)) x ->
  wp (drop ck h hh) (fun _ x' => returned (hw x') /\ Forall sent_ok (sent x')) (fun _ _ => False) x.
Proof.
  intros Ha. pose proof (al_core _ _ _ Ha) as [= C1 C2 C3 C4 C5 C6 C7 C8 C9]. unfold drop. apply wp_bind. unfold wp at 1. cbn [get].
  apply wp_bind. eapply alive_kill_child; [done|]. intros x1 Ha1 E1. apply wp_bind.
  apply (wp_mono _ (fun _ x2 => alive g true x2 /\ hd x2 = hd x) _ (fun _ _ => False)); [| |done].
  { destruct (waited (hd x)); [by split|]. eapply alive_orphans; [done|done|done|]. intros x2 Ha2 E2. split; congruence. }
  intros _ x2 [[_ [G1 G2] _ A4 A5] E2]. rewrite E2 in *. apply wp_bind, wp_on_world, wp_bind, wp_end_proxy. do 2 apply wp_bind, wp_on_world.
  apply wp_on_world. cbn [hw set_hw sent]. split.
  2:{ apply Forall_app_2; [done|]. apply proxy_signal_ok; [done|]. destruct (kp_kids _ _ _ _ A4) as [kid Hk]. cbn in Hk.
      by destruct (close_fds_rest (option_list (dns_audit_pipe (hd x)) ++ option_list (unotify_audit_pipe (hd x))) (hw x2)) as (_ & -> & _). }
  set (own := tag (PidFd (pid p)) (pidfd (hd x)) ++ tag PtyMaster (pty_master (hd x))).
  replace (option_list (pidfd (hd x)) ++ option_list (pty_master (hd x))) with own.*1 by (unfold own; by rewrite fmap_app, !tag_fst).
  apply settle_end; [done|]. apply (settle_destroy g); [done|done|]. rewrite C5, C6, C7. apply settle_proxy.
  replace (option_list (dns_audit_pipe (hd x)) ++ option_list (unotify_audit_pipe (hd x))) with
    (tag (PipeRead DnsPipe) (dns_audit_pipe (hd x)) ++ tag (PipeRead UnotifyPipe) (unotify_audit_pipe (hd x))).*1
    by by rewrite fmap_app, !tag_fst.
  apply kept_close. eapply kept_perm; [|exact A4]. unfold handle_res, handle_own, own, pid. rewrite C1, C4, C5, C6. solve_Permutation.
Qed.

Lemma alive_cleanup g x : alive g (waited (hd x)) x ->
  wp (cleanup ck h hh) (fun _ x' => returned (hw x') /\ Forall sent_ok (sent x')) (fun _ _ => False) x.
Proof.
  intros Ha. unfold cleanup. apply wp_bind. unfold wp at 1. cbn [get]. apply wp_bind. unfold wp at 1, on_handle, modify.
  apply wp_bind. unfold wp at 1, over_world. cbn [hw set_hd]. destruct Ha as [A1 [G1 G2] A3 [K1 K2 K3 K4] A5].
  destruct (destroy_cgroup_spec g (hd x) (hw x) G1 G2 K4) as (E1 & E2 & E3 & Hb & _).
  destruct (destroy_cgroup ck (hd x) (hw x)) as [v b1]. cbn [fst] in *.
  apply wp_bind. unfold wp at 1. cbn [hw set_hw]. destruct (remove_tmp_spec (hd x) v) as (F1 & F2 & F3 & F4).
  destruct (remove_tmp h (hd x) v) as [v' b2]. cbn [fst] in *. apply wp_bind, wp_on_world, (alive_drop None).
  pose proof A1 as [= _ C2 _]. split; try done.
  apply (kept_res _ _ _ v'); [apply emit_logged_res|]. split; rewrite ?F2, ?F3, ?F4, ?E2, ?E3; try done.
  - apply (leaves_eq _ _ (hw x)); [congruence|done].
  - rewrite C2. set_solver.
Qed.
End Life.

(** ** From the launch to the end *)

(** The sandbox runs: in its own group processes come and go, all else is as before. *)
Record drift (path : option bytes) (v v' : World) : Prop := {
  dr_fds : w_fds v' = w_fds v;
  dr_kids : w_kids v' = w_kids v;
  dr_dirs : w_dirs v' = w_dirs v;
  dr_others q : path <> Some q -> groups (w_cg v') !! q = groups (w_cg v) !! q;
  dr_group q : path = Some q -> is_Some (groups (w_cg v) !! q) ->
    (is_Some (groups (w_cg v') !! q)) /\ forall x, owns (w_cg v') x q -> forall q', owns (w_cg v') x q' -> q' = q;
}.

Section Lifecycle.
Context {T : Seccomp.Target} (k : DupKernel Desc) (ck : CgKernel) (h : LaunchHost) (hh : HandleHost) (cfg : Config).
Context (HL : LaunchLaws k ck h).

(** One step in the life of the handle: a call by its owner, or the sandbox runs. *)
Inductive lifetime (path : option bytes) : Held -> Held -> Prop :=
| life_signal s x : lifetime path x (signal hh s x).1
| life_wait x : lifetime path x (wait ck h hh x).1
| life_run x v : drift path (hw x) v -> lifetime path x (set_hw v x).

Definition started_held (p : Handle) (w : World) : Held := {| hd := p; forked := false; hw := w; sent := [] |}.

Lemma launched_fresh w mgr cmd args p w' : launched ck h cfg w mgr cmd args p w' -> fresh w p.
Proof. intros [(L1 & L2 & L3) _ _ _ _ _ L7 L8 _ L10]. split; try done. split_and!; try done. lia. Qed.

Lemma launched_alive w mgr cmd args p w' : clean ck h -> launched ck h cfg w mgr cmd args p w' ->
  alive w p (cgroup_path p) (waited p) (started_held p w').
Proof.
  intros [Ht _] [(L1 & L2 & L3) (kid & L4 & _) L5 L6 [_ L7] (L8 & L9 & _) _ [L10 L11] _ _].
  assert (Hb : boxed (w_cg w) (cgroup_path p) (w_cg w')).
  { destruct (cgroup_path p) as [path|]; [|destruct L7 as (Hg & _); rewrite (Hg Ht); by split].
    destruct L7 as (m & st & g & _ & G1 & G2 & G3 & _ & G4 & _). split; [intros q Hq; apply G4; congruence|]. intros q [= <-].
    split; [done|]. split; [by eexists|]. intros x (g' & E & Hin) q (gq & Eq & Hinq). rewrite G2 in E. injection E as <-.
    rewrite G3 in Hin. apply list_elem_of_singleton in Hin as ->. destruct (decide (q = path)) as [->|Hq]; [done|].
    exfalso. apply (L3 q). exists gq. by rewrite <- G4. }
  split; try done; cbn.
  - split; [done|]. intros [path E]. rewrite E in L7. destruct L7 as (m & _ & _ & -> & _). subst. rewrite L8. by eexists.
  - split; try done; [exists kid; by rewrite L9|]. rewrite L6. clear -L10 L11. set_solver.
Qed.

Lemma lifetime_alive w p x x' : fresh w p -> HandleLaws hh w p -> lifetime (cgroup_path p) x x' ->
  alive w p (cgroup_path p) (waited (hd x)) x -> alive w p (cgroup_path p) (waited (hd x')) x'.
Proof.
  intros Hf HH Hl Ha. destruct Hl as [s x|x|x v [D1 D2 D3 D4 D5]].
  - assert (E : waited (hd (signal hh s x).1) = waited (hd x)); [|rewrite E; by apply alive_signal].
    unfold signal, mbind, ST_bind, get. destruct (waited (hd x)) eqn:Ew; [by cbn|]. destruct (pid (hd x) =? 0); [by cbn|].
    unfold send. destruct (pidfd (hd x)); destruct (signal_fails _ _ _ _); by cbn.
  - pose proof (alive_wait ck h hh w p Hf HH x Ha) as H. unfold wp in H.
    destruct (wait ck h hh x) as [x' [s|e]]; cbn; [destruct H as [? ->]; done|by subst].
  - destruct Ha as [A1 A2 A3 [K1 K2 K3 [B1 B2]] A5]. split; try done. split; cbn; rewrite ?D2, ?D3; try done.
    { by apply (leaves_eq _ _ (hw x)). }
    split; [intros q Hq; rewrite D4 by done; by apply B1|]. intros q Hq. destruct (B2 q Hq) as (N & S & _).
    destruct (D5 q Hq S) as [S' Ho]. split_and!; [done|done|]. intros y Hy q' Hq'. rewrite Hq. f_equal. symmetry. by eapply Ho.
Qed.

Lemma lifetimes_alive w p x x' : fresh w p -> HandleLaws hh w p -> rtc (lifetime (cgroup_path p)) x x' ->
  alive w p (cgroup_path p) (waited (hd x)) x -> alive w p (cgroup_path p) (waited (hd x')) x'.
Proof. intros Hf HH Hr. induction Hr; [done|]. intros Ha. by apply IHHr, (lifetime_alive _ _ _ _ Hf HH H). Qed.

(** The two ends of a handle. *)
Definition ended (x x' : Held) : Prop := x' = (drop ck h hh x).1 \/ x' = (cleanup ck h hh x).1.

Lemma launched_ended w mgr cmd args w1 p x x' : launch k ck h mgr cfg cmd args w = (w1, Ok p) -> HandleLaws hh w p -> clean ck h ->
  rtc (lifetime (cgroup_path p)) (started_held p w1) x -> ended x x' ->
  returned w p (hw x') /\ Forall (sent_ok p) (sent x').
Proof.
  intros E HH Hc Hr He. pose proof (launch_run k ck h cfg HL w mgr cmd args) as Hl. unfold wp in Hl. rewrite E in Hl.
  pose proof (launched_fresh _ _ _ _ _ _ Hl) as Hf. pose proof (launched_alive _ _ _ _ _ _ Hc Hl) as Ha.
  apply (lifetimes_alive _ _ _ _ Hf HH Hr) in Ha. destruct He as [->| ->].
  - pose proof (alive_drop ck h hh w p Hf HH Hc _ _ Ha) as H. unfold wp in H. by destruct (drop ck h hh x) as [? []].
  - pose proof (alive_cleanup ck h hh w p Hf HH Hc _ _ Ha) as H. unfold wp in H. by destruct (cleanup ck h hh x) as [? []].
Qed.

(** C3: the end of a sandbox gives back everything. After a launch, any sequence of signals and waits by the owner and
    of runs of the sandbox, and then the end of the handle by [cleanup] or [Drop]: on a host that can remove
    directories and kill control groups, the launcher's descriptors, directories and control groups are those of before the
    launch, and so are its children, the sandbox reaped; at most the proxy, already killed, is still to be reaped. *)
Theorem sandbox_lifecycle w mgr cmd args w1 p x x' : launch k ck h mgr cfg cmd args w = (w1, Ok p) -> HandleLaws hh w p ->
  clean ck h -> rtc (lifetime (cgroup_path p)) (started_held p w1) x -> ended x x' ->
  w_fds (hw x') = w_fds w /\ w_dirs (hw x') = w_dirs w /\ groups (w_cg (hw x')) = groups (w_cg w) /\
  w_kids (hw x') !! child p = None /\
  forall y, w_kids (hw x') !! y = w_kids w !! y \/ (connect_proxy_pid p = Some y /\ y ∈ killed (w_cg (hw x'))).
Proof.
  intros E HH Hc Hr He. destruct (launched_ended _ _ _ _ _ _ _ _ E HH Hc Hr He) as [[R1 R2 R3 R4] _].
  pose proof (launch_run k ck h cfg HL w mgr cmd args) as Hl. unfold wp in Hl. rewrite E in Hl.
  destruct (launched_fresh _ _ _ _ _ _ Hl) as [[F1 _] F2 _ _]. split_and!; try done.
  destruct (R4 (child p)) as [->|[Hp _]]; [done|]. by destruct (F2 _ Hp) as (_ & ? & _).
Qed.

(** C6: to whom signals are addressed. In the life of a sandbox and at its end, every signal is sent through the handle's
    own pidfd; or by number, to the child or the target of its PID namespace before the child is reaped, or to the
    CONNECT proxy before the proxy is reaped; or it is SIGKILL to the process group of the child, without a PID
    namespace. This last one is always sent after the child was reaped, when the number of the group can already
    belong to other processes: the address is the sandbox's, but nothing keeps it so. The processes that the end of the
    control group kills are apart. *)
Theorem signals_owned w mgr cmd args w1 p x x' : launch k ck h mgr cfg cmd args w = (w1, Ok p) -> HandleLaws hh w p ->
  clean ck h -> rtc (lifetime (cgroup_path p)) (started_held p w1) x -> ended x x' ->
  forall s, s ∈ sent x' -> match dest s with
    | ToPidfd fd => pidfd p = Some fd /\ exists b, w_fds w1 !! fd = Some (PidFd (pid p), b)
    | ToPid n => (n = child p \/ n = pid p \/ connect_proxy_pid p = Some n) /\ unreaped s = true
    | ToGroup n => n = child p /\ target_pid p = None /\ signo s = SIGKILL /\ unreaped s = false
    end.
Proof.
  intros E HH Hc Hr He s Hs. destruct (launched_ended _ _ _ _ _ _ _ _ E HH Hc Hr He) as [_ H].
  rewrite List.Forall_forall in H. apply list_elem_of_In, H in Hs. unfold sent_ok in Hs.
  destruct (dest s) as [fd|n|n]; [|done..]. split; [done|]. exists true.
  pose proof (launch_run k ck h cfg HL w mgr cmd args) as Hl. unfold wp in Hl. rewrite E in Hl.
  apply (leaves_in _ _ _ _ _ (la_fds _ _ _ _ _ _ _ _ _ Hl)). unfold handle_res, handle_own, pid. cbn in Hs. rewrite Hs. set_solver.
Qed.
End Lifecycle.

(** ** Events *)

Section Events.
Context (ck : CgKernel) (h : LaunchHost) (hh : HandleHost).

(** The sink takes every event. *)
Definition takes (q : Handle) (sink : AuditSink) : Prop :=
  audit_ctx q = Some sink /\ forall got e, sink_panics sink got e = false.

Lemma emit_logged_events q sink e v : takes q sink -> w_events (emit_logged q e v) = w_events v ++ [e].
Proof. intros [E H]. unfold emit_logged, emit. rewrite E, H. done. Qed.

Lemma emit_lines_events q sink f data v : takes q sink ->
  w_events (emit_lines h q f data v) = w_events v ++ (if h_serde h then omap f (pipe_lines data) else []).
Proof.
  intros Hs. unfold emit_lines. destruct (h_serde h); [|by rewrite app_nil_r]. generalize (omap f (pipe_lines data)). intros l.
  revert v. induction l as [|e l IH]; intros v; [by rewrite app_nil_r|]. cbn [foldl].
  rewrite IH, (emit_logged_events _ _ _ _ Hs), <- app_assoc. done.
Qed.

Lemma kills_events l v : w_events (foldr kill v l) = w_events v.
Proof. by induction l. Qed.

Lemma deliver_events d s v : w_events (deliver hh d s v) = w_events v.
Proof.
  unfold deliver. destruct (s =? SIGKILL); [|done]. destruct d as [fd|n|n]; [|done|apply kills_events].
  by destruct (w_fds v !! fd) as [[[] ?]|].
Qed.

(** What the two pipes tell in the world [v]. *)
Definition dns_told (q : Handle) (n : Z) (v : World) : list Event.AuditEvent :=
  match dns_audit_pipe q with
  | Some fd => if h_serde h && negb (match pipe_poll hh v fd with PollTimeout => true | _ => false end)
               then omap (dns_event hh n) (pipe_lines (drain (pipe_drain hh v fd) [])) else []
  | None => []
  end.
Definition unotify_told (q : Handle) (n : Z) (v : World) : list Event.AuditEvent :=
  match unotify_audit_pipe q with
  | Some fd => if h_serde h && (match pipe_poll hh v fd with PollReady => true | _ => false end)
               then omap (unotify_event hh n) (pipe_lines (drain (pipe_drain hh v fd) [])) else []
  | None => []
  end.

Lemma read_dns_events sink x n : takes (hd x) sink -> exists x', read_dns_audit_pipe h hh n x = (x', Ok tt) /\
  w_events (hw x') = w_events (hw x) ++ dns_told (hd x) n (hw x) /\ takes (hd x') sink /\ w_cg (hw x') = w_cg (hw x) /\
  unotify_audit_pipe (hd x') = unotify_audit_pipe (hd x) /\ cgroup_mgr (hd x') = cgroup_mgr (hd x) /\
  cgroup_path (hd x') = cgroup_path (hd x).
Proof.
  intros Hs. unfold read_dns_audit_pipe, dns_told. destruct (dns_audit_pipe (hd x)) as [fd|]; [|exists x; by rewrite app_nil_r].
  eexists. split; [done|]. cbn [hw hd set_hw set_hd]. split_and!; try done.
  - destruct (pipe_poll hh (hw x) fd); cbn [negb]; rewrite ?(emit_lines_events _ sink) by done; destruct (h_serde h); cbn;
      by rewrite ?app_nil_r.
  - destruct (pipe_poll hh (hw x) fd); try done; by injection (emit_lines_res h (with_pipes None (unotify_audit_pipe (hd x)) (hd x))
      (dns_event hh n) (drain (pipe_drain hh (hw x) fd) []) (close_fd fd (hw x))).
Qed.

Lemma read_unotify_events sink x n : takes (hd x) sink -> exists x', read_unotify_audit_pipe h hh n x = (x', Ok tt) /\
  w_events (hw x') = w_events (hw x) ++ unotify_told (hd x) n (hw x) /\ takes (hd x') sink /\ w_cg (hw x') = w_cg (hw x) /\
  cgroup_mgr (hd x') = cgroup_mgr (hd x) /\ cgroup_path (hd x') = cgroup_path (hd x).
Proof.
  intros Hs. unfold read_unotify_audit_pipe, unotify_told.
  destruct (unotify_audit_pipe (hd x)) as [fd|]; [|exists x; by rewrite app_nil_r]. pose proof Hs as [Es _].
  eexists. split; [done|]. cbn [hw hd set_hw set_hd audit_ctx with_pipes]. rewrite Es. split_and!; try done.
  - destruct (pipe_poll hh (hw x) fd); rewrite ?(emit_lines_events _ sink) by done; destruct (h_serde h); cbn; by rewrite ?app_nil_r.
  - destruct (pipe_poll hh (hw x) fd); try done; by injection (emit_lines_res h (with_pipes (dns_audit_pipe (hd x)) None (hd x))
      (unotify_event hh n) (drain (pipe_drain hh (hw x) fd) []) (close_fd fd (hw x))).
Qed.

Lemma stats_eq q q' v v' : cgroup_mgr q' = cgroup_mgr q -> cgroup_path q' = cgroup_path q -> w_cg v' = w_cg v ->
  resource_stats ck q' v' = resource_stats ck q v /\ oom_count ck q' v' = oom_count ck q v.
Proof. intros E1 E2 E3. unfold resource_stats, oom_count. by rewrite E1, E2, E3. Qed.

Lemma exit_reports sink x n st : takes (hd x) sink -> exists x', exit_events ck n st x = (x', Ok tt) /\
  w_events (hw x') = w_events (hw x) ++ [Event.ProcessExited n (status_code st) (status_signal st) (oom_count ck (hd x) (hw x));
                                         Event.ResourceUsage (resource_stats ck (hd x) (hw x))] /\
  final_stats (hd x') = Some (resource_stats ck (hd x) (hw x)) /\ w_cg (hw x') = w_cg (hw x).
Proof.
  intros Hs. unfold exit_events. eexists. split; [done|]. cbn [hw hd set_hw set_hd]. split_and!; [|done|].
  - rewrite !(emit_logged_events _ sink) by done. by rewrite <- app_assoc.
  - match goal with |- w_cg (emit_logged ?q ?e (emit_logged ?q' ?e' ?v)) = _ =>
      pose proof (emit_logged_res q e (emit_logged q' e' v)) as [= _ E _]; pose proof (emit_logged_res q' e' v) as [= _ E' _] end.
    by rewrite E, E'.
Qed.

(** Waiting up to the point where the pipes are read. *)
Lemma orphans_same tp n x : exists x', kill_orphans hh tp n x = (x', Ok tt) /\ hd x' = hd x /\ w_events (hw x') = w_events (hw x) /\
  (forall y, w_kids (hw x) !! y = None -> w_kids (hw x') !! y = None).
Proof.
  unfold kill_orphans. destruct (_ && _); [|by exists x]. unfold mbind, ST_bind, send.
  destruct (signal_fails _ _ _ _); (eexists; split; [done|]); [done|]. cbn [hd hw]. split_and!; [done|apply deliver_events|].
  intros y Hy. unfold deliver. cbn. generalize (members hh (hw x) n). intros l. by induction l.
Qed.

Lemma wait_child_same x x' st : wait_child hh x = (x', Ok st) -> audit_ctx (hd x') = audit_ctx (hd x) /\ w_events (hw x') = w_events (hw x) /\
  dns_audit_pipe (hd x') = dns_audit_pipe (hd x) /\ unotify_audit_pipe (hd x') = unotify_audit_pipe (hd x) /\
  cgroup_mgr (hd x') = cgroup_mgr (hd x) /\ cgroup_path (hd x') = cgroup_path (hd x) /\
  w_kids (hw x') !! child (hd x) = None.
Proof.
  unfold wait_child. destruct (wait_status _ _ _) as [s|]; [|done]. intros [= <- <-].
  destruct (forked x); cbn; rewrite lookup_delete_eq; done.
Qed.

Lemma wait_events x x' st sink : takes (hd x) sink -> wait ck h hh x = (x', Ok st) ->
  exists vd vu, w_kids vd !! child (hd x) = None /\
  w_events (hw x') = w_events (hw x) ++ dns_told (hd x) (pid (hd x)) vd ++ unotify_told (hd x) (pid (hd x)) vu ++
    [Event.ProcessExited (pid (hd x)) (status_code st) (status_signal st) (oom_count ck (hd x) (hw x'));
     Event.ResourceUsage (resource_stats ck (hd x) (hw x'))] /\
  final_stats (hd x') = Some (resource_stats ck (hd x) (hw x')).
Proof.
  intros Hs. unfold wait. unfold mbind, ST_bind, get. destruct (waited (hd x)); [done|].
  destruct (wait_child hh x) as [x1 [s|]] eqn:E1; [|done]. apply wait_child_same in E1 as (S1 & V1 & P1 & P2 & G1 & G2 & K1).
  unfold on_handle, modify. destruct (orphans_same (target_pid (hd x)) (child (hd x)) (set_hd (with_waited (hd x1)) x1))
    as (x2 & -> & H2 & V2 & K2).
  assert (Hs2 : takes (hd x2) sink) by (rewrite H2; unfold takes; cbn [hd set_hd with_waited audit_ctx]; by rewrite S1).
  destruct (read_dns_events sink x2 (pid (hd x)) Hs2) as (x3 & -> & V3 & Hs3 & C3 & U3 & M3 & Q3).
  destruct (read_unotify_events sink x3 (pid (hd x)) Hs3) as (x4 & -> & V4 & Hs4 & C4 & M4 & Q4).
  destruct (exit_reports sink x4 (pid (hd x)) s Hs4) as (x5 & -> & V5 & F5 & C5). intros [= <- <-].
  exists (hw x2), (hw x3). destruct (stats_eq (hd x) (hd x4) (hw x5) (hw x4)) as [R1 R2].
  { rewrite M4, M3, H2. exact G1. } { rewrite Q4, Q3, H2. exact G2. } { done. }
  rewrite <- R1, <- R2. split_and!; [apply K2, K1| |done]. rewrite V5, V4, V3, V2. cbn [hw set_hd]. rewrite V1, <- !app_assoc.
  unfold dns_told, unotify_told. rewrite U3, H2. cbn [hd set_hd with_waited dns_audit_pipe unotify_audit_pipe]. by rewrite P1, P2.
Qed.


(** *** Two consequences *)

Lemma read_dns_sent n x : exists x', read_dns_audit_pipe h hh n x = (x', Ok tt) /\ sent x' = sent x.
Proof. unfold read_dns_audit_pipe. destruct (dns_audit_pipe (hd x)); by eexists. Qed.

Lemma read_unotify_sent n x : exists x', read_unotify_audit_pipe h hh n x = (x', Ok tt) /\ sent x' = sent x.
Proof. unfold read_unotify_audit_pipe. destruct (unotify_audit_pipe (hd x)); by eexists. Qed.

Lemma orphans_sent n x : 1 < n -> exists x', kill_orphans hh None n x = (x', Ok tt) /\ sent x' = sent x ++
  [{| dest := ToGroup n; signo := SIGKILL; unreaped := bool_decide (is_Some (w_kids (hw x) !! child (hd x))) |}].
Proof.
  intros Hn. unfold kill_orphans. rewrite bool_decide_true, (proj2 (Z.ltb_lt 1 n)) by done. cbn [andb]. unfold mbind, ST_bind, send.
  destruct (signal_fails _ _ _ _); by eexists.
Qed.

(** The group is signalled after its leader was reaped, when the number may already belong to others. *)
Lemma wait_signals_reaped x x' st : target_pid (hd x) = None -> 1 < child (hd x) -> forked x = false -> wait ck h hh x = (x', Ok st) ->
  sent x' = sent x ++ [{| dest := ToGroup (child (hd x)); signo := SIGKILL; unreaped := false |}].
Proof.
  intros Ht Hc Hf. unfold wait, mbind, ST_bind, get. destruct (waited (hd x)); [done|].
  unfold wait_child. rewrite Hf. destruct (wait_status _ _ _) as [st'|]; [|done]. unfold on_handle, modify. rewrite Ht.
  match goal with |- context [kill_orphans hh None _ ?y] => destruct (orphans_sent (child (hd x)) y Hc) as (x2 & -> & E2) end.
  destruct (read_dns_sent (pid (hd x)) x2) as (x3 & -> & E3). destruct (read_unotify_sent (pid (hd x)) x3) as (x4 & -> & E4).
  intros [= <- _]. cbn [sent set_hw set_hd]. rewrite E4, E3, E2. cbn. by rewrite lookup_delete_eq.
Qed.

(** The event of [cleanup] reports every group as destroyed, also one that stays: [destroy] has no error. *)
Lemma destroy_reported q v m path : cgroup_mgr q = Some m -> cgroup_path q = Some path -> (destroy_cgroup ck q v).2 = true.
Proof.
  intros E1 E2. unfold destroy_cgroup. rewrite E1, E2. assert (Hr : forall n s, exists s', rmdir_retry ck n path s = (s', Ok tt)).
  { induction n as [|n IH]; intros s; [by eexists|]. cbn. unfold mbind, ST_bind, remove_dir.
    destruct (groups s !! path) as [g|]; [|apply IH]. destruct (_ && _); [by eexists|apply IH]. }
  assert (Hl : forall l s, exists s', kill_lines l s = (s', Ok tt)).
  { induction l as [|x l IH]; intros s; [by eexists|]. cbn. unfold mbind, ST_bind.
    destruct (parse_i32 (trim x)) as [y|]; [destruct (0 <? y)|]; apply IH. }
  assert (Hk : exists s', kill_all ck path (w_cg v) = (s', Ok tt)).
  { unfold kill_all, mbind, ST_bind, cg_write. destruct (write_err _ _ _ _ _); [|by eexists]. unfold kill_procs, mbind, ST_bind, cg_read.
    destruct (read_to_string _ _ _ _); [apply Hl|by eexists]. }
  unfold destroy, mbind, ST_bind. destruct Hk as [s1 ->]. by destruct (Hr DESTROY_RETRIES s1) as [s2 ->].
Qed.
End Events.

(** ** Witnesses *)

(** A kernel on which every child exits with status 3 and the sandbox has started a second process. *)
Definition demo_handle_host : HandleHost := {|
  signal_fails _ _ _ := false;
  wait_status _ _ := Some 768;
  members v _ := List.filter (fun x => forallb (fun kv => negb (bool_decide (is_Some (groups demo_cgroups !! kv.1)))
                                                || negb (bool_decide (x ∈ procs kv.2))) (map_to_list (groups (w_cg v)))) [1001];
  pipe_poll _ _ := PollReady;
  pipe_drain _ _ := [];
  serde_dns _ := None;
  serde_unotify _ := None;
|}.

Lemma demo_members v x q : x ∈ members demo_handle_host v 1000 -> owns (w_cg v) x q -> groups demo_cgroups !! q = None.
Proof.
  intros Hx (g & Hg & Hin). unfold members, demo_handle_host in Hx. apply list_elem_of_In, List.filter_In in Hx as [_ Hx]. rewrite forallb_forall in Hx.
  apply elem_of_map_to_list, list_elem_of_In, Hx in Hg. cbn [fst snd] in Hg. rewrite (bool_decide_true (x ∈ procs g)) in Hg by done.
  rewrite orb_false_r in Hg. apply negb_true_iff, bool_decide_eq_false, eq_None_not_Some in Hg. done.
Qed.

Lemma demo_pids : match (demo_run demo_mgr).2 with Ok p => (child p, target_pid p) = (1000, Some 1000) | Err _ => False end.
Proof. by vm_compute. Qed.

Lemma demo_handle_laws p : child p = 1000 -> target_pid p = Some 1000 -> HandleLaws demo_handle_host demo_world p.
Proof.
  intros E1 E2. assert (Hf : free_pid demo_world 1000 = true) by by vm_compute. apply free_pid_spec in Hf as [_ Hf]. split.
  - rewrite E2. intros t q [= <-]. apply Hf.
  - rewrite E1. apply demo_members.
  - by eexists.
Qed.

(** A signal, a wait, and the end by [cleanup]. *)
Lemma sandbox_lifecycle_witness :
  match demo_run demo_mgr with
  | (w1, Ok p) =>
    let x := (wait (Cgroup.demo_kernel []) demo_host demo_handle_host (signal demo_handle_host 15 (started_held p w1)).1).1 in
    let x' := (cleanup (Cgroup.demo_kernel []) demo_host demo_handle_host x).1 in
    w_fds (hw x') = w_fds demo_world /\ w_kids (hw x') !! child p = None
  | _ => False
  end.
Proof.
  pose proof demo_succeeds as S1. pose proof demo_pids as S2. destruct (demo_run demo_mgr) as [w1 [p|e]] eqn:E; [|discriminate S1].
  cbn [snd] in S2. injection S2 as S2 S3. intros x x'.
  destruct (sandbox_lifecycle _ _ _ demo_handle_host _ (demo_laws _) _ _ _ _ _ _ x x' E (demo_handle_laws p S2 S3))
    as (H1 & _ & _ & H2 & _); [split; [apply demo_tidy|done]| |right; done|by split].
  eapply rtc_l; [apply (life_signal _ _ _ _ 15)|]. apply rtc_once, life_wait.
Defined.

Lemma signals_owned_witness :
  match demo_run demo_mgr with
  | (w1, Ok p) =>
    let x' := (drop (Cgroup.demo_kernel []) demo_host demo_handle_host (signal demo_handle_host 15 (started_held p w1)).1).1 in
    forall s, s ∈ sent x' -> (dest s = ToPidfd 10 -> pidfd p = Some 10) /\ (dest s = ToPid 2000 -> unreaped s = true)
  | _ => False
  end.
Proof.
  pose proof demo_succeeds as S1. pose proof demo_pids as S2. destruct (demo_run demo_mgr) as [w1 [p|e]] eqn:E; [|discriminate S1].
  cbn [snd] in S2. injection S2 as S2 S3. intros x' s Hs.
  assert (H := signals_owned _ _ _ demo_handle_host _ (demo_laws _) _ _ _ _ _ _ (signal demo_handle_host 15 (started_held p w1)).1 x'
    E (demo_handle_laws p S2 S3) (conj (demo_tidy _) (fun _ _ => eq_refl)) (rtc_once _ _ (life_signal _ _ _ _ 15 _)) (or_introl eq_refl) s Hs).
  split; intros Ed; rewrite Ed in H; apply H.
Defined.

(** A handle with a control group, whose events go to a sink, before the wait. *)
Definition demo_held : Held := {|
  hd := {| child := 1000; tmp_dir := bs "/tmp/arapuca-x"; cgroup_path := Some (task_path demo_manager (bs "t1"));
           cgroup_mgr := Some demo_manager; dns_audit_pipe := Some 6; unotify_audit_pipe := None; pidfd := None;
           target_pid := None; waited := false; connect_proxy_pid := None; connect_proxy_pidfd := None;
           connect_proxy_socket := None; pty_master := None;
           audit_ctx := Some {| is_mandatory := true; sink_panics _ _ := false |}; final_stats := None |};
  forked := false; hw := demo_world; sent := [] |}.

Lemma demo_waited : (wait (Cgroup.demo_kernel []) demo_host demo_handle_host demo_held).2 = Ok 768.
Proof. by vm_compute. Qed.

