(* ===== verification/Trail.v ===== *)
(** * Trail: from a blocked DNS query to the event

    The bridge in the sandbox answers DNS queries and writes one line for each to a
    pipe ([Dns]); the launcher reads the pipe when it waits ([Handle]).  Every line
    that was written becomes one event. *)

From stdpp Require Import gmap.
From S2P Require Import Prelude Text Json Dns AuditLog Launch Handle HandleSpec.

(** ** Lines *)

Lemma strip_cr x : Forall (fun b => 32 <= b) x -> strip_suffix [13] x = None.
Proof.
  intros H. unfold strip_suffix. destruct (strip_prefix _ _) as [r|] eqn:E; [|done]. apply strip_prefix_Some in E.
  apply (f_equal reverse) in E. rewrite reverse_involutive, reverse_app in E. subst x.
  apply Forall_app in H as [_ H]. change (Forall (fun b => 32 <= b) [13]) in H. inversion H. lia.
Qed.

Lemma lines_printable l : Forall (Forall (fun b => 32 <= b)) l -> lines (concat (map (fun x => x ++ [10]) l)) = l.
Proof.
  induction 1 as [|x l Hx _ IH]; [done|]. cbn [map concat]. unfold lines in *. rewrite <- app_assoc. cbn [app].
  rewrite split_app by (eapply list.Forall_impl; [exact Hx|]; cbn; lia).
  destruct (split 10 _) as [|y r] eqn:E; [by apply split_nonempty in E|]. cbn [lines_of]. rewrite strip_cr by done. cbn. by f_equal.
Qed.

Lemma lossy_ascii s : Forall (fun c => 0 <= c < 128) s -> Utf8.lossy s = s.
Proof. intros H. eapply Utf8.lossy_decode, Utf8.decode_ascii, H. Qed.

(** ** What the pipe gives *)

Lemma drain_all chunks data : Forall (fun b => 0 < len b <= 4096) chunks -> len data + len (concat chunks) <= MAX_AUDIT_DRAIN ->
  drain (map Bytes chunks ++ [End]) data = data ++ concat chunks.
Proof.
  intros H. revert data. induction H as [|b l [Hb1 Hb2] _ IH]; intros data Hd; cbn [map app drain concat] in *.
  - rewrite app_nil_r. by destruct (_ <=? _).
  - rewrite len_app in Hd. pose proof (len_nonneg (concat l)). destruct (_ <=? _) eqn:E; [lia|].
    rewrite take_ge by (unfold len in *; lia). rewrite decide_False by by intros ->. rewrite IH, <- app_assoc; [done|].
    rewrite len_app. lia.
Qed.

(** The lines that are in the pipe after the server's writes. *)
Definition written (a : DnsAction) : option bytes :=
  match a with AuditLine l Written => Some l | AuditSummary _ l Written => Some l | _ => None end.

(** The name and the type that a query is reported with. *)
Definition told (i : DnsInput) : option (bytes * bytes) :=
  match i with
  | Datagram _ _ Written _ =>
    buf ← query_datagram i;
    Some match parse_query buf with
         | Some q => (domain q, qtype_name (qtype q))
         | None => (bs "<unparseable>", bs "UNKNOWN")
         end
  | _ => None
  end.

Definition blocked_query (pid : Z) (nt : bytes * bytes) : Event.AuditEvent :=
  Event.NetworkBlocked pid nt.1 (bs "dns") (Some nt.2).

(** A text that JSON writes as it is. *)
Definition json_plain (c : Z) : bool := (32 <=? c) && (c <? 127) && negb (c =? dquote) && negb (c =? 92).

(** [serde_json]: reads back an object with plain strings, refuses one without the members. *)
Record SerdeLaws (hh : HandleHost) : Prop := {
  serde_record d t line : forallb json_plain d = true -> forallb json_plain t = true -> audit_record d t = line ++ [10] ->
    serde_dns hh line = Some (d, t);
  serde_dropped n line : dropped_record n = line ++ [10] -> serde_dns hh line = None;
}.

Section Trail.
Context (hh : HandleHost) (HS : SerdeLaws hh).

Definition printable (l : bytes) : Prop := Forall (fun c => 32 <= c < 127) l.

Lemma plain_printable s : forallb json_plain s = true -> printable s.
Proof. rewrite forallb_forall. intros H. apply List.Forall_forall. intros c Hc. specialize (H c Hc). unfold json_plain in H. lia. Qed.

Lemma record_body d t : printable d -> printable t -> exists line, audit_record d t = line ++ [10] /\ printable line /\ line <> [].
Proof.
  intros Hd Ht. exists ([ch "{"] ++ key "domain" ++ [dquote] ++ d ++ [dquote; ch ","]
    ++ key "qtype" ++ [dquote] ++ t ++ [dquote; ch "}"]). split_and!; [|repeat (apply Forall_app; split); try done; by_eval|done].
  unfold audit_record. by rewrite <- !app_assoc.
Qed.

Lemma dropped_body n : 0 <= n -> exists line, dropped_record n = line ++ [10] /\ printable line /\ line <> [].
Proof.
  intros Hn. exists ([ch "{"] ++ key "dropped" ++ dec n ++ [ch "}"]). split_and!; [unfold dropped_record; by rewrite <- !app_assoc| |done].
  repeat (apply Forall_app; split); try by_eval. destruct (dec_digits n Hn) as [H _]. eapply list.Forall_impl; [exact H|]. cbn. lia.
Qed.

Lemma name_plain s : forallb name_char s = true -> forallb json_plain s = true.
Proof.
  rewrite !forallb_forall. intros H c Hc. specialize (H c Hc). unfold json_plain. change dquote with 34.
  unfold name_char, label_char, is_ascii_alphanumeric, is_ascii_digit, is_ascii_upper, is_ascii_lower in H.
  change (ch "-") with 45 in H. change (ch "_") with 95 in H. change (ch ".") with 46 in H. lia.
Qed.

(** The record of a query carries a plain name and type. *)
Lemma line_record buf : Forall is_u8 buf -> let nt := match parse_query buf with
    | Some q => (domain q, qtype_name (qtype q)) | None => (bs "<unparseable>", bs "UNKNOWN") end in
  dns_line buf = audit_record nt.1 nt.2 /\ forallb json_plain nt.1 = true /\ forallb json_plain nt.2 = true.
Proof.
  intros Hb. unfold dns_line. destruct (parse_query buf) as [q|] eqn:Eq; cbn; [|done].
  destruct (parse_query_domain buf q Hb Eq) as [Hc _]. rewrite json_escape_name by done.
  split_and!; [done|by apply name_plain|]. apply name_plain, qtype_name_spec.
Qed.

(** Lines as they are written, what they hold, and the events they become. *)
Definition carries (pid : Z) (l : list bytes) (nts : list (bytes * bytes)) : Prop :=
  exists recs, l = map (fun x => x ++ [10]) recs /\ Forall (fun x => printable x /\ x <> []) recs /\
    omap (dns_event hh pid) recs = blocked_query pid <$> nts.

Lemma carries_nil pid : carries pid [] [].
Proof. by exists []. Qed.

Lemma carries_app pid l nts l' nts' : carries pid l nts -> carries pid l' nts' -> carries pid (l ++ l') (nts ++ nts').
Proof.
  intros (r & -> & H1 & E1) (r' & -> & H2 & E2). exists (r ++ r'). split_and!; [by rewrite map_app|by apply Forall_app|].
  by rewrite omap_app, fmap_app, E1, E2.
Qed.

Lemma carries_record pid d t : forallb json_plain d = true -> forallb json_plain t = true ->
  carries pid [audit_record d t] [(d, t)].
Proof.
  intros Hd Ht. pose proof (plain_printable _ Hd) as Pd. pose proof (plain_printable _ Ht) as Pt.
  destruct (record_body d t Pd Pt) as (line & E & Hl & Hne). exists [line]. split_and!; [by rewrite E|by constructor|].
  cbn. unfold dns_event. rewrite (serde_record _ HS d t line) by done. by rewrite !sanitize_printable.
Qed.

Lemma carries_dropped pid n : 0 <= n -> carries pid [dropped_record n] [].
Proof.
  intros Hn. destruct (dropped_body n Hn) as (line & E & Hl & Hne). exists [line]. split_and!; [by rewrite E|by constructor|].
  cbn. unfold dns_event. by rewrite (serde_dropped _ HS n line).
Qed.

(** One turn of the server: nothing is written, or the record of a query and perhaps the count of lost records. *)
Lemma dns_step_cases d i d' acts : input_ok i -> dns_step d i = (d', acts) ->
  (query_datagram i = None /\ d' = d /\ omap written acts = []) \/
  exists buf src lw sw send, i = Datagram buf src lw sw /\ query_datagram i = Some buf /\ omap written send = [] /\
    (d', acts) = match lw with
                 | Dns.WouldBlock => (wrap 64 (d + 1), AuditLine (dns_line buf) lw :: send)
                 | _ => if 0 <? d then (0, AuditLine (dns_line buf) lw :: AuditSummary d (dropped_record d) sw :: send)
                        else (d, AuditLine (dns_line buf) lw :: send)
                 end.
Proof.
  intros Hi. destruct i as [ok|buf src lw sw]; cbn [dns_step]; [by destruct ok; intros [= <- <-]; left|].
  destruct buf as [|b0 [|b1 [|b2 buf]]]; try (by intros [= <- <-]; left). cbn [input_ok query_datagram] in *.
  assert (H2 : is_u8 b2) by (by do 2 apply Forall_cons_1 in Hi as [_ Hi]; inv Hi). set (b := b0 :: b1 :: b2 :: buf) in *.
  change (default 0 (b !! 2%nat)) with b2. pose proof (qr_byte b2 H2) as Hq. intros H.
  destruct (len b <? 12) eqn:E1; cbn [orb] in H.
  { injection H as <- <-. left. destruct (12 <=? len b) eqn:E; [lia|done]. }
  destruct (Z.land b2 128 =? 0) eqn:E2; cbn [negb] in H.
  - right. exists b, src, lw, sw. set (resp := build_nxdomain b (be16 b0 b1)) in H.
    exists (if decide (resp = []) then [] else [SendTo resp src]). split_and!; [done| |by case_decide|].
    + rewrite (proj2 (Z.leb_le 12 (len b))), (proj2 (Z.ltb_lt b2 128)) by lia. done.
    + rewrite <- H. by destruct lw, (0 <? d).
  - injection H as <- <-. left. destruct (b2 <? 128) eqn:E; [lia|]. by rewrite andb_false_r.
Qed.

Lemma carries_step pid d i d' acts : 0 <= d -> input_ok i -> dns_step d i = (d', acts) ->
  0 <= d' /\ carries pid (omap written acts) (option_list (told i)).
Proof.
  intros Hd Hi H. apply dns_step_cases in H as [(Hq & -> & ->)|(buf & src & lw & sw & send & -> & Hq & Hs & E)]; [| |done].
  - split; [done|]. unfold told. destruct i as [|? ? [] ?]; try apply carries_nil. rewrite Hq. apply carries_nil.
  - destruct (line_record buf Hi) as (El & Pn & Pt). unfold told. rewrite Hq. pose proof (carries_record pid _ _ Pn Pt) as Hr.
    rewrite <- El, <- surjective_pairing in Hr. pose proof (carries_dropped pid d Hd) as Hdr.
    destruct lw; cbn [mbind option_bind option_list]; [| |]; cycle 1.
    { injection E as -> ->. split; [apply Z.mod_pos_bound; lia|]. cbn. rewrite Hs. apply carries_nil. }
    { destruct (0 <? d); injection E as -> ->; (split; [done|]); cbn; rewrite ?Hs; [|apply carries_nil]. by destruct sw; try apply carries_nil. }
    destruct (0 <? d); injection E as -> ->; (split; [done|]); cbn [omap list_omap written].
    + pose proof (carries_app pid _ _ _ _ Hr Hdr) as Hb. destruct sw; cbn [written]; rewrite Hs; done.
    + by rewrite Hs.
Qed.

Lemma carries_serve pid inputs d d' acts : 0 <= d -> Forall input_ok inputs -> dns_serve d inputs = (d', acts) ->
  carries pid (omap written acts) (omap told inputs).
Proof.
  intros Hd Hi. revert d d' acts Hd. induction Hi as [|i l Hi _ IH]; intros d d' acts Hd H; cbn [dns_serve] in H.
  { injection H as <- <-. apply carries_nil. }
  destruct (dns_step d i) as [d1 a1] eqn:E1, (dns_serve d1 l) as [d2 a2] eqn:E2. injection H as <- <-.
  destruct (carries_step pid _ _ _ _ Hd Hi E1) as [Hd1 H1]. pose proof (carries_app pid _ _ _ _ H1 (IH _ _ _ Hd1 E2)) as H.
  rewrite omap_app. cbn [omap list_omap]. by destruct (told i).
Qed.

(** The lines of a pipe that was read to the end. *)
Lemma carries_events pid l nts : carries pid l nts -> omap (dns_event hh pid) (pipe_lines (concat l)) = blocked_query pid <$> nts.
Proof.
  intros (recs & -> & H & <-). f_equal. unfold pipe_lines. rewrite lossy_ascii.
  - rewrite lines_printable by (eapply list.Forall_impl; [exact H|]; intros x [Hx _]; eapply list.Forall_impl; [exact Hx|]; cbn; lia).
    apply List.forallb_filter_id, forallb_forall. intros x Hx. rewrite List.Forall_forall in H.
    apply negb_true_iff, bool_decide_eq_false. by apply H.
  - induction H as [|x recs [Hx _] _ IH]; cbn; [done|]. rewrite <- app_assoc. apply Forall_app; split; [|by constructor].
    eapply list.Forall_impl; [exact Hx|]. cbn. lia.
Qed.
End Trail.

(** C11: from the query to the event: if the bridge's server has answered [inputs], and all it wrote to the pipe is read when
    the launcher waits, then the launcher reports one blocked query, with name and type, for every query whose record was
    written, in the order of arrival, before anything else. The launcher's reader of a record ([serde_json], not part of
    the sources) is assumed to find the members that the writer names ([SerdeLaws]). *)
Theorem dns_queries_reported ck h hh sink x x' st fd inputs d acts chunks :
  SerdeLaws hh -> h_serde h = true -> takes (hd x) sink -> dns_audit_pipe (hd x) = Some fd ->
  Forall input_ok inputs -> dns_serve 0 inputs = (d, acts) ->
  (forall v, pipe_poll hh v fd = PollReady /\ pipe_drain hh v fd = map Bytes chunks ++ [End]) ->
  Forall (fun b => 0 < len b <= 4096) chunks -> concat chunks = concat (omap written acts) ->
  len (concat chunks) <= MAX_AUDIT_DRAIN -> wait ck h hh x = (x', Ok st) ->
  exists rest, w_events (hw x') = w_events (hw x) ++ (blocked_query (pid (hd x)) <$> omap told inputs) ++ rest.
Proof.
  intros HS Hser Hs Hp Hi Hd Hpipe Hch Hcat Hlen Hw.
  destruct (wait_events _ _ _ _ _ _ _ Hs Hw) as (vd & vu & _ & E & _). eexists. rewrite E. do 2 f_equal.
  unfold dns_told. rewrite Hp, Hser. destruct (Hpipe vd) as [-> ->]. cbn [andb negb]. rewrite drain_all by done.
  rewrite app_nil_l, Hcat. apply carries_events, (carries_serve hh HS _ _ 0 d); [lia|done|done].
Qed.

(** A reader of such objects. *)
Definition demo_serde (line : bytes) : option (bytes * bytes) :=
  r ← strip_prefix ([ch "{"] ++ key "domain" ++ [dquote]) line;
  '(d, r) ← split_once dquote r;
  r ← strip_prefix ([ch ","] ++ key "qtype" ++ [dquote]) r;
  '(t, r) ← split_once dquote r;
  if decide (r = [ch "}"]) then Some (d, t) else None.

Definition demo_chunks : list bytes := [take 20 (dns_line demo_query); List.skipn 20 (dns_line demo_query)].

Definition demo_trail_host : HandleHost := {|
  signal_fails _ _ _ := false; wait_status _ _ := Some 0; members _ _ := [];
  pipe_poll _ _ := PollReady; pipe_drain _ _ := map Bytes demo_chunks ++ [End];
  serde_dns := demo_serde; serde_unotify _ := None;
|}.

Lemma plain_no_quote s : forallb json_plain s = true -> Forall (fun x => x <> dquote) s.
Proof. rewrite forallb_forall. intros H. apply List.Forall_forall. intros c Hc. specialize (H c Hc). unfold json_plain in H. lia. Qed.

Lemma demo_serde_laws : SerdeLaws demo_trail_host.
Proof.
  split; cbn [serde_dns demo_trail_host].
  - intros d t line Hd Ht E.
    assert (line = ([ch "{"] ++ key "domain" ++ [dquote]) ++ d ++ dquote :: ([ch ","] ++ key "qtype" ++ [dquote]) ++ t ++ dquote :: [ch "}"]) as ->.
    { apply (app_inj_tail line _ 10 10). rewrite <- E. unfold audit_record. by repeat (progress (rewrite <- ?app_assoc; cbn [app])). }
    unfold demo_serde. rewrite strip_prefix_app. cbn [mbind option_bind].
    rewrite (proj2 (split_once_Some dquote _ d _)) by (split; [done|by apply plain_no_quote]). cbn [mbind option_bind].
    rewrite strip_prefix_app. cbn [mbind option_bind].
    rewrite (proj2 (split_once_Some dquote _ t _)) by (split; [done|by apply plain_no_quote]). done.
  - intros n line E. assert (line = [ch "{"] ++ key "dropped" ++ dec n ++ [ch "}"]) as ->; [|done].
    apply (app_inj_tail line _ 10 10). rewrite <- E. unfold dropped_record. by rewrite <- !app_assoc.
Qed.

Definition demo_trail_config : LaunchHost := {|
  h_canonicalize := Some; h_is_dir _ := true; selfexec_enabled := false; current_exe := None; path_var := None; h_is_file _ := false;
  h_serde := true; abi_version := 4; mount_ns_available := true; temp_dir _ _ := None; rmtree_ok _ _ := true;
  proxy_fork _ := Err (Process "fork CONNECT proxy: {e}"); openpty _ := None; pipe2 _ := None; fork_pid _ := None; setup_ok _ := true;
  reparented _ := false; tty_ok _ := true; exec_ok _ _ := true; pidfd_open _ _ := None; audit_reads _ := []; report_reads _ := [];
  exited_yet _ _ := true;
|}.

Lemma demo_trail_waited : (wait (Cgroup.demo_kernel []) demo_trail_config demo_trail_host demo_held).2 = Ok 0.
Proof. by vm_compute. Qed.

(** The query of [Dns.demo_query], whose record arrives in two pieces. *)
Lemma dns_queries_reported_witness : exists x' st rest,
  wait (Cgroup.demo_kernel []) demo_trail_config demo_trail_host demo_held = (x', Ok st) /\
  w_events (hw x') = Event.NetworkBlocked 1000 (bs "www.example-1.com") (bs "dns") (Some (bs "AAAA")) :: rest.
Proof.
  set (r := wait (Cgroup.demo_kernel []) demo_trail_config demo_trail_host demo_held).
  assert (E : r = (r.1, Ok 0)) by (rewrite <- demo_trail_waited; apply surjective_pairing).
  destruct (dns_queries_reported (Cgroup.demo_kernel []) demo_trail_config demo_trail_host {| is_mandatory := true; sink_panics _ _ := false |} demo_held r.1 0 6
    [Datagram demo_query 9 Written Written] 0 (dns_serve 0 [Datagram demo_query 9 Written Written]).2 demo_chunks
    demo_serde_laws eq_refl (conj eq_refl (fun _ _ => eq_refl)) eq_refl) as [rest H].
  - apply Forall_cons; [by_eval|by apply Forall_nil].
  - vm_compute; reflexivity.
  - by split.
  - by_eval.
  - vm_compute; reflexivity.
  - by vm_compute.
  - exact E.
  - exists r.1, 0, rest. split; [exact E|]. rewrite H. vm_compute; reflexivity.
Defined.
