(* ===== verification/Windows.v ===== *)
(** * Windows: the texts that the Windows backend hands to [CreateProcessW]

    From [platform/windows.rs]: the command line ([quote_args]), the working
    directory, the environment of the child and its encoding as a block, and the
    name of the container.  The reader of command lines below is the
    specification: the rules that Microsoft documents for C programs. *)

From Stdlib Require Import Sorting.Sorted.
From S2P Require Import Prelude Text Env Json Proxy.

(** UTF-16 code units of a character, and [OsStr::encode_wide] of a [str]. *)
Definition utf16 (c : Z) : list Z :=
  if c <? 65536 then [c] else [55296 + (c - 65536) / 1024; 56320 + (c - 65536) mod 1024].
Definition encode_wide (s : bytes) : list Z := concat (map utf16 (Utf8.chars s)).

(** ** Command line *)

Fixpoint quote_loop (cs : list Z) (out : bytes) (backslashes : nat) : bytes * nat :=
  match cs with
  | [] => (out, backslashes)
  | c :: cs =>
    if c =? backslash then quote_loop cs out (S backslashes)
    else if c =? dquote then
      quote_loop cs (out ++ repeat backslash backslashes ++ [backslash; dquote]) 0
    else quote_loop cs (out ++ repeat backslash backslashes ++ Utf8.encode c) 0
  end.

Definition quote_arg (arg out : bytes) : bytes :=
  if decide (arg = []) then out ++ [dquote; dquote]
  else
    let needs_quoting := existsb (fun b => (b =? 32) || (b =? 9) || (b =? dquote)) arg in
    if negb needs_quoting then out ++ arg
    else
      let '(out, backslashes) := quote_loop (Utf8.chars arg) (out ++ [dquote]) 0 in
      out ++ repeat backslash (backslashes * 2) ++ [dquote].

Definition quote_args (cmd : bytes) (args : list bytes) : list Z :=
  let cmdline := fold_left (fun cmdline arg => quote_arg arg (cmdline ++ [32])) args (quote_arg cmd []) in
  encode_wide cmdline ++ [0].

(** ** Working directory *)

Definition verbatim : list Z := encode_wide ([backslash; backslash] ++ bs "?" ++ [backslash]).
Definition verbatim_unc : list Z := encode_wide ([backslash; backslash] ++ bs "?" ++ [backslash] ++ bs "UNC" ++ [backslash]).

(** [wide] is the path as UTF-16. *)
Definition encode_work_dir (wide : list Z) : list Z :=
  (if starts_with verbatim_unc wide then [backslash; backslash] ++ drop (length verbatim_unc) wide
   else if starts_with verbatim wide && (len verbatim + 2 <? len wide)
           && (let c := nth (length verbatim) wide 0 in is_ascii_upper c || is_ascii_lower c)
           && (nth (length verbatim + 1) wide 0 =? 58)
   then drop (length verbatim) wide
   else wide) ++ [0].

(** ** Environment *)

Definition to_ascii_uppercase (s : bytes) : bytes := map (fun c => if is_ascii_lower c then c - 32 else c) s.

Definition split_windows_home (path : bytes) : bytes * bytes :=
  match path with
  | a :: b :: rest =>
    if (is_ascii_upper a || is_ascii_lower a) && (b =? 58) then
      (to_ascii_uppercase [a; b], if decide (rest = []) then [backslash] else rest)
    else (bs "C:", path)
  | _ => (bs "C:", path)
  end.

Definition OVERRIDDEN : list bytes :=
  map bs ["USERPROFILE"; "APPDATA"; "LOCALAPPDATA"; "HOMEDRIVE"; "HOMEPATH"; "USERNAME"; "TEMP"; "TMP"; "PATH";
          "SystemRoot"; "LANG"]%string.

(** The variables that the launcher sets itself; [root] is its variable
    SystemRoot. *)
Definition sandbox_vars (root : result VarError bytes) (tmp_dir : bytes) : list (bytes * bytes) :=
  let system_root := match root with Ok r => r | Err _ => bs "C:" ++ [backslash] ++ bs "Windows" end in
  let profile := Utf8.lossy tmp_dir in
  let '(home_drive, home_path) := split_windows_home profile in
  [(bs "USERPROFILE", profile); (bs "APPDATA", profile); (bs "LOCALAPPDATA", profile);
   (bs "HOMEDRIVE", home_drive); (bs "HOMEPATH", home_path); (bs "USERNAME", bs "sandbox");
   (bs "TEMP", profile); (bs "TMP", profile);
   (bs "PATH", system_root ++ [backslash] ++ bs "system32;" ++ system_root);
   (bs "SystemRoot", system_root); (bs "LANG", bs "C.UTF-8")].

(** [proxy] is [cfg.network_proxy_socket]. *)
Definition build_env (caller : list (bytes * bytes)) (proxy : option bytes) (root : result VarError bytes)
    (tmp_dir : bytes) : list (bytes * bytes) :=
  let env := (filter_caller_env caller).1 in
  let env := List.filter (fun kv => negb (existsb (eq_ignore_ascii_case kv.1) OVERRIDDEN)) env in
  let env := env ++ match proxy with Some s => [(bs "AGENT_NETWORK_PROXY", Utf8.lossy s)] | None => [] end in
  env ++ sandbox_vars root tmp_dir.

(** [sort_by_key], which is stable. *)
Fixpoint insert_by {A} (key : A -> bytes) (x : A) (l : list A) : list A :=
  match l with
  | [] => [x]
  | y :: l => if lex_le (key x) (key y) then x :: y :: l else y :: insert_by key x l
  end.
Definition sort_by_key {A} (key : A -> bytes) (l : list A) : list A := foldr (insert_by key) [] l.

Definition encode_env_block (vars : list (bytes * bytes)) : list Z :=
  let sorted := sort_by_key (fun kv => to_ascii_uppercase kv.1) vars in
  concat (map (fun kv => encode_wide (kv.1 ++ bs "=" ++ kv.2) ++ [0]) sorted) ++ [0].

(** ** Container name *)

Definition fnv1a_64 (data : bytes) : Z :=
  fold_left (fun hash byte => wrap 64 (Z.lxor hash byte * 0x100000001b3)) data 0xcbf29ce484222325.

(** [{hash:016x}]. *)
Fixpoint hex_fixed (n : nat) (v : Z) : bytes :=
  match n with O => [] | S n => hex_fixed n (v / 16) ++ [hex_digit (v mod 16)] end.

Definition container_name (task_id : bytes) (pid : Z) : bytes :=
  bs "arapuca-" ++ hex_fixed 16 (fnv1a_64 (task_id ++ bs "-" ++ dec pid)).

(** ** Specification: reading a command line

    The documented rules: arguments are separated by spaces and tabs outside
    quotation marks; 2n backslashes and a quotation mark are n backslashes and
    the start or end of a quoted part; 2n+1 are n backslashes and a literal
    mark; other backslashes are literal; within a quoted part a doubled mark is a
    literal one.  [n] counts the backslashes just read, [cur] is the argument
    being read. *)
Fixpoint parse_args (n : nat) (quoted : bool) (cur : option (list Z)) (l : list Z) : list (list Z) :=
  let text := default [] cur in
  match l with
  | [] => if bool_decide (cur = None) then [] else [text ++ repeat backslash n]
  | c :: l =>
    if c =? backslash then parse_args (S n) quoted (Some text) l
    else if c =? dquote then
      let text := text ++ repeat backslash (Nat.div2 n) in
      if Nat.odd n then parse_args 0 quoted (Some (text ++ [dquote])) l
      else if quoted then
        match l with
        | d :: l' => if d =? dquote then parse_args 0 true (Some (text ++ [dquote])) l'
                     else parse_args 0 false (Some text) l
        | [] => [text]
        end
      else parse_args 0 true (Some text) l
    else if negb quoted && ((c =? 32) || (c =? 9)) then
      (if bool_decide (cur = None) then [] else [text ++ repeat backslash n]) ++ parse_args 0 false None l
    else parse_args 0 quoted (Some (text ++ repeat backslash n ++ [c])) l
  end.

(** The program name: up to the next quotation mark if it starts with one, else
    up to the first space or tab; backslashes are literal. *)
Fixpoint read_name (stop : Z -> bool) (l : list Z) : list Z * list Z :=
  match l with
  | [] => ([], [])
  | c :: l => if stop c then ([], l) else let '(a, r) := read_name stop l in (c :: a, r)
  end.
Definition read_command_line (l : list Z) : list (list Z) :=
  let '(name, rest) :=
    match l with
    | c :: l' => if c =? dquote then read_name (Z.eqb dquote) l' else read_name (fun c => (c =? 32) || (c =? 9)) l
    | [] => ([], [])
    end in
  name :: parse_args 0 false None rest.

(** What the new process sees of a buffer: the text before the null unit. *)
Fixpoint c_string (l : list Z) : list Z :=
  match l with [] => [] | c :: l => if c =? 0 then [] else c :: c_string l end.

(** The null-terminated entries of an environment block. *)
Fixpoint block_entries (cur l : list Z) : list (list Z) :=
  match l with
  | [] => []
  | c :: l => if c =? 0 then (if decide (cur = []) then [] else cur :: block_entries [] l)
              else block_entries (cur ++ [c]) l
  end.

(** ** The command line is read back *)

(** Quoting on a sequence of characters or of UTF-16 units. *)
Fixpoint quoted (l : list Z) (n : nat) : list Z * nat :=
  match l with
  | [] => ([], n)
  | c :: l =>
    if c =? backslash then quoted l (S n)
    else let '(o, m) := quoted l 0 in
         (repeat backslash n ++ (if c =? dquote then [backslash; dquote] else [c]) ++ o, m)
  end.

Definition special (c : Z) : bool := (c =? 32) || (c =? 9) || (c =? dquote).

Definition quote_units (l : list Z) : list Z :=
  if decide (l = []) then [dquote; dquote]
  else if negb (existsb special l) then l
  else let '(o, n) := quoted l 0 in [dquote] ++ o ++ repeat backslash (n * 2) ++ [dquote].

(** No backslash directly before a quotation mark. *)
Fixpoint unambiguous (prev : bool) (l : list Z) : bool :=
  match l with
  | [] => true
  | c :: l => negb (prev && (c =? dquote)) && unambiguous (c =? backslash) l
  end.

(** A character other than the special ones becomes units other than these. *)
Lemma utf16_plain c d : 0 <= d < 128 -> is_Some (head (utf16 c)) /\ (c <> d -> Forall (fun u => u <> d) (utf16 c)) /\
  (utf16 d = [d]).
Proof.
  intros Hd. unfold utf16. split_and!.
  - by case_match.
  - intros Hc. case_match; bsplit; repeat constructor; try lia.
    + pose proof (Z.div_pos (c - 65536) 1024). lia.
    + pose proof (Z.mod_pos_bound (c - 65536) 1024). lia.
  - by rewrite (proj2 (Z.ltb_lt _ _)) by lia.
Qed.

Lemma quoted_plain l m r : Forall (fun c => c <> backslash /\ c <> dquote) l -> l <> [] ->
  quoted (l ++ r) m = (repeat backslash m ++ l ++ (quoted r 0).1, (quoted r 0).2).
Proof.
  intros Hl. revert m. induction Hl as [|c l [Hb Hq] Hl IH]; intros m Hne; [done|]. cbn [app quoted].
  rewrite (proj2 (Z.eqb_neq _ _) Hb), (proj2 (Z.eqb_neq _ _) Hq). destruct l as [|d l].
  - cbn [app]. by destruct (quoted r 0).
  - rewrite IH by done. done.
Qed.

Abbreviation wide cs := (concat (map utf16 cs)).

Lemma wide_app a b : wide (a ++ b) = wide a ++ wide b.
Proof. by rewrite map_app, concat_app. Qed.

Lemma wide_repeat n : wide (repeat backslash n) = repeat backslash n.
Proof. induction n as [|n IH]; [done|]. simpl. by rewrite IH. Qed.

Lemma of_chars_app a b : Utf8.of_chars (a ++ b) = Utf8.of_chars a ++ Utf8.of_chars b.
Proof. unfold Utf8.of_chars. by rewrite map_app, concat_app. Qed.

Lemma of_chars_repeat n : Utf8.of_chars (repeat backslash n) = repeat backslash n.
Proof. induction n as [|n IH]; [done|]. unfold Utf8.of_chars in *. simpl. by rewrite IH. Qed.

(** Quoting commutes with the encodings. *)
Lemma quoted_wide cs n : quoted (wide cs) n = (wide (quoted cs n).1, (quoted cs n).2).
Proof.
  revert n. induction cs as [|c cs IH]; intros n; [done|]. cbn [map concat quoted].
  destruct (Z.eqb_spec c backslash) as [->|Hb]; [apply IH|].
  destruct (Z.eqb_spec c dquote) as [->|Hq].
  - change (utf16 dquote) with [dquote]. simpl. rewrite (IH 0%nat).
    destruct (quoted cs 0) as [o m]. cbn [fst snd]. by rewrite wide_app, wide_repeat.
  - destruct (utf16_plain c backslash ltac:(done)) as (Hh & H1 & _).
    destruct (utf16_plain c dquote ltac:(done)) as (_ & H2 & _).
    rewrite quoted_plain, IH; [|apply Forall_and; auto|intros E; rewrite E in Hh; by destruct Hh].
    destruct (quoted cs 0) as [o m]. cbn [fst snd]. rewrite !wide_app, wide_repeat. simpl. by rewrite app_nil_r.
Qed.

Lemma quote_loop_quoted cs out n :
  quote_loop cs out n = (out ++ Utf8.of_chars (quoted cs n).1, (quoted cs n).2).
Proof.
  revert out n. induction cs as [|c cs IH]; intros out n; [by rewrite app_nil_r|]. cbn [quote_loop quoted].
  destruct (c =? backslash); [apply IH|]. destruct (quoted cs 0) as [o m] eqn:E.
  destruct (Z.eqb_spec c dquote) as [->|Hq]; rewrite IH, E; cbn [fst snd];
    rewrite !of_chars_app, of_chars_repeat, <-!app_assoc; [done|].
  unfold Utf8.of_chars at 2. simpl. by rewrite app_nil_r.
Qed.

Lemma existsb_concat {A B} (p : B -> bool) (f : A -> list B) l :
  existsb p (concat (map f l)) = existsb (fun a => existsb p (f a)) l.
Proof. induction l as [|a l IH]; [done|]. simpl. by rewrite existsb_app, IH. Qed.

(** The special characters are ASCII, and only they are encoded by them. *)
Lemma special_wide cs : existsb special (wide cs) = existsb special cs.
Proof.
  rewrite existsb_concat. induction cs as [|c cs IH]; [done|]. simpl. rewrite IH. f_equal.
  assert (H : forall d, 0 <= d < 128 -> existsb (Z.eqb d) (utf16 c) = (d =? c)).
  { intros d Hd. destruct (utf16_plain c d Hd) as (_ & Hne & E). destruct (Z.eqb_spec d c) as [->|Hc].
    - rewrite E. simpl. by rewrite Z.eqb_refl.
    - apply contains_false. apply Hne. done. }
  transitivity (existsb (Z.eqb 32) (utf16 c) || existsb (Z.eqb 9) (utf16 c) || existsb (Z.eqb 34) (utf16 c)).
  - generalize (utf16 c) as l. induction l as [|u l IHl]; [done|]. cbn [existsb]. rewrite IHl. unfold special.
    rewrite !(Z.eqb_sym u). unfold dquote.
    by destruct (32 =? u), (9 =? u), (34 =? u), (existsb (Z.eqb 32) l), (existsb (Z.eqb 9) l), (existsb (Z.eqb 34) l).
  - rewrite !H by lia. unfold special. by rewrite !(Z.eqb_sym c).
Qed.

Lemma special_chars cs : Forall (fun c => Utf8.is_scalar c = true) cs ->
  existsb special (Utf8.of_chars cs) = existsb special cs.
Proof.
  intros Hs. unfold Utf8.of_chars. rewrite existsb_concat. induction Hs as [|c cs Hc Hs IH]; [done|].
  simpl. rewrite IH. f_equal. destruct (Z.ltb_spec c 128) as [Hlt|Hge].
  - rewrite Utf8.encode_ascii by (unfold Utf8.is_scalar in Hc; lia). simpl. apply orb_false_r.
  - transitivity false.
    + apply not_true_iff_false. rewrite existsb_exists. intros (x & Hx & E).
      apply Utf8.encode_high in Hc; [|done]. rewrite List.Forall_forall in Hc. apply Hc in Hx.
      unfold special, dquote in E. lia.
    + symmetry. unfold special, dquote. lia.
Qed.

(** The command line in terms of UTF-16 units. *)
Lemma quote_arg_units arg out cs : Utf8.decode arg = Some cs ->
  quote_arg arg out = out ++ Utf8.of_chars (quote_units cs).
Proof.
  intros Hd. pose proof (Utf8.of_chars_decode _ _ Hd) as Ha. pose proof (Utf8.decode_scalar _ _ Hd) as Hs.
  assert (Hn : arg = [] <-> cs = []).
  { split; intros ->; [by injection Hd|done]. }
  unfold quote_arg, quote_units, Utf8.chars. rewrite Hd. change (default [] (Some cs)) with cs.
  destruct (decide (arg = [])) as [E|E], (decide (cs = [])) as [E'|E']; [done|tauto..|].
  change (existsb _ arg) with (existsb special arg). rewrite <-Ha at 1. rewrite special_chars by done.
  destruct (negb (existsb special cs)); [by rewrite Ha|].
  rewrite quote_loop_quoted. destruct (quoted cs 0) as [o n]. cbn [fst snd].
  by rewrite !of_chars_app, of_chars_repeat, <-!app_assoc.
Qed.

Lemma quote_units_scalar cs : Forall (fun c => Utf8.is_scalar c = true) cs ->
  Forall (fun c => Utf8.is_scalar c = true) (quote_units cs).
Proof.
  assert (Hr : forall n, Forall (fun c => Utf8.is_scalar c = true) (repeat backslash n)).
  { induction n; by constructor. }
  assert (Hq : forall n, Forall (fun c => Utf8.is_scalar c = true) cs ->
                Forall (fun c => Utf8.is_scalar c = true) (quoted cs n).1).
  { intros n Hcs. revert n. induction Hcs as [|c cs Hc Hcs IH]; intros n; [done|]. cbn [quoted].
    case_match; [apply IH|]. specialize (IH 0%nat). destruct (quoted cs 0) as [o m]. cbn [fst] in *.
    rewrite !Forall_app. split_and!; [apply Hr| |done]. case_match; by repeat constructor. }
  intros Hcs. unfold quote_units. case_match; [by repeat constructor|]. case_match; [done|].
  specialize (Hq 0%nat Hcs). destruct (quoted cs 0) as [o m]. rewrite !Forall_app.
  split_and!; [by repeat constructor|done|apply Hr|by repeat constructor].
Qed.

Lemma quote_units_wide cs : wide (quote_units cs) = quote_units (wide cs).
Proof.
  unfold quote_units. rewrite special_wide, quoted_wide.
  destruct (decide (cs = [])) as [->|Hn]; [done|]. rewrite decide_False.
  2:{ destruct cs as [|c cs]; [done|]. simpl. destruct (utf16_plain c 0 ltac:(done)) as ([u Hu] & _).
      by destruct (utf16 c). }
  destruct (negb _); [done|]. destruct (quoted cs 0) as [o n]. cbn [fst snd].
  by rewrite !wide_app, wide_repeat.
Qed.

Lemma encode_wide_chars cs : Forall (fun c => Utf8.is_scalar c = true) cs -> encode_wide (Utf8.of_chars cs) = wide cs.
Proof. intros Hs. unfold encode_wide, Utf8.chars. by rewrite Utf8.decode_of_chars. Qed.

Lemma valid_cases s : Utf8.valid s = true ->
  Utf8.decode s = Some (Utf8.chars s) /\ Forall (fun c => Utf8.is_scalar c = true) (Utf8.chars s).
Proof.
  intros [cs Hd]%Utf8.valid_decode. unfold Utf8.chars. rewrite Hd. split; [done|]. by eapply Utf8.decode_scalar.
Qed.

Lemma quote_fold args l : Forall (fun a => Utf8.valid a = true) args ->
  fold_left (fun cmdline arg => quote_arg arg (cmdline ++ [32])) args (Utf8.of_chars l) =
  Utf8.of_chars (l ++ concat (map (fun a => 32 :: quote_units (Utf8.chars a)) args)).
Proof.
  intros Hargs. revert l. induction Hargs as [|a args Ha Hargs IH]; intros l; simpl; [by rewrite app_nil_r|].
  apply valid_cases in Ha as [Ha _]. rewrite (quote_arg_units _ _ _ Ha).
  change [32] with (Utf8.of_chars [32]). rewrite <-!of_chars_app, IH. by rewrite <-!app_assoc.
Qed.

Lemma quote_args_units cmd args : Utf8.valid cmd = true -> Forall (fun a => Utf8.valid a = true) args ->
  quote_args cmd args =
  quote_units (encode_wide cmd) ++ concat (map (fun w => 32 :: quote_units w) (map encode_wide args)) ++ [0].
Proof.
  intros Hc Hargs. unfold quote_args. apply valid_cases in Hc as [Hc Hs].
  rewrite (quote_arg_units _ _ _ Hc), app_nil_l, (quote_fold _ _ Hargs), encode_wide_chars.
  - rewrite wide_app, quote_units_wide, <-app_assoc. do 2 f_equal. clear Hc Hs.
    induction args as [|a args IH]; [done|]. cbn [map concat app]. rewrite !wide_app, quote_units_wide.
    by rewrite IH by (by inversion Hargs).
  - apply Forall_app. split; [by apply quote_units_scalar|]. clear Hc Hs.
    induction Hargs as [|a args Ha Hargs IH]; [constructor|]. simpl. constructor; [done|].
    apply Forall_app. split; [|done]. apply quote_units_scalar. by apply valid_cases in Ha as [_ ?].
Qed.

(** Reading backslashes, and the end of an argument. *)
Lemma parse_backslashes n q cur k l :
  parse_args n q (Some cur) (repeat backslash k ++ l) = parse_args (n + k) q (Some cur) l.
Proof.
  revert n. induction k as [|k IH]; intros n; [by rewrite Nat.add_0_r|].
  cbn [repeat app parse_args]. rewrite Z.eqb_refl. simpl (default [] (Some cur)).
  change (default [] (Some cur)) with cur. rewrite IH. f_equal. lia.
Qed.

(** Where an argument ends: at the end of the line or at a space. *)
Definition at_end (r : list Z) : Prop := r = [] \/ exists r', r = 32 :: r'.

Definition after (r : list Z) : list (list Z) := match r with [] => [] | _ :: r' => parse_args 0 false None r' end.

Lemma parse_end n cur r : at_end r -> parse_args n false (Some cur) r = (cur ++ repeat backslash n) :: after r.
Proof. intros [->|[r' ->]]; done. Qed.

Lemma parse_plain w n cur r : existsb special w = false -> at_end r ->
  parse_args n false (Some cur) (w ++ r) = (cur ++ repeat backslash n ++ w) :: after r.
Proof.
  intros Hw Hr. revert n cur Hw. induction w as [|c w IH]; intros n cur Hw.
  { rewrite app_nil_r. by apply parse_end. }
  simpl in Hw. apply orb_false_iff in Hw as [Hc Hw]. unfold special in Hc.
  apply orb_false_iff in Hc as [Hc Hq]. cbn [app parse_args]. change (default [] (Some cur)) with cur.
  destruct (Z.eqb_spec c backslash) as [->|Hb].
  - rewrite IH by done. cbn [repeat]. by rewrite repeat_cons, <-app_assoc.
  - rewrite Hq, Hc. cbn [negb andb]. rewrite IH by done. by rewrite <-!app_assoc.
Qed.

(** Reading a quoted argument. *)
Lemma parse_quoted w n : unambiguous (negb (n =? 0)%nat) w = true ->
  exists text, repeat backslash n ++ w = text ++ repeat backslash (quoted w n).2 /\
    forall cur r, parse_args 0 true (Some cur) ((quoted w n).1 ++ r) = parse_args 0 true (Some (cur ++ text)) r.
Proof.
  revert n. induction w as [|c w IH]; intros n Hu.
  { exists []. split; [by rewrite app_nil_r|]. intros cur r. by rewrite app_nil_r. }
  cbn [unambiguous] in Hu. apply andb_prop in Hu as [Hq Hu]. cbn [quoted].
  destruct (Z.eqb_spec c backslash) as [->|Hb].
  - destruct (IH (S n) Hu) as (text & E & Hp). exists text. split; [|done]. rewrite <-E. cbn [repeat].
    by rewrite repeat_cons, <-app_assoc.
  - destruct (IH 0%nat Hu) as (text & E & Hp). destruct (quoted w 0) as [o m]. cbn [fst snd] in *.
    exists (repeat backslash n ++ c :: text). cbn [repeat app] in E. split; [by rewrite <-app_assoc, E at 1|]. intros cur r.
    destruct (Z.eqb_spec c dquote) as [->|Hc].
    + destruct n; [|done]. cbn. by rewrite Hp, app_nil_r, <-app_assoc.
    + rewrite <-!app_assoc, parse_backslashes. cbn [app parse_args]. change (default [] (Some cur)) with cur.
      rewrite (proj2 (Z.eqb_neq _ _) Hb), (proj2 (Z.eqb_neq _ _) Hc). cbn [negb andb].
      by rewrite Hp, <-!app_assoc.
Qed.

Lemma parse_quote_end n cur r : at_end r ->
  parse_args 0 true (Some cur) (repeat backslash (n * 2) ++ dquote :: r) = (cur ++ repeat backslash n) :: after r.
Proof.
  intros Hr. rewrite parse_backslashes. cbn [parse_args]. change (default [] (Some cur)) with cur.
  rewrite Nat.add_0_l, Nat.mul_comm, Nat.div2_double.
  replace (Nat.odd (2 * n)) with false by (by rewrite Nat.odd_mul). cbn [Z.eqb].
  change (dquote =? backslash) with false. rewrite Z.eqb_refl.
  destruct Hr as [->|[r' ->]]; [done|]. cbn. by rewrite app_nil_r.
Qed.

Lemma parse_arg w r : unambiguous false w = true -> at_end r ->
  parse_args 0 false None (quote_units w ++ r) = w :: after r.
Proof.
  intros Hu Hr. unfold quote_units. destruct (decide (w = [])) as [->|Hw].
  { by destruct Hr as [->|[r' ->]]. }
  destruct (existsb special w) eqn:Hs; cbn [negb].
  - destruct (parse_quoted w 0 Hu) as (text & E & Hp). destruct (quoted w 0) as [o n]. cbn [fst snd] in *.
    rewrite <-!app_assoc. cbn [app parse_args]. simpl (default _ _). cbn.
    rewrite Hp, parse_quote_end by done. cbn [repeat app] in *. by rewrite <-E.
  - destruct w as [|c w]; [done|]. pose proof (parse_plain (c :: w) 0 [] r Hs Hr) as Hp.
    cbn [repeat app] in Hp. rewrite <-Hp. simpl in Hs. apply orb_false_iff in Hs as [Hc _]. unfold special in Hc.
    apply orb_false_iff in Hc as [Hc Hq]. cbn [app parse_args]. cbn. rewrite Hq, Hc. done.
Qed.

Lemma parse_all ws : Forall (fun w => unambiguous false w = true) ws ->
  after (concat (map (fun w => 32 :: quote_units w) ws)) = ws.
Proof.
  intros Hw. induction Hw as [|w ws Hu Hw IH]; [done|]. cbn [map concat app after].
  rewrite parse_arg; [by rewrite IH|done|]. destruct ws; [by left|right]. simpl. eauto.
Qed.

(** The program name: no quotation mark, and no backslash before the closing one. *)
Definition plain_name (w : list Z) : bool :=
  negb (existsb (Z.eqb dquote) w) && (negb (existsb special w) || negb (bool_decide (last w = Some backslash))).

Lemma read_name_app (stop : Z -> bool) w c r : existsb stop w = false -> stop c = true ->
  read_name stop (w ++ c :: r) = (w, r).
Proof.
  intros Hw Hc. induction w as [|d w IH]; simpl; [by rewrite Hc|]. simpl in Hw.
  apply orb_false_iff in Hw as [-> Hw]. by rewrite IH.
Qed.

Lemma read_name_all (stop : Z -> bool) w : existsb stop w = false -> read_name stop w = (w, []).
Proof.
  intros Hw. induction w as [|d w IH]; simpl; [done|]. simpl in Hw. apply orb_false_iff in Hw as [-> Hw].
  by rewrite IH.
Qed.

(** Without quotation marks and a final backslash, quoting is only the two marks. *)
Lemma quoted_name w n : existsb (Z.eqb dquote) w = false ->
  (quoted w n).1 ++ repeat backslash (quoted w n).2 = repeat backslash n ++ w /\
  (last w <> Some backslash -> w <> [] -> (quoted w n).2 = 0%nat).
Proof.
  revert n. induction w as [|c w IH]; intros n Hq; [by rewrite app_nil_r|].
  cbn [existsb] in Hq. apply orb_false_iff in Hq as [Hc Hq]. cbn [quoted].
  destruct (Z.eqb_spec c backslash) as [->|Hb].
  - destruct (IH (S n) Hq) as [E1 E2]. split.
    + rewrite E1. cbn [repeat]. by rewrite repeat_cons, <-app_assoc.
    + intros Hl _. destruct w as [|d w]; [done|]. by apply E2.
  - destruct (IH 0%nat Hq) as [E1 E2]. rewrite Z.eqb_sym in Hc. rewrite Hc. destruct (quoted w 0) as [o m] eqn:Ew.
    cbn [fst snd] in *. split.
    + rewrite <-!app_assoc, E1. done.
    + intros Hl _. destruct w as [|d w]; [by simplify_eq/=|]. by apply E2.
Qed.

Lemma read_command w r : plain_name w = true -> at_end r ->
  read_command_line (quote_units w ++ r) = w :: after r.
Proof.
  intros [Hq Hb]%andb_prop Hr. apply negb_true_iff in Hq. unfold quote_units.
  destruct (decide (w = [])) as [->|Hw].
  { by destruct Hr as [->|[r' ->]]. }
  destruct (existsb special w) eqn:Hs; cbn [negb orb] in *.
  - apply negb_true_iff, bool_decide_eq_false in Hb. destruct (quoted_name w 0 Hq) as [E1 E2].
    specialize (E2 Hb Hw). destruct (quoted w 0) as [o n]. cbn [fst snd] in *. subst n.
    cbn [repeat] in E1. rewrite app_nil_r in E1. simpl in E1. subst o. rewrite <-!app_assoc.
    unfold read_command_line. cbn [app repeat Nat.mul]. rewrite Z.eqb_refl.
    rewrite read_name_app by (done || apply Z.eqb_refl). by destruct Hr as [->|[r' ->]].
  - destruct w as [|c w]; [done|]. unfold read_command_line. cbn [app]. cbn [existsb] in Hq.
    apply orb_false_iff in Hq as [Hc _]. rewrite (Z.eqb_sym c), Hc.
    assert (Hn : existsb (fun c => (c =? 32) || (c =? 9)) (c :: w) = false).
    { apply not_true_iff_false. rewrite existsb_exists. intros (x & Hx & E). apply not_true_iff_false in Hs.
      apply Hs. rewrite existsb_exists. exists x. split; [done|]. unfold special. by rewrite E. }
    destruct Hr as [->|[r' ->]].
    + by rewrite app_nil_r, read_name_all.
    + change (c :: w ++ 32 :: r') with ((c :: w) ++ 32 :: r'). by rewrite read_name_app.
Qed.

(** No null character: the text ends where the code ends it. *)
Lemma c_string_app l : existsb (Z.eqb 0) l = false -> c_string (l ++ [0]) = l.
Proof.
  intros Hl. induction l as [|c l IH]; [done|]. cbn [existsb] in Hl. apply orb_false_iff in Hl as [Hc Hl].
  cbn [app c_string]. rewrite Z.eqb_sym, Hc. by rewrite IH.
Qed.

Lemma quoted_nonzero w n : existsb (Z.eqb 0) w = false -> existsb (Z.eqb 0) (quoted w n).1 = false.
Proof.
  assert (Hr : forall k, existsb (Z.eqb 0) (repeat backslash k) = false) by (by induction k).
  revert n. induction w as [|c w IH]; intros n Hw; [done|]. cbn [existsb] in Hw. apply orb_false_iff in Hw as [Hc Hw].
  cbn [quoted]. case_match; [by apply IH|]. specialize (IH 0%nat Hw). destruct (quoted w 0) as [o m]. cbn [fst] in *.
  rewrite !existsb_app, Hr, IH. case_match; [done|]. cbn [existsb]. by rewrite Hc.
Qed.

Lemma quote_units_nonzero w : existsb (Z.eqb 0) w = false -> existsb (Z.eqb 0) (quote_units w) = false.
Proof.
  assert (Hr : forall k, existsb (Z.eqb 0) (repeat backslash k) = false) by (by induction k).
  intros Hw. unfold quote_units. case_match; [done|]. case_match; [done|]. pose proof (quoted_nonzero w 0 Hw) as Hq.
  destruct (quoted w 0) as [o m]. cbn [fst] in Hq. by rewrite !existsb_app, Hq, Hr.
Qed.

(** What a program, or an argument, must be for the line to be read back. *)
Definition nonzero (s : bytes) : bool := Utf8.valid s && negb (existsb (Z.eqb 0) (encode_wide s)).

(** C40: the started program gets the arguments.  Take a command and arguments of Unicode text without NUL.  A program that reads the command line by the documented rules
    gets the command and every argument unchanged, spaces, tabs, quotation marks and trailing backslashes included,
    provided that no argument has a backslash directly before a quotation mark (see [quote_args_splits]) and the
    command has no quotation mark, nor a final backslash when it needs quoting. *)
Theorem quote_args_roundtrip cmd args :
  Forall (fun s => nonzero s = true) (cmd :: args) -> plain_name (encode_wide cmd) = true ->
  Forall (fun a => unambiguous false (encode_wide a) = true) args ->
  read_command_line (c_string (quote_args cmd args)) = map encode_wide (cmd :: args).
Proof.
  intros [Hc Ha]%Forall_cons_1 Hname Hu.
  assert (Hv : forall s, nonzero s = true -> Utf8.valid s = true /\ existsb (Z.eqb 0) (encode_wide s) = false).
  { intros s [? Hz]%andb_prop. by apply negb_true_iff in Hz. }
  rewrite quote_args_units; [|by apply Hv|eapply List.Forall_impl; [|exact Ha]; intros s Hs; by apply Hv].
  rewrite app_assoc, c_string_app.
  - rewrite read_command, parse_all; [done|by apply Forall_map|done|].
    destruct args; [by left|right]. simpl. eauto.
  - rewrite existsb_app, quote_units_nonzero by (by apply Hv). simpl. clear Hu.
    induction Ha as [|a args Hz Ha IH]; [done|]. cbn [map concat]. cbn [app existsb].
    rewrite existsb_app, quote_units_nonzero by (by apply Hv). done.
Qed.

(** A backslash before a quotation mark is written once, not doubled: the mark then ends the quoted part, and one
    argument is read as two. *)
Theorem quote_args_splits :
  read_command_line (c_string (quote_args (bs "cmd") [bs "x" ++ [backslash; dquote] ++ bs " --flag"])) =
  map encode_wide [bs "cmd"; bs "x" ++ [backslash]; bs "--flag"].
Proof. by_eval. Qed.

(** ** The environment of the child *)

Lemma insert_by_perm {A} (key : A -> bytes) x l : insert_by key x l ≡ₚ x :: l.
Proof.
  induction l as [|y l IH]; [done|]. simpl. case_match; [done|]. rewrite IH. apply Permutation_swap.
Qed.

Lemma sort_by_key_perm {A} (key : A -> bytes) l : sort_by_key key l ≡ₚ l.
Proof. induction l as [|x l IH]; [done|]. simpl. by rewrite insert_by_perm, IH. Qed.

Lemma sort_by_key_sorted {A} (key : A -> bytes) l : Sorted (fun x y => lex_le (key x) (key y) = true) (sort_by_key key l).
Proof.
  induction l as [|x l IH]; [constructor|]. simpl. induction IH as [|y s Hs IH Hy]; simpl; [by repeat constructor|].
  destruct (lex_le (key x) (key y)) eqn:E; [by repeat constructor|]. constructor; [done|].
  destruct s as [|z s]; simpl; [constructor; by apply lex_le_total|]. case_match; constructor.
  - by apply lex_le_total.
  - by inversion Hy.
Qed.

Lemma block_entry w cur l : existsb (Z.eqb 0) w = false -> cur ++ w <> [] ->
  block_entries cur (w ++ 0 :: l) = (cur ++ w) :: block_entries [] l.
Proof.
  revert cur. induction w as [|c w IH]; intros cur Hw Hne.
  - rewrite app_nil_r in *. simpl. by rewrite decide_False.
  - cbn [existsb] in Hw. apply orb_false_iff in Hw as [Hc Hw]. cbn [app block_entries]. rewrite Z.eqb_sym, Hc.
    rewrite IH; [by rewrite <-app_assoc|done|]. by destruct cur.
Qed.

(** An entry as it is written. *)
Definition entry_text (kv : bytes * bytes) : list Z := encode_wide (kv.1 ++ bs "=" ++ kv.2).

Lemma block_list l : Forall (fun kv => entry_text kv <> [] /\ existsb (Z.eqb 0) (entry_text kv) = false) l ->
  block_entries [] (concat (map (fun kv => entry_text kv ++ [0]) l) ++ [0]) = map entry_text l.
Proof.
  intros Hl. induction Hl as [|kv l [Hne Hz] Hl IH]; [done|]. cbn [map concat].
  rewrite <-!app_assoc. cbn [app]. rewrite block_entry by done. by rewrite IH.
Qed.

(** The text of an entry: not empty, because of the equals sign. *)
Lemma encode_wide_app a b : Utf8.valid a = true -> Utf8.valid b = true ->
  encode_wide (a ++ b) = encode_wide a ++ encode_wide b.
Proof.
  intros [ca Ha]%Utf8.valid_decode [cb Hb]%Utf8.valid_decode. unfold encode_wide, Utf8.chars.
  rewrite (Utf8.decode_app _ _ _ Ha), Ha, Hb. apply wide_app.
Qed.

Lemma entry_nonzero kv : nonzero kv.1 = true /\ nonzero kv.2 = true ->
  entry_text kv <> [] /\ existsb (Z.eqb 0) (entry_text kv) = false.
Proof.
  intros [[Hk Hkz]%andb_prop [Hv Hvz]%andb_prop]. apply negb_true_iff in Hkz, Hvz. unfold entry_text.
  rewrite !encode_wide_app by (done || by apply Utf8.valid_app).
  split; [by destruct (encode_wide kv.1)|]. by rewrite !existsb_app, Hkz, Hvz.
Qed.

Lemma filter_none {A} (p : A -> bool) l : (forall x, In x l -> p x = false) -> List.filter p l = [].
Proof.
  intros H. induction l as [|x l IH]; [done|]. simpl. rewrite H by (by left). apply IH. intros y Hy. apply H. by right.
Qed.

(** The names that the launcher sets are different, also without regard to case. *)
Lemma sandbox_vars_single root tmp name : name ∈ OVERRIDDEN ->
  exists v, List.filter (fun kv => eq_ignore_ascii_case kv.1 name) (sandbox_vars root tmp) = [(name, v)].
Proof.
  unfold sandbox_vars. destruct (split_windows_home (Utf8.lossy tmp)) as [d p]. intros Hn.
  unfold OVERRIDDEN in Hn. repeat (apply elem_of_cons in Hn as [->|Hn]; [eexists; reflexivity|]).
  by apply elem_of_nil in Hn.
Qed.

(** The child's environment.  From the block that [CreateProcessW] gets, Windows reads exactly the variables of
    [build_env], sorted by name without regard to case as it requires; and each variable that the sandbox manages
    occurs exactly once, however the caller spells the name, with the sandbox's value. *)
Theorem child_env caller proxy root tmp :
  Forall (fun kv => nonzero kv.1 = true /\ nonzero kv.2 = true) (build_env caller proxy root tmp) ->
  (exists l, block_entries [] (encode_env_block (build_env caller proxy root tmp)) = map entry_text l /\
     l ≡ₚ build_env caller proxy root tmp /\
     Sorted (fun x y => lex_le (to_ascii_uppercase x.1) (to_ascii_uppercase y.1) = true) l) /\
  (forall name, name ∈ OVERRIDDEN -> exists v, (name, v) ∈ sandbox_vars root tmp /\
     List.filter (fun kv => eq_ignore_ascii_case kv.1 name) (build_env caller proxy root tmp) = [(name, v)]).
Proof.
  intros Hz. split.
  - eexists. split_and!; [apply block_list|apply sort_by_key_perm|apply sort_by_key_sorted].
    rewrite sort_by_key_perm. eapply List.Forall_impl; [|exact Hz]. intros kv Hkv. by apply entry_nonzero.
  - intros name Hn. destruct (sandbox_vars_single root tmp name Hn) as [v Hv]. exists v. split.
    + apply list_elem_of_In. eapply (proj1 (filter_In (fun kv => eq_ignore_ascii_case kv.1 name) _ _)).
      rewrite Hv. by left.
    + unfold build_env. rewrite !List.filter_app, Hv, !filter_none; [done|..].
      * intros [k w] Hk. destruct proxy; [|done]. destruct Hk as [[= <- _]|[]].
        unfold OVERRIDDEN in Hn. repeat (apply elem_of_cons in Hn as [->|Hn]; [reflexivity|]). by apply elem_of_nil in Hn.
      * intros [k w] [_ Hk]%filter_In. apply negb_true_iff in Hk. apply not_true_iff_false. intros E.
        apply not_true_iff_false in Hk. apply Hk, existsb_exists. exists name. split; [by apply list_elem_of_In|done].
Qed.

Definition demo_caller : list (bytes * bytes) :=
  [(bs "Path", bs "C:" ++ [backslash] ++ bs "evil"); (bs "EDITOR", bs "vi"); (bs "temp", bs "x")].
Definition demo_env : list (bytes * bytes) :=
  build_env demo_caller None (Err NotPresent) (bs "c:" ++ [backslash] ++ bs "sb").

Lemma child_env_witness :
  exists v, List.filter (fun kv => eq_ignore_ascii_case kv.1 (bs "PATH")) demo_env = [(bs "PATH", v)].
Proof.
  destruct (child_env demo_caller None (Err NotPresent) (bs "c:" ++ [backslash] ++ bs "sb")) as [_ Hm]; [by_eval|].
  destruct (Hm (bs "PATH") ltac:(by_eval)) as (v & _ & E). exists v. exact E.
Defined.

Lemma quote_args_roundtrip_witness :
  read_command_line (c_string (quote_args (bs "my program") [bs "say " ++ [dquote] ++ bs "hi" ++ [dquote]; bs "dir " ++ [backslash]; []])) =
  map encode_wide [bs "my program"; bs "say " ++ [dquote] ++ bs "hi" ++ [dquote]; bs "dir " ++ [backslash]; []].
Proof. apply quote_args_roundtrip; by_eval. Defined.

(** Container names have 24 characters, below the limit of 64. *)
Lemma container_name_length task_id pid : len (container_name task_id pid) = 24.
Proof.
  assert (H : forall n v, length (hex_fixed n v) = n).
  { induction n as [|n IH]; intros v; [done|]. simpl. rewrite length_app, IH. simpl. lia. }
  unfold container_name, len. by rewrite length_app, H.
Qed.
