(* ===== verification/VmState.v ===== *)
(** * VmState: the stored state of a virtual machine ([vm/state.rs])

    The directory of a machine, the configuration file [vm.json] with its writer
    and parser, and how it is saved and loaded.  The files are a map from paths to
    contents. *)

From stdpp Require Import gmap.
From S2P Require Import Prelude Text Paths Validate Env Json Protocol Files.

Record VolumeMount : Type := { vol_host : bytes; vol_guest : bytes; read_only : bool }.

Record VmConfig : Type := {
  image : bytes;
  cpus : Z;
  mem_mb : Z;
  net : bool;
  volumes : list VolumeMount;
  vm_nonce : bytes;
  passt_pid : option Z;
  max_lifetime : option Z;
}.

(** ** Directories *)

(** [std::env::var] of XDG_DATA_HOME and of HOME. *)
Definition data_home (xdg home : result VarError bytes) : io bytes :=
  match xdg with
  | Ok (_ :: _ as xdg) => Ok xdg
  | _ =>
    match home with
    | Ok (_ :: _ as home) => Ok (push (push home (bs ".local")) (bs "share"))
    | _ => Err (IoError NotFound "neither XDG_DATA_HOME nor HOME is set")
    end
  end.

Definition vms_dir (xdg home : result VarError bytes) : io bytes :=
  base ← data_home xdg home; Ok (push (push base (bs "arapuca")) (bs "vms")).

Definition vm_dir (xdg home : result VarError bytes) (name : bytes) : io bytes :=
  match sanitize_task_id name with
  | Err _ => Err (IoError InvalidInput "invalid VM name: {e}")
  | Ok _ => d ← vms_dir xdg home; Ok (push d name)
  end.

(** ** [vm.json] *)

Definition show_bool (b : bool) : bytes := if b then bs "true" else bs "false".

Fixpoint volumes_json (i : Z) (l : list VolumeMount) (out : bytes) : bytes :=
  match l with
  | [] => out
  | v :: l =>
    let out := if 0 <? i then out ++ [ch ","] else out in
    let out := out ++ [ch "{"] ++ key "host" in
    let out := json_encode_string (vol_host v) out in
    let out := out ++ [ch ","] ++ key "guest" in
    let out := json_encode_string (vol_guest v) out in
    let out := out ++ [ch ","] ++ key "read_only" ++ show_bool (read_only v) ++ [ch "}"] in
    volumes_json (i + 1) l out
  end.

(** [{b:02x}]. *)
Definition hex_byte (b : Z) : bytes := [hex_digit (b / 16); hex_digit (b mod 16)].

Definition vm_to_json (self : VmConfig) : bytes :=
  let out := [ch "{"] ++ key "image" in
  let out := json_encode_string (image self) out in
  let out := out ++ [ch ","] ++ key "cpus" ++ dec (cpus self) in
  let out := out ++ [ch ","] ++ key "mem_mb" ++ dec (mem_mb self) in
  let out := out ++ [ch ","] ++ key "net" ++ show_bool (net self) in
  let out := out ++ [ch ","] ++ key "volumes" ++ [ch "["] in
  let out := volumes_json 0 (volumes self) out in
  let out := out ++ [ch "]"] in
  let out := out ++ [ch ","] ++ key "nonce" ++ [dquote] in
  let out := out ++ concat (map hex_byte (vm_nonce self)) ++ [dquote] in
  let out := match passt_pid self with Some pid => out ++ [ch ","] ++ key "passt_pid" ++ dec pid | None => out end in
  let out := match max_lifetime self with Some lt => out ++ [ch ","] ++ key "max_lifetime" ++ dec lt | None => out end in
  out ++ [ch "}"].

(** [&hex[i * 2..i * 2 + 2]] for the rest of the text; off a character boundary
    the slice panics. *)
Fixpoint nonce_loop (n : nat) (hex nonce : bytes) : io (option bytes) :=
  match n with
  | O => Ok (Some nonce)
  | S n =>
    if negb (Utf8.is_char_boundary hex 2) then Err Panic
    else match parse_radix 16 255 (take 2 hex) with
         | None => Ok None
         | Some b => nonce_loop n (drop 2 hex) (nonce ++ [b])
         end
  end.

Definition parse_nonce_hex (hex : bytes) : io (option bytes) :=
  if negb (len hex =? NONCE_SIZE * 2) then Ok None else nonce_loop (Z.to_nat NONCE_SIZE) hex [].

(** [host], [guest], [read_only] of [parse_volume_mount]. *)
Definition VolumeFields : Type := option bytes * option bytes * option bool.

Definition volume_field (k : bytes) (st : VolumeFields) (p : bytes) : io (VolumeFields * bytes) :=
  let '(h, g, r) := st in
  if decide (k = bs "host") then '(v, p) ← parse_string p; Ok ((Some v, g, r), p)
  else if decide (k = bs "guest") then '(v, p) ← parse_string p; Ok ((h, Some v, r), p)
  else if decide (k = bs "read_only") then '(v, p) ← parse_bool p; Ok ((h, g, Some v), p)
  else p ← skip_value (skip_fuel p) p; Ok (st, p).

Definition parse_volume_mount (p : bytes) : io (VolumeMount * bytes) :=
  p ← expect_byte (ch "{") (skip_ws p);
  '((h, g, r), p) ← object_loop volume_field (S (length p)) true (None, None, None) p;
  h ← ok_or (IoError InvalidData "missing 'host'") h;
  g ← ok_or (IoError InvalidData "missing 'guest'") g;
  Ok ({| vol_host := h; vol_guest := g; read_only := default false r |}, p).

(** The loop of the volumes; it stops before the closing bracket. *)
Fixpoint volumes_loop (fuel : nat) (vols : list VolumeMount) (p : bytes) : io (list VolumeMount * bytes) :=
  match fuel with
  | O => Err OutOfFuel
  | S f =>
    '(v, p) ← parse_volume_mount p;
    let vols := vols ++ [v] in
    let p := skip_ws p in
    match peek p with
    | Some c =>
      if c =? ch "," then volumes_loop f vols (advance p)
      else if c =? ch "]" then Ok (vols, p)
      else invalid "expected ',' or ']' in volumes"
    | None => invalid "expected ',' or ']' in volumes"
    end
  end.

(** The local variables of [from_json]. *)
Record VmFields : Type := {
  v_image : option bytes; v_cpus : option Z; v_mem_mb : option Z; v_net : option bool;
  v_nonce : option bytes; v_passt_pid : option Z; v_max_lifetime : option Z; v_volumes : list VolumeMount;
}.

Definition vm_field (k : bytes) (st : VmFields) (p : bytes) : io (VmFields * bytes) :=
  let '(Build_VmFields i c m n o q l vs) := st in
  if decide (k = bs "image") then '(v, p) ← parse_string p; Ok (Build_VmFields (Some v) c m n o q l vs, p)
  else if decide (k = bs "cpus") then '(v, p) ← json_u64 p; Ok (Build_VmFields i (Some (wrap 32 v)) m n o q l vs, p)
  else if decide (k = bs "mem_mb") then '(v, p) ← json_u64 p; Ok (Build_VmFields i c (Some (wrap 32 v)) n o q l vs, p)
  else if decide (k = bs "net") then '(v, p) ← parse_bool p; Ok (Build_VmFields i c m (Some v) o q l vs, p)
  else if decide (k = bs "nonce") then
    '(hex, p) ← parse_string p;
    r ← parse_nonce_hex hex;
    v ← ok_or (IoError InvalidData "invalid nonce hex") r;
    Ok (Build_VmFields i c m n (Some v) q l vs, p)
  else if decide (k = bs "passt_pid") then '(v, p) ← json_u64 p; Ok (Build_VmFields i c m n o (Some (wrap 32 v)) l vs, p)
  else if decide (k = bs "max_lifetime") then '(v, p) ← json_u64 p; Ok (Build_VmFields i c m n o q (Some v) vs, p)
  else if decide (k = bs "volumes") then
    p ← expect_byte (ch "[") p;
    let p := skip_ws p in
    '(vs, p) ← (if decide (peek p = Some (ch "]")) then Ok (vs, p) else volumes_loop (S (length p)) vs p);
    Ok (Build_VmFields i c m n o q l vs, advance p)
  else p ← skip_value (skip_fuel p) p; Ok (st, p).

Definition vm_from_json (json : bytes) : io VmConfig :=
  p ← expect_byte (ch "{") (skip_ws json);
  '(st, _) ← object_loop vm_field (S (length p)) true (Build_VmFields None None None None None None None []) p;
  i ← ok_or (IoError InvalidData "missing 'image'") (v_image st);
  c ← ok_or (IoError InvalidData "missing 'cpus'") (v_cpus st);
  m ← ok_or (IoError InvalidData "missing 'mem_mb'") (v_mem_mb st);
  o ← ok_or (IoError InvalidData "missing 'nonce'") (v_nonce st);
  Ok {| image := i; cpus := c; mem_mb := m; net := default false (v_net st); vm_nonce := o;
        passt_pid := v_passt_pid st; max_lifetime := v_max_lifetime st; volumes := v_volumes st |}.

(** ** Saving and loading *)

Section Disk.
Context (disk : Disk) (xdg home : result VarError bytes).

Definition VM_JSON : bytes := bs "vm.json".

Definition save (self : VmConfig) (name : bytes) : ST Files Abort unit :=
  dir ← lift_io (vm_dir xdg home name);
  let target := push dir VM_JSON in
  let tmp := push dir (bs ".vm.json.tmp") in
  let json := vm_to_json self in
  _ ← open_truncate disk tmp 384;
  _ ← file_write_all disk tmp json;
  _ ← sync_all disk;
  rename disk tmp target.

Definition load (name : bytes) (fs : Files) : io VmConfig :=
  dir ← vm_dir xdg home name;
  json ← read_to_string (push dir VM_JSON) fs;
  vm_from_json json.
End Disk.

(** ** Round trip *)

Definition volume_ok (v : VolumeMount) : Prop := is_str (vol_host v) /\ is_str (vol_guest v).

(** What the types of the fields promise. *)
Definition config_ok (c : VmConfig) : Prop :=
  is_str (image c) /\ is_uint 32 (cpus c) /\ is_uint 32 (mem_mb c) /\ Forall volume_ok (volumes c) /\
  Forall is_u8 (vm_nonce c) /\ len (vm_nonce c) = NONCE_SIZE /\
  (forall pid, passt_pid c = Some pid -> is_uint 32 pid) /\ (forall t, max_lifetime c = Some t -> is_uint 64 t).

Definition volume_value (v : VolumeMount) : bytes :=
  ch "{" :: comma true ++ key "host" ++ quoted (vol_host v) ++ comma false ++ key "guest" ++ quoted (vol_guest v)
  ++ comma false ++ key "read_only" ++ show_bool (read_only v) ++ [ch "}"].

Lemma parse_bool_show b rest : parse_bool (show_bool b ++ rest) = Ok (b, rest).
Proof. by destruct b. Qed.

(** A member whose value is a boolean. *)
Lemma object_loop_bool {St} field f (st : St) k b rest st' : plain_key k ->
  field (bs k) st (show_bool b ++ rest) = Ok (st', rest) ->
  object_loop field (S f) false st (comma false ++ key k ++ show_bool b ++ rest) = object_loop field f false st' rest.
Proof.
  intros Hk Hf. destruct b; [exact (object_loop_member field f false st k (ch "t") (bs "rue") rest st' Hk eq_refl Hf)|].
  exact (object_loop_member field f false st k (ch "f") (bs "alse") rest st' Hk eq_refl Hf).
Qed.

(** A member whose value is a string. *)
Lemma object_loop_string {St} field f first (st : St) k v rest st' : plain_key k ->
  field (bs k) st (quoted v ++ rest) = Ok (st', rest) ->
  object_loop field (S f) first st (comma first ++ key k ++ quoted v ++ rest) = object_loop field f false st' rest.
Proof. intros Hk Hf. exact (object_loop_member field f first st k dquote _ rest st' Hk eq_refl Hf). Qed.

Lemma parse_volume_value v rest : volume_ok v -> parse_volume_mount (volume_value v ++ rest) = Ok (v, rest).
Proof.
  intros [Hh Hg]. unfold parse_volume_mount, volume_value. cbn [app]. rewrite skip_ws_head by done.
  change (expect_byte (ch "{") (ch "{" :: ?p)) with (@Ok Abort bytes (drop 0 p)). rewrite drop_0.
  cbn [mbind result_bind]. rewrite <-!app_assoc. set (p := comma true ++ _). set (n := length p).
  assert (Hn : (4 <= n)%nat) by (subst n p; rewrite !length_app; simpl; lia). clearbody n. subst p.
  do 4 (destruct n as [|n]; [lia|]).
  erewrite object_loop_string; [|by_eval|cbn -[parse_string quoted]; rewrite parse_string_quoted by done; reflexivity].
  erewrite (object_loop_string _ _ false); [|by_eval|cbn -[parse_string quoted]; rewrite parse_string_quoted by done; reflexivity].
  erewrite object_loop_bool; [|by_eval|cbn -[parse_bool show_bool]; rewrite parse_bool_show; reflexivity].
  cbn [app]. rewrite object_loop_end. cbn. by destruct v.
Qed.

Definition volumes_body (l : list VolumeMount) : bytes :=
  match l with
  | [] => []
  | v :: l => volume_value v ++ concat (map (fun v => ch "," :: volume_value v) l)
  end.

Lemma volumes_json_tail i l out : 0 < i ->
  volumes_json i l out = out ++ concat (map (fun v => ch "," :: volume_value v) l).
Proof.
  revert i out. induction l as [|v l IH]; intros i out Hi; cbn [volumes_json map concat]; [by rewrite app_nil_r|].
  bcase; [|lia]. rewrite IH by lia. rewrite !json_encode_string_quoted. unfold volume_value, comma.
  repeat (rewrite <-!app_assoc; cbn [app]). done.
Qed.

Lemma volumes_json_body l out : volumes_json 0 l out = out ++ volumes_body l.
Proof.
  destruct l as [|v l]; cbn [volumes_json volumes_body]; [by rewrite app_nil_r|]. change (0 <? 0) with false. cbn match.
  rewrite volumes_json_tail by lia. rewrite !json_encode_string_quoted. unfold volume_value, comma.
  repeat (rewrite <-!app_assoc; cbn [app]). done.
Qed.

Lemma volumes_loop_body v l f vols rest : volume_ok v -> Forall volume_ok l -> (length l < f)%nat ->
  volumes_loop f vols (volume_value v ++ concat (map (fun v => ch "," :: volume_value v) l) ++ ch "]" :: rest)
  = Ok (vols ++ v :: l, ch "]" :: rest).
Proof.
  intros Hv Hl. revert v f vols Hv. induction Hl as [|w l Hw Hl IH]; intros v f vols Hv Hf;
    (destruct f as [|f]; [simpl in Hf; lia|]); cbn [volumes_loop]; rewrite parse_volume_value by done;
    cbn [mbind result_bind]; [done|].
  cbn [map concat app]. rewrite skip_ws_head by done. cbn [peek head]. change (ch "," =? ch ",") with true. cbn match.
  unfold advance. cbn [drop]. rewrite drop_0, <-app_assoc. rewrite IH by (done || (simpl in Hf; lia)).
  by rewrite <-app_assoc.
Qed.

(** *** The nonce *)

Lemma hex_byte_parse b : is_u8 b -> parse_radix 16 255 (hex_byte b) = Some b /\
  Forall (fun c => encode_char c = [c] /\ 0 <= c < 128) (hex_byte b).
Proof.
  intros Hb. assert (H : Forall (fun b => parse_radix 16 255 (hex_byte b) = Some b /\
    Forall (fun c => encode_char c = [c] /\ 0 <= c < 128) (hex_byte b)) (seqZ 0 256)) by by_eval.
  rewrite List.Forall_forall in H. apply H, list_elem_of_In, elem_of_seqZ. unfold is_u8, is_uint in Hb. lia.
Qed.

Lemma nonce_loop_hex nonce acc : Forall is_u8 nonce ->
  nonce_loop (length nonce) (concat (map hex_byte nonce)) acc = Ok (Some (acc ++ nonce)).
Proof.
  intros Hn. revert acc. induction Hn as [|b nonce Hb Hn IH]; intros acc; [by rewrite app_nil_r|].
  cbn [length map concat nonce_loop]. destruct (hex_byte_parse b Hb) as [Hp _].
  assert (Hbd : Utf8.is_char_boundary (hex_byte b ++ concat (map hex_byte nonce)) 2 = true).
  { unfold Utf8.is_char_boundary. cbn match. destruct Hn as [|c nonce Hc Hn]; [done|].
    destruct (hex_byte_parse c Hc) as [_ Hh]. inv Hh. cbn. apply negb_true_iff. lia. }
  rewrite Hbd. cbn [negb]. rewrite take_app_length', drop_app_length' by done. rewrite Hp, IH. by rewrite <-app_assoc.
Qed.

Lemma plain_encode s : Forall (fun c => encode_char c = [c] /\ 0 <= c < 128) s -> concat (map encode_char s) = s.
Proof. induction 1 as [|c s [Hc _] _ IH]; [done|]. cbn [map concat]. rewrite Hc. cbn [app]. by rewrite IH. Qed.

Lemma hex_quoted nonce : Forall is_u8 nonce ->
  quoted (concat (map hex_byte nonce)) = dquote :: concat (map hex_byte nonce) ++ [dquote] /\
  is_str (concat (map hex_byte nonce)).
Proof.
  intros Hn. assert (H : Forall (fun c => encode_char c = [c] /\ 0 <= c < 128) (concat (map hex_byte nonce))).
  { induction Hn as [|b nonce Hb Hn IH]; [constructor|]. apply Forall_app. split; [by apply hex_byte_parse|done]. }
  assert (Ha : Forall (fun c => 0 <= c < 128) (concat (map hex_byte nonce))) by (eapply List.Forall_impl; [|exact H]; by intros ? [_ ?]).
  split; [|by apply Utf8.valid_ascii]. unfold quoted, Utf8.chars. rewrite (Utf8.decode_ascii _ Ha).
  change (default [] (Some ?l)) with l. by rewrite (plain_encode _ H).
Qed.

Lemma parse_nonce_ok nonce : Forall is_u8 nonce -> len nonce = NONCE_SIZE ->
  parse_nonce_hex (concat (map hex_byte nonce)) = Ok (Some nonce).
Proof.
  intros Hn Hl. unfold parse_nonce_hex. replace (len _) with (2 * len nonce).
  - rewrite Hl. change (negb (2 * NONCE_SIZE =? NONCE_SIZE * 2)) with false. cbn match.
    replace (Z.to_nat NONCE_SIZE) with (length nonce) by (unfold len in Hl; lia). by apply nonce_loop_hex.
  - clear. unfold len. induction nonce as [|b nonce IH]; [done|]. cbn [map concat length]. rewrite length_app. simpl. lia.
Qed.

(** The members that are written last. *)
Definition option_members (c : VmConfig) : bytes :=
  match passt_pid c with Some pid => comma false ++ key "passt_pid" ++ dec pid | None => [] end ++
  match max_lifetime c with Some t => comma false ++ key "max_lifetime" ++ dec t | None => [] end ++ [ch "}"].

Lemma vm_to_json_members c : vm_to_json c =
  ch "{" :: comma true ++ key "image" ++ quoted (image c) ++
  comma false ++ key "cpus" ++ dec (cpus c) ++ comma false ++ key "mem_mb" ++ dec (mem_mb c) ++
  comma false ++ key "net" ++ show_bool (net c) ++
  comma false ++ key "volumes" ++ (ch "[" :: volumes_body (volumes c) ++ [ch "]"]) ++
  comma false ++ key "nonce" ++ (dquote :: concat (map hex_byte (vm_nonce c)) ++ [dquote]) ++ option_members c.
Proof.
  unfold vm_to_json, option_members, comma. rewrite json_encode_string_quoted, volumes_json_body.
  destruct (passt_pid c), (max_lifetime c); repeat (rewrite <-!app_assoc; cbn [app]); done.
Qed.

Lemma volumes_field st l rest : Forall volume_ok l -> v_volumes st = [] ->
  vm_field (bs "volumes") st (ch "[" :: volumes_body l ++ ch "]" :: rest) =
  Ok (Build_VmFields (v_image st) (v_cpus st) (v_mem_mb st) (v_net st) (v_nonce st) (v_passt_pid st) (v_max_lifetime st) l,
      rest).
Proof.
  intros Hl Hv. destruct st as [i c m n o q t vs]. cbn in Hv. subst vs. unfold vm_field.
  repeat (rewrite decide_False by done). rewrite decide_True by done.
  change (expect_byte (ch "[") (ch "[" :: ?p)) with (@Ok Abort bytes (drop 0 p)). rewrite drop_0.
  cbn [mbind result_bind]. destruct l as [|v l]; [cbn; by rewrite ?drop_0|].
  cbn [volumes_body]. rewrite <-app_assoc. inv Hl.
  change (skip_ws (volume_value v ++ ?r)) with (volume_value v ++ r). rewrite decide_False by done.
  rewrite volumes_loop_body; [cbn; by rewrite ?drop_0|done|done|].
  rewrite !length_app. clear. induction l as [|x l IH]; cbn [map concat length app]; rewrite ?length_app; cbn [length] in *; lia.
Qed.

(** A member whose value is a number; [x] starts what follows. *)
Lemma vm_number f st st' k n x rest : plain_key k -> is_uint 64 n -> is_ascii_digit x = false ->
  (forall p q, json_u64 p = Ok (n, q) -> vm_field (bs k) st p = Ok (st', q)) ->
  object_loop vm_field (S f) false st (comma false ++ key k ++ dec n ++ x :: rest) =
  object_loop vm_field f false st' (x :: rest).
Proof.
  intros Hk Hn Hx Hf. apply object_loop_number; [done|apply Hn|]. by apply Hf, json_u64_dec.
Qed.

Lemma uint_32_64 n : is_uint 32 n -> is_uint 64 n /\ wrap 32 n = n.
Proof. intros Hn. split; [unfold is_uint in *; lia|by apply wrap_small]. Qed.

Lemma vm_number_32 f st st' k n rest : plain_key k -> is_uint 32 n ->
  (forall p q, json_u64 p = Ok (n, q) -> wrap 32 n = n -> vm_field (bs k) st p = Ok (st', q)) ->
  object_loop vm_field (S f) false st (comma false ++ key k ++ dec n ++ comma false ++ rest) =
  object_loop vm_field f false st' (comma false ++ rest).
Proof.
  intros Hk Hn Hf. destruct (uint_32_64 n Hn) as [Hu Hw].
  apply (vm_number f st st' k n (ch ",") rest Hk Hu eq_refl). intros p q Hj. by apply Hf.
Qed.

Lemma options_loop f c i n m t o vs : config_ok c -> (3 <= f)%nat ->
  object_loop vm_field f false (Build_VmFields i n m t o None None vs) (option_members c) =
  Ok (Build_VmFields i n m t o (passt_pid c) (max_lifetime c) vs, []).
Proof.
  intros (_ & _ & _ & _ & _ & _ & Hp & Ht) Hf. do 3 (destruct f as [|f]; [lia|]). unfold option_members.
  assert (Hlast : forall q f, object_loop vm_field (S (S f)) false (Build_VmFields i n m t o q None vs)
    (match max_lifetime c with Some t => comma false ++ key "max_lifetime" ++ dec t | None => [] end ++ [ch "}"]) =
    Ok (Build_VmFields i n m t o q (max_lifetime c) vs, [])).
  { intros q f'. destruct (max_lifetime c) as [lt|]; [|apply object_loop_end]. specialize (Ht _ eq_refl).
    rewrite <-!app_assoc. cbn [app]. erewrite vm_number; [apply object_loop_end|by_eval|done|done|].
    intros p r Hj. cbn -[json_u64]. by rewrite Hj. }
  destruct (passt_pid c) as [pid|]; [|apply Hlast]. destruct (uint_32_64 _ (Hp _ eq_refl)) as [Hu Hw].
  rewrite <-!app_assoc. specialize (Hlast (Some pid) f).
  destruct (_ ++ [ch "}"]) as [|x r] eqn:E; [by destruct (max_lifetime c)|].
  assert (Hx : is_ascii_digit x = false) by (by destruct (max_lifetime c); simplify_eq/=).
  erewrite vm_number; [exact Hlast|by_eval|done|done|].
  intros p q Hj. cbn -[json_u64 wrap]. rewrite Hj. cbn -[wrap]. by rewrite Hw.
Qed.

Lemma vm_from_json_wire c : config_ok c -> vm_from_json (vm_to_json c) = Ok c.
Proof.
  intros Hok. pose proof Hok as (Hi & Hc & Hm & Hv & Hn & Hl & _). rewrite vm_to_json_members. unfold vm_from_json.
  rewrite skip_ws_head by done.
  change (expect_byte (ch "{") (ch "{" :: ?p)) with (@Ok Abort bytes (drop 0 p)). rewrite drop_0.
  cbn [mbind result_bind]. set (p := comma true ++ _). set (n := S (length p)).
  assert (Hf : (10 <= n)%nat) by (subst n p; rewrite !length_app; simpl; lia). clearbody n. subst p.
  do 6 (destruct n as [|n]; [lia|]).
  erewrite object_loop_string; [|by_eval|cbn -[parse_string quoted]; rewrite parse_string_quoted by done; reflexivity].
  erewrite vm_number_32; [|by_eval|done|intros p q Hj Hw; cbn -[json_u64 wrap]; rewrite Hj; cbn -[wrap]; rewrite Hw; reflexivity].
  erewrite vm_number_32; [|by_eval|done|intros p q Hj Hw; cbn -[json_u64 wrap]; rewrite Hj; cbn -[wrap]; rewrite Hw; reflexivity].
  erewrite object_loop_bool; [|by_eval|cbn -[parse_bool show_bool]; rewrite parse_bool_show; reflexivity].
  erewrite (object_loop_member _ _ false);
    [|by_eval|done|rewrite <-app_assoc; apply volumes_field; [exact Hv|reflexivity]].
  destruct (hex_quoted _ Hn) as [<- Hs].
  erewrite object_loop_string.
  2: by_eval.
  2:{ cbn -[parse_string quoted parse_nonce_hex]. rewrite parse_string_quoted by done. cbn -[parse_nonce_hex].
      rewrite parse_nonce_ok by done. reflexivity. }
  rewrite options_loop by (done || lia). cbn. by destruct c.
Qed.

(** ** The parser ends, with a well-formed configuration *)

Lemma parse_radix_16 s b : parse_radix 16 255 s = Some b -> is_u8 b.
Proof.
  intros H. split; [|apply parse_radix_range in H; lia]. unfold parse_radix in H. destruct (strip_plus s); [done|].
  destruct (digits_val 16 0 _) eqn:E; [|done]. apply digits_val_nonneg in E; [|lia..]. bcase; [by simplify_eq|done].
Qed.

Lemma nonce_loop_ok n hex acc : Forall is_u8 acc ->
  match nonce_loop n hex acc with
  | Ok (Some nonce) => Forall is_u8 nonce /\ length nonce = (length acc + n)%nat
  | Ok None => True
  | Err e => e = Panic
  end.
Proof.
  revert hex acc. induction n as [|n IH]; intros hex acc Ha; cbn [nonce_loop]; [split; [done|lia]|].
  destruct (negb _); [done|]. destruct (parse_radix 16 255 (take 2 hex)) as [b|] eqn:E; [|done]. apply parse_radix_16 in E.
  specialize (IH (drop 2 hex) (acc ++ [b])). rewrite length_app in IH. simpl in IH.
  replace (length acc + S n)%nat with (length acc + 1 + n)%nat by lia. apply IH, Forall_app.
  split; [done|]. by apply Forall_singleton.
Qed.

Definition nonce_ok (n : bytes) : Prop := Forall is_u8 n /\ len n = NONCE_SIZE.

Lemma parse_nonce_hex_ok hex :
  match parse_nonce_hex hex with Ok (Some nonce) => nonce_ok nonce | Ok None => True | Err e => e = Panic end.
Proof.
  unfold parse_nonce_hex. destruct (negb _); [done|].
  pose proof (nonce_loop_ok (Z.to_nat NONCE_SIZE) hex [] ltac:(constructor)) as H'.
  repeat case_match; try done. destruct H' as [Hu Hl]. split; [done|]. unfold len. by rewrite Hl.
Qed.

(** A field that is read by a parser [m] and stored by [f]. *)
Lemma parses_store {A St} (P : A -> Prop) (ok : St -> Prop) n p (m : io (A * bytes)) (f : A -> St) :
  parses P n p m -> (1 <= n)%nat -> (forall a, P a -> ok (f a)) -> parses ok 1 p ('(v, q) ← m; Ok (f v, q)).
Proof.
  intros Hm Hn Hf. eapply parses_bind; [exact Hm|]. intros v q _ Hv Hq.
  apply parses_ok; [by apply Hf|]. by eapply rest_of_weaken.
Qed.

Lemma parses_skip {St} (ok : St -> Prop) p (st : St) : ok st ->
  parses ok 1 p (q ← skip_value (skip_fuel p) p; Ok (st, q)).
Proof. intros Hst. eapply eats_bind; [apply skip_value_eats|]. intros q _ Hq. by apply parses_ok. Qed.

Definition volume_fields_ok (st : VolumeFields) : Prop :=
  let '(h, g, _) := st in (forall v, h = Some v -> is_str v) /\ (forall v, g = Some v -> is_str v).

Lemma volume_field_parses k st p : volume_fields_ok st -> parses volume_fields_ok 1 p (volume_field k st p).
Proof.
  destruct st as [[h g] r]. intros [Hh Hg]. unfold volume_field.
  repeat case_decide.
  - apply (parses_store is_str _ 2 p (parse_string p) (fun v => (Some v, g, r))); [apply parse_string_parses|lia|].
    intros v Hv. split; [by intros ? [= <-]|done].
  - apply (parses_store is_str _ 2 p (parse_string p) (fun v => (h, Some v, r))); [apply parse_string_parses|lia|].
    intros v Hv. split; [done|by intros ? [= <-]].
  - by apply (parses_store (fun _ => True) _ 1 p (parse_bool p) (fun v => (h, g, Some v))); [apply parse_bool_parses|lia|].
  - by apply parses_skip.
Qed.

Lemma parse_volume_mount_parses p : parses volume_ok 1 p (parse_volume_mount p).
Proof.
  unfold parse_volume_mount. eapply eats_bind; [by apply eats_ws, expect_byte_eats|]. intros q _ Hq.
  apply (parses_weaken volume_ok _ (1 + 1)); [|lia|done]. apply (parses_le _ _ _ q); [done|].
  eapply parses_bind.
  { apply (object_loop_parses volume_field volume_fields_ok); [apply volume_field_parses|lia|done]. }
  intros [[h g] r] q1 _ [Hh Hg] Hq1. destruct h as [h|]; [|done]. destruct g as [g|]; [|done]. cbn.
  apply parses_ok; [split; cbn; [by apply Hh|by apply Hg]|done].
Qed.

(** The loop of the volumes with the [advance] over the closing bracket. *)
Lemma volumes_loop_parses fuel vols p : (length p < fuel)%nat -> Forall volume_ok vols ->
  parses (Forall volume_ok) 1 p ('(vs, q) ← volumes_loop fuel vols p; Ok (vs, advance q)).
Proof.
  revert vols p. induction fuel as [|f IH]; intros vols p Hf Hv; [lia|]. cbn [volumes_loop].
  intros Hp. pose proof (parse_volume_mount_parses p Hp) as Hm. destruct (parse_volume_mount p) as [[v q]|e]; [|done].
  destruct Hm as [Hv1 Hq]. cbn [mbind result_bind].
  assert (Hvs : Forall volume_ok (vols ++ [v])) by (apply Forall_app; split; [done|by apply Forall_singleton]).
  destruct (peek (skip_ws q)) as [c|] eqn:Ep; [|done]. bcase; [|bcase; [|done]]; subst c.
  - pose proof (rest_of_trans _ _ _ _ _ Hq (peek_ws_rest (ch ",") q ltac:(done) Ep (proj2 Hq))) as Hr.
    destruct Hr as [Hl Hs]. specialize (IH (vols ++ [v]) (advance (skip_ws q)) ltac:(lia) Hvs Hs).
    cbn [mbind result_bind] in IH. destruct (volumes_loop f _ _) as [[vs r]|e]; [|done]. cbn in IH |- *.
    destruct IH as [? [? ?]]. split; [done|]. split; [lia|done].
  - split; [done|]. apply (rest_of_weaken 2); [|lia].
    apply (rest_of_trans _ _ _ _ _ Hq), (peek_ws_rest (ch "]")); [done|done|apply Hq].
Qed.

(** The invariant of the local variables. *)
Definition vm_fields_ok (st : VmFields) : Prop :=
  (forall v, v_image st = Some v -> is_str v) /\ (forall v, v_cpus st = Some v -> is_uint 32 v) /\
  (forall v, v_mem_mb st = Some v -> is_uint 32 v) /\ (forall v, v_nonce st = Some v -> nonce_ok v) /\
  (forall v, v_passt_pid st = Some v -> is_uint 32 v) /\ (forall v, v_max_lifetime st = Some v -> is_uint 64 v) /\
  Forall volume_ok (v_volumes st).

Lemma vm_field_parses k st p : vm_fields_ok st -> parses vm_fields_ok 1 p (vm_field k st p).
Proof.
  intros Hst. destruct st as [i c m n o q l vs]. pose proof Hst as (Hi & Hc & Hm & Ho & Hq & Hl & Hv). cbn in Hi, Hc, Hm, Ho, Hq, Hl, Hv.
  assert (KN : forall f, (forall v, 0 <= v <= 18446744073709551615 -> vm_fields_ok (f v)) ->
    parses vm_fields_ok 1 p ('(v, p) ← json_u64 p; Ok (f v, p))).
  { intros f. eapply parses_store; [apply json_u64_parses|lia]. }
  assert (W : forall v, is_uint 32 (wrap 32 v)) by (intros v; by apply wrap_range).
  unfold vm_field. repeat case_decide.
  - eapply (parses_store is_str _ 2 _ _ (fun v => Build_VmFields (Some v) c m n o q l vs)); [apply parse_string_parses|lia|].
    intros v Hvs. split_and!; cbn; try done. by intros ? [= <-].
  - apply KN. intros v _. split_and!; cbn; try done. by intros ? [= <-].
  - apply KN. intros v _. split_and!; cbn; try done. by intros ? [= <-].
  - by eapply (parses_store (fun _ => True) _ 1 _ _ (fun v => Build_VmFields i c m (Some v) o q l vs)); [apply parse_bool_parses|lia|].
  - eapply parses_bind; [apply parse_string_parses|]. intros hex r _ _ Hr.
    pose proof (parse_nonce_hex_ok hex) as Hn. destruct (parse_nonce_hex hex) as [[nonce|]|e]; [|done|by subst e].
    cbn. apply parses_ok; [|by eapply rest_of_weaken; [exact Hr|lia]]. split_and!; cbn; try done. by intros ? [= <-].
  - apply KN. intros v _. split_and!; cbn; try done. by intros ? [= <-].
  - apply KN. intros v Hvr. split_and!; cbn; try done. intros ? [= <-]. unfold is_uint. lia.
  - eapply eats_bind; [by apply expect_byte_eats|]. intros r Hp Hr. case_decide as Ep.
    + cbn. apply parses_ok; [done|]. apply (rest_of_weaken 2); [|lia].
      apply (rest_of_trans _ _ _ _ _ Hr), (peek_ws_rest (ch "]")); [done|done|apply Hr].
    + intros _. pose proof (rest_of_skip_ws r (proj2 Hr)) as Hw. pose proof (rest_of_trans _ _ _ _ _ Hr Hw) as Hrw.
      pose proof (volumes_loop_parses (S (length (skip_ws r))) vs (skip_ws r) ltac:(lia) Hv (proj2 Hw)) as Hl'.
      destruct (volumes_loop _ vs (skip_ws r)) as [[vs' r']|e]; cbn in Hl' |- *; [|done]. destruct Hl' as [Hvs Hr'].
      split; [done|]. apply (rest_of_weaken (1 + 0 + 1)); [|lia]. by apply (rest_of_trans _ _ _ _ _ Hrw).
  - by apply parses_skip.
Qed.

(** C38: the stored configuration survives.  Reading what [save] writes gives the configuration back, whatever its
    strings hold; and on any text the parser ends, with an error, a panic or a configuration whose fields are in
    the range of their types. *)
Theorem vm_config_roundtrip :
  (forall c, config_ok c -> vm_from_json (vm_to_json c) = Ok c) /\
  (forall json, is_str json ->
     match vm_from_json json with Ok c => config_ok c | Err e => e <> OutOfFuel end).
Proof.
  split; [exact vm_from_json_wire|]. intros json Hj. unfold vm_from_json. pose proof (rest_of_skip_ws json Hj) as Hw.
  pose proof (expect_byte_eats (ch "{") (skip_ws json) ltac:(done) (proj2 Hw)) as He.
  destruct (expect_byte _ _) as [p|e]; cbn [mbind result_bind fmap result_fmap] in He |- *; [|done].
  destruct He as [_ [_ Hp]].
  pose proof (object_loop_parses vm_field vm_fields_ok (S (length p)) true (Build_VmFields None None None None None None None []) p
    vm_field_parses ltac:(lia) ltac:(by repeat split) Hp) as Hl.
  destruct (object_loop _ _ _ _ _) as [[st q]|e]; cbn [mbind result_bind]; [|done].
  destruct Hl as ((Hi & Hc & Hm & Ho & Hq & Ht & Hv) & _).
  destruct (v_image st), (v_cpus st), (v_mem_mb st), (v_nonce st); try done. cbn.
  destruct (Ho _ eq_refl) as [Hu Hlen]. split_and!; cbn; auto.
Qed.

Definition demo_config : VmConfig :=
  {| image := bs "fedora:42"; cpus := 2; mem_mb := 4096; net := true;
     volumes := [{| vol_host := [dquote; 195; 169]; vol_guest := bs "/mnt"; read_only := true |};
                 {| vol_host := bs "/b"; vol_guest := bs "/c"; read_only := false |}];
     vm_nonce := repeat 171 32; passt_pid := Some 4242; max_lifetime := None |}.

#[export] Instance volume_ok_dec v : Decision (volume_ok v).
Proof. unfold volume_ok, is_str. apply _. Defined.

Lemma demo_config_ok : config_ok demo_config.
Proof.
  split_and!; try by_eval.
  - intros pid [= <-]. by_eval.
  - done.
Qed.

Lemma vm_config_roundtrip_witness : vm_from_json (vm_to_json demo_config) = Ok demo_config.
Proof. apply vm_config_roundtrip, demo_config_ok. Defined.

(** A nonce that is 64 bytes long can panic the parser: the slices of two bytes may cut a character. *)
Theorem vm_from_json_can_panic : exists json, is_str json /\ vm_from_json json = Err Panic.
Proof.
  exists ([ch "{"] ++ key "nonce" ++ [dquote; ch "0"; 195; 169] ++ repeat (ch "0") 61 ++ [dquote; ch "}"]).
  split; vm_compute; reflexivity.
Qed.

(** ** Where and how the file is written *)

Lemma vm_dir_join xdg home name d : vm_dir xdg home name = Ok d ->
  exists v, vms_dir xdg home = Ok v /\ d = push v name /\ is_name name.
Proof.
  unfold vm_dir. destruct (sanitize_task_id name) eqn:E; [|done]. destruct (vms_dir xdg home) as [v|]; [|done].
  intros [= <-]. exists v. split_and!; [done..|]. apply sanitize_task_id_spec. by rewrite E.
Qed.

Lemma is_str_cons c s : 0 <= c < 128 -> is_str s -> is_str (c :: s).
Proof. intros Hc Hs. apply (is_str_app [c]); [by apply Utf8.valid_ascii, Forall_singleton|done]. Qed.

Lemma is_str_volume v : volume_ok v -> is_str (volume_value v).
Proof.
  intros [Hh Hg]. unfold volume_value. apply is_str_cons; [done|].
  apply (is_str_member true); [by_eval|by apply is_str_quoted|].
  apply is_str_member; [by_eval|by apply is_str_quoted|].
  apply is_str_member; [by_eval|by destruct (read_only v)|done].
Qed.

Lemma is_str_volumes l : Forall volume_ok l -> is_str (ch "[" :: volumes_body l ++ [ch "]"]).
Proof.
  intros Hl. apply is_str_cons; [done|]. apply is_str_app; [|done]. destruct Hl as [|v l Hv Hl]; [done|].
  cbn [volumes_body]. apply is_str_app; [by apply is_str_volume|]. induction Hl as [|w l Hw _ IH]; [done|].
  cbn [map concat app]. apply is_str_cons; [done|]. apply is_str_app; [by apply is_str_volume|done].
Qed.

Lemma is_str_vm_to_json c : config_ok c -> is_str (vm_to_json c).
Proof.
  intros (Hi & Hc & Hm & Hv & Hn & _ & Hp & Ht). unfold is_uint in *. rewrite vm_to_json_members.
  apply is_str_cons; [done|]. destruct (hex_quoted _ Hn) as [<- Hh].
  apply (is_str_member true); [by_eval|by apply is_str_quoted|].
  apply is_str_member; [by_eval|apply is_str_digits; lia|].
  apply is_str_member; [by_eval|apply is_str_digits; lia|].
  apply is_str_member; [by_eval|by destruct (net c)|].
  apply is_str_member; [by_eval|by apply is_str_volumes|].
  apply is_str_member; [by_eval|by apply is_str_quoted|].
  assert (Hd : forall k n, plain_key k -> 0 <= n -> is_str (comma false ++ key k ++ dec n)).
  { intros k n Hk Hn'. rewrite <-(app_nil_r (dec n)). apply is_str_member; [done|by apply is_str_digits|done]. }
  unfold option_members. repeat apply is_str_app; [| |done].
  - destruct (passt_pid c); [|done]. apply Hd; [by_eval|by apply Hp].
  - destruct (max_lifetime c); [|done]. apply Hd; [by_eval|by apply Ht].
Qed.

(** The mode of a file that is created for its owner has no bit for others. *)
Lemma owner_only mask : Z.land (Z.land 384 (Z.lnot mask)) 63 = 0.
Proof. by rewrite <- Z.land_assoc, (Z.land_comm _ 63), Z.land_assoc, Z.land_0_l. Qed.

(** How [save] can end. *)
Lemma save_cases disk xdg home c name fs d : vm_dir xdg home name = Ok d ->
  let tmp := push d (bs ".vm.json.tmp") in let target := push d VM_JSON in
  let m := match (fs !! tmp : option File) with Some f => mode f | None => Z.land 384 (Z.lnot (umask disk)) end in
  (exists e, save disk xdg home c name fs = (fs, Err e)) \/
  (exists x e, save disk xdg home c name fs = (<[tmp := x]> fs, Err e)) \/
  save disk xdg home c name fs = (<[target := {| contents := vm_to_json c; mode := m |}]> (delete tmp fs), Ok tt).
Proof.
  intros Hd tmp target m. unfold save, lift_io. rewrite Hd. unfold mbind, ST_bind, open_truncate. fold tmp target m.
  destruct (open_ok disk fs tmp); [right|left; by eexists]. unfold file_write_all, put. rewrite !alter_insert_eq.
  unfold fs_error, sync_all, rename.
  destruct (write_upto disk _ _); [left; rewrite alter_insert_eq; by eexists _, _|].
  destruct (sync_ok disk _); [|left; unfold fs_error; by eexists _, _]. rewrite lookup_insert_eq.
  destruct (rename_ok disk _); [right|left; unfold fs_error; by eexists _, _].
  by rewrite delete_insert_eq.
Qed.

(** C37: the configuration is replaced as a whole.  At whatever step [save] fails, afterwards the machine's
    configuration is the old one; when [save] succeeds it reads back as the new one, and unless a temporary file
    was left over nobody but the owner has any permission on it.  No file is touched but the two in the machine's
    own directory, which is a direct child of the directory of all machines. *)
Theorem save_atomic disk xdg home c name fs fs' r :
  config_ok c -> save disk xdg home c name fs = (fs', r) ->
  match r with
  | Ok _ => load xdg home name fs' = Ok c /\ exists d f, vm_dir xdg home name = Ok d /\
      fs' !! push d VM_JSON = Some f /\ (fs !! push d (bs ".vm.json.tmp") = None -> Z.land (mode f) 63 = 0)
  | Err _ => load xdg home name fs' = load xdg home name fs
  end /\
  (forall path, fs' !! path <> fs !! path -> exists v file, vms_dir xdg home = Ok v /\ is_name name /\
     path = push (push v name) file /\ file ∈ [VM_JSON; bs ".vm.json.tmp"]).
Proof.
  intros Hok Hrun. unfold load. destruct (vm_dir xdg home name) as [d|e] eqn:Ed.
  2:{ unfold save, mbind, ST_bind, lift_io in Hrun. rewrite Ed in Hrun. by simplify_eq. }
  pose proof (save_cases disk xdg home c name fs d Ed) as Hc. apply vm_dir_join in Ed as (v & Hv & -> & Hname).
  set (tmp := push (push v name) (bs ".vm.json.tmp")) in *. set (target := push (push v name) VM_JSON) in *.
  assert (Hne : tmp <> target) by (intros E; by apply push_inj in E).
  assert (Hfr : forall path, path = tmp \/ path = target -> exists v' file,
    vms_dir xdg home = Ok v' /\ is_name name /\ path = push (push v' name) file /\ file ∈ [VM_JSON; bs ".vm.json.tmp"]).
  { intros path [-> | ->]; exists v; eexists; split_and!; try done; by_eval. }
  cbn [mbind result_bind]. fold target. unfold read_to_string.
  destruct Hc as [[e E]|[(x & e & E)|E]]; rewrite E in Hrun; simplify_eq; split.
  - done.
  - done.
  - by rewrite lookup_insert_ne.
  - intros path Hp. apply Hfr. left. destruct (decide (path = tmp)); [done|]. by rewrite lookup_insert_ne in Hp.
  - rewrite lookup_insert_eq. cbn [contents]. rewrite (is_str_vm_to_json c Hok). cbn [mbind result_bind].
    split; [by apply vm_from_json_wire|]. eexists _, _. split; [done|]. rewrite lookup_insert_eq. split; [done|].
    cbn [mode]. fold tmp. intros ->. apply owner_only.
  - intros path Hp. apply Hfr. destruct (decide (path = tmp)) as [|Ht]; [by left|right].
    destruct (decide (path = target)); [done|]. by rewrite lookup_insert_ne, lookup_delete_ne in Hp.
Qed.

Lemma save_atomic_witness :
  load (Ok (bs "/data")) (Err NotPresent) (bs "vm-1")
    (save demo_disk (Ok (bs "/data")) (Err NotPresent) demo_config (bs "vm-1") ∅).1 = Ok demo_config.
Proof.
  destruct (save_atomic demo_disk (Ok (bs "/data")) (Err NotPresent) demo_config (bs "vm-1") ∅
    (save demo_disk (Ok (bs "/data")) (Err NotPresent) demo_config (bs "vm-1") ∅).1 (Ok tt)) as [[H _] _].
  - exact demo_config_ok.
  - vm_compute. reflexivity.
  - exact H.
Defined.
