(* ===== verification/Agent.v ===== *)
(** * Agent: remote execution in a virtual machine

    The agent in the guest ([bin/arapuca-agent.rs]): a connection from the nonce to
    its end, the start of a command with its descriptors and identity, and the
    loops that forward its streams.  Then the client on the host ([vm/exec.rs]). *)

From stdpp Require Import gmap.
From S2P Require Import Prelude Text Json Protocol Pidns.

(** ** State of a connection's thread *)

(** What a descriptor refers to; the flag is FD_CLOEXEC. *)
Inductive End : Type := Kept (n : Z) | ReadEnd (stream : Z) | WriteEnd (stream : Z) | Master | Slave.
Abbreviation Table := (gmap Z (End * bool)).

Record UserInfo : Type := { uid : Z; gid : Z; groups : list Z; ngroups : Z }.

(** The program a child executes: [ids] is the identity that was set, [None] that of the agent. *)
Record Image : Type := {
  program : bytes;
  argv : list bytes;
  envp : list bytes;
  ids : option UserInfo;
  descriptors : Table;
}.
Inductive Child : Type := Executed (i : Image) | Exited (code : Z).

Inductive Effect : Type :=
| RecvTimeout (secs : Z)
| Started (pid : Z) (c : Child)
| WindowSize (rows cols : Z)
| Signalled (pid sig : Z)
| Orphans (pid : Z).

(** [inp]: the bytes of the connection that are still to be read; a read past their end fails.  [child_in],
    [child_out], [child_err]: what was written to the child's input and read from its outputs. *)
Record Sess : Type := {
  inp : bytes;
  sock : Writer;
  fds : Table;
  child_in : bytes;
  child_out : bytes;
  child_err : bytes;
  effects : list Effect;
}.

Definition set_inp (b : bytes) (s : Sess) : Sess :=
  {| inp := b; sock := sock s; fds := fds s; child_in := child_in s; child_out := child_out s; child_err := child_err s;
     effects := effects s |}.
Definition set_sock (w : Writer) (s : Sess) : Sess :=
  {| inp := inp s; sock := w; fds := fds s; child_in := child_in s; child_out := child_out s; child_err := child_err s;
     effects := effects s |}.
Definition set_fds (t : Table) (s : Sess) : Sess :=
  {| inp := inp s; sock := sock s; fds := t; child_in := child_in s; child_out := child_out s; child_err := child_err s;
     effects := effects s |}.
Definition set_io (i o e : bytes) (s : Sess) : Sess :=
  {| inp := inp s; sock := sock s; fds := fds s; child_in := i; child_out := o; child_err := e; effects := effects s |}.
Definition add_effect (e : Effect) (s : Sess) : Sess :=
  {| inp := inp s; sock := sock s; fds := fds s; child_in := child_in s; child_out := child_out s; child_err := child_err s;
     effects := effects s ++ [e] |}.

(** ** The kernel *)

(** One [read] of a pipe or terminal; the end of the list is EAGAIN. *)
Inductive PipeRead : Type := Got (b : bytes) | Eof | Retry | ReadFailed.

(** One [poll] with what follows it: the connection is readable or closed, the child's outputs are ready with these
    reads, [taken] bytes are accepted by the child's input, the child has ended with this status, the time after its end
    is over. *)
Record Turn : Type := {
  conn_in : bool;
  conn_hup : bool;
  out_reads : option (list PipeRead);
  err_reads : option (list PipeRead);
  taken : Z;
  reaped : option Z;
  late : bool;
}.
Inductive Tick : Type := Interrupted | PollFailed | Polled (t : Turn).

Record AgentHost : Type := {
  getpwnam : bytes -> option (Z * Z);
  group_list : bytes -> Z -> list Z;
  access_x : bytes -> bool;
  pipe2 : Sess -> option (Z * Z);
  openpty : Sess -> option (Z * Z);
  fork : Sess -> option Z;
  close_range_ok : bool;
  setgroups_ok : list Z -> bool;
  setgid_ok : Z -> bool;
  setuid_ok : Z -> bool;
  execve_ok : bytes -> bool;
  ticks : Sess -> list Tick;
  last_wait : Sess -> option Z;
  session_free : Sess -> bool;
}.

(** The thread is still waiting in a loop, or it panicked, or the bound on its messages is used up. *)
Inductive Busy : Type := Running | Panicked | Starved.

Section Agent.
Context (h : AgentHost).

Abbreviation A := (ST Sess Busy).

Definition effect (e : Effect) : A unit := modify (add_effect e).
Definition close (fd : Z) : A unit := modify (fun s => set_fds (delete fd (fds s)) s).
Definition close_all (l : list Z) : A unit := modify (fun s => set_fds (foldl (fun t fd => delete fd t) (fds s) l) s).

(** ** The connection *)

(** The rest of the stream after a frame that is refused or cut short. *)
Definition left_after (r : bytes) : bytes :=
  match r with
  | channel :: h1 :: h2 :: h3 :: h4 :: r =>
    if (CHANNEL_CONTROL <? channel) || (max_payload channel <? be32 h1 h2 h3 h4) then r else []
  | _ => []
  end.

Definition recv_frame : A (option (Z * bytes)) := fun s =>
  match read_frame (inp s) with
  | Ok (c, p, r) => (set_inp r s, Ok (Some (c, p)))
  | Err _ => (set_inp (left_after (inp s)) s, Ok None)
  end.

Definition recv_control : A (option ControlMessage) := fun s =>
  match read_control (inp s) with
  | Ok (m, r) => (set_inp r s, Ok (Some m))
  | Err Panic => (s, Err Panicked)
  | Err _ => (s, Ok None)
  end.

Definition send_frame (channel : Z) (payload : bytes) : A bool := fun s =>
  let '(w, r) := write_frame (sock s) channel payload in (set_sock w s, Ok (is_ok r)).
Definition send_control (m : ControlMessage) : A bool := send_frame CHANNEL_CONTROL (serialize m).

(** ** Commands and users *)

Definition DEFAULT_PATH : bytes := bs "/usr/local/sbin:/usr/local/bin:/usr/sbin:/usr/bin:/sbin:/bin".

Fixpoint search_path (dirs : list bytes) (cmd : bytes) : option bytes :=
  match dirs with
  | [] => None
  | dir :: dirs =>
    if decide (dir = []) then search_path dirs cmd
    else
      let candidate := dir ++ bs "/" ++ cmd in
      if contains 0 candidate then search_path dirs cmd
      else if access_x h candidate then Some candidate else search_path dirs cmd
  end.

Definition resolve_command (cmd : bytes) (env : list bytes) : option bytes :=
  if contains (ch "/") cmd then Some cmd
  else
    let path_val := default DEFAULT_PATH (head (omap (strip_prefix (bs "PATH=")) env)) in
    search_path (split (ch ":") path_val) cmd.

(** [getgrouplist] with room for [n] groups: the value, the number of groups, the buffer. *)
Definition getgrouplist (l : list Z) (n : Z) (buffer : list Z) : Z * Z * list Z :=
  let filled := take (Z.to_nat n) l ++ drop (length l) buffer in
  if len l <=? n then (len l, len l, filled) else (-1, len l, filled).

Definition resolve_user (username : bytes) : option UserInfo :=
  if contains 0 username then None
  else
    '(uid, gid) ← getpwnam h username;
    let l := group_list h username gid in
    let '(ret, ngroups, groups) := getgrouplist l 32 (replicate 32 0) in
    let '(ngroups, groups) :=
      if ret <? 0 then
        let buffer := take (Z.to_nat ngroups) groups ++ replicate (Z.to_nat ngroups - length groups) 0 in
        let '(_, ngroups, groups) := getgrouplist l ngroups buffer in (ngroups, groups)
      else (ngroups, groups) in
    Some {| uid := uid; gid := gid; groups := take (Z.to_nat ngroups) groups; ngroups := ngroups |}.

(** ** The child *)

Definition dup2 (a b : Z) (t : Table) : Table :=
  match t !! a with Some (e, _) => if a =? b then t else <[b := (e, false)]> t | None => t end.
Definition closed (l : list Z) (t : Table) : Table := foldl (fun t fd => delete fd t) t l.

(** From the process group to [execve]. *)
Definition exec_child (c_cmd : bytes) (c_argv c_envp : list bytes) (user_info : option UserInfo) (t : Table) : Child :=
  let t := if close_range_ok h then filter (fun kv => kv.1 < 3) t else t in
  let run := if execve_ok h c_cmd
             then Executed {| program := c_cmd; argv := c_argv; envp := c_envp; ids := user_info;
                              descriptors := filter (fun kv => kv.2.2 = false) t |}
             else Exited 127 in
  match user_info with
  | Some info =>
    if negb (setgroups_ok h (take (Z.to_nat (ngroups info)) (groups info))) then Exited 126
    else if negb (setgid_ok h (gid info)) then Exited 126
    else if negb (setuid_ok h (uid info)) then Exited 126
    else run
  | None => run
  end.

Definition pipe_child (a b c : Z * Z) (t : Table) : Table :=
  closed [a.1; a.2; b.1; b.2; c.1; c.2] (dup2 c.2 2 (dup2 b.2 1 (dup2 a.1 0 t))).
Definition tty_child (master slave : Z) (t : Table) : Table :=
  let t := dup2 slave 2 (dup2 slave 1 (dup2 slave 0 (closed [master] t))) in
  if 2 <? slave then closed [slave] t else t.

(** ** Forwarding *)

Definition note_read (channel : Z) (b : bytes) : A unit := modify (fun s =>
  if channel =? CHANNEL_STDERR then set_io (child_in s) (child_out s) (child_err s ++ b) s
  else set_io (child_in s) (child_out s ++ b) (child_err s) s).

(** [false] at the end of the pipe. *)
Fixpoint drain_pipe_to_conn (channel : Z) (l : list PipeRead) : A bool :=
  match l with
  | [] => mret true
  | Got b :: l =>
    let b := take (Z.to_nat 65536) b in
    if decide (b = []) then mret false
    else
      _ ← note_read channel b;
      ok ← send_frame channel b;
      if (ok : bool) then drain_pipe_to_conn channel l else mret false
  | Eof :: _ => mret false
  | Retry :: l => drain_pipe_to_conn channel l
  | ReadFailed :: _ => mret false
  end.

Definition exit_code_from_wstatus (wstatus : Z) : Z :=
  if WIFEXITED wstatus then WEXITSTATUS wstatus
  else if WIFSIGNALED wstatus then 128 + WTERMSIG wstatus
  else 1.

(** [write_all_fd] to the child's input: an error after [taken] bytes is ignored. *)
Definition write_child (taken : Z) (b : bytes) : A unit := modify (fun s =>
  set_io (child_in s ++ take (Z.to_nat taken) b) (child_out s) (child_err s) s).

(** The variables of the two loops; [output_done] is [stdout_done] or [master_done]. *)
Record Fwd : Type := {
  stdin_open : bool;
  output_done : bool;
  stderr_done : bool;
  child_exited : bool;
  wstatus : Z;
}.
Definition fwd_init : Fwd :=
  {| stdin_open := true; output_done := false; stderr_done := false; child_exited := false; wstatus := 0 |}.
Definition set_closed (f : Fwd) : Fwd :=
  {| stdin_open := false; output_done := output_done f; stderr_done := stderr_done f; child_exited := child_exited f;
     wstatus := wstatus f |}.
Definition set_output (d : bool) (f : Fwd) : Fwd :=
  {| stdin_open := stdin_open f; output_done := d; stderr_done := stderr_done f; child_exited := child_exited f;
     wstatus := wstatus f |}.
Definition set_stderr (d : bool) (f : Fwd) : Fwd :=
  {| stdin_open := stdin_open f; output_done := output_done f; stderr_done := d; child_exited := child_exited f;
     wstatus := wstatus f |}.
Definition set_exited (w : Z) (f : Fwd) : Fwd :=
  {| stdin_open := stdin_open f; output_done := output_done f; stderr_done := stderr_done f; child_exited := true;
     wstatus := w |}.

Definition forward_output (reads : option (list PipeRead)) (f : Fwd) : A Fwd :=
  match output_done f, reads with
  | false, Some l => more ← drain_pipe_to_conn CHANNEL_STDOUT l; mret (set_output (negb more) f)
  | _, _ => mret f
  end.
Definition forward_stderr (reads : option (list PipeRead)) (f : Fwd) : A Fwd :=
  match stderr_done f, reads with
  | false, Some l => more ← drain_pipe_to_conn CHANNEL_STDERR l; mret (set_stderr (negb more) f)
  | _, _ => mret f
  end.

(** [waitpid] with WNOHANG. *)
Definition check_child (t : Turn) (f : Fwd) : Fwd :=
  match child_exited f, reaped t with false, Some w => set_exited w f | _, _ => f end.

(** After the loop was left early. *)
Definition forward_end (pid : Z) (f : Fwd) : A Z :=
  last ← get (last_wait h);
  _ ← effect (Orphans pid);
  mret (exit_code_from_wstatus (if child_exited f then wstatus f else default (wstatus f) last)).

(** How the message of the connection is taken: go on, leave the loop, or return. *)
Inductive Next : Type := GoOn (f : Fwd) | Leave (f : Fwd) | Return.

Definition SIGKILL : Z := 9.
Definition kill_init : A unit := effect (Signalled 1 SIGKILL).

Definition pipe_message (pid stdin_w taken : Z) (f : Fwd) : A Next :=
  msg ← recv_frame;
  match msg with
  | None => _ ← effect (Signalled pid SIGKILL); mret (Leave f)
  | Some (c, payload) =>
    if (c =? CHANNEL_STDIN) && stdin_open f then
      if decide (payload = []) then _ ← close stdin_w; mret (GoOn (set_closed f))
      else _ ← write_child taken payload; mret (GoOn f)
    else if c =? CHANNEL_CONTROL then
      match parse payload with
      | Ok Shutdown => _ ← kill_init; mret Return
      | Err Panic => stop Panicked
      | _ => mret (GoOn f)
      end
    else mret (GoOn f)
  end.

Fixpoint forward_loop (pid stdin_w : Z) (l : list Tick) (f : Fwd) : A (Z * bool) :=
  match l with
  | [] => stop Running
  | Interrupted :: l => forward_loop pid stdin_w l f
  | PollFailed :: _ => code ← forward_end pid f; mret (code, negb (stdin_open f))
  | Polled t :: l =>
    f ← forward_output (out_reads t) f;
    f ← forward_stderr (err_reads t) f;
    next ← (if conn_in t then pipe_message pid stdin_w (taken t) f else mret (GoOn f));
    match next with
    | Return => mret (137, negb (stdin_open f))
    | Leave f => code ← forward_end pid f; mret (code, negb (stdin_open f))
    | GoOn f =>
      if conn_hup t then
        _ ← effect (Signalled pid SIGKILL); code ← forward_end pid f; mret (code, negb (stdin_open f))
      else
        let f := check_child t f in
        if child_exited f && output_done f && stderr_done f then
          _ ← effect (Orphans pid); mret (exit_code_from_wstatus (wstatus f), negb (stdin_open f))
        else forward_loop pid stdin_w l f
    end
  end.

Definition forward_io (pid stdin_w : Z) : A (Z * bool) :=
  l ← get (ticks h); forward_loop pid stdin_w l fwd_init.

Definition tty_message (pid taken : Z) (f : Fwd) : A Next :=
  msg ← recv_frame;
  match msg with
  | None => _ ← effect (Signalled pid SIGKILL); mret (Leave f)
  | Some (c, payload) =>
    _ ← (if (c =? CHANNEL_STDIN) && negb (bool_decide (payload = [])) then write_child taken payload else mret tt);
    if c =? CHANNEL_CONTROL then
      match parse payload with
      | Ok (Resize rows cols) =>
        _ ← (if (0 <? rows) && (0 <? cols) then effect (WindowSize rows cols) else mret tt); mret (GoOn f)
      | Ok Shutdown => _ ← kill_init; mret Return
      | Err Panic => stop Panicked
      | _ => mret (GoOn f)
      end
    else mret (GoOn f)
  end.

Fixpoint forward_tty_loop (pid : Z) (l : list Tick) (f : Fwd) : A Z :=
  match l with
  | [] => stop Running
  | Interrupted :: l => forward_tty_loop pid l f
  | PollFailed :: _ => forward_end pid f
  | Polled t :: l =>
    f ← forward_output (out_reads t) f;
    next ← (if conn_in t then tty_message pid (taken t) f else mret (GoOn f));
    match next with
    | Return => mret 137
    | Leave f => forward_end pid f
    | GoOn f =>
      if conn_hup t then _ ← effect (Signalled pid SIGKILL); forward_end pid f
      else
        let f := check_child t f in
        if child_exited f && (output_done f || late t) then
          _ ← effect (Orphans pid); mret (exit_code_from_wstatus (wstatus f))
        else forward_tty_loop pid l f
    end
  end.

Definition forward_io_tty (pid : Z) : A Z := l ← get (ticks h); forward_tty_loop pid l fwd_init.

(** ** Execution *)

Definition open_pipe (stream : Z) : A (option (Z * Z)) := fun s =>
  match pipe2 h s with
  | Some (r, w) => (set_fds (<[w := (WriteEnd stream, true)]> (<[r := (ReadEnd stream, true)]> (fds s))) s, Ok (Some (r, w)))
  | None => (s, Ok None)
  end.

Definition start (child : Table -> Child) : A (option Z) := fun s =>
  match fork h s with
  | Some pid => (add_effect (Started pid (child (fds s))) s, Ok (Some pid))
  | None => (s, Ok None)
  end.

Definition both (p : Z * Z) : list Z := [p.1; p.2].

Definition handle_exec_pipes (c_cmd : bytes) (c_argv c_envp : list bytes) (user_info : option UserInfo) : A Z :=
  stdin_pipe ← open_pipe 0;
  match stdin_pipe with
  | None => mret 126
  | Some a =>
  stdout_pipe ← open_pipe 1;
  match stdout_pipe with
  | None => _ ← close_all (both a); mret 126
  | Some b =>
  stderr_pipe ← open_pipe 2;
  match stderr_pipe with
  | None => _ ← close_all (both a ++ both b); mret 126
  | Some c =>
  pid ← start (fun t => exec_child c_cmd c_argv c_envp user_info (pipe_child a b c t));
  match pid with
  | None => _ ← close_all (both a ++ both b ++ both c); mret 126
  | Some pid =>
    _ ← close_all [a.1; b.2; c.2];
    '(exit_code, stdin_closed) ← forward_io pid a.2;
    _ ← (if (stdin_closed : bool) then mret tt else close a.2);
    _ ← close_all [b.1; c.1];
    mret exit_code
  end end end end.

Definition handle_exec_tty (req : ExecRequest) (c_cmd : bytes) (c_argv c_envp : list bytes) (user_info : option UserInfo) : A Z :=
  fun s =>
  match openpty h s with
  | None => (s, Ok 126)
  | Some (master, slave) =>
    (_ ← (if (0 <? rows req) && (0 <? cols req) then effect (WindowSize (rows req) (cols req)) else mret tt);
     pid ← start (fun t => exec_child c_cmd c_argv c_envp user_info (tty_child master slave t));
     match pid with
     | None => _ ← close_all [master; slave]; mret 126
     | Some pid =>
       _ ← close slave;
       exit_code ← forward_io_tty pid;
       _ ← close master;
       mret exit_code
     end)
    (set_fds (<[slave := (Slave, true)]> (<[master := (Master, true)]> (fds s))) s)
  end.

Definition handle_exec (req : ExecRequest) : A Z :=
  match (if decide (user req = bs "root") then Some None else Some <$> resolve_user (user req)) with
  | None => mret 126
  | Some user_info =>
    match resolve_command (cmd req) (env req) with
    | None => mret 127
    | Some cmd_str =>
      if contains 0 cmd_str || existsb (contains 0) (args req) then mret 126
      else
        let c_argv := cmd_str :: args req in
        let c_envp := List.filter (fun e => negb (contains 0 e)) (env req) in
        if tty req then handle_exec_tty req cmd_str c_argv c_envp user_info
        else handle_exec_pipes cmd_str c_argv c_envp user_info
    end
  end.

(** ** The protocol *)

Definition IDLE_TIMEOUT_SECS : Z := 30.

Fixpoint serve (n : nat) : A unit :=
  match n with
  | O => stop Starved
  | S n =>
    _ ← effect (RecvTimeout IDLE_TIMEOUT_SECS);
    msg ← recv_control;
    match msg with
    | None => mret tt
    | Some Ping => ok ← send_control Pong; if (ok : bool) then serve n else mret tt
    | Some Shutdown => kill_init
    | Some (Exec req) =>
      free ← get (session_free h);
      if negb (free : bool) then _ ← send_control (Status 126); serve n
      else
        _ ← effect (RecvTimeout 0);
        exit_code ← handle_exec req;
        ok ← send_control (Status exit_code);
        if (ok : bool) then serve n else mret tt
    | Some _ => serve n
    end
  end.

(** Every message takes input, so its length bounds the loop. *)
Definition handle_connection (nonce : bytes) : A unit := fun s =>
  match read_nonce (inp s) with
  | Err _ => (s, Ok tt)
  | Ok (client_nonce, r) =>
    if negb (nonce_eq client_nonce nonce) then (set_inp r s, Ok tt)
    else
      (ok ← send_control (Hello PROTOCOL_VERSION);
       if (ok : bool) then serve (S (length r)) else mret tt) (set_inp r s)
  end.
End Agent.

(** ** The client *)

(** [stdin_read]: the bytes that were read from the standard input and sent; [stdin_flags] the file status flags of that
    descriptor, [raw] the mode of the terminal. *)
Record Client : Type := {
  c_inp : bytes;
  c_sock : Writer;
  c_out : Writer;
  c_err : Writer;
  stdin_read : bytes;
  stdin_flags : Z;
  raw : bool;
}.

Definition set_c_inp (b : bytes) (c : Client) : Client :=
  {| c_inp := b; c_sock := c_sock c; c_out := c_out c; c_err := c_err c; stdin_read := stdin_read c; stdin_flags := stdin_flags c;
     raw := raw c |}.
Definition set_c_sock (w : Writer) (c : Client) : Client :=
  {| c_inp := c_inp c; c_sock := w; c_out := c_out c; c_err := c_err c; stdin_read := stdin_read c; stdin_flags := stdin_flags c;
     raw := raw c |}.
Definition set_c_outs (o e : Writer) (c : Client) : Client :=
  {| c_inp := c_inp c; c_sock := c_sock c; c_out := o; c_err := e; stdin_read := stdin_read c; stdin_flags := stdin_flags c;
     raw := raw c |}.
Definition set_c_stdin (b : bytes) (flags : Z) (r : bool) (c : Client) : Client :=
  {| c_inp := c_inp c; c_sock := c_sock c; c_out := c_out c; c_err := c_err c; stdin_read := b; stdin_flags := flags; raw := r |}.

(** One [poll] of the client: the size of the window after SIGWINCH, the connection, the outcome of the [read] of the standard
    input if it is ready, and its POLLHUP. *)
Inductive StdinRead : Type := Input (b : bytes) | InputEnd | InputError.
Record CTurn : Type := {
  winch : bool;
  agent_in : bool;
  agent_hup : bool;
  input : option StdinRead;
  input_hup : bool;
}.
Inductive CTick : Type := CInterrupted | CPollFailed (e : Abort) | CPolled (t : CTurn).

Record ClientHost : Type := {
  connect : io unit;
  set_read_timeout : bool -> io unit;
  window : option (Z * Z);
  getfl : Z;
  enter_raw : io unit;
  c_ticks : list CTick;
}.

(** An error, or the loop goes on. *)
Inductive Wait : Type := Failed (e : Abort) | Forwarding.

Section Client.
Context (h : ClientHost).

Abbreviation C := (ST Client Wait).

Definition O_NONBLOCK : Z := 0x800.

Definition lift_io {A} (r : io A) : C A := match r with Ok a => mret a | Err e => stop (Failed e) end.

Definition get_terminal_size : Z * Z :=
  match window h with Some (r, c) => if (0 <? r) && (0 <? c) then (r, c) else (24, 80) | None => (24, 80) end.

Definition to_sock (f : Writer -> Writer * io unit) : C unit := fun c =>
  let '(w, r) := f (c_sock c) in (set_c_sock w c, match r with Ok _ => Ok tt | Err e => Err (Failed e) end).
Definition ignore_error (m : C unit) : C unit := fun c => ((m c).1, Ok tt).

Definition c_read_control : C ControlMessage := fun c =>
  match read_control (c_inp c) with Ok (m, r) => (set_c_inp r c, Ok m) | Err e => (c, Err (Failed e)) end.
Definition c_read_frame : C (Z * bytes) := fun c =>
  match read_frame (c_inp c) with Ok (ch, p, r) => (set_c_inp r c, Ok (ch, p)) | Err e => (c, Err (Failed e)) end.

Definition print_out (b : bytes) : C unit := fun c =>
  let '(w, r) := write_all (c_out c) b in (set_c_outs w (c_err c) c, match r with Ok _ => Ok tt | Err e => Err (Failed e) end).
Definition print_err (b : bytes) : C unit := fun c =>
  let '(w, r) := write_all (c_err c) b in (set_c_outs (c_out c) w c, match r with Ok _ => Ok tt | Err e => Err (Failed e) end).

(** A frame of the agent; the exit code ends the loop. *)
Definition agent_frame : C (option Z) :=
  '(channel, payload) ← c_read_frame;
  if channel =? CHANNEL_STDOUT then _ ← print_out payload; mret None
  else if channel =? CHANNEL_STDERR then _ ← print_err payload; mret None
  else if channel =? CHANNEL_CONTROL then
    msg ← lift_io (parse payload);
    mret (match msg with Status exit_code => Some exit_code | _ => None end)
  else mret None.

Definition resize (winch tty : bool) : C unit :=
  if tty && winch then
    let '(rows, cols) := get_terminal_size in
    if (0 <? rows) && (0 <? cols) then ignore_error (to_sock (fun w => write_control w (Resize rows cols))) else mret tt
  else mret tt.

Definition end_stdin : C bool := _ ← to_sock (fun w => write_frame w CHANNEL_STDIN []); mret true.

(** The standard input; whether it is closed now. *)
Definition forward_stdin (t : CTurn) (tty closed : bool) : C bool :=
  closed ← (match closed, input t with
            | false, Some (Input b) =>
              let b := take (Z.to_nat 65536) b in
              if decide (b = []) then (if tty then mret false else end_stdin)
              else
                _ ← to_sock (fun w => write_frame w CHANNEL_STDIN b);
                _ ← modify (fun c => set_c_stdin (stdin_read c ++ b) (stdin_flags c) (raw c) c);
                mret false
            | false, Some InputEnd => if tty then mret false else end_stdin
            | _, _ => mret closed
            end);
  if negb closed && negb tty && input_hup t then end_stdin else mret closed.

Fixpoint forward_io_inner (tty : bool) (l : list CTick) (stdin_closed : bool) : C Z :=
  match l with
  | [] => stop Forwarding
  | CInterrupted :: l => forward_io_inner tty l stdin_closed
  | CPollFailed e :: _ => stop (Failed e)
  | CPolled t :: l =>
    _ ← resize (winch t) tty;
    code ← (if agent_in t then agent_frame else mret None);
    match code with
    | Some exit_code => mret exit_code
    | None =>
      if agent_hup t then stop (Failed (IoError ConnectionReset "agent connection closed"))
      else
        closed ← forward_stdin t tty stdin_closed;
        forward_io_inner tty l closed
    end
  end.

Definition set_flags (flags : Z) : C unit := modify (fun c => set_c_stdin (stdin_read c) flags (raw c) c).
Definition set_raw (r : bool) : C unit := modify (fun c => set_c_stdin (stdin_read c) (stdin_flags c) r c).

(** The flags and the terminal are restored also after an error of the loop. *)
Definition restoring (saved_flags : Z) (tty : bool) (m : C Z) : C Z := fun c =>
  match m c with
  | (c, Err Forwarding) => (c, Err Forwarding)
  | (c, r) =>
    let c := if 0 <=? saved_flags then (set_flags saved_flags c).1 else c in
    (if tty then (set_raw false c).1 else c, r)
  end.

Definition c_forward_io (tty : bool) : C Z :=
  let saved_flags := getfl h in
  _ ← set_flags (Z.lor saved_flags O_NONBLOCK);
  _ ← (if tty then _ ← lift_io (enter_raw h); set_raw true else mret tt);
  restoring saved_flags tty (forward_io_inner tty (c_ticks h) false).

Definition exec (nonce cmd : bytes) (args env : list bytes) (user : bytes) (tty : bool) : C Z :=
  _ ← lift_io (connect h);
  _ ← lift_io (set_read_timeout h true);
  _ ← to_sock (fun w => write_nonce w nonce);
  hello ← c_read_control;
  match hello with
  | Hello _ =>
    let '(rows, cols) := if tty then get_terminal_size else (0, 0) in
    let req := {| Json.cmd := cmd; Json.args := args; Json.env := env; Json.user := user; Json.tty := tty; Json.rows := rows;
                  Json.cols := cols |} in
    _ ← to_sock (fun w => write_control w (Exec req));
    _ ← lift_io (set_read_timeout h false);
    c_forward_io tty
  | _ => stop (Failed (IoError InvalidData "unexpected response from agent (expected HELLO)"))
  end.
End Client.
