(* ===== verification/Slots.v ===== *)
(** * Slots: connections and sessions of the guest's agent

    The two counters that the accept loop of [main] and the threads of
    [handle_connection] share ([bin/arapuca-agent.rs]), in any interleaving of
    their atomic operations. *)

From S2P Require Import Prelude Bridge.

Definition MAX_CONNECTIONS : Z := 16.
Definition MAX_SESSIONS : Z := 32.

(** The accept loop: in [accept4], or after its check of the counter. *)
Inductive Main : Type := Accepting | Passed.

(** A connection's thread: between messages, after the check of [MAX_SESSIONS], in [handle_exec], or ended by a panic. *)
Inductive Thread : Type := Between | Checked | InSession | Lost (in_session : bool).

Record Slots : Type := { active_conns : Z; active_sessions : Z; main : Main; threads : list Thread }.

Definition slots_init : Slots := {| active_conns := 0; active_sessions := 0; main := Accepting; threads := [] |}.

(** One atomic operation.  A thread that panics unwinds past the two [fetch_sub]; one that ends gives its slot back. *)
Inductive slot_step : Slots -> Slots -> Prop :=
| turned_away c n l : (MAX_CONNECTIONS <=? c) = true ->
    slot_step {| active_conns := c; active_sessions := n; main := Accepting; threads := l |}
              {| active_conns := c; active_sessions := n; main := Accepting; threads := l |}
| conn_admitted c n l : (MAX_CONNECTIONS <=? c) = false ->
    slot_step {| active_conns := c; active_sessions := n; main := Accepting; threads := l |}
              {| active_conns := c; active_sessions := n; main := Passed; threads := l |}
| conn_spawned c n l :
    slot_step {| active_conns := c; active_sessions := n; main := Passed; threads := l |}
              {| active_conns := fetch_add c; active_sessions := n; main := Accepting; threads := Between :: l |}
| session_refused c n m l1 l2 : (MAX_SESSIONS <=? n) = true ->
    slot_step {| active_conns := c; active_sessions := n; main := m; threads := l1 ++ Between :: l2 |}
              {| active_conns := c; active_sessions := n; main := m; threads := l1 ++ Between :: l2 |}
| session_checked c n m l1 l2 : (MAX_SESSIONS <=? n) = false ->
    slot_step {| active_conns := c; active_sessions := n; main := m; threads := l1 ++ Between :: l2 |}
              {| active_conns := c; active_sessions := n; main := m; threads := l1 ++ Checked :: l2 |}
| session_entered c n m l1 l2 :
    slot_step {| active_conns := c; active_sessions := n; main := m; threads := l1 ++ Checked :: l2 |}
              {| active_conns := c; active_sessions := fetch_add n; main := m; threads := l1 ++ InSession :: l2 |}
| session_left c n m l1 l2 :
    slot_step {| active_conns := c; active_sessions := n; main := m; threads := l1 ++ InSession :: l2 |}
              {| active_conns := c; active_sessions := fetch_sub n; main := m; threads := l1 ++ Between :: l2 |}
| conn_ended c n m l1 l2 :
    slot_step {| active_conns := c; active_sessions := n; main := m; threads := l1 ++ Between :: l2 |}
              {| active_conns := fetch_sub c; active_sessions := n; main := m; threads := l1 ++ l2 |}
| between_panicked c n m l1 l2 :
    slot_step {| active_conns := c; active_sessions := n; main := m; threads := l1 ++ Between :: l2 |}
              {| active_conns := c; active_sessions := n; main := m; threads := l1 ++ Lost false :: l2 |}
| session_panicked c n m l1 l2 :
    slot_step {| active_conns := c; active_sessions := n; main := m; threads := l1 ++ InSession :: l2 |}
              {| active_conns := c; active_sessions := n; main := m; threads := l1 ++ Lost true :: l2 |}.

(** Threads that hold a session. *)
Definition in_session (t : Thread) : bool := match t with InSession => true | Lost b => b | _ => false end.
Definition holding (l : list Thread) : Z := len (List.filter in_session l).
Definition lost (t : Thread) : bool := match t with Lost _ => true | _ => false end.

Record slots_inv (s : Slots) : Prop := {
  si_conns : active_conns s = len (threads s);
  si_sessions : active_sessions s = holding (threads s);
  si_limit : len (threads s) + (match main s with Accepting => 0 | Passed => 1 end) <= MAX_CONNECTIONS;
}.

Lemma holding_app l k : holding (l ++ k) = holding l + holding k.
Proof. unfold holding. by rewrite List.filter_app, len_app. Qed.
Lemma holding_cons t l : holding (t :: l) = (if in_session t then 1 else 0) + holding l.
Proof. unfold holding. cbn. destruct (in_session t); [by rewrite len_cons|lia]. Qed.
Lemma holding_le l : 0 <= holding l <= len l.
Proof. unfold holding. split; [apply len_nonneg|]. induction l as [|t l IH]; cbn; [done|]. rewrite len_cons. destruct (in_session t); rewrite ?len_cons; lia. Qed.

(** The lengths and counts of every list of threads at hand. *)
Ltac thread_facts := repeat match goal with x : list Thread |- _ =>
  pose proof (holding_le x); pose proof (len_nonneg x); generalize dependent x end; intros.

Lemma slot_step_inv s t : slot_step s t -> slots_inv s -> slots_inv t.
Proof.
  assert (W : forall z, 0 <= z < 2 ^ 64 -> wrap 64 z = z) by (intros; by apply wrap_small).
  unfold fetch_add, fetch_sub. intros [] [Hc Hn Hl]; cbn [active_conns active_sessions main threads] in *;
    rewrite ?len_app, ?len_cons, ?holding_app, ?holding_cons in *; cbn [in_session] in *; unfold MAX_CONNECTIONS in *; bsplit;
    thread_facts; try destruct m.
  all: split; cbn [active_conns active_sessions main threads]; unfold fetch_add, fetch_sub, MAX_CONNECTIONS;
    rewrite ?len_app, ?len_cons, ?holding_app, ?holding_cons, ?W by lia; cbn [in_session]; lia.
Qed.

Lemma slots_reachable s : rtc slot_step slots_init s -> slots_inv s.
Proof.
  assert (H0 : slots_inv slots_init) by done.
  revert H0. generalize slots_init. intros s0 H0 H. induction H; [done|]. eauto using slot_step_inv.
Qed.

Lemma all_lost l : len l <= MAX_CONNECTIONS -> len (List.filter lost l) = MAX_CONNECTIONS -> Forall (fun t => lost t = true) l.
Proof.
  intros Hl Hf. assert (Hk : forall k, len (List.filter lost k) <= len k /\ (len (List.filter lost k) = len k -> Forall (fun t => lost t = true) k)).
  { induction k as [|t k [IH1 IH2]]; [by split|]. cbn [List.filter]. rewrite len_cons. destruct (lost t) eqn:E; rewrite ?len_cons; split; try lia.
    intros Hk. constructor; [done|]. apply IH2. lia. }
  apply Hk. destruct (Hk l). lia.
Qed.

Lemma stuck_step s t : slots_inv s -> len (List.filter lost (threads s)) = MAX_CONNECTIONS -> slot_step s t -> t = s.
Proof.
  intros [Hc Hn Hl] Hf Hs. assert (Ha : Forall (fun t => lost t = true) (threads s)).
  { apply all_lost; [|done]. destruct (main s); lia. }
  assert (Hlen : len (List.filter lost (threads s)) <= len (threads s)).
  { unfold len. apply inj_le, List.filter_length_le. }
  destruct Hs; cbn [active_conns active_sessions main threads] in *; try done; try (bsplit; lia).
  all: apply Forall_app in Ha as [_ Ha]; by inversion Ha.
Qed.

(** C28: the limits of the guest's agent, in every interleaving of the accept loop and the threads of the connections: at most
    16 connections are served, the counters never wrap around and count the connections and the sessions that are held,
    a session is never refused (there are 32, and a connection has at most one), and a thread that ends by a panic
    keeps its slot for ever: after 16 of them every connection is turned away and nothing else can happen. *)
Theorem connection_slots s : rtc slot_step slots_init s ->
  active_conns s = len (threads s) /\ active_conns s <= MAX_CONNECTIONS /\
  active_sessions s = holding (threads s) /\ active_sessions s <= active_conns s /\ (MAX_SESSIONS <=? active_sessions s) = false /\
  (len (List.filter lost (threads s)) = MAX_CONNECTIONS -> forall t, rtc slot_step s t -> t = s).
Proof.
  intros Hi%slots_reachable. pose proof Hi as [Hc Hn Hl]. pose proof (holding_le (threads s)).
  assert (len (threads s) <= MAX_CONNECTIONS) by (destruct (main s); lia). unfold MAX_CONNECTIONS, MAX_SESSIONS in *.
  split_and!; [done|lia|done|lia|apply Z.leb_gt; lia|]. intros Hf t Ht. induction Ht as [|s1 s2 s3 Hs Ht IH]; [done|].
  apply stuck_step in Hs as ->; auto.
Qed.

Lemma connection_slots_witness : let s := {| active_conns := 1; active_sessions := 1; main := Passed; threads := [InSession] |} in
  rtc slot_step slots_init s /\ active_sessions s = holding (threads s) /\ (MAX_SESSIONS <=? active_sessions s) = false.
Proof.
  intros s. assert (H : rtc slot_step slots_init s).
  { eapply rtc_l; [by apply conn_admitted|]. eapply rtc_l; [apply conn_spawned|]. eapply rtc_l; [by apply (session_checked _ _ _ [] [])|].
    eapply rtc_l; [apply (session_entered _ _ _ [] [])|]. eapply rtc_l; [by apply conn_admitted|]. apply rtc_refl. }
  destruct (connection_slots s H) as (_ & _ & E & _ & F & _). split; [exact H|]. split; [exact E|exact F].
Defined.
