(* ===== verification/AgentSpec.v ===== *)
(** * AgentSpec: what the agent and its client do

    A peer without the nonce gets nothing; every command that is executed was requested,
    runs as the user of the request and has only its three streams; no
    descriptor is lost; and through client and agent together a command
    is executed as if it ran on the host. *)

From stdpp Require Import gmap.
From S2P Require Import Prelude Text Json Protocol Pidns Agent.

(** ** Authentication *)

(** C20: without the nonce nothing happens. A peer that does not begin with the 32 bytes of the nonce, whatever it sends,
    causes no command, no signal and not one byte of an answer. *)
Theorem unauthenticated_inert h nonce s : len nonce = NONCE_SIZE -> ~ (nonce `prefix_of` inp s) ->
  exists rest, handle_connection h nonce s = (set_inp rest s, Ok tt) /\ rest `suffix_of` inp s.
Proof.
  intros Hn Hp. unfold handle_connection, read_nonce. destruct (read_exact NONCE_SIZE (inp s)) as [[cn r]|e] eqn:E.
  - apply read_exact_inv in E as [E Hc]; [|done]. destruct (nonce_eq cn nonce) eqn:En; cbn [negb].
    + apply nonce_eq_spec in En; [|done|done]. subst cn. exfalso. apply Hp. rewrite E. by exists r.
    + exists r. split; [done|]. rewrite E. by exists cn.
  - exists (inp s). split; [by destruct s|done].
Qed.

Lemma unauthenticated_inert_witness : exists h rest,
  handle_connection h (repeat 7 32) {| inp := repeat 8 40; sock := {| written := []; room := None |}; fds := ∅; child_in := [];
    child_out := []; child_err := []; effects := [] |} =
  (set_inp rest {| inp := repeat 8 40; sock := {| written := []; room := None |}; fds := ∅; child_in := [];
    child_out := []; child_err := []; effects := [] |}, Ok tt).
Proof.
  set (h := {| getpwnam _ := None; group_list _ _ := []; access_x _ := true; pipe2 _ := None; openpty _ := None; fork _ := None;
    close_range_ok := true; setgroups_ok _ := true; setgid_ok _ := true; setuid_ok _ := true; execve_ok _ := true; ticks _ := [];
    last_wait _ := None; session_free _ := true |}). exists h.
  destruct (unauthenticated_inert h (repeat 7 32) {| inp := repeat 8 40; sock := {| written := []; room := None |}; fds := ∅; child_in := [];
    child_out := []; child_err := []; effects := [] |} eq_refl) as (rest & H & _).
  - intros [k E]. discriminate E.
  - by exists rest.
Defined.

(** ** The stream *)

Lemma left_after_suffix r : left_after r `suffix_of` r.
Proof.
  destruct r as [|c [|h1 [|h2 [|h3 [|h4 r]]]]]; cbn [left_after]; try apply suffix_nil. destruct (_ || _); [|apply suffix_nil].
  by exists [c; h1; h2; h3; h4].
Qed.

Lemma read_exact_suffix n r x r' : read_exact n r = Ok (x, r') -> r' `suffix_of` r.
Proof. unfold read_exact. destruct (_ <? _); [done|]. intros [= <- <-]. apply suffix_drop. Qed.

Lemma read_frame_suffix r c p r' : read_frame r = Ok (c, p, r') -> r' `suffix_of` r.
Proof.
  unfold read_frame. destruct (read_exact FRAME_HEADER_SIZE r) as [[x r1]|] eqn:E; [|done]. apply read_exact_suffix in E.
  cbn [mbind result_bind]. destruct x as [|y [|h1 [|h2 [|h3 [|h4 [|]]]]]]; try done. destruct (_ <? y); [done|].
  destruct (max_payload y <? _); [done|].
  destruct (0 <? _); [|cbn; by intros [= _ _ <-]]. destruct (read_exact _ r1) as [[y2 r2]|] eqn:E2; [|done].
  apply read_exact_suffix in E2. cbn. intros [= _ _ <-]. by transitivity r1.
Qed.

Lemma read_control_suffix r m r' : read_control r = Ok (m, r') -> r' `suffix_of` r.
Proof.
  unfold read_control. destruct (read_frame r) as [[[c p] r1]|] eqn:E; [|done]. apply read_frame_suffix in E. cbn.
  destruct (negb _); [done|]. destruct (parse p); [|done]. cbn. by intros [= _ <-].
Qed.

(** ** Steps that keep a property *)

Section Steps.
Context (h : AgentHost).

(** The step keeps [I], also where it stops, and is not cut off by the bound on messages. *)
Definition halt (I : Sess -> Prop) (e : Busy) (s : Sess) : Prop := I s /\ e <> Starved.
Definition keep {A} (I : Sess -> Prop) (m : ST Sess Busy A) : Prop := forall s, I s -> wp m (fun _ => I) (halt I) s.

Lemma keep_bind {A B} I (m : ST Sess Busy A) (f : A -> ST Sess Busy B) : keep I m -> (forall a, keep I (f a)) -> keep I (m ≫= f).
Proof. intros Hm Hf s Hs. apply wp_bind. eapply wp_mono; [by apply Hm| |done]. intros a s' Hs'. by apply Hf. Qed.
Lemma keep_ret {A} I (a : A) : keep I (mret a).
Proof. by intros s Hs. Qed.
Lemma keep_stop {A} I e : e <> Starved -> keep I (stop e : ST Sess Busy A).
Proof. by intros He s Hs. Qed.
Lemma keep_get {A} I (f : Sess -> A) : keep I (get f).
Proof. by intros s Hs. Qed.

(** How the stream goes on: after a frame, or after one that is refused or cut short. *)
Inductive next : bytes -> bytes -> Prop :=
| next_frame r c p r' : read_frame r = Ok (c, p, r') -> next r r'
| next_refused r e : read_frame r = Err e -> next r (left_after r).

(** What the loops may change: descriptors only by closing the child's input, effects only by those that start nothing. *)
Definition starts (e : Effect) : bool := match e with Started _ _ => true | _ => false end.

Record stable (I : Sess -> Prop) : Prop := {
  st_sock w s : I s -> I (set_sock w s);
  st_inp b s : I s -> next (inp s) b -> I (set_inp b s);
  st_io i o e s : I s -> I (set_io i o e s);
  st_effect e s : I s -> starts e = false -> I (add_effect e s);
}.

Context (I : Sess -> Prop) (HI : stable I).

Lemma keep_effect e : starts e = false -> keep I (effect e).
Proof. intros He s Hs. by apply (st_effect _ HI). Qed.

Lemma read_control_next r m r' : read_control r = Ok (m, r') -> next r r'.
Proof.
  unfold read_control. destruct (read_frame r) as [[[c p] r1]|] eqn:E; [|done]. cbn.
  destruct (negb _); [done|]. destruct (parse p); [|done]. cbn. intros [= _ <-]. by eapply next_frame.
Qed.

Lemma keep_recv_frame : keep I recv_frame.
Proof.
  intros s Hs. unfold wp, recv_frame. destruct (read_frame (inp s)) as [[[c p] r]|] eqn:E; (apply (st_inp _ HI); [done|]).
  - by eapply next_frame.
  - by eapply next_refused.
Qed.

Lemma keep_recv_control : keep I recv_control.
Proof.
  intros s Hs. unfold wp, recv_control. destruct (read_control (inp s)) as [[m r]|[]] eqn:E; try done.
  apply (st_inp _ HI); [done|]. by apply read_control_next in E.
Qed.

Lemma keep_send channel b : keep I (send_frame channel b).
Proof. intros s Hs. unfold wp, send_frame. destruct (write_frame _ _ _). by apply (st_sock _ HI). Qed.

Lemma keep_note channel b : keep I (note_read channel b).
Proof. intros s Hs. unfold wp, note_read, modify. destruct (_ =? _); by apply (st_io _ HI). Qed.

Lemma keep_write n b : keep I (write_child n b).
Proof. intros s Hs. by apply (st_io _ HI). Qed.
End Steps.

Lemma stable_fds I T : stable I -> stable (fun s => I s /\ fds s = T).
Proof. intros H. split; intros * [H1 H2]; intros; (split; [by apply H|done]). Qed.

Lemma stable_and I J : stable I -> stable J -> stable (fun s => I s /\ J s).
Proof. intros H1 H2. split; intros * [? ?]; intros; (split; [by apply H1|by apply H2]). Qed.

Lemma next_suffix r r' : next r r' -> r' `suffix_of` r.
Proof. intros []; [by eapply read_frame_suffix|apply left_after_suffix]. Qed.

Lemma stable_short n : stable (fun s => (length (inp s) < n)%nat).
Proof. split; cbn; try done. intros b s Hs ?%next_suffix%suffix_length. lia. Qed.

Lemma stable_later b0 : stable (fun s => rtc next b0 (inp s)).
Proof. split; cbn; try done. intros b s Hs Hn. by eapply rtc_r. Qed.

Create HintDb agent.
#[export] Hint Resolve keep_bind keep_ret keep_stop keep_get keep_effect keep_recv_frame keep_recv_control keep_send keep_note
  keep_write : agent.

(** ** The loops *)

Section Loops.
Context (h : AgentHost) (I : Sess -> Prop) (HI : stable I).

Ltac keeps := repeat first [apply keep_bind; [|intros ?] | apply keep_ret | apply keep_stop; done | apply keep_get |
  apply keep_effect; [done|done] | apply keep_recv_frame; done | apply keep_recv_control; done | apply keep_send; done |
  apply keep_note; done | apply keep_write; done | case_match | done].

Lemma keep_drain channel l : keep I (drain_pipe_to_conn channel l).
Proof. induction l as [|r l IH]; cbn [drain_pipe_to_conn]; keeps. Qed.

Lemma keep_output reads f : keep I (forward_output reads f).
Proof. unfold forward_output. destruct (output_done f), reads; keeps; apply keep_drain. Qed.

Lemma keep_stderr reads f : keep I (forward_stderr reads f).
Proof. unfold forward_stderr. destruct (stderr_done f), reads; keeps; apply keep_drain. Qed.

Lemma keep_end pid f : keep I (forward_end h pid f).
Proof. unfold forward_end. keeps. Qed.

Lemma keep_tty_message pid n f : keep I (tty_message pid n f).
Proof. unfold tty_message, kill_init. keeps. Qed.

Lemma keep_tty_loop pid l f : keep I (forward_tty_loop h pid l f).
Proof.
  revert f. induction l as [|[| |t] l IH]; intros f; cbn [forward_tty_loop]; keeps;
    first [apply keep_end | apply keep_output | apply keep_tty_message | apply IH].
Qed.

(** The input of the child is closed at most once, and the result says whether. *)
Context (Hfds : forall t s, I s -> I (set_fds t s)) (stdin_w : Z) (T : Table).

Definition table (f : Fwd) : Table := if stdin_open f then T else delete stdin_w T.

Definition held (f : Fwd) (s : Sess) : Prop := I s /\ fds s = table f.

Lemma held_stable f : stable (held f).
Proof. apply (stable_fds I (table f) HI). Qed.
End Loops.

Section PipeLoop.
Context (h : AgentHost) (I : Sess -> Prop) (HI : stable I) (Hfds : forall t s, I s -> I (set_fds t s)) (stdin_w : Z) (T : Table).
Abbreviation held := (held I stdin_w T).

Lemma keep_wp {A} J (m : ST Sess Busy A) s (Q : A -> Sess -> Prop) X : keep J m -> J s -> (forall a s', J s' -> Q a s') ->
  (forall e s', halt J e s' -> X e s') -> wp m Q X s.
Proof. intros Hm Hs HQ HX. eapply wp_mono; [by apply Hm|exact HQ|exact HX]. Qed.

Lemma held_I f s : held f s -> I s.
Proof. by intros []. Qed.
Lemma held_halt f e s : halt (held f) e s -> halt I e s.
Proof. by intros [[] ?]. Qed.
#[local] Hint Resolve held_I held_halt : core.

Definition after_message (f : Fwd) (nx : Next) (s : Sess) : Prop :=
  match nx with GoOn f' | Leave f' => held f' s | Return => held f s end.

Lemma pipe_message_held pid n f s : held f s -> wp (pipe_message pid stdin_w n f) (after_message f) (halt I) s.
Proof.
  intros Hs. pose proof (held_stable I HI stdin_w T f) as Hst. unfold pipe_message.
  apply wp_bind, (keep_wp _ _ _ _ _ (keep_recv_frame _ Hst) Hs); [|by eauto]. intros [[c p]|] s1 H1.
  - destruct (_ && stdin_open f) eqn:Eo.
    + apply andb_true_iff in Eo as [_ Eo]. case_decide.
      * destruct H1 as [H1 E1]. split; [by apply Hfds|]. cbn. unfold table in *. cbn. by rewrite E1, Eo.
      * apply wp_bind, (keep_wp _ _ _ _ _ (keep_write _ Hst _ _) H1); by eauto.
    + destruct (c =? CHANNEL_CONTROL); [|done]. destruct (parse p) as [[]|[]]; try done; try (by split; [apply held_I in H1|]).
      apply wp_bind, (keep_wp _ _ _ _ _ (keep_effect _ Hst (Signalled 1 SIGKILL) eq_refl) H1); by eauto.
  - apply wp_bind, (keep_wp _ _ _ _ _ (keep_effect _ Hst (Signalled pid SIGKILL) eq_refl) H1); by eauto.
Qed.

Lemma end_held pid f s (Q : Z -> Sess -> Prop) X : held f s -> (forall c s', held f s' -> Q c s') -> wp (forward_end h pid f) Q X s.
Proof.
  intros Hs HQ. unfold forward_end. apply wp_bind. unfold wp at 1. cbn [get]. apply wp_bind. unfold wp at 1, effect, modify.
  apply HQ. destruct Hs as [H1 H2]. split; [by apply (st_effect _ HI)|done].
Qed.

Definition looped (r : Z * bool) (s : Sess) : Prop := I s /\ fds s = if r.2 then delete stdin_w T else T.

Lemma held_looped f c s : held f s -> looped (c, negb (stdin_open f)) s.
Proof. intros [H1 H2]. split; [done|]. cbn. rewrite H2. unfold table. by destruct (stdin_open f). Qed.

Lemma forward_loop_held pid l f s : held f s -> wp (forward_loop h pid stdin_w l f) looped (halt I) s.
Proof.
  revert f s. induction l as [|[| |t] l IH]; intros f s Hs; cbn [forward_loop]; [by split; [apply held_I in Hs|]|by apply IH| |].
  { apply wp_bind, end_held; [done|]. intros c s1 H1. by apply held_looped. }
  pose proof (held_stable I HI stdin_w T) as Hst.
  assert (Hout : forall s1 f1, held f1 s1 -> wp (forward_output (out_reads t) f1) (fun f2 s2 => held f2 s2) (halt I) s1).
  { intros s1 f1 H1. unfold forward_output. destruct (output_done f1), (out_reads t); try done.
    apply wp_bind, (keep_wp _ _ _ _ _ (keep_drain _ (Hst f1) _ _) H1); by eauto. }
  assert (Herr : forall s1 f1, held f1 s1 -> wp (forward_stderr (err_reads t) f1) (fun f2 s2 => held f2 s2) (halt I) s1).
  { intros s1 f1 H1. unfold forward_stderr. destruct (stderr_done f1), (err_reads t); try done.
    apply wp_bind, (keep_wp _ _ _ _ _ (keep_drain _ (Hst f1) _ _) H1); by eauto. }
  apply wp_bind. eapply wp_mono; [by apply Hout| |done]. intros f1 s1 H1. apply wp_bind. eapply wp_mono; [by apply Herr| |done].
  intros f2 s2 H2. apply wp_bind. apply (wp_mono _ (after_message f2) _ (halt I)); [|intros nx s3 H3|done].
  { destruct (conn_in t); [by apply pipe_message_held|done]. }
  destruct nx as [f3|f3|]; cbn [after_message] in H3; [| |by apply held_looped].
  - destruct (conn_hup t).
    + apply wp_bind, (keep_wp _ _ _ _ _ (keep_effect _ (Hst f3) (Signalled pid SIGKILL) eq_refl) H3); [|by eauto].
      intros _ s4 H4. apply wp_bind, end_held; [done|]. intros c s5 H5. by apply held_looped.
    + assert (H4 : held (check_child t f3) s3). { unfold check_child. destruct (child_exited f3), (reaped t); done. }
      destruct (_ && _ && _); [|by apply IH].
      apply wp_bind, (keep_wp _ _ _ _ _ (keep_effect _ (Hst (check_child t f3)) (Orphans pid) eq_refl) H4); [|by eauto].
      intros _ s4 H5. by apply held_looped.
  - apply wp_bind, end_held; [done|]. intros c s5 H5. by apply held_looped.
Qed.
End PipeLoop.

(** ** The child *)

Section Children.
Context (h : AgentHost).

(** Documented behaviour of the kernel: new descriptors are new. *)
Record AgentLaws : Prop := {
  law_pipe s r w : pipe2 h s = Some (r, w) -> 0 <= r /\ 0 <= w /\ r <> w /\ fds s !! r = None /\ fds s !! w = None;
  law_pty s m sl : openpty h s = Some (m, sl) -> 0 <= m /\ 0 <= sl /\ m <> sl /\ fds s !! m = None /\ fds s !! sl = None;
}.

(** The agent's own descriptors: its standard streams are open, the others are closed on [execve], by their flag or by
    [close_range]. *)
Record standard (T : Table) : Prop := {
  sd_std fd : 0 <= fd < 3 -> is_Some (T !! fd);
  sd_nonneg fd v : T !! fd = Some v -> 0 <= fd;
  sd_cloexec fd v : T !! fd = Some v -> 3 <= fd -> close_range_ok h = true \/ v.2 = true;
}.

(** The descriptors of a command. *)
Definition streams (i o e : End) : Table := <[0 := (i, false)]> (<[1 := (o, false)]> (<[2 := (e, false)]> ∅)).

Definition at_exec (t : Table) : Table :=
  filter (fun kv => kv.2.2 = false) (if close_range_ok h then filter (fun kv => kv.1 < 3) t else t).

Lemma at_exec_streams T t i o e : standard T -> t !! 0 = Some (i, false) -> t !! 1 = Some (o, false) -> t !! 2 = Some (e, false) ->
  (forall fd v, 3 <= fd \/ fd < 0 -> t !! fd = Some v -> T !! fd = Some v) -> at_exec t = streams i o e.
Proof.
  intros HT H0 H1 H2 Hr. apply map_eq. intros fd. unfold at_exec, streams.
  destruct (decide (0 <= fd < 3)) as [Hfd|Hfd].
  - assert (E : exists x, t !! fd = Some (x, false) /\ streams i o e !! fd = Some (x, false)).
    { assert (fd = 0 \/ fd = 1 \/ fd = 2) as [->|[->| ->]] by lia; eexists; (split; [eassumption|]); by vm_compute. }
    destruct E as (x & E1 & E2). unfold streams in E2. rewrite E2. apply map_lookup_filter_Some. split; [|done].
    destruct (close_range_ok h); [|done]. apply map_lookup_filter_Some. split; [done|]. cbn. lia.
  - rewrite !lookup_insert_ne by lia. rewrite lookup_empty. apply map_lookup_filter_None. right. intros v Hv.
    assert (Ht : t !! fd = Some v /\ (close_range_ok h = true -> fd < 3)).
    { destruct (close_range_ok h); [|done]. by apply map_lookup_filter_Some in Hv as [? ?]. }
    destruct Ht as [Ht Hc]. apply Hr in Ht; [|lia]. pose proof (sd_nonneg _ HT _ _ Ht).
    destruct (sd_cloexec _ HT _ _ Ht) as [E|E]; [lia| |cbn; by rewrite E]. specialize (Hc E). lia.
Qed.

Lemma closed_lookup l t fd : closed l t !! fd = if bool_decide (fd ∈ l) then None else t !! fd.
Proof.
  unfold closed. revert t. induction l as [|x l IH]; intros t; cbn [foldl]; [done|]. rewrite IH.
  destruct (decide (fd = x)) as [->|Hx].
  - rewrite lookup_delete_eq. rewrite (bool_decide_true (x ∈ x :: l)) by apply list_elem_of_here. by destruct (bool_decide _).
  - rewrite lookup_delete_ne by done. destruct (decide (fd ∈ l)) as [Hl|Hl].
    + rewrite !bool_decide_true; [done|by apply list_elem_of_further|done].
    + rewrite !bool_decide_false; [done| |done]. by intros [?|?]%elem_of_cons.
Qed.

(** The table [T] with the new descriptors [l]. *)
Record extra (T : Table) (l : list Z) (t : Table) : Prop := {
  ex_same fd : fd ∉ l -> t !! fd = T !! fd;
  ex_new fd : fd ∈ l -> 0 <= fd /\ T !! fd = None;
  ex_nodup : NoDup l;
}.

Lemma extra_refl T : extra T [] T.
Proof. split; [done|by intros ? ?%elem_of_nil|constructor]. Qed.

Lemma extra_nil T t : extra T [] t -> t = T.
Proof. intros [H _ _]. apply map_eq. intros fd. apply H, not_elem_of_nil. Qed.

Lemma extra_perm T l l' t : extra T l t -> l ≡ₚ l' -> extra T l' t.
Proof. intros [H1 H2 H3] E. split; [intros fd; rewrite <- E; apply H1|intros fd; rewrite <- E; apply H2|by rewrite <- E]. Qed.

Lemma extra_fresh T l t fd : extra T l t -> t !! fd = None -> (forall x, x ∈ l -> is_Some (t !! x)) -> (fd ∉ l) /\ T !! fd = None.
Proof.
  intros [H1 _ _] Hf Hs. assert (Hl : fd ∉ l). { intros Hl. destruct (Hs fd Hl) as [? ?]. congruence. } split; [done|].
  by rewrite <- H1.
Qed.

Lemma extra_open T l t fd v : extra T l t -> 0 <= fd -> fd ∉ l -> T !! fd = None -> extra T (fd :: l) (<[fd := v]> t).
Proof.
  intros [H1 H2 H3] H0 Hl Hn. split; [|by intros x [->|?]%elem_of_cons; auto|by apply list.NoDup_cons].
  intros x [Hx Hxl]%not_elem_of_cons. rewrite lookup_insert_ne by done. by apply H1.
Qed.

Lemma extra_close T c l t : extra T (c ++ l) t -> extra T l (closed c t).
Proof.
  intros [H1 H2 H3]. apply list.NoDup_app in H3 as (_ & _ & H4). split; [|intros; apply H2; set_solver|done].
  intros fd Hfd. rewrite closed_lookup. case_bool_decide as Hc; [|apply H1; set_solver].
  symmetry. apply H2. set_solver.
Qed.

(** The table when the three pipes of a command are open. *)
Definition pipe_table (T : Table) (a b c : Z * Z) : Table :=
  <[c.2 := (WriteEnd 2, true)]> (<[c.1 := (ReadEnd 2, true)]> (<[b.2 := (WriteEnd 1, true)]> (<[b.1 := (ReadEnd 1, true)]>
    (<[a.2 := (WriteEnd 0, true)]> (<[a.1 := (ReadEnd 0, true)]> T))))).

Lemma new_high T fd : standard T -> 0 <= fd -> T !! fd = None -> 3 <= fd.
Proof. intros HT H0 Hn. destruct (decide (fd < 3)) as [Hl|]; [|lia]. destruct (sd_std _ HT fd) as [v Hv]; [lia|]. congruence. Qed.

Lemma dup2_other x y t fd : fd <> y -> dup2 x y t !! fd = t !! fd.
Proof. intros H. unfold dup2. destruct (t !! x) as [[]|]; [|done]. destruct (x =? y); [done|]. by rewrite lookup_insert_ne. Qed.
Lemma dup2_target x y t e b : t !! x = Some (e, b) -> x <> y -> dup2 x y t !! y = Some (e, false).
Proof. intros E H. unfold dup2. rewrite E. destruct (Z.eqb_spec x y); [done|]. by rewrite lookup_insert_eq. Qed.

Lemma pipe_child_streams T a b c : standard T -> NoDup [a.1; a.2; b.1; b.2; c.1; c.2] ->
  (forall fd, fd ∈ [a.1; a.2; b.1; b.2; c.1; c.2] -> 0 <= fd /\ T !! fd = None) ->
  at_exec (pipe_child a b c (pipe_table T a b c)) = streams (ReadEnd 0) (WriteEnd 1) (WriteEnd 2).
Proof.
  intros HT Hd Hn. assert (Hh : forall fd, fd ∈ [a.1; a.2; b.1; b.2; c.1; c.2] -> 3 <= fd).
  { intros fd Hfd. destruct (Hn fd Hfd). by eapply new_high. }
  rewrite !list.NoDup_cons in Hd. destruct Hd as (Ha1 & Ha2 & Hb1 & Hb2 & Hc1 & Hc2 & _).
  rewrite !not_elem_of_cons in *. destruct a as [a1 a2], b as [b1 b2], c as [c1 c2]. cbn [fst snd] in *.
  destruct Ha1 as (? & ? & ? & ? & ? & _), Ha2 as (? & ? & ? & ? & _), Hb1 as (? & ? & ? & _), Hb2 as (? & ? & _), Hc1 as (? & _).
  assert (3 <= a1 /\ 3 <= a2 /\ 3 <= b1 /\ 3 <= b2 /\ 3 <= c1 /\ 3 <= c2) as (? & ? & ? & ? & ? & ?).
  { split_and!; apply Hh; rewrite !elem_of_cons; tauto. }
  assert (Hcl : forall fd, 0 <= fd < 3 -> bool_decide (fd ∈ [a1; a2; b1; b2; c1; c2]) = false).
  { intros fd Hfd. apply bool_decide_eq_false. intros Hin%Hh. lia. }
  assert (Hlow : forall k x, 0 <= k < 3 -> 3 <= x -> x <> k) by (clear; lia).
  unfold pipe_child, pipe_table. cbn [fst snd]. apply (at_exec_streams T); [done|..].
  - rewrite closed_lookup, Hcl by done. rewrite !dup2_other by done. eapply dup2_target; [|by apply Hlow].
    rewrite !lookup_insert_ne by congruence. apply lookup_insert_eq.
  - rewrite closed_lookup, Hcl by done. rewrite dup2_other by done. eapply dup2_target; [|by apply Hlow].
    rewrite dup2_other by by apply Hlow. rewrite !lookup_insert_ne by congruence. apply lookup_insert_eq.
  - rewrite closed_lookup, Hcl by done. eapply dup2_target; [|by apply Hlow]. rewrite 2!dup2_other by by apply Hlow.
    apply lookup_insert_eq.
  - intros fd v Hfd. rewrite closed_lookup. case_bool_decide as Hin; [done|]. rewrite 3!dup2_other by (clear -Hfd; lia).
    rewrite !not_elem_of_cons in Hin. destruct Hin as (? & ? & ? & ? & ? & ? & _). rewrite 6!lookup_insert_ne by congruence. done.
Qed.

Definition tty_table (T : Table) (m sl : Z) : Table := <[sl := (Slave, true)]> (<[m := (Master, true)]> T).

Lemma tty_child_streams T m sl : standard T -> 0 <= m -> 0 <= sl -> m <> sl -> T !! m = None -> T !! sl = None ->
  at_exec (tty_child m sl (tty_table T m sl)) = streams Slave Slave Slave.
Proof.
  intros HT Hm Hs Hne Em Es. pose proof (new_high _ _ HT Hm Em). pose proof (new_high _ _ HT Hs Es).
  unfold tty_child, tty_table. destruct (Z.ltb_spec 2 sl); [|lia].
  assert (Hcl : forall fd x, 0 <= fd < 3 -> 3 <= x -> bool_decide (fd ∈ [x]) = false).
  { intros fd x ? ?. apply bool_decide_eq_false. intros ->%list_elem_of_singleton. lia. }
  assert (E0 : closed [m] (<[sl:=(Slave, true)]> (<[m:=(Master, true)]> T)) !! sl = Some (Slave, true)).
  { rewrite closed_lookup. case_bool_decide as Hin; [by apply list_elem_of_singleton in Hin as ->|]. apply lookup_insert_eq. }
  apply (at_exec_streams T); [done|..].
  - rewrite closed_lookup, Hcl by lia. rewrite !dup2_other by lia. eapply dup2_target; [exact E0|lia].
  - rewrite closed_lookup, Hcl by lia. rewrite dup2_other by lia. eapply dup2_target; [rewrite dup2_other by lia; exact E0|lia].
  - rewrite closed_lookup, Hcl by lia. eapply dup2_target; [rewrite !dup2_other by lia; exact E0|lia].
  - intros fd v Hfd. rewrite closed_lookup. case_bool_decide as Hin; [done|]. rewrite !dup2_other by lia. rewrite closed_lookup.
    case_bool_decide as Hin2; [done|]. rewrite list_elem_of_singleton in *. by rewrite !lookup_insert_ne.
Qed.

(** *** The image of a request *)

(** All groups of the user are resolved, however many. *)
Lemma resolve_user_spec name info : resolve_user h name = Some info ->
  getpwnam h name = Some (uid info, gid info) /\ groups info = group_list h name (gid info) /\ ngroups info = len (groups info).
Proof.
  unfold resolve_user. destruct (contains 0 name); [done|]. destruct (getpwnam h name) as [[u g]|]; [|done]. cbn [mbind option_bind].
  set (l := group_list h name g). unfold getgrouplist. destruct (len l <=? 32) eqn:E.
  - destruct (Z.ltb_spec (len l) 0) as [Hl|_]; [pose proof (len_nonneg l); lia|]. intros [= <-]. cbn [uid gid groups ngroups].
    assert (Et : take (Z.to_nat 32) l = l) by (apply take_ge; unfold len in E; lia). rewrite Et. unfold len. rewrite Nat2Z.id.
    rewrite take_app_length. done.
  - change (-1 <? 0) with true. cbn iota. rewrite Z.leb_refl. intros [= <-]. cbn [uid gid groups ngroups]. unfold len. rewrite Nat2Z.id.
    rewrite (take_ge l) by lia. rewrite take_app_length. done.
Qed.

Definition runs_as (req : ExecRequest) (im : Image) : Prop :=
  (user req = bs "root" /\ ids im = None) \/
  exists info, getpwnam h (user req) = Some (uid info, gid info) /\ groups info = group_list h (user req) (gid info) /\
    ids im = Some info.

Record image_of (req : ExecRequest) (im : Image) : Prop := {
  im_program : resolve_command h (cmd req) (env req) = Some (program im);
  im_argv : argv im = program im :: args req;
  im_envp : envp im = List.filter (fun e => negb (contains 0 e)) (env req);
  im_ids : runs_as req im;
  im_fds : descriptors im = if tty req then streams Slave Slave Slave else streams (ReadEnd 0) (WriteEnd 1) (WriteEnd 2);
}.

Lemma exec_child_ok c_cmd c_argv c_envp ui t im : exec_child h c_cmd c_argv c_envp ui t = Executed im ->
  im = {| program := c_cmd; argv := c_argv; envp := c_envp; ids := ui; descriptors := at_exec t |}.
Proof.
  unfold exec_child, at_exec. destruct ui as [info|].
  - destruct (negb _); [done|]. destruct (negb _); [done|]. destruct (negb _); [done|]. destruct (execve_ok _ _); [|done]. by intros [= <-].
  - destruct (execve_ok _ _); [|done]. by intros [= <-].
Qed.
End Children.

(** ** Execution *)

Section Exec.
Context (h : AgentHost) (HL : AgentLaws h).
(** The requests that were made, and a property of the stream. *)
Context (requested : ExecRequest -> Prop) (K : Sess -> Prop) (HK : stable K) (HKf : forall t s, K s -> K (set_fds t s))
  (HKe : forall e s, K s -> K (add_effect e s)).

Definition effect_ok (e : Effect) : Prop :=
  match e with Started _ (Executed im) => exists req, requested req /\ image_of h req im | _ => True end.

Definition inv (s : Sess) : Prop := K s /\ Forall effect_ok (effects s).

Lemma inv_stable : stable inv.
Proof.
  apply stable_and; [done|]. split; cbn; try done. intros e s H2 He. apply Forall_app_2; [done|]. constructor; [|done]. by destruct e.
Qed.
Lemma inv_fds t s : inv s -> inv (set_fds t s).
Proof. intros [H1 H2]. split; [by apply HKf|done]. Qed.

Context (T : Table) (HT : standard h T).

(** The state between two requests. *)
Definition idle (s : Sess) : Prop := inv s /\ fds s = T.

Lemma idle_stable : stable idle.
Proof. apply (stable_fds inv T inv_stable). Qed.

Lemma start_ok child s (Q : option Z -> Sess -> Prop) X : inv s -> (forall im, child (fds s) = Executed im -> exists req, requested req /\ image_of h req im) ->
  (forall pid s', inv s' -> fds s' = fds s -> Q pid s') -> wp (start h child) Q X s.
Proof.
  intros [H1 H2] Hc HQ. unfold wp, start. destruct (fork h s) as [pid|]; (apply HQ; [split|done]); [by apply HKe| |done|done].
  cbn. apply Forall_app_2; [done|]. constructor; [|done]. cbn. destruct (child (fds s)) as [im|] eqn:E; [|done]. by apply Hc.
Qed.

(** The descriptors [l] are open besides [T]. *)
Definition opened (l : list Z) (s : Sess) : Prop := inv s /\ extra T l (fds s) /\ forall fd, fd ∈ l -> is_Some (fds s !! fd).

Lemma idle_opened s : idle s <-> opened [] s.
Proof.
  split; [intros [H E]|by intros (H & E%extra_nil & _)]. split; [done|]. split; [rewrite E; apply extra_refl|by intros ? ?%elem_of_nil].
Qed.

Lemma open_pipe_ok n l s (Q : option (Z * Z) -> Sess -> Prop) X : opened l s -> Q None s ->
  (forall r w s', opened (r :: w :: l) s' -> fds s' = <[w := (WriteEnd n, true)]> (<[r := (ReadEnd n, true)]> (fds s)) -> Q (Some (r, w)) s') ->
  wp (open_pipe h n) Q X s.
Proof.
  intros (Hi & He & Ho) HN HQ. unfold wp, open_pipe. destruct (pipe2 h s) as [[r w]|] eqn:E; [|done].
  destruct (law_pipe _ HL _ _ _ E) as (H1 & H2 & H3 & H4 & H5). apply HQ; [|done].
  destruct (extra_fresh _ _ _ _ He H4 Ho) as [R1 R2], (extra_fresh _ _ _ _ He H5 Ho) as [W1 W2]. split; [by apply inv_fds|]. cbn. split.
  - eapply extra_perm; [apply extra_open; [apply (extra_open _ _ _ r _ He); done|done| |done]|apply perm_swap].
    by apply not_elem_of_cons.
  - intros fd. rewrite !elem_of_cons. destruct (decide (fd = w)) as [->|Hw]; [rewrite lookup_insert_eq; by eexists|].
    rewrite lookup_insert_ne by done. destruct (decide (fd = r)) as [->|Hr]; [rewrite lookup_insert_eq; by eexists|].
    rewrite lookup_insert_ne by done. intros [?|[?|?]]; [done|done|by apply Ho].
Qed.

Lemma close_all_ok c l l' s (Q : unit -> Sess -> Prop) X : opened l s -> l ≡ₚ c ++ l' -> (forall s', opened l' s' -> Q tt s') ->
  wp (close_all c) Q X s.
Proof.
  intros (Hi & He & Ho) Hp HQ. apply HQ. split; [by apply inv_fds|]. cbn. pose proof (extra_perm _ _ _ _ He Hp) as He'. split; [by apply extra_close|].
  intros fd Hfd. change (is_Some (closed c (fds s) !! fd)). rewrite closed_lookup, bool_decide_false; [apply Ho; rewrite Hp; set_solver|].
  intros Hc. destruct He' as [_ _ Hd]. apply list.NoDup_app in Hd as (_ & Hd & _). by apply (Hd fd).
Qed.

(** The user of a request, as it is resolved. *)
Definition user_of (req : ExecRequest) (ui : option UserInfo) : Prop :=
  ui = None /\ user req = bs "root" \/ exists info, ui = Some info /\ resolve_user h (user req) = Some info.

Lemma image_intro req prog ui t im : resolve_command h (cmd req) (env req) = Some prog -> user_of req ui ->
  exec_child h prog (prog :: args req) (List.filter (fun e => negb (contains 0 e)) (env req)) ui t = Executed im ->
  at_exec h t = (if tty req then streams Slave Slave Slave else streams (ReadEnd 0) (WriteEnd 1) (WriteEnd 2)) -> image_of h req im.
Proof.
  intros Hp Hu Him%exec_child_ok Ht. subst im. split; cbn; try done. destruct Hu as [[-> Hu]|(info & -> & Hu)]; [by left|right].
  apply resolve_user_spec in Hu as (H1 & H2 & _). by exists info.
Qed.

Lemma opened_fds s s' l : opened l s -> inv s' -> fds s' = fds s -> opened l s'.
Proof. intros (H1 & H2 & H3) Hi E. split; [done|]. by rewrite E. Qed.

(** A command with pipes: the descriptors are all closed again, in whatever way it ends. *)
Lemma exec_pipes_ok req prog ui s : requested req -> tty req = false -> resolve_command h (cmd req) (env req) = Some prog ->
  user_of req ui -> idle s ->
  wp (handle_exec_pipes h prog (prog :: args req) (List.filter (fun e => negb (contains 0 e)) (env req)) ui)
     (fun _ => idle) (halt inv) s.
Proof.
  intros Hreq Htty Hprog Hui Hs. pose proof Hs as [_ Hf]. apply idle_opened in Hs. unfold handle_exec_pipes.
  apply wp_bind, (open_pipe_ok _ []); [done|by apply idle_opened|]. intros a1 a2 s1 O1 F1.
  apply wp_bind, (open_pipe_ok _ _ _ _ _ O1).
  { apply wp_bind, (close_all_ok _ _ [] _ _ _ O1); [solve_Permutation|]. intros s' O'. by apply idle_opened. }
  intros b1 b2 s2 O2 F2. apply wp_bind, (open_pipe_ok _ _ _ _ _ O2).
  { apply wp_bind, (close_all_ok _ _ [] _ _ _ O2); [cbn; solve_Permutation|]. intros s' O'. by apply idle_opened. }
  intros c1 c2 s3 O3 F3. rewrite F2, F1, Hf in F3. apply wp_bind, start_ok; [apply O3| |].
  { intros im Him. exists req. split; [done|]. eapply image_intro; [done|done|exact Him|]. rewrite Htty, F3.
    destruct O3 as (_ & E3 & _). assert (Hp : [c1; c2; b1; b2; a1; a2] ≡ₚ [a1; a2; b1; b2; c1; c2]) by solve_Permutation.
    destruct (extra_perm _ _ _ _ E3 Hp) as [_ E4 E5].
    by apply (pipe_child_streams h T (a1, a2) (b1, b2) (c1, c2)). }
  intros [pid|] s4 I4 F4; pose proof (opened_fds _ _ _ O3 I4 F4) as O4.
  2:{ apply wp_bind, (close_all_ok _ _ [] _ _ _ O4); [cbn; solve_Permutation|]. intros s' O'. by apply idle_opened. }
  apply wp_bind, (close_all_ok _ _ [a2; b1; c1] _ _ _ O4); [cbn; solve_Permutation|]. intros s5 O5.
  apply wp_bind. unfold forward_io. apply wp_bind. unfold wp at 1. cbn [get].
  eapply wp_mono; [apply (forward_loop_held h inv inv_stable inv_fds a2 (fds s5)); split; [apply O5|done]| |done].
  intros [code cl] s6 [I6 F6]. cbn [snd] in F6.
  apply wp_bind. eapply (wp_mono _ (fun _ s7 => opened [b1; c1] s7) _ (fun _ _ => False)); [| |done].
  - destruct cl; [|change (close (a1, a2).2) with (close_all [a2]); apply (close_all_ok [a2] [a2; b1; c1] [b1; c1]);
      [by apply (opened_fds s5)|solve_Permutation|done]].
    assert (O6 : wp (close_all [a2]) (fun _ => opened [b1; c1]) (fun _ _ => False) s5).
    { apply (close_all_ok _ _ [b1; c1] _ _ _ O5); [solve_Permutation|done]. }
    by apply (opened_fds _ s6) in O6.
  - intros _ s7 O7. apply wp_bind, (close_all_ok _ _ [] _ _ _ O7); [cbn; solve_Permutation|]. intros s' O'. by apply idle_opened.
Qed.

Lemma exec_tty_ok req prog ui s : requested req -> tty req = true -> resolve_command h (cmd req) (env req) = Some prog ->
  user_of req ui -> idle s ->
  wp (handle_exec_tty h req prog (prog :: args req) (List.filter (fun e => negb (contains 0 e)) (env req)) ui)
     (fun _ => idle) (halt inv) s.
Proof.
  intros Hreq Htty Hprog Hui [Hi Hf]. unfold wp at 1, handle_exec_tty. destruct (openpty h s) as [[m sl]|] eqn:E; [|done].
  destruct (law_pty _ HL _ _ _ E) as (H1 & H2 & H3 & H4 & H5). rewrite Hf in *.
  set (s1 := set_fds _ s). assert (O1 : opened [sl; m] s1).
  { split; [by apply inv_fds|]. split; [apply extra_open; [apply extra_open; [apply extra_refl|done|apply not_elem_of_nil|done]|done| |done]|].
    - by intros ?%list_elem_of_singleton.
    - intros fd. cbn. rewrite !elem_of_cons. destruct (decide (fd = sl)) as [->|]; [rewrite lookup_insert_eq; by eexists|].
      rewrite lookup_insert_ne by done. intros [?|[->|[]%elem_of_nil]]; [done|]. rewrite lookup_insert_eq. by eexists. }
  assert (F1 : fds s1 = tty_table T m sl) by done. clearbody s1.
  match goal with |- match ?m ?s with _ => _ end => change (wp m (fun _ => idle) (halt inv) s) end. apply wp_bind.
  eapply (wp_mono _ (fun _ s2 => inv s2 /\ fds s2 = fds s1) _ (fun _ _ => False)); [|intros _ s2 [I2 F2]|done].
  { destruct (_ && _); [|by split; [apply O1|]]. split; [|done]. by apply (st_effect _ inv_stable), eq_refl; apply O1. }
  pose proof (opened_fds _ _ _ O1 I2 F2) as O2. apply wp_bind, start_ok; [done| |].
  { intros im Him. exists req. split; [done|]. eapply image_intro; [done|done|exact Him|]. rewrite Htty, F2, F1.
    by apply tty_child_streams. }
  intros [pid|] s3 I3 F3; pose proof (opened_fds _ _ _ O2 I3 F3) as O3.
  2:{ apply wp_bind, (close_all_ok _ _ [] _ _ _ O3); [cbn; solve_Permutation|]. intros s' O'. by apply idle_opened. }
  change (close sl) with (close_all [sl]). apply wp_bind, (close_all_ok _ _ [m] _ _ _ O3); [done|]. intros s4 O4.
  apply wp_bind. unfold forward_io_tty. apply wp_bind. unfold wp at 1. cbn [get].
  apply (keep_wp (fun s => inv s /\ fds s = fds s4) _ _ _ _ (keep_tty_loop h _ (stable_fds _ _ inv_stable) _ _ _)).
  - split; [apply O4|done].
  - intros code s5 [I5 F5]. change (close m) with (close_all [m]).
    apply wp_bind, (close_all_ok _ _ [] _ _ _ (opened_fds _ _ _ O4 I5 F5)); [done|]. intros s' O'. by apply idle_opened.
  - by intros e s' [[] ?].
Qed.

Lemma handle_exec_ok req s : requested req -> idle s -> wp (handle_exec h req) (fun _ => idle) (halt inv) s.
Proof.
  intros Hreq Hs. unfold handle_exec.
  destruct (if decide (user req = bs "root") then _ else _) as [ui|] eqn:Eu; [|done].
  assert (Hu : user_of req ui).
  { case_decide as Er; [injection Eu as <-; by left|]. destruct (resolve_user h (user req)) as [info|] eqn:E; [|done].
    injection Eu as <-. right. by exists info. }
  destruct (resolve_command h (cmd req) (env req)) as [prog|] eqn:Ep; [|done]. destruct (_ || _); [done|].
  destruct (tty req) eqn:Et; [by apply exec_tty_ok|by apply exec_pipes_ok].
Qed.
End Exec.

(** ** A whole connection *)

(** Properties of the stream alone are kept by an execution. *)
Section Free.
Context (h : AgentHost) (I : Sess -> Prop) (HI : stable I) (Hfds : forall t s, I s -> I (set_fds t s))
  (Heff : forall e s, I s -> I (add_effect e s)).

Lemma keep_close fd : keep I (close fd).
Proof. intros s Hs. by apply Hfds. Qed.
Lemma keep_close_all l : keep I (close_all l).
Proof. intros s Hs. by apply Hfds. Qed.
Lemma keep_open_pipe n : keep I (open_pipe h n).
Proof. intros s Hs. unfold wp, open_pipe. destruct (pipe2 h s) as [[]|]; [by apply Hfds|done]. Qed.
Lemma keep_start c : keep I (start h c).
Proof. intros s Hs. unfold wp, start. destruct (fork h s); [by apply Heff|done]. Qed.
Lemma keep_any_effect e : keep I (effect e).
Proof. intros s Hs. by apply Heff. Qed.

Ltac keeps := repeat first [apply keep_bind; [|intros ?] | apply keep_ret | apply keep_stop; done | apply keep_get |
  apply keep_any_effect | apply keep_recv_frame; done | apply keep_recv_control; done | apply keep_send; done |
  apply keep_note; done | apply keep_write; done | apply keep_close | apply keep_close_all | apply keep_open_pipe |
  apply keep_start | apply keep_end; done | apply keep_output; done | apply keep_stderr; done | apply keep_tty_loop; done | case_match | done].

Lemma keep_pipe_loop pid w l f : keep I (forward_loop h pid w l f).
Proof. revert f. induction l as [|[| |t] l IH]; intros f; cbn [forward_loop]; unfold pipe_message, kill_init; keeps; apply IH. Qed.

Lemma keep_exec_tty req c_cmd c_argv c_envp ui : keep I (handle_exec_tty h req c_cmd c_argv c_envp ui).
Proof.
  intros s Hs. unfold wp, handle_exec_tty. destruct (openpty h s) as [[m sl]|]; [|done].
  match goal with |- match ?m ?s with _ => _ end => enough (Hk : keep I m) by (apply Hk; by apply Hfds) end.
  unfold forward_io_tty. keeps.
Qed.

Lemma keep_handle_exec req : keep I (handle_exec h req).
Proof. unfold handle_exec, handle_exec_pipes, forward_io. keeps; first [apply keep_pipe_loop | apply keep_exec_tty]. Qed.
End Free.

Lemma read_control_shorter r m r' : read_control r = Ok (m, r') -> (length r' < length r)%nat.
Proof.
  unfold read_control, read_frame. destruct (read_exact FRAME_HEADER_SIZE r) as [[x r1]|] eqn:E; [|done].
  apply read_exact_inv in E as [-> Hx]; [|done]. cbn [mbind result_bind]. rewrite length_app.
  assert (length x = 5%nat) by (unfold len, FRAME_HEADER_SIZE in Hx; lia).
  destruct x as [|c [|h1 [|h2 [|h3 [|h4 [|]]]]]]; try done. destruct (_ <? c); [done|]. destruct (max_payload c <? _); [done|].
  destruct (if 0 <? _ then _ else _) as [[p r2]|] eqn:E2; [|done]. cbn [mbind result_bind]. destruct (negb _); [done|].
  destruct (parse p); [|done]. cbn. intros [= _ <-]. destruct (0 <? _); [|injection E2 as _ <-; cbn; lia].
  apply read_exact_suffix, suffix_length in E2. cbn in *. lia.
Qed.

Section Serve.
Context (h : AgentHost) (HL : AgentLaws h) (b0 : bytes) (T : Table) (HT : standard h T).

(** The request came in the stream [b0]. *)
Definition requested (req : ExecRequest) : Prop := exists r1 r2, rtc next b0 r1 /\ read_control r1 = Ok (Exec req, r2).

Definition later (s : Sess) : Prop := rtc next b0 (inp s).
Abbreviation inv0 := (inv h requested later).
Abbreviation idle0 := (idle h requested later T).

Lemma serve_ok n s : idle0 s -> (length (inp s) < n)%nat -> wp (serve h n) (fun _ => idle0) (halt (inv0)) s.
Proof.
  revert s. induction n as [|n IH]; intros s Hs Hn; [lia|]. cbn [serve]. pose proof (idle_stable h requested later (stable_later b0) T) as Hst.
  assert (Hx : forall (e : Busy) s', halt (idle0) e s' -> halt (inv0) e s') by by intros e s' [[] ?].
  set (J s := idle0 s /\ (length (inp s) < n)%nat).
  assert (HJ : stable J) by exact (stable_and _ _ Hst (stable_short n)).
  apply wp_bind. unfold wp at 1, effect, modify. apply wp_bind. unfold wp at 1, recv_control. cbn [inp add_effect].
  assert (H1 : idle0 (add_effect (RecvTimeout IDLE_TIMEOUT_SECS) s)) by by apply (st_effect _ Hst).
  destruct (read_control (inp s)) as [[m r]|[]] eqn:E; [|done|by apply Hx|done].
  pose proof (read_control_next _ _ _ E) as Hsuf. pose proof (read_control_shorter _ _ _ E) as Hlen.
  apply (st_inp _ Hst r) in H1; [|done]. set (s1 := set_inp r _) in *.
  assert (HJ1 : J s1) by (split; [done|cbn; lia]).
  assert (Hsend : forall m0 s0, J s0 -> wp (send_control m0) (fun _ => J) (halt (inv0)) s0).
  { intros m0 s0 H0. apply (keep_wp J _ _ _ _ (keep_send _ HJ _ _) H0); [done|]. by intros e s' [[[] _] ?]. }
  destruct m as [v|req|c| | | |rw cl]; try (by apply IH; apply HJ1).
  - apply wp_bind. unfold wp at 1. cbn [get]. destruct (session_free h s1); cbn [negb].
    + apply wp_bind. unfold wp at 1, effect, modify. apply wp_bind.
      assert (Hreq : requested req). { exists (inp s), r. split; [apply Hs|done]. }
      assert (H2 : idle0 (add_effect (RecvTimeout 0) s1)) by by apply (st_effect _ Hst).
      pose proof (handle_exec_ok h HL requested later (stable_later b0) (fun _ _ H => H) (fun _ _ H => H) T HT req _ Hreq H2) as Hw.
      assert (Hk : keep (fun s => inp s `suffix_of` r) (handle_exec h req)).
      { apply keep_handle_exec; try done. split; try done. intros b s0 H0 Hb%next_suffix. by transitivity (inp s0). }
      specialize (Hk (add_effect (RecvTimeout 0) s1) (reflexivity r)). unfold wp in Hw, Hk |- *.
      destruct (handle_exec h req _) as [s2 [code|e]]; [|exact Hw].
      assert (HJ2 : J s2) by (split; [done|apply suffix_length in Hk; lia]).
      pose proof (Hsend (Status code) s2 HJ2) as H3. unfold wp in H3. unfold mbind, ST_bind.
      destruct (send_control (Status code) s2) as [s3 [[]|]]; [by apply IH; apply H3|by apply H3|done].
    + apply wp_bind. eapply wp_mono; [by apply Hsend| |done]. intros ok s2 H2. apply IH; apply H2.
  - unfold kill_init. by apply (st_effect _ Hst).
  - apply wp_bind. eapply wp_mono; [by apply Hsend| |done]. intros [] s2 H2; [apply IH; apply H2|apply H2].
Qed.

Lemma connection_ok nonce s s' r : len nonce = NONCE_SIZE -> b0 = drop (Z.to_nat NONCE_SIZE) (inp s) -> fds s = T -> effects s = [] ->
  handle_connection h nonce s = (s', r) ->
  (forall pid im, Started pid (Executed im) ∈ effects s' ->
     nonce `prefix_of` inp s /\ exists req, requested req /\ image_of h req im) /\
  (r = Ok tt -> fds s' = fds s) /\ r <> Err Starved.
Proof.
  intros Hn Hb Hf He. unfold handle_connection, read_nonce. destruct (read_exact NONCE_SIZE (inp s)) as [[cn rest]|e] eqn:E.
  2:{ intros [= <- <-]. rewrite He. split_and!; [by intros ? ? ?%elem_of_nil|done|done]. }
  assert (Hrest : rest = b0). { unfold read_exact in E. destruct (_ <? _); [done|]. injection E as _ <-. done. }
  apply read_exact_inv in E as [E Hc]; [|done]. destruct (nonce_eq cn nonce) eqn:En; cbn [negb].
  2:{ intros [= <- <-]. cbn. rewrite He. split_and!; [by intros ? ? ?%elem_of_nil|done|done]. }
  apply nonce_eq_spec in En; [|done|done]. subst cn rest.
  assert (H0 : idle0 (set_inp b0 s)). { split; [|done]. split; [apply rtc_refl|]. cbn. rewrite He. constructor. }
  match goal with |- ?m ?s0 = _ -> _ => assert (Hw : wp m (fun _ => idle0) (halt (inv0)) s0) end.
  { apply wp_bind. apply (keep_wp (fun s => idle0 s /\ (length (inp s) < S (length b0))%nat)).
    - apply keep_send, stable_and; [apply idle_stable, stable_later|apply stable_short].
    - split; [done|cbn; lia].
    - intros [] s1 [H1 H2]; [|done]. by apply serve_ok.
    - by intros e s1 [[[] _] ?]. }
  intros Hr. unfold wp in Hw. rewrite Hr in Hw.
  assert (Hi : inv0 s' /\ (r = Ok tt -> fds s' = fds s) /\ r <> Err Starved).
  { destruct r as [[]|e]; [destruct Hw as [? ?]; split_and!; [done|congruence|done]|destruct Hw as [? ?]; split_and!; [done|done|congruence]]. }
  destruct Hi as ([_ Hi] & Hfd & Hst). split_and!; [|done|done]. intros pid im Hin. split; [rewrite E; by exists b0|].
  rewrite List.Forall_forall in Hi. apply list_elem_of_In, Hi in Hin. exact Hin.
Qed.
End Serve.


(** ** A host *)

(** Descriptors are given from 3 on; a command that is started reads two messages, writes and exits with code 3. *)
Definition two_unused (t : Table) : option (Z * Z) :=
  match List.filter (fun fd => bool_decide (t !! fd = None)) [3; 4; 5; 6; 7; 8; 9] with r :: w :: _ => Some (r, w) | _ => None end.
Definition demo_turn (i : bool) (o : option (list PipeRead)) (e : option (list PipeRead)) (w : option Z) : Tick :=
  Polled {| conn_in := i; conn_hup := false; out_reads := o; err_reads := e; taken := MAX_DATA_PAYLOAD; reaped := w; late := false |}.
Definition demo_agent : AgentHost :=
  {| getpwnam u := if bool_decide (u = bs "dev") then Some (1000, 100) else None; group_list _ g := [g; 7]; access_x _ := true;
     pipe2 s := two_unused (fds s); openpty s := two_unused (fds s); fork _ := Some 42; close_range_ok := true; setgroups_ok _ := true;
     setgid_ok _ := true; setuid_ok _ := true; execve_ok _ := true;
     ticks _ := [demo_turn true None None None; Interrupted; demo_turn true (Some [Got (bs "ok"); Retry; Got (bs "!")]) (Some [Got (bs "err")]) None;
                 demo_turn false (Some [Eof]) (Some [Eof]) (Some 768)];
     last_wait _ := Some 0; session_free _ := true |}.
Definition demo_request : ExecRequest :=
  {| cmd := bs "cat"; args := [bs "-u"]; env := [bs "A=b"]; user := bs "dev"; tty := false; rows := 0; cols := 0 |}.
Definition demo_nonce : bytes := repeat 7 32.
Definition demo_session : Sess :=
  {| inp := demo_nonce ++ frame CHANNEL_CONTROL (serialize (Exec demo_request)) ++ frame CHANNEL_STDIN (bs "hi") ++ frame CHANNEL_STDIN [];
     sock := {| written := []; room := None |}; fds := list_to_map [(0, (Kept 0, false)); (1, (Kept 1, false)); (2, (Kept 2, false))];
     child_in := []; child_out := []; child_err := []; effects := [] |}.
Definition demo_end : Sess * result Busy unit := handle_connection demo_agent demo_nonce demo_session.

Lemma two_unused_spec t r w : two_unused t = Some (r, w) -> 0 <= r /\ 0 <= w /\ r <> w /\ t !! r = None /\ t !! w = None.
Proof.
  unfold two_unused. set (l := [3; 4; 5; 6; 7; 8; 9]). pose proof (List.NoDup_filter (fun fd => bool_decide (t !! fd = None)) (l := l)) as Hn.
  destruct (List.filter _ l) as [|a [|b k]] eqn:E; [done|done|]. intros [= <- <-].
  assert (Ha : forall x, In x (a :: b :: k) -> 0 <= x /\ t !! x = None).
  { intros x. rewrite <- E. intros [Hx Hf]%List.filter_In. apply bool_decide_eq_true in Hf. split; [|done].
    unfold l in Hx. cbn in Hx. repeat (destruct Hx as [<-|Hx]; [lia|]). done. }
  assert (a <> b). { specialize (Hn ltac:(unfold l; repeat constructor; cbn; lia)). inversion Hn; subst. intros ->. cbn in *. tauto. }
  destruct (Ha a), (Ha b); cbn; auto.
Qed.
Lemma demo_agent_laws : AgentLaws demo_agent.
Proof. split; intros s r w; apply two_unused_spec. Qed.
Lemma demo_standard : standard demo_agent (fds demo_session).
Proof.
  split; [|intros fd v Hv|by left].
  - intros fd Hfd. assert (fd = 0 \/ fd = 1 \/ fd = 2) as [->|[->| ->]] by lia; eexists; vm_compute; reflexivity.
  - cbn [fds demo_session] in Hv. apply elem_of_list_to_map_2, list_elem_of_In in Hv. cbn in Hv.
    by repeat (destruct Hv as [[= <- _]|Hv]; [lia|]).
Qed.
Lemma demo_started : exists im, Started 42 (Executed im) ∈ effects demo_end.1 /\ program im = bs "/usr/local/sbin/cat".
Proof.
  assert (E : exists im, match effects demo_end.1 with [_; _; Started 42 (Executed im'); _; _] => im' = im | _ => False end /\
    program im = bs "/usr/local/sbin/cat") by (vm_compute; eexists; by split).
  destruct E as (im & E & Hp). exists im. split; [|done]. destruct (effects demo_end.1) as [|a [|b [|[] [|d [|? []]]]]]; try done.
  all: repeat case_match; try done. subst. right. right. left.
Qed.

