(* ===== verification/Remote.v ===== *)
(** * Remote: client and agent together

    The bytes that the client writes are those that the agent reads, and the other way
    round.  A command that the client asks for runs with its arguments, environment and
    user; its output is the client's output, its input a part of the client's input, its status the
    client's result. *)

From stdpp Require Import gmap.
From S2P Require Import Prelude Text Json Protocol Pidns Agent AgentSpec.

(** ** Streams of frames *)

Abbreviation Frame := (Z * bytes)%type.

Definition frames (l : list Frame) : bytes := concat (map (fun cp => frame cp.1 cp.2) l).
Definition payloads (c : Z) (l : list Frame) : bytes := concat (map snd (List.filter (fun cp => cp.1 =? c) l)).

Lemma frames_app l k : frames (l ++ k) = frames l ++ frames k.
Proof. unfold frames. by rewrite map_app, concat_app. Qed.
Lemma payloads_app c l k : payloads c (l ++ k) = payloads c l ++ payloads c k.
Proof. unfold payloads. by rewrite List.filter_app, map_app, concat_app. Qed.
Lemma payloads_cons c g l : payloads c (g :: l) = payloads c [g] ++ payloads c l.
Proof. exact (payloads_app c [g] l). Qed.
Lemma payloads_one c d p : payloads c [(d, p)] = if d =? c then p else [].
Proof. unfold payloads. cbn. destruct (d =? c); cbn; [by rewrite app_nil_r|done]. Qed.

(** The beginning of a frame that was not written to its end. *)
Definition cut_frame (x : bytes) : Prop := exists c p, frame_ok c p /\ x `prefix_of` frame c p /\ x <> frame c p.

(** More input does not change a frame that was read. *)
Lemma read_exact_more n r x r' y : read_exact n r = Ok (x, r') -> read_exact n (r ++ y) = Ok (x, r' ++ y).
Proof.
  unfold read_exact. rewrite len_app. destruct (Z.ltb_spec (len r) n) as [|H]; [done|]. intros [= <- <-].
  pose proof (len_nonneg y). destruct (Z.ltb_spec (len r + len y) n); [lia|].
  rewrite take_app_le, drop_app_le by (unfold len in *; lia). done.
Qed.

Lemma read_frame_more r c p r' y : read_frame r = Ok (c, p, r') -> read_frame (r ++ y) = Ok (c, p, r' ++ y).
Proof.
  unfold read_frame. destruct (read_exact FRAME_HEADER_SIZE r) as [[x r1]|] eqn:E; [|done].
  rewrite (read_exact_more _ _ _ _ _ E). cbn [mbind result_bind].
  destruct x as [|d [|h1 [|h2 [|h3 [|h4 [|]]]]]]; try done. destruct (_ <? d); [done|]. destruct (max_payload d <? _); [done|].
  destruct (0 <? _); [|cbn; by intros [= <- <- <-]]. destruct (read_exact _ r1) as [[x2 r2]|] eqn:E2; [|done].
  rewrite (read_exact_more _ _ _ _ _ E2). cbn. by intros [= <- <- <-].
Qed.

Lemma read_frame_prefix b s c p r : b `prefix_of` s -> read_frame b = Ok (c, p, r) -> exists r', read_frame s = Ok (c, p, r') /\ r `prefix_of` r'.
Proof. intros [y ->] E. exists (r ++ y). split; [by apply read_frame_more|by exists y]. Qed.

Lemma read_frame_length r c p r' : read_frame r = Ok (c, p, r') -> length r = (5 + length p + length r')%nat.
Proof.
  unfold read_frame. destruct (read_exact FRAME_HEADER_SIZE r) as [[x r1]|] eqn:E; [|done].
  apply read_exact_inv in E as [-> Hx]; [|done]. cbn [mbind result_bind]. rewrite length_app.
  assert (Hl : length x = 5%nat) by (unfold len, FRAME_HEADER_SIZE in Hx; lia).
  destruct x as [|d [|h1 [|h2 [|h3 [|h4 [|]]]]]]; try done. destruct (_ <? d); [done|]. destruct (max_payload d <? _); [done|].
  destruct (Z.ltb_spec 0 (be32 h1 h2 h3 h4)) as [Hn|Hn]; [|cbn; intros [= <- <- <-]; cbn; lia].
  destruct (read_exact _ r1) as [[x2 r2]|] eqn:E2; [|done]. apply read_exact_inv in E2 as [-> _]; [|lia].
  cbn. intros [= <- <- <-]. rewrite length_app. lia.
Qed.

Lemma length_frame c p : length (frame c p) = (5 + length p)%nat.
Proof. unfold frame. cbn [length]. rewrite length_app. done. Qed.

Lemma read_cut b x c p r : cut_frame x -> b `prefix_of` x -> read_frame b = Ok (c, p, r) -> False.
Proof.
  intros (d & q & Hok & Hx & Hne) Hb E. destruct (read_frame_prefix _ _ _ _ _ Hb E) as (r1 & E1 & _).
  destruct (read_frame_prefix _ _ _ _ _ Hx E1) as (r2 & E2 & _).
  pose proof (read_frame_frame d q [] Hok) as E3. rewrite app_nil_r, E2 in E3. injection E3 as -> -> ->.
  apply read_frame_length in E1. apply Hne. destruct Hx as [y Hy]. pose proof (f_equal length Hy) as Hl.
  rewrite length_app, length_frame in Hl. destruct y; [by rewrite app_nil_r in Hy|cbn in Hl; lia].
Qed.

(** ** Writing *)

Definition room_ok (w : Writer) : Prop := match room w with Some n => 0 <= n | None => True end.

Lemma write_all_cases w b w' r : room_ok w -> write_all w b = (w', r) ->
  (r = Ok tt /\ written w' = written w ++ b /\ room_ok w' /\ (room w = None -> room w' = None)) \/
  exists e x, r = Err e /\ written w' = written w ++ x /\ x `prefix_of` b /\ x <> b /\ room w' = Some 0 /\ room w <> None.
Proof.
  unfold room_ok, write_all. destruct (room w) as [n|].
  - intros Hn. destruct (Z.leb_spec (len b) n) as [Hl|Hl]; intros [= <- <-]; cbn; [left; split_and!; try done; lia|right].
    eexists _, _. split; [done|]. split; [done|]. split_and!; [apply prefix_take| |done|done].
    intros E. apply (f_equal length) in E. rewrite length_take in E. unfold len in Hl. lia.
  - intros _ [= <- <-]. by left.
Qed.

Lemma write_frame_cases w c p w' r : frame_ok c p -> room_ok w -> write_frame w c p = (w', r) ->
  (r = Ok tt /\ written w' = written w ++ frame c p /\ room_ok w' /\ (room w = None -> room w' = None)) \/
  exists e x, r = Err e /\ written w' = written w ++ x /\ cut_frame x /\ room w' = Some 0 /\ room w <> None.
Proof.
  intros [Hc Hp] Hr. unfold write_frame. destruct (Z.ltb_spec CHANNEL_CONTROL c); [lia|]. destruct (Z.ltb_spec (max_payload c) (len p)); [lia|].
  rewrite wrap_small by (by apply (frame_len_u32 c)). unfold frame.
  destruct (write_all w (c :: be32_bytes (len p))) as [w1 r1] eqn:E1.
  destruct (write_all_cases _ _ _ _ Hr E1) as [(-> & W1 & R1 & N1)|(e & x & -> & W1 & P1 & D1 & R1 & N1)].
  - case_decide as Ep; [subst p; intros [= <- <-]; left; by rewrite app_nil_r|]. intros E2.
    destruct (write_all_cases _ _ _ _ R1 E2) as [(-> & W2 & R2 & N2)|(e & x & -> & W2 & P2 & D2 & R2 & N2)].
    + left. split_and!; [done|by rewrite W2, W1, <- app_assoc|done|auto].
    + right. exists e, ((c :: be32_bytes (len p)) ++ x). split_and!; [done|by rewrite W2, W1, <- app_assoc| |done|by auto].
      exists c, p. split; [done|]. split; [by apply (prefix_app (c :: be32_bytes (len p)))|].
      intros E. apply D2. change (frame c p) with ((c :: be32_bytes (len p)) ++ p) in E. by apply app_inv_head in E.
  - intros [= <- <-]. right. exists e, x. split_and!; try done. exists c, p. split; [done|]. split.
    + destruct P1 as [y Hy]. exists (y ++ p). change (frame c p) with ((c :: be32_bytes (len p)) ++ p). by rewrite Hy, <- app_assoc.
    + intros ->. apply prefix_length in P1. rewrite length_frame in P1. assert (p = []) as -> by (destruct p; [done|cbn in P1; lia]).
      apply D1. unfold frame. by rewrite app_nil_r.
Qed.

Lemma write_frame_broken w c p w' r : room w = Some 0 -> frame_ok c p -> write_frame w c p = (w', r) ->
  written w' = written w /\ room w' = Some 0 /\ exists e, r = Err e.
Proof.
  intros Hr [Hc Hp]. unfold write_frame. destruct (Z.ltb_spec CHANNEL_CONTROL c); [lia|]. destruct (Z.ltb_spec (max_payload c) (len p)); [lia|].
  unfold write_all at 1. rewrite Hr. rewrite len_cons. pose proof (len_nonneg (be32_bytes (wrap 32 (len p)))).
  destruct (Z.leb_spec (1 + len (be32_bytes (wrap 32 (len p)))) 0); [lia|]. intros [= <- <-]. cbn. rewrite app_nil_r. eauto.
Qed.

(** ** The agent's side of a session *)

Lemma wp_and {S E A} (m : ST S E A) Q Q' X X' s : wp m Q X s -> wp m Q' X' s ->
  wp m (fun a s' => Q a s' /\ Q' a s') (fun e s' => X e s' /\ X' e s') s.
Proof. unfold wp. by destruct (m s) as [? []]. Qed.

(** The commands that were started. *)
Definition started (s : Sess) : list Effect := List.filter starts (effects s).

Lemma started_stable l : stable (fun s => started s = l).
Proof.
  split; cbn; try done. intros e s <- He. unfold started. cbn. rewrite List.filter_app. cbn. by rewrite He, app_nil_r.
Qed.

Definition data_frame (cp : Frame) : Prop := (cp.1 = CHANNEL_STDOUT \/ cp.1 = CHANNEL_STDERR) /\ frame_ok cp.1 cp.2.

(** What the client sends after its request. *)
Definition client_frame (cp : Frame) : Prop :=
  frame_ok cp.1 cp.2 /\
  (cp.1 = CHANNEL_STDIN \/ exists m, cp.1 = CHANNEL_CONTROL /\ cp.2 = serialize m /\ message_ok m /\ exists r c, m = Resize r c).

Section Session.
Context (h : AgentHost) (base : bytes) (G : list Frame) (HG : Forall client_frame G).

(** After [base] come the frames with the output of the child, up to the first write that failed. *)
Definition out_ok (s : Sess) : Prop := exists D x, written (sock s) = base ++ frames D ++ x /\ Forall data_frame D /\
  ((x = [] /\ room_ok (sock s) /\ child_out s = payloads CHANNEL_STDOUT D /\ child_err s = payloads CHANNEL_STDERR D) \/
   (room (sock s) = Some 0 /\ cut_frame x)).

(** The client's frames are read in order, and the child gets their input; [open] tells that it got all of it so far. *)
Definition in_ok (open : bool) (s : Sess) : Prop := exists F G', G = F ++ G' /\ inp s = frames G' /\
  child_in s `prefix_of` payloads CHANNEL_STDIN F /\ (open = true -> child_in s = payloads CHANNEL_STDIN F).

Definition session (open : bool) (s : Sess) : Prop := out_ok s /\ in_ok open s.

Lemma session_weaken o s : session o s -> session false s.
Proof. intros [H (F & G' & E1 & E2 & E3 & _)]. split; [done|]. by exists F, G'. Qed.

Lemma send_data c b s : data_frame (c, b) -> out_ok s ->
  forall o, in_ok o s -> wp (_ ← note_read c b; send_frame c b) (fun _ => session o) (fun _ _ => False) s.
Proof.
  intros [Hc Hok] (D & x & W & HD & Hcase) o Hin. apply wp_bind. unfold wp, note_read, modify, send_frame.
  match goal with |- context [write_frame (sock ?y) c b] => set (s1 := y) end. assert (E1 : sock s1 = sock s /\ inp s1 = inp s /\ child_in s1 = child_in s).
  { unfold s1. by destruct (_ =? _). } destruct E1 as (E1 & E2 & E3).
  assert (Hin1 : in_ok o s1). { unfold in_ok. by rewrite E2, E3. }
  destruct (write_frame (sock s1) c b) as [w r] eqn:Ew. cbn [fst snd] in *. rewrite E1 in Ew. split; [|done].
  destruct Hcase as [(-> & Hr & Ho & He)|[Hr Hx]].
  - rewrite app_nil_r in W. destruct (write_frame_cases _ _ _ _ _ Hok Hr Ew) as [(_ & W1 & R1 & _)|(e & x & _ & W1 & X1 & R1 & _)].
    + exists (D ++ [(c, b)]), []. cbn [sock set_sock child_out child_err]. rewrite frames_app. split.
      { rewrite W1, W, app_nil_r. unfold frames at 3. cbn. by rewrite app_nil_r, <- app_assoc. }
      split; [apply Forall_app_2; [done|by apply list.Forall_singleton]|]. left. split_and!; [done|done|..]; rewrite payloads_app, payloads_one;
        unfold s1; destruct Hc as [-> | ->]; cbn; rewrite ?app_nil_r; congruence.
    + exists D, x. split; [by rewrite app_assoc, <- W|]. split; [done|]. by right.
  - destruct (write_frame_broken _ _ _ _ _ Hr Hok Ew) as (W1 & R1 & _). exists D, x. split; [by cbn; rewrite W1|]. split; [done|]. by right.
Qed.

Lemma session_drain c l o s : c = CHANNEL_STDOUT \/ c = CHANNEL_STDERR -> session o s ->
  wp (drain_pipe_to_conn c l) (fun _ => session o) (fun _ _ => False) s.
Proof.
  intros Hc. revert s. induction l as [|[b| | |] l IH]; intros s Hs; cbn [drain_pipe_to_conn]; try done; [|by apply IH].
  case_decide as Hb; [done|]. set (b' := take (Z.to_nat 65536) b) in *.
  assert (Hd : data_frame (c, b')).
  { split; [done|]. unfold frame_ok. cbn [fst snd]. split; [destruct Hc as [-> | ->]; done|].
    assert (len b' <= 65536) by (unfold b', len; rewrite length_take; lia).
    destruct Hc as [-> | ->]; unfold max_payload, MAX_DATA_PAYLOAD, MAX_CONTROL_PAYLOAD; cbn; lia. }
  destruct Hs as [Hout Hin]. pose proof (send_data c b' s Hd Hout o Hin) as Hw. unfold wp, mbind, ST_bind in Hw |- *.
  destruct (note_read c b' s) as [s1 [[]|]]; [|done]. destruct (send_frame c b' s1) as [s2 [[]|]]; [by apply IH|done|done].
Qed.

Lemma session_recv o s (Q : option Frame -> Sess -> Prop) X : session o s -> (forall s', session o s' -> Q None s') ->
  (forall F g G' s', G = F ++ g :: G' -> client_frame g -> out_ok s' -> inp s' = frames G' -> child_in s' = child_in s ->
     child_in s `prefix_of` payloads CHANNEL_STDIN F -> (o = true -> child_in s = payloads CHANNEL_STDIN F) -> Q (Some g) s') ->
  wp recv_frame Q X s.
Proof.
  intros [Ho (F & G' & E1 & E2 & E3 & E4)] HN HS. unfold wp, recv_frame. rewrite E2. destruct G' as [|[c p] G'].
  - change (read_frame (frames [])) with (@Err Abort (Z * bytes * bytes) (IoError UnexpectedEof "failed to fill whole buffer")).
    apply HN. split; [done|]. exists F, []. split_and!; done.
  - assert (Hg : client_frame (c, p)). { rewrite E1 in HG. apply Forall_app in HG as [_ H]. by inversion H. }
    change (frames ((c, p) :: G')) with (frame c p ++ frames G'). rewrite read_frame_frame by apply Hg. by apply (HS F (c, p) G').
Qed.

(** The input of a frame is taken as a whole, and nothing else comes from the client but the size of the window. *)
Lemma session_pipe pid w n f s : MAX_DATA_PAYLOAD <= n -> session (stdin_open f) s ->
  wp (pipe_message pid w n f) (fun nx s' => match nx with GoOn f' | Leave f' => session (stdin_open f') s' /\ child_exited f' = child_exited f /\
    wstatus f' = wstatus f | Return => False end) (fun _ _ => False) s.
Proof.
  intros Hn Hs. unfold pipe_message. apply wp_bind, (session_recv _ _ _ _ Hs); [done|].
  intros F [c p] G' s' E [Hok Hc] Ho Hi Ec Hp Hop. cbn [fst snd] in *. rewrite <- Ec in Hp, Hop.
  assert (Hnext : forall o s1, out_ok s1 -> inp s1 = inp s' -> child_in s1 `prefix_of` payloads CHANNEL_STDIN (F ++ [(c, p)]) ->
    (o = true -> child_in s1 = payloads CHANNEL_STDIN (F ++ [(c, p)])) -> session o s1).
  { intros o s1 H1 H2 H3 H4. split; [done|]. exists (F ++ [(c, p)]), G'. split_and!; [by rewrite E, <- app_assoc|congruence|done|done]. }
  assert (Hpre : child_in s' `prefix_of` payloads CHANNEL_STDIN (F ++ [(c, p)])).
  { rewrite payloads_app. destruct Hp as [y ->]. exists (y ++ payloads CHANNEL_STDIN [(c, p)]). by rewrite app_assoc. }
  destruct Hc as [->|(m & -> & -> & Hm & r & cl & Er)].
  - rewrite payloads_app, payloads_one in *. cbn [Z.eqb CHANNEL_STDIN andb] in *. destruct (stdin_open f) eqn:Eo.
    + case_decide as Ep; [split; [|done]; apply Hnext; [done|done|done|done]|]. split; [|done].
      rewrite Eo. assert (Et : take (Z.to_nat n) p = p).
      { apply take_ge. destruct Hok as [_ Hl]. change (max_payload CHANNEL_STDIN) with MAX_DATA_PAYLOAD in Hl. unfold len in Hl. lia. }
      specialize (Hop eq_refl). apply Hnext; cbn; rewrite ?Et, ?Hop; done.
    + split; [|done]. rewrite Eo. by apply Hnext.
  - change (CHANNEL_CONTROL =? CHANNEL_STDIN) with false. cbn [andb]. change (CHANNEL_CONTROL =? CHANNEL_CONTROL) with true. cbn iota.
    rewrite (parse_serialize m Hm) by apply Hok. rewrite Er at 1. cbn [wire_message]. split; [|done]. apply Hnext; [done|done|done|].
    intros Eo. rewrite payloads_app, payloads_one. change (CHANNEL_CONTROL =? CHANNEL_STDIN) with false. rewrite app_nil_r. auto.
Qed.

Lemma session_tty pid n f s : MAX_DATA_PAYLOAD <= n -> session true s ->
  wp (tty_message pid n f) (fun nx s' => match nx with GoOn f' | Leave f' => session true s' /\ f' = f | Return => False end) (fun _ _ => False) s.
Proof.
  intros Hn Hs. unfold tty_message. apply wp_bind, (session_recv _ _ _ _ Hs); [done|].
  intros F [c p] G' s' E [Hok Hc] Ho Hi Ec Hp Hop. cbn [fst snd] in *. specialize (Hop eq_refl). rewrite <- Ec in Hop.
  assert (Hnext : forall s1, out_ok s1 -> inp s1 = inp s' -> child_in s1 = payloads CHANNEL_STDIN (F ++ [(c, p)]) -> session true s1).
  { intros s1 H1 H2 H3. split; [done|]. exists (F ++ [(c, p)]), G'. split_and!; [by rewrite E, <- app_assoc|congruence|by rewrite H3|done]. }
  rewrite payloads_app, payloads_one in Hnext. apply wp_bind. destruct Hc as [->|(m & -> & -> & Hm & r & cl & Er)].
  - change (CHANNEL_STDIN =? CHANNEL_STDIN) with true in *. cbn [andb] in *. case_bool_decide as Ep; cbn [negb].
    + subst p. split; [|done]. apply Hnext; [done|done|]. by rewrite Hop, app_nil_r.
    + assert (Et : take (Z.to_nat n) p = p).
      { apply take_ge. destruct Hok as [_ Hl]. change (max_payload CHANNEL_STDIN) with MAX_DATA_PAYLOAD in Hl. unfold len in Hl. lia. }
      split; [|done]. apply Hnext; [done|done|]. cbn. by rewrite Et, Hop.
  - change (CHANNEL_CONTROL =? CHANNEL_STDIN) with false in *. cbn [andb]. change (CHANNEL_CONTROL =? CHANNEL_CONTROL) with true.
    unfold wp at 1. cbn [mret ST_ret]. rewrite (parse_serialize m Hm) by apply Hok. rewrite Er at 1. cbn [wire_message].
    apply wp_bind. destruct (_ && _); (split; [|done]); (apply Hnext; [done|done|]); by rewrite app_nil_r, <- Hop.
Qed.

(** *** The loops *)

(** A status that the agent got by waiting for the child. *)
Definition waited (ws : Z) : Prop :=
  (exists s t, Polled t ∈ ticks h s /\ reaped t = Some ws) \/ exists s, last_wait h s = Some ws.

(** The child takes its input, and waiting for it succeeds. *)
Record Cooperative : Prop := {
  co_taken s t : Polled t ∈ ticks h s -> MAX_DATA_PAYLOAD <= taken t;
  co_wait s : is_Some (last_wait h s);
}.
Context (Hco : Cooperative).

Definition known (f : Fwd) : Prop := child_exited f = true -> waited (wstatus f).
Definition finished (code : Z) (s : Sess) : Prop := session false s /\ exists ws, waited ws /\ code = exit_code_from_wstatus ws.

Definition turn_ok (t : Turn) : Prop := MAX_DATA_PAYLOAD <= taken t /\ forall ws, reaped t = Some ws -> waited ws.

Lemma turns_ok s t : Polled t ∈ ticks h s -> turn_ok t.
Proof. intros Ht. split; [by apply (co_taken Hco s)|]. intros ws E. left. by exists s, t. Qed.

Lemma check_known t f : turn_ok t -> known f -> known (check_child t f).
Proof.
  intros [_ Ht] Hk. unfold check_child. destruct (child_exited f) eqn:E; [done|]. destruct (reaped t) as [ws|] eqn:Er; [|done].
  intros _. by apply Ht.
Qed.

Lemma session_end pid f o s (Q : Z -> Sess -> Prop) X : session o s -> known f -> (forall c s', finished c s' -> Q c s') ->
  wp (forward_end h pid f) Q X s.
Proof.
  intros Hs Hk HQ. unfold forward_end. apply wp_bind. unfold wp at 1. cbn [get]. apply wp_bind. unfold wp at 1, effect, modify.
  apply HQ. split; [by apply (session_weaken o)|]. destruct (co_wait Hco s) as [ws Ew]. rewrite Ew.
  destruct (child_exited f) eqn:E; [exists (wstatus f)|exists ws]; (split; [|done]); [by apply Hk|right; by exists s].
Qed.

Lemma session_output reads f s : session (stdin_open f) s ->
  wp (forward_output reads f) (fun f' s' => session (stdin_open f') s' /\ child_exited f' = child_exited f /\ wstatus f' = wstatus f /\
    stdin_open f' = stdin_open f) (fun _ _ => False) s.
Proof.
  intros Hs. unfold forward_output. destruct (output_done f), reads as [l|]; try done. apply wp_bind.
  eapply wp_mono; [apply session_drain; [by left|exact Hs]| |done]. done.
Qed.

Lemma session_stderr reads f s : session (stdin_open f) s ->
  wp (forward_stderr reads f) (fun f' s' => session (stdin_open f') s' /\ child_exited f' = child_exited f /\ wstatus f' = wstatus f)
    (fun _ _ => False) s.
Proof.
  intros Hs. unfold forward_stderr. destruct (stderr_done f), reads as [l|]; try done. apply wp_bind.
  eapply wp_mono; [apply session_drain; [by right|exact Hs]| |done]. done.
Qed.

Lemma session_loop pid w l f s : Forall (fun k => match k with Polled t => turn_ok t | _ => True end) l -> session (stdin_open f) s -> known f ->
  wp (forward_loop h pid w l f) (fun r => finished r.1) (fun _ => session false) s.
Proof.
  intros Hl. revert f s. induction Hl as [|[| |t] l Ht Hl IH]; intros f s Hs Hk; cbn [forward_loop];
    [by apply (session_weaken (stdin_open f))|by apply IH| |].
  { apply wp_bind. eapply session_end; [done|done|]. by intros c s1 H1. }
  apply wp_bind. eapply wp_mono; [by apply session_output| |done]. intros f1 s1 (H1 & K1 & W1 & _).
  apply wp_bind. eapply wp_mono; [by apply session_stderr| |done]. intros f2 s2 (H2 & K2 & W2).
  assert (Hk2 : known f2). { unfold known. by rewrite K2, W2, K1, W1. }
  apply wp_bind. apply (wp_mono _ (fun nx s' => match nx with GoOn f' | Leave f' => session (stdin_open f') s' /\ known f'
    | Return => False end) _ (fun _ _ => False)); [| |done].
  { destruct (conn_in t); [|done]. eapply wp_mono; [apply session_pipe; [apply Ht|exact H2]| |done].
    intros [f3|f3|] s3; try done; intros (H3 & K3 & W3); (split; [done|]); unfold known; by rewrite K3, W3. }
  intros [f3|f3|] s3 H3; [destruct H3 as [H3 Hk3]| |done].
  - destruct (conn_hup t).
    + apply wp_bind. unfold wp at 1, effect, modify. apply wp_bind. eapply (session_end _ _ (stdin_open f3)); [exact H3|done|].
      by intros c s4 H4.
    + pose proof (check_known t f3 Ht Hk3) as Hk4.
      assert (Ho : stdin_open (check_child t f3) = stdin_open f3). { unfold check_child. by destruct (child_exited f3), (reaped t). }
      destruct (_ && _ && _) eqn:Ed; [|apply IH; [by rewrite Ho|done]]. apply wp_bind. unfold wp, effect, modify. cbn.
      split; [by apply (session_weaken (stdin_open f3))|]. exists (wstatus (check_child t f3)). split; [|done]. apply Hk4.
      by apply andb_true_iff in Ed as [[? _]%andb_true_iff _].
  - destruct H3 as [H3 Hk3]. apply wp_bind. eapply session_end; [done|done|]. by intros c s4 H4.
Qed.

Lemma session_tty_loop pid l f s : Forall (fun k => match k with Polled t => turn_ok t | _ => True end) l -> stdin_open f = true ->
  session true s -> known f -> wp (forward_tty_loop h pid l f) finished (fun _ => session false) s.
Proof.
  intros Hl. revert f s. induction Hl as [|[| |t] l Ht Hl IH]; intros f s Ho Hs Hk; cbn [forward_tty_loop];
    [by apply (session_weaken true)|by apply IH| |].
  { by eapply session_end. }
  apply wp_bind. eapply wp_mono; [apply session_output; by rewrite Ho| |done]. intros f1 s1 (H1 & K1 & W1 & O1).
  rewrite O1, Ho in H1. assert (Hk1 : known f1). { unfold known. by rewrite K1, W1. }
  apply wp_bind. apply (wp_mono _ (fun nx s' => match nx with GoOn f' | Leave f' => session true s' /\ f' = f1
    | Return => False end) _ (fun _ _ => False)); [| |done].
  { destruct (conn_in t); [|done]. by apply session_tty; [apply Ht|]. }
  intros [f3|f3|] s3 H3; [destruct H3 as [H3 ->]| |done].
  - destruct (conn_hup t).
    + apply wp_bind. unfold wp at 1, effect, modify. by eapply (session_end _ _ true).
    + pose proof (check_known t f1 Ht Hk1) as Hk4.
      assert (Ho1 : stdin_open (check_child t f1) = true). { unfold check_child. by destruct (child_exited f1), (reaped t); cbn; rewrite O1. }
      destruct (_ && _) eqn:Ed; [|by apply IH]. apply wp_bind. unfold wp, effect, modify. cbn.
      split; [by apply (session_weaken true)|]. exists (wstatus (check_child t f1)). split; [|done]. apply Hk4.
      by apply andb_true_iff in Ed as [? _].
  - destruct H3 as [H3 ->]. by eapply session_end.
Qed.

(** *** Execution *)

(** What a request leads to: nothing is started, or one child, whose status is returned. *)
Definition outcome (l : list Effect) (code : Z) (s : Sess) : Prop :=
  session false s /\
  ((started s = l /\ (code = 126 \/ code = 127)) \/
   exists pid c ws, started s = l ++ [Started pid c] /\ waited ws /\ code = exit_code_from_wstatus ws).

(** Before the start. *)
Definition ready (l : list Effect) (s : Sess) : Prop := session true s /\ started s = l.

Lemma ready_outcome l s : ready l s -> outcome l 126 s.
Proof. intros [H1 H2]. split; [by apply (session_weaken true)|]. left. auto. Qed.

Lemma ready_pipe l n s (Q : option (Z * Z) -> Sess -> Prop) X : ready l s -> (forall p s', ready l s' -> Q p s') -> wp (open_pipe h n) Q X s.
Proof. intros Hs HQ. unfold wp, open_pipe. destruct (pipe2 h s) as [[]|]; by apply HQ. Qed.

Lemma ready_close l c s (Q : unit -> Sess -> Prop) X : ready l s -> (forall s', ready l s' -> Q tt s') -> wp (close_all c) Q X s.
Proof. intros Hs HQ. by apply HQ. Qed.

Lemma ready_started l c s (Q : option Z -> Sess -> Prop) X : ready l s -> Q None s ->
  (forall pid s', ready (l ++ [Started pid (c (fds s))]) s' -> Q (Some pid) s') -> wp (start h c) Q X s.
Proof.
  intros [H1 H2] HN HQ. unfold wp, start. destruct (fork h s) as [pid|]; [|done]. apply HQ. split; [done|].
  unfold started in *. cbn. rewrite List.filter_app, H2. done.
Qed.

Lemma turns s : Forall (fun k => match k with Polled t => turn_ok t | _ => True end) (ticks h s).
Proof. apply List.Forall_forall. intros [| |t] Ht; try done. apply (turns_ok s). by apply list_elem_of_In. Qed.

(** The loops start nothing. *)
Lemma forward_io_outcome l e pid w s : ready (l ++ [Started pid e]) s ->
  wp (forward_io h pid w) (fun r => outcome l r.1) (fun _ => session false) s.
Proof.
  intros [H1 H2]. unfold forward_io. apply wp_bind. unfold wp at 1. cbn [get].
  pose proof (forward_loop_held h _ (started_stable (l ++ [Started pid e])) (fun _ _ H => H) w (fds s) pid (ticks h s) fwd_init s
    (conj H2 eq_refl)) as K.
  assert (Hk : known fwd_init) by done. pose proof (session_loop pid w _ fwd_init s (turns s) H1 Hk) as K'.
  eapply wp_mono; [exact (wp_and _ _ _ _ _ _ K' K)| |by intros ? ? []].
  intros [code cl] s' [[Hs (ws & Hw & Hcode)] [Hst _]]. split; [done|]. right. by exists pid, e, ws.
Qed.

Lemma forward_tty_outcome l e pid s : ready (l ++ [Started pid e]) s ->
  wp (forward_io_tty h pid) (outcome l) (fun _ => session false) s.
Proof.
  intros [H1 H2]. unfold forward_io_tty. apply wp_bind. unfold wp at 1. cbn [get].
  pose proof (keep_tty_loop h _ (started_stable (l ++ [Started pid e])) pid (ticks h s) fwd_init s H2) as K.
  assert (Hk : known fwd_init) by done. pose proof (session_tty_loop pid _ fwd_init s (turns s) eq_refl H1 Hk) as K'.
  eapply wp_mono; [exact (wp_and _ _ _ _ _ _ K' K)| |by intros ? ? []].
  intros code s' [[Hs (ws & Hw & Hcode)] Hst]. split; [done|]. right. by exists pid, e, ws.
Qed.

Lemma exec_pipes_outcome l c_cmd c_argv c_envp ui s : ready l s ->
  wp (handle_exec_pipes h c_cmd c_argv c_envp ui) (outcome l) (fun _ => session false) s.
Proof.
  intros Hs. unfold handle_exec_pipes.
  assert (H126 : forall c s', ready l s' -> wp (_ ← close_all c; mret 126) (outcome l) (fun _ => session false) s').
  { intros c s' H. apply wp_bind, (ready_close l); [done|]. by intros s1 ?%ready_outcome. }
  apply wp_bind, (ready_pipe l); [done|]. intros [a|] s1 H1; [|by apply ready_outcome].
  apply wp_bind, (ready_pipe l); [done|]. intros [b|] s2 H2; [|by apply H126].
  apply wp_bind, (ready_pipe l); [done|]. intros [c|] s3 H3; [|by apply H126].
  apply wp_bind, (ready_started l); [done|by apply H126|]. intros pid s4 H4. eapply wp_bind, ready_close; [done|]. intros s5 H5.
  eapply wp_bind, wp_mono; [by eapply forward_io_outcome| |done]. intros [code cl] s6 H6. apply wp_bind.
  by destruct cl; unfold wp at 1; cbn [mret ST_ret close modify]; apply wp_bind; unfold wp at 1; cbn.
Qed.

Lemma exec_tty_outcome l req c_cmd c_argv c_envp ui s : ready l s ->
  wp (handle_exec_tty h req c_cmd c_argv c_envp ui) (outcome l) (fun _ => session false) s.
Proof.
  intros Hs. unfold wp at 1, handle_exec_tty. destruct (openpty h s) as [[m sl]|]; [|by apply ready_outcome].
  set (s1 := set_fds _ s). assert (H1 : ready l s1) by done. clearbody s1.
  match goal with |- match ?m ?s with _ => _ end => change (wp m (outcome l) (fun _ => session false) s) end. apply wp_bind.
  apply (wp_mono _ (fun _ => ready l) _ (fun _ _ => False)); [|intros _ s2 H2|done].
  { destruct (_ && _); [|done]. destruct H1 as [H1 H2]. split; [done|]. by apply (st_effect _ (started_stable l)). }
  apply wp_bind, (ready_started l); [done| |].
  { apply wp_bind, (ready_close l); [done|]. by intros s3 ?%ready_outcome. }
  intros pid s3 H3. change (close sl) with (close_all [sl]). eapply wp_bind, ready_close; [done|]. intros s4 H4.
  eapply wp_bind, wp_mono; [by eapply forward_tty_outcome| |done]. intros code s5 H5. by apply wp_bind.
Qed.

Lemma handle_exec_outcome l req s : ready l s -> wp (handle_exec h req) (outcome l) (fun _ => session false) s.
Proof.
  intros Hs. pose proof (ready_outcome _ _ Hs) as H126. unfold handle_exec. destruct (if decide _ then _ else _); [|done].
  destruct (resolve_command h _ _) as [prog|].
  - destruct (_ || _); [done|]. destruct (tty req); [by apply exec_tty_outcome|by apply exec_pipes_outcome].
  - destruct Hs as [H1 H2]. split; [by apply (session_weaken true)|left; auto].
Qed.

(** *** After the request *)

(** What the client may have sent ahead starts nothing and is not answered. *)
Lemma serve_rest n G' s : Forall client_frame G' -> inp s = frames G' ->
  let P s' := sock s' = sock s /\ started s' = started s /\ child_out s' = child_out s /\ child_err s' = child_err s /\ child_in s' = child_in s in
  wp (serve h n) (fun _ => P) (fun _ => P) s.
Proof.
  revert G' s. induction n as [|n IH]; intros G' s Hg Hi P; [done|]. cbn [serve]. apply wp_bind. unfold wp at 1, effect, modify.
  assert (H0 : started (add_effect (RecvTimeout IDLE_TIMEOUT_SECS) s) = started s).
  { unfold started. cbn. rewrite List.filter_app. cbn. by rewrite app_nil_r. }
  apply wp_bind. unfold wp at 1, recv_control. cbn [inp add_effect]. rewrite Hi. destruct Hg as [|[c p] G' [Hok Hc] Hg]; [done|].
  change (frames ((c, p) :: G')) with (frame c p ++ frames G'). unfold read_control. cbn [fst snd] in *.
  rewrite read_frame_frame by done. cbn [mbind result_bind]. destruct Hc as [->|(m & -> & -> & Hm & r & cl & Er)]; [done|].
  change (CHANNEL_CONTROL =? CHANNEL_CONTROL) with true. cbn [negb]. rewrite (parse_serialize m Hm) by apply Hok. cbn [mbind result_bind].
  rewrite Er at 1. cbn [wire_message].
  pose proof (IH G' (set_inp (frames G') (add_effect (RecvTimeout IDLE_TIMEOUT_SECS) s)) Hg eq_refl) as K. cbn in K.
  eapply wp_mono; [exact K| |]; intros ? s' (K1 & K2 & K3 & K4 & K5); unfold P; rewrite K2;
    (split_and!; [done|exact H0|done|done|done]).
Qed.
End Session.

Lemma exit_code_range ws : 0 <= exit_code_from_wstatus ws < 256.
Proof.
  unfold exit_code_from_wstatus, WEXITSTATUS, WTERMSIG. destruct (WIFEXITED ws).
  - change 0xff with (Z.ones 8). rewrite Z.land_ones by lia. apply Z.mod_pos_bound. lia.
  - destruct (WIFSIGNALED ws); [|lia]. change 0x7f with (Z.ones 7). rewrite Z.land_ones by lia.
    pose proof (Z.mod_pos_bound ws (2 ^ 7)). lia.
Qed.

Lemma status_ok code : 0 <= code < 256 -> message_ok (Status code) /\ frame_ok CHANNEL_CONTROL (serialize (Status code)).
Proof.
  intros Hc. split; [cbn; lia|]. split; [done|]. cbn [serialize]. rewrite !len_app. unfold dec_signed.
  destruct (Z.ltb_spec code 0); [lia|]. pose proof (len_dec code 2). change (len (bs "STATUS ")) with 7. change (len [10]) with 1.
  change (max_payload CHANNEL_CONTROL) with 65536. lia.
Qed.

Definition hello_frame : bytes := frame CHANNEL_CONTROL (serialize (Hello PROTOCOL_VERSION)).
Definition status_frame (code : Z) : bytes := frame CHANNEL_CONTROL (serialize (Status code)).

Lemma cut_nil : cut_frame [].
Proof. exists 0, []. split; [done|]. split; [apply prefix_nil|done]. Qed.

Lemma read_status code y : 0 <= code < 256 -> read_frame (status_frame code ++ y) = Ok (CHANNEL_CONTROL, serialize (Status code), y).
Proof. intros Hc. apply read_frame_frame, status_ok, Hc. Qed.
Lemma status_not_cut code : 0 <= code < 256 -> ~ cut_frame (status_frame code).
Proof.
  intros Hc Hx. pose proof (read_status code [] Hc) as E. rewrite app_nil_r in E. exact (read_cut _ _ _ _ _ Hx (reflexivity _) E).
Qed.
Lemma status_frame_inj k code : 0 <= k < 256 -> 0 <= code < 256 -> status_frame k = status_frame code -> k = code.
Proof.
  intros Hk Hc E. pose proof (read_status k [] Hk) as Ek. rewrite E, read_status in Ek by done. destruct (status_ok k Hk) as [Mk Fk].
  destruct (status_ok code Hc) as [Mc Fc]. pose proof (parse_serialize _ Mk (proj2 Fk)) as Pk. pose proof (parse_serialize _ Mc (proj2 Fc)) as Pc.
  revert Ek Pk Pc. generalize (serialize (Status k)) (serialize (Status code)). intros p q [= ->] -> [= ?]. congruence.
Qed.

(** ** A connection of the client *)

Section Connection.
Context (h : AgentHost) (HL : AgentLaws h) (Hco : Cooperative h) (Hfree : forall s, session_free h s = true).
Context (nonce : bytes) (Hnonce : len nonce = NONCE_SIZE) (req : ExecRequest) (Hreq : message_ok (Exec req))
  (Hlen : frame_ok CHANNEL_CONTROL (serialize (Exec req))) (G : list Frame) (HG : Forall client_frame G).

(** How the request ends: the code that is sent, with the frames [D] sent before. *)
Record answered (D : list Frame) (code : Z) (s : Sess) : Prop := {
  an_code : 0 <= code < 256;
  an_out : child_out s = payloads CHANNEL_STDOUT D;
  an_err : child_err s = payloads CHANNEL_STDERR D;
  an_in : child_in s `prefix_of` payloads CHANNEL_STDIN G;
  an_started : (started s = [] /\ (code = 126 \/ code = 127)) \/
    exists pid c ws, started s = [Started pid c] /\ (forall im, c = Executed im -> image_of h (wire_request req) im) /\
      waited h ws /\ code = exit_code_from_wstatus ws;
}.

(** What the agent has written: the greeting, output, and the status once it is known. *)
Definition reply (s : Sess) : Prop :=
  cut_frame (written (sock s)) \/
  exists D x, written (sock s) = hello_frame ++ frames D ++ x /\ Forall data_frame D /\
    (cut_frame x \/ exists code, x = status_frame code /\ answered D code s).

Definition fresh_session (s : Sess) : Prop :=
  written (sock s) = [] /\ room_ok (sock s) /\ child_in s = [] /\ child_out s = [] /\ child_err s = [] /\ effects s = [].

Lemma out_reply s : out_ok hello_frame s -> reply s.
Proof.
  intros (D & x & W & HD & Hx). right. exists D, x. split_and!; [done|done|]. left.
  destruct Hx as [[-> _]|[_ Hx]]; [apply cut_nil|done].
Qed.

Lemma status_reply n code s : outcome h hello_frame G [] code s ->
  Forall (effect_ok h (eq (wire_request req))) (effects s) ->
  wp (ok ← send_control (Status code); if (ok : bool) then serve h n else mret tt)
    (fun _ => reply) (fun _ => reply) s.
Proof.
  intros [[(D & x & W & HD & Hx) (F & G' & EG & Ei & Ep & _)] Hst] Heff.
  assert (Hcode : 0 <= code < 256). { destruct Hst as [[_ [->| ->]]|(pid & c & ws & _ & _ & ->)]; [lia|lia|apply exit_code_range]. }
  destruct (status_ok code Hcode) as [Hm Hok]. apply wp_bind. unfold wp at 1, send_control, send_frame.
  destruct (write_frame (sock s) CHANNEL_CONTROL (serialize (Status code))) as [w r] eqn:Ew.
  assert (Hcut : forall y, written w = hello_frame ++ frames D ++ y -> cut_frame y -> reply (set_sock w s)).
  { intros y Wy Hy. right. exists D, y. auto. }
  destruct Hx as [(-> & Hr & Ho & He)|[Hr Hx]].
  - rewrite app_nil_r in W. destruct (write_frame_cases _ _ _ _ _ Hok Hr Ew) as [(-> & W1 & _)|(e & y & -> & W1 & Hy & _)]; cbn [is_ok].
    + assert (Hg' : Forall client_frame G'). { rewrite EG in HG. by apply Forall_app in HG as [_ ?]. }
      pose proof (serve_rest h n G' (set_sock w s) Hg' Ei) as K. cbn zeta in K.
      assert (Hans : forall s', sock s' = w -> started s' = started s -> child_out s' = child_out s -> child_err s' = child_err s ->
        child_in s' = child_in s -> reply s').
      { intros s' K1 K2 K3 K4 K5. right. exists D, (status_frame code). rewrite K1, W1, W, <- app_assoc. split_and!; [done|done|].
        right. exists code. split; [done|]. split; [done|congruence|congruence| |].
        - rewrite K5, EG, payloads_app. destruct Ep as [y ->]. exists (y ++ payloads CHANNEL_STDIN G'). by rewrite app_assoc.
        - rewrite K2. destruct Hst as [Hst|(pid & c & ws & E & Hw & Hc)]; [by left|right]. exists pid, c, ws. split_and!; try done.
          intros im ->. assert (Hin : Started pid (Executed im) ∈ started s) by (rewrite E; apply list_elem_of_here).
          apply list_elem_of_In, List.filter_In in Hin as [Hin _]. rewrite List.Forall_forall in Heff. apply Heff in Hin.
          by destruct Hin as (rq & <- & ?). }
      eapply wp_mono; [exact K| |]; intros ? s' (K1 & K2 & K3 & K4 & K5); by apply Hans.
    + apply (Hcut y); [by rewrite W1, W, <- app_assoc|done].
  - destruct (write_frame_broken _ _ _ _ _ Hr Hok Ew) as (W1 & _ & e & ->). apply (Hcut x); [by rewrite W1, W|done].
Qed.

Lemma exec_reply n s : inp s = frame CHANNEL_CONTROL (serialize (Exec req)) ++ frames G -> written (sock s) = hello_frame ->
  room_ok (sock s) -> child_in s = [] -> child_out s = [] -> child_err s = [] -> effects s = [] -> standard h (fds s) ->
  wp (serve h (S n)) (fun _ => reply) (fun _ => reply) s.
Proof.
  intros Ei W Hr Hi Ho He Hf HT. cbn [serve]. apply wp_bind. unfold wp at 1, effect, modify. apply wp_bind.
  unfold wp at 1, recv_control. cbn [inp add_effect]. rewrite Ei. unfold read_control. rewrite read_frame_frame by done.
  cbn [mbind result_bind]. change (CHANNEL_CONTROL =? CHANNEL_CONTROL) with true. cbn [negb]. rewrite (parse_serialize _ Hreq) by apply Hlen.
  cbn [mbind result_bind wire_message]. apply wp_bind. unfold wp at 1. cbn [get]. rewrite Hfree. cbn [negb].
  apply wp_bind. unfold wp at 1, effect, modify. set (s1 := add_effect (RecvTimeout 0) _).
  assert (E1 : effects s1 = [RecvTimeout IDLE_TIMEOUT_SECS; RecvTimeout 0]) by (unfold s1; cbn; by rewrite Hf).
  assert (Hready : ready hello_frame G [] s1).
  { split; [|unfold started; by rewrite E1]. split.
    - exists [], []. split; [change (sock s1) with (sock s); by rewrite W, !app_nil_r|]. split; [done|]. left. by split_and!.
    - exists [], G. change (child_in s1) with (child_in s). rewrite Hi. by split_and!. }
  assert (Hidle : idle h (eq (wire_request req)) (fun _ => True) (fds s) s1).
  { split; [|done]. split; [done|]. rewrite E1. by repeat constructor. }
  assert (Hst : stable (fun _ => True)) by by split.
  pose proof (handle_exec_outcome h hello_frame G HG Hco [] (wire_request req) s1 Hready) as K1.
  pose proof (handle_exec_ok h HL (eq (wire_request req)) (fun _ => True) Hst (fun _ _ H => H) (fun _ _ H => H) (fds s) HT
    (wire_request req) s1 eq_refl Hidle) as K2.
  apply wp_bind. eapply wp_mono; [exact (wp_and _ _ _ _ _ _ K1 K2)| |].
  - intros code s2 [H1 [[_ H2] _]]. by apply status_reply.
  - intros e s2 [[H1 _] _]. by apply out_reply.
Qed.

Lemma agent_reply s : inp s = nonce ++ frame CHANNEL_CONTROL (serialize (Exec req)) ++ frames G -> fresh_session s -> standard h (fds s) ->
  reply (handle_connection h nonce s).1.
Proof.
  intros Ei (W & Hr & Hi & Ho & He & Hf) HT. unfold handle_connection, read_nonce. rewrite Ei, <- Hnonce, read_exact_app.
  assert (En : nonce_eq nonce nonce = true) by by apply nonce_eq_spec. rewrite En. cbn [negb]. set (s1 := set_inp _ s).
  assert (Hok : frame_ok CHANNEL_CONTROL (serialize (Hello PROTOCOL_VERSION))) by by vm_compute.
  match goal with |- reply (?m s1).1 => assert (Hw : wp m (fun _ => reply) (fun _ => reply) s1);
    [|unfold wp in Hw; by destruct (m s1) as [? []]] end.
  apply wp_bind. unfold wp at 1, send_control, send_frame.
  destruct (write_frame (sock s1) CHANNEL_CONTROL (serialize (Hello PROTOCOL_VERSION))) as [w r] eqn:Ew. change (sock s1) with (sock s) in Ew.
  destruct (write_frame_cases _ _ _ _ _ Hok Hr Ew) as [(-> & W1 & R1 & _)|(e & y & -> & W1 & Hy & _)]; cbn [is_ok]; rewrite W in W1.
  - by apply exec_reply.
  - left. cbn. by rewrite W1.
Qed.
End Connection.

(** ** The client's side *)

Section ClientSide.
Context (h : ClientHost) (Hwin : forall r c, window h = Some (r, c) -> is_u16 r /\ is_u16 c).

Lemma room_none w : room w = None -> room_ok w.
Proof. unfold room_ok. by intros ->. Qed.

Lemma resize_frame r c : is_u16 r -> is_u16 c -> client_frame (CHANNEL_CONTROL, serialize (Resize r c)).
Proof.
  intros Hr Hc. split.
  - split; [done|]. cbn [fst snd serialize]. rewrite !len_app. pose proof (len_dec r 4). pose proof (len_dec c 4). unfold is_u16 in *.
    change (len (bs "RESIZE ")) with 7. change (len [10]) with 1. change (len [ch " "]) with 1.
    change (max_payload CHANNEL_CONTROL) with 65536. lia.
  - right. exists (Resize r c). by split_and!; [..|eauto].
Qed.

Lemma terminal_u16 r c : get_terminal_size h = (r, c) -> is_u16 r /\ is_u16 c.
Proof.
  unfold get_terminal_size. destruct (window h) as [[r1 c1]|] eqn:Ew; [|by intros [= <- <-]].
  destruct (_ && _); intros [= <- <-]; [by apply Hwin|done].
Qed.
Lemma stdin_frame p : len p <= MAX_DATA_PAYLOAD -> client_frame (CHANNEL_STDIN, p).
Proof. intros Hp. split; [by split|by left]. Qed.
Lemma len_take_le n (b : bytes) : 0 <= n -> len (take (Z.to_nat n) b) <= n.
Proof. intros Hn. unfold len. rewrite length_take. lia. Qed.

(** Steps that leave the agent's stream and the outputs alone, and fail only on a broken connection. *)
Definition silent {A} (m : ST Client Wait A) : Prop := forall c,
  wp m (fun _ c' => (c_inp c' = c_inp c /\ c_out c' = c_out c /\ c_err c' = c_err c) /\ (room (c_sock c) = None -> room (c_sock c') = None))
    (fun _ _ => room (c_sock c) <> None) c.

Lemma silent_then {A B} (m : ST Client Wait A) (f : A -> ST Client Wait B) : silent m -> (forall a, silent (f a)) -> silent (m ≫= f).
Proof.
  intros Hm Hf c. apply wp_bind. eapply wp_mono; [apply Hm| |done]. intros a c1 ((E1 & E2 & E3) & R1).
  eapply wp_mono; [apply Hf| |auto]. intros b c2 ((F1 & F2 & F3) & R2). split; [split_and!; congruence|auto].
Qed.
Lemma silent_mret {A} (a : A) : silent (mret a).
Proof. by intros c. Qed.
Lemma silent_frame ch p : frame_ok ch p -> silent (to_sock (fun w => write_frame w ch p)).
Proof.
  intros Hok c. unfold wp, to_sock. destruct (write_frame (c_sock c) ch p) as [w r] eqn:E. destruct (room (c_sock c)) eqn:Er.
  - by destruct r.
  - by destruct (write_frame_cases _ _ _ _ _ Hok (room_none _ Er) E) as [(-> & _ & _ & R)|(? & ? & _ & _ & _ & _ & ?)]; [auto|].
Qed.
Lemma silent_resize w tty : silent (resize h w tty).
Proof.
  unfold resize. destruct (tty && w); [|apply silent_mret]. destruct (get_terminal_size h) as [r k] eqn:Et. destruct (_ && _); [|apply silent_mret].
  destruct (terminal_u16 _ _ Et) as [Hr Hk]. intros c. pose proof (silent_frame _ _ (proj1 (resize_frame r k Hr Hk)) c) as H.
  unfold wp, ignore_error in *. unfold to_sock, write_control in *. cbn [fst snd] in H.
  destruct (write_frame (c_sock c) CHANNEL_CONTROL (serialize (Resize r k))) as [? []]; [exact H|]. split; [done|by intros ?].
Qed.
Lemma silent_end : silent end_stdin.
Proof. apply silent_then; [by apply silent_frame|intros; apply silent_mret]. Qed.
Lemma silent_stdin t tty closed : silent (forward_stdin t tty closed).
Proof.
  unfold forward_stdin. apply silent_then.
  - destruct closed, (input t) as [[b| |]|]; try apply silent_mret; [|destruct tty; [apply silent_mret|apply silent_end]].
    pose proof (len_take_le 65536 b) as Hp. revert Hp. generalize (take (Z.to_nat 65536) b). intros p Hp. cbn zeta.
    case_decide; [destruct tty; [apply silent_mret|apply silent_end]|]. apply silent_then; [|intros _].
    + apply silent_frame, stdin_frame. unfold MAX_DATA_PAYLOAD. lia.
    + apply silent_then; [by intros c|intros _; apply silent_mret].
  - intros cl. destruct (_ && _); [apply silent_end|apply silent_mret].
Qed.

(** *** What the client hears *)

Lemma print_out_ok b c c' a : print_out b c = (c', Ok a) -> c_inp c' = c_inp c /\ written (c_out c') = written (c_out c) ++ b /\ c_err c' = c_err c.
Proof.
  unfold print_out. destruct (write_all (c_out c) b) as [w [[]|]] eqn:E; [|done]. intros [= <- _]. apply write_all_ok in E. done.
Qed.
Lemma print_err_ok b c c' a : print_err b c = (c', Ok a) -> c_inp c' = c_inp c /\ written (c_err c') = written (c_err c) ++ b /\ c_out c' = c_out c.
Proof.
  unfold print_err. destruct (write_all (c_err c) b) as [w [[]|]] eqn:E; [|done]. intros [= <- _]. apply write_all_ok in E. done.
Qed.

(** The rest of the agent's stream: output [D], then the status or the beginning of a frame. *)
Definition remains (D : list Frame) (x b : bytes) : Prop := b `prefix_of` frames D ++ x /\ Forall data_frame D /\
  (cut_frame x \/ exists code, 0 <= code < 256 /\ x = status_frame code).

Lemma agent_frame_step D x c c' r : remains D x (c_inp c) -> agent_frame c = (c', Ok r) ->
  (exists code, 0 <= code < 256 /\ D = [] /\ x = status_frame code /\ r = Some code /\ c_out c' = c_out c /\ c_err c' = c_err c) \/
  (exists g D', D = g :: D' /\ r = None /\ remains D' x (c_inp c') /\
     written (c_out c') = written (c_out c) ++ payloads CHANNEL_STDOUT [g] /\ written (c_err c') = written (c_err c) ++ payloads CHANNEL_STDERR [g]).
Proof.
  intros (Hb & HD & Hx). unfold agent_frame, mbind at 1, ST_bind, c_read_frame.
  destruct (read_frame (c_inp c)) as [[[ch p] rest]|] eqn:E; [|done]. destruct HD as [|[d q] D' [Hd Hok] HD].
  - destruct Hx as [Hx|(code & Hc & ->)]; [by destruct (read_cut _ _ _ _ _ Hx Hb E)|].
    destruct (status_ok code Hc) as [Hm Hsf]. destruct (read_frame_prefix _ _ _ _ _ Hb E) as (r1 & E1 & _).
    pose proof (parse_serialize (Status code) Hm (proj2 Hsf)) as Eq. cbn [frames map concat app] in E1. unfold status_frame in *.
    remember (serialize (Status code)) as q eqn:Hq. rewrite <- (app_nil_r (frame _ q)), read_frame_frame in E1 by done.
    injection E1 as <- <- _. change (CHANNEL_CONTROL =? CHANNEL_STDOUT) with false. change (CHANNEL_CONTROL =? CHANNEL_STDERR) with false.
    change (CHANNEL_CONTROL =? CHANNEL_CONTROL) with true. unfold mbind, ST_bind, lift_io. rewrite Eq. cbn [wire_message].
    intros [= <- <-]. left. exists code. by rewrite Hq.
  - destruct (read_frame_prefix _ _ _ _ _ Hb E) as (r1 & E1 & Hr1). cbn [fst snd] in *.
    change (frames ((d, q) :: D')) with (frame d q ++ frames D') in E1. rewrite <- app_assoc, read_frame_frame in E1 by done.
    injection E1 as <- <- <-. intros Hr. right. exists (d, q), D'.
    destruct Hd as [-> | ->]; cbn [Z.eqb CHANNEL_STDOUT CHANNEL_STDERR Pos.eqb] in Hr; unfold mbind, ST_bind in Hr.
    + destruct (print_out q _) as [c1 [[]|]] eqn:Ep; [|done]. apply print_out_ok in Ep as (P1 & P2 & P3). injection Hr as <- <-.
      rewrite P1, P2, P3, !payloads_one. cbn. rewrite app_nil_r. by split_and!.
    + destruct (print_err q _) as [c1 [[]|]] eqn:Ep; [|done]. apply print_err_ok in Ep as (P1 & P2 & P3). injection Hr as <- <-.
      rewrite P1, P2, P3, !payloads_one. cbn. rewrite app_nil_r. by split_and!.
Qed.

Lemma client_heard tty l : forall closed D x c c' r, remains D x (c_inp c) -> forward_io_inner h tty l closed c = (c', Ok r) ->
  (0 <= r < 256 /\ x = status_frame r) /\ written (c_out c') = written (c_out c) ++ payloads CHANNEL_STDOUT D /\
  written (c_err c') = written (c_err c) ++ payloads CHANNEL_STDERR D.
Proof.
  induction l as [|[|e|t] l IH]; intros closed D x c c' r Hrem; cbn [forward_io_inner]; [done|by apply IH|done|].
  unfold mbind at 1, ST_bind. pose proof (silent_resize (winch t) tty c) as H1. unfold wp in H1.
  destruct (resize h (winch t) tty c) as [c1 [[]|]]; [|done]. destruct H1 as ((I1 & O1 & E1) & _). rewrite <- O1, <- E1. rewrite <- I1 in Hrem.
  assert (Hgo : forall D' c2, remains D' x (c_inp c2) -> (if agent_hup t then stop (Failed (IoError ConnectionReset "agent connection closed"))
      else closed ← forward_stdin t tty closed; forward_io_inner h tty l closed) c2 = (c', Ok r) ->
    (0 <= r < 256 /\ x = status_frame r) /\ written (c_out c') = written (c_out c2) ++ payloads CHANNEL_STDOUT D' /\
    written (c_err c') = written (c_err c2) ++ payloads CHANNEL_STDERR D').
  { intros D' c2 Hrem2. destruct (agent_hup t); [done|]. unfold mbind at 1, ST_bind. pose proof (silent_stdin t tty closed c2) as H2.
    unfold wp in H2. destruct (forward_stdin t tty closed c2) as [c3 [cl|]]; [|done]. destruct H2 as ((I2 & <- & <-) & _). rewrite <- I2 in Hrem2.
    intros E. exact (IH _ _ _ _ _ _ Hrem2 E). }
  unfold mbind at 1, ST_bind. destruct (agent_in t); [|apply Hgo, Hrem].
  destruct (agent_frame c1) as [c2 [code|]] eqn:Ea; [|done].
  destruct (agent_frame_step _ _ _ _ _ Hrem Ea) as [(k & Hk & -> & -> & -> & O2 & E2)|(g & D' & -> & -> & Hrem' & O2 & E2)].
  - intros [= <- <-]. rewrite O2, E2. unfold payloads. cbn. by rewrite !app_nil_r.
  - intros E. destruct (Hgo _ _ Hrem' E) as (Hr & -> & ->). rewrite O2, E2, !(payloads_cons _ g D'), !app_assoc. done.
Qed.

(** *** What the client says *)

(** [base]: what was on the wire before the loop. *)
Definition said (base : bytes) (read0 : bytes) (c : Client) : Prop := room (c_sock c) = None /\
  exists G, written (c_sock c) = base ++ frames G /\ Forall client_frame G /\ stdin_read c = read0 ++ payloads CHANNEL_STDIN G.

Definition says {A} (m : ST Client Wait A) : Prop := forall base read0 c, said base read0 c -> said base read0 (m c).1.

Lemma says_bind {A B} (m : ST Client Wait A) (f : A -> ST Client Wait B) : says m -> (forall a, says (f a)) -> says (m ≫= f).
Proof.
  intros Hm Hf base read0 c Hc. apply Hm in Hc. unfold mbind, ST_bind. destruct (m c) as [c1 [a|]]; [by apply Hf|done].
Qed.
Lemma says_ret {A} (a : A) : says (mret a).
Proof. by intros base read0 c. Qed.
Lemma says_stop {A} e : says (A := A) (stop e).
Proof. by intros base read0 c. Qed.

Lemma said_frame base read0 ch p c w r read1 : said base read0 c -> client_frame (ch, p) -> write_frame (c_sock c) ch p = (w, r) ->
  read1 = stdin_read c ++ payloads CHANNEL_STDIN [(ch, p)] ->
  r = Ok tt /\ room w = None /\ exists G, written w = base ++ frames G /\ Forall client_frame G /\ read1 = read0 ++ payloads CHANNEL_STDIN G.
Proof.
  intros (Hr & G & W & HG & Hin) Hf Ew ->. pose proof (proj1 Hf) as Hok. cbn in Hok.
  destruct (write_frame_cases _ _ _ _ _ Hok (room_none _ Hr) Ew) as [(-> & W1 & _ & R)|(e & x & _ & _ & _ & _ & Hne)]; [|done].
  split; [done|]. split; [by apply R|]. exists (G ++ [(ch, p)]). rewrite W1, W, Hin, frames_app, payloads_app, !app_assoc. split.
  - unfold frames at 3. cbn. by rewrite app_nil_r.
  - split; [apply Forall_app_2; [done|by apply list.Forall_singleton]|done].
Qed.

Lemma says_frame ch p : client_frame (ch, p) -> payloads CHANNEL_STDIN [(ch, p)] = [] -> says (to_sock (fun w => write_frame w ch p)).
Proof.
  intros Hf Hp base read0 c Hc. unfold to_sock. destruct (write_frame (c_sock c) ch p) as [w r] eqn:Ew.
  eapply said_frame in Ew as (-> & Hr & HG); [by split|done|done|]. by rewrite Hp, app_nil_r.
Qed.

Lemma says_resize w tty : says (resize h w tty).
Proof.
  unfold resize. destruct (tty && w); [|apply says_ret]. destruct (get_terminal_size h) as [r c] eqn:E. destruct (_ && _); [|apply says_ret].
  intros base read0 k Hk. apply (says_frame CHANNEL_CONTROL (serialize (Resize r c))); [|done|done].
  destruct (terminal_u16 r c E). by apply resize_frame.
Qed.

Lemma says_end : says end_stdin.
Proof. apply says_bind; [|intros; apply says_ret]. by apply says_frame; [apply stdin_frame|]. Qed.

Lemma says_input p : len p <= MAX_DATA_PAYLOAD ->
  says (_ ← to_sock (fun w => write_frame w CHANNEL_STDIN p);
        _ ← modify (fun c => set_c_stdin (stdin_read c ++ p) (stdin_flags c) (raw c) c); mret false).
Proof.
  intros Hp base read0 c Hc. unfold mbind, ST_bind, to_sock. destruct (write_frame (c_sock c) CHANNEL_STDIN p) as [w r] eqn:Ew.
  eapply said_frame in Ew as (-> & Hr & HG); [by split|done|by apply stdin_frame|by rewrite payloads_one].
Qed.
Lemma says_stdin t tty closed : says (forward_stdin t tty closed).
Proof.
  unfold forward_stdin. apply says_bind.
  - destruct closed, (input t) as [[b| |]|]; try apply says_ret; [|destruct tty; [apply says_ret|apply says_end]].
    pose proof (len_take_le 65536 b) as Hp. revert Hp. generalize (take (Z.to_nat 65536) b). intros p Hp. cbn zeta.
    case_decide; [destruct tty; [apply says_ret|apply says_end]|]. apply says_input. unfold MAX_DATA_PAYLOAD. lia.
  - intros cl. destruct (_ && _); [apply says_end|apply says_ret].
Qed.

Lemma says_agent_frame : says agent_frame.
Proof.
  assert (Hsame : forall c, c_sock (agent_frame c).1 = c_sock c /\ stdin_read (agent_frame c).1 = stdin_read c).
  { intros c. unfold agent_frame, mbind, ST_bind, c_read_frame. destruct (read_frame (c_inp c)) as [[[ch p] r]|]; [|done].
    destruct (ch =? _); [unfold print_out; by destruct (write_all _ p) as [? []]|].
    destruct (ch =? _); [unfold print_err; by destruct (write_all _ p) as [? []]|].
    destruct (ch =? _); [unfold lift_io; by destruct (parse p)|done]. }
  intros base read0 c Hc. unfold said. by destruct (Hsame c) as [-> ->].
Qed.

Lemma client_said tty l : forall closed, says (forward_io_inner h tty l closed).
Proof.
  induction l as [|[|e|t] l IH]; intros closed; cbn [forward_io_inner]; [apply says_stop|apply IH|apply says_stop|].
  apply says_bind; [apply says_resize|intros _]. apply says_bind; [destruct (agent_in t); [apply says_agent_frame|apply says_ret]|].
  intros [code|]; [apply says_ret|]. destruct (agent_hup t); [apply says_stop|]. apply says_bind; [apply says_stdin|apply IH].
Qed.

(** *** A call of the client *)

Definition client_request (cmd : bytes) (args env : list bytes) (user : bytes) (tty : bool) : ExecRequest :=
  let '(rows, cols) := if tty then get_terminal_size h else (0, 0) in
  {| Json.cmd := cmd; Json.args := args; Json.env := env; Json.user := user; Json.tty := tty; Json.rows := rows; Json.cols := cols |}.

Lemma forward_restores tty c c' r : c_forward_io h tty c = (c', Ok r) ->
  exists c1 c2, forward_io_inner h tty (c_ticks h) false c1 = (c2, Ok r) /\
    (c_inp c1, c_sock c1, c_out c1, c_err c1, stdin_read c1) = (c_inp c, c_sock c, c_out c, c_err c, stdin_read c) /\
    (c_sock c', c_out c', c_err c', stdin_read c') = (c_sock c2, c_out c2, c_err c2, stdin_read c2) /\
    (0 <= getfl h -> stdin_flags c' = getfl h) /\ (tty = true -> raw c' = false).
Proof.
  unfold c_forward_io, mbind, ST_bind, set_flags, set_raw, modify, lift_io. intros E.
  assert (Hrest : forall c1, restoring (getfl h) tty (forward_io_inner h tty (c_ticks h) false) c1 = (c', Ok r) ->
    exists c2, forward_io_inner h tty (c_ticks h) false c1 = (c2, Ok r) /\
    (c_sock c', c_out c', c_err c', stdin_read c') = (c_sock c2, c_out c2, c_err c2, stdin_read c2) /\
    (0 <= getfl h -> stdin_flags c' = getfl h) /\ (tty = true -> raw c' = false)).
  { intros c1. unfold restoring. destruct (forward_io_inner h tty (c_ticks h) false c1) as [c2 [r2|[]]]; [|done|done].
    intros [= <- ->]. exists c2. split; [done|]. destruct (Z.leb_spec 0 (getfl h)), tty; split_and!; try done; lia. }
  destruct tty; [destruct (enter_raw h) as [[]|]; [|done]|]; apply Hrest in E as (c2 & E & Hc2 & Hfl); eexists _, c2;
    (split; [exact E|split; [done|by split]]).
Qed.


Lemma lift_io_ok {A} (r : io A) c c' a : lift_io r c = (c', Ok a) -> c' = c.
Proof. destruct r; [by intros [= <- _]|done]. Qed.
Lemma to_sock_ok f c c' a : to_sock f c = (c', Ok a) -> exists w, f (c_sock c) = (w, Ok tt) /\ c' = set_c_sock w c.
Proof. unfold to_sock. destruct (f (c_sock c)) as [w [[]|]]; [|done]. intros [= <-]. eauto. Qed.

Lemma exec_phases nonce cmd args env user tty c0 c1 code : exec h nonce cmd args env user tty c0 = (c1, Ok code) ->
  exists w1 w2 m rest, write_all (c_sock c0) nonce = (w1, Ok tt) /\ read_control (c_inp c0) = Ok (m, rest) /\
    write_frame w1 CHANNEL_CONTROL (serialize (Exec (client_request cmd args env user tty))) = (w2, Ok tt) /\
    c_forward_io h tty (set_c_sock w2 (set_c_inp rest (set_c_sock w1 c0))) = (c1, Ok code).
Proof.
  unfold exec, client_request. destruct (if tty then get_terminal_size h else (0, 0)) as [rows cols]. set (req := {| Json.cmd := cmd |}).
  unfold write_control.
  generalize (serialize (Exec req)). intros e E.
  apply ST_bind_ok in E as (k0 & [] & E0 & E). apply lift_io_ok in E0 as ->.
  apply ST_bind_ok in E as (k0 & [] & E0 & E). apply lift_io_ok in E0 as ->.
  apply ST_bind_ok in E as (k1 & [] & E1 & E). apply to_sock_ok in E1 as (w1 & E1 & ->).
  apply ST_bind_ok in E as (k2 & m & E2 & E). unfold c_read_control in E2. cbn [c_inp set_c_sock] in E2.
  destruct (read_control (c_inp c0)) as [[m1 rest]|] eqn:Er; [|done]. injection E2 as <- ->.
  destruct m as [v| | | | | |]; try done.
  apply ST_bind_ok in E as (k3 & [] & E3 & E). apply to_sock_ok in E3 as (w2 & E3 & ->).
  apply ST_bind_ok in E as (k0 & [] & E0 & E). apply lift_io_ok in E0 as ->.
  by exists w1, w2, (Hello v), rest.
Qed.

Definition fresh_client (c : Client) : Prop := room (c_sock c) = None /\ written (c_sock c) = [] /\ stdin_read c = [].

(** What a call that returns has sent. *)
Lemma client_sent nonce cmd args env user tty c0 c1 code : fresh_client c0 ->
  exec h nonce cmd args env user tty c0 = (c1, Ok code) ->
  frame_ok CHANNEL_CONTROL (serialize (Exec (client_request cmd args env user tty))) /\
  exists G, written (c_sock c1) = nonce ++ frame CHANNEL_CONTROL (serialize (Exec (client_request cmd args env user tty))) ++ frames G /\
    Forall client_frame G /\ stdin_read c1 = payloads CHANNEL_STDIN G.
Proof.
  intros (Hr0 & W0 & R0) E. apply exec_phases in E as (w1 & w2 & m & rest & E1 & _ & E2 & E3).
  destruct (write_all_cases _ _ _ _ (room_none _ Hr0) E1) as [(_ & W1 & _ & N1)|(? & ? & ? & _)]; [|done]. specialize (N1 Hr0).
  pose proof E2 as E2'. apply write_frame_ok in E2' as [Hok W2]; [|done]. split; [done|].
  destruct (write_frame_cases _ _ _ _ _ Hok (room_none _ N1) E2) as [(_ & _ & _ & N2)|(? & ? & ? & _)]; [|done]. specialize (N2 N1).
  apply forward_restores in E3 as (k1 & k2 & E3 & [= _ S1 _ _ R1] & [= S2 _ _ R2] & _).
  assert (Hsaid : said (written w2) [] k1). { split; [by rewrite S1|]. exists []. rewrite S1, R1. cbn. by rewrite app_nil_r. }
  apply (client_said tty (c_ticks h) false) in Hsaid as (_ & G & W & HG & R). rewrite E3 in W, R. cbn [fst] in W, R.
  exists G. rewrite S2, R2, W, W2, W1, W0, <- app_assoc. done.
Qed.

(** What a call that returns has received. *)
Lemma client_received nonce cmd args env user tty c0 c1 code : exec h nonce cmd args env user tty c0 = (c1, Ok code) ->
  (forall x, c_inp c0 `prefix_of` x -> ~ cut_frame x) /\
  forall D x, c_inp c0 `prefix_of` hello_frame ++ frames D ++ x -> Forall data_frame D ->
    (cut_frame x \/ exists k, 0 <= k < 256 /\ x = status_frame k) ->
    (0 <= code < 256 /\ x = status_frame code) /\ written (c_out c1) = written (c_out c0) ++ payloads CHANNEL_STDOUT D /\
    written (c_err c1) = written (c_err c0) ++ payloads CHANNEL_STDERR D.
Proof.
  intros E. apply exec_phases in E as (w1 & w2 & m & rest & _ & Er & _ & E). unfold read_control in Er.
  destruct (read_frame (c_inp c0)) as [[[ch p] r]|] eqn:Ef; [|done]. split.
  { intros x Hb Hx. exact (read_cut _ _ _ _ _ Hx Hb Ef). }
  assert (r = rest) as -> by (cbn in Er; destruct (negb _); [done|]; destruct (parse p); [by injection Er|done]).
  intros D x Hb HD Hx. apply forward_restores in E as (k1 & k2 & E & [= I1 _ O1 X1 _] & [= _ O2 X2 _] & _).
  cbn in I1, O1, X1. rewrite O2, X2, <- O1, <- X1. eapply client_heard; [|exact E]. rewrite I1. split; [|by split].
  destruct (read_frame_prefix _ _ _ _ _ Hb Ef) as (r' & E' & Hr'). unfold hello_frame in E'. rewrite read_frame_frame in E' by done.
  by injection E' as _ _ <-.
Qed.

(** *** The client returns *)

(** The waits of a connection that stays up, and how many of them find something to read. *)
Definition steady (t : CTick) : Prop := match t with CInterrupted => True | CPolled t => agent_hup t = false | CPollFailed _ => False end.
Definition readable (l : list CTick) : nat :=
  length (List.filter (fun t => match t with CPolled t => agent_in t | _ => false end) l).

Definition open_ends (c : Client) : Prop := room (c_sock c) = None /\ room (c_out c) = None /\ room (c_err c) = None.

Lemma write_all_open w b : room w = None -> exists w', write_all w b = (w', Ok tt) /\ room w' = None.
Proof. intros Hr. unfold write_all. rewrite Hr. eexists. split; [reflexivity|done]. Qed.

Lemma agent_frame_returns D code c : open_ends c -> c_inp c = frames D ++ status_frame code -> Forall data_frame D -> 0 <= code < 256 ->
  exists c' r, agent_frame c = (c', Ok r) /\ open_ends c' /\
    match D with [] => r = Some code | _ :: D' => r = None /\ c_inp c' = frames D' ++ status_frame code end.
Proof.
  intros (Hs & Ho & He) Hi HD Hc. unfold agent_frame, mbind at 1, ST_bind, c_read_frame. rewrite Hi. destruct HD as [|[d p] D' [Hd Hok] HD].
  - cbn [frames map concat app]. rewrite <- (app_nil_r (status_frame code)), read_status by done. destruct (status_ok code Hc) as [Hm Hsf].
    pose proof (parse_serialize (Status code) Hm (proj2 Hsf)) as Eq. revert Eq. generalize (serialize (Status code)). intros q Eq.
    change (CHANNEL_CONTROL =? CHANNEL_STDOUT) with false. change (CHANNEL_CONTROL =? CHANNEL_STDERR) with false.
    change (CHANNEL_CONTROL =? CHANNEL_CONTROL) with true. unfold mbind, ST_bind, lift_io. rewrite Eq. eexists _, _. by split.
  - change (frames ((d, p) :: D')) with (frame d p ++ frames D'). rewrite <- app_assoc, read_frame_frame by done. cbn [fst snd] in *.
    destruct Hd as [-> | ->]; cbn [Z.eqb CHANNEL_STDOUT CHANNEL_STDERR Pos.eqb]; unfold mbind, ST_bind, print_out, print_err; cbn [c_out c_err set_c_inp].
    + destruct (write_all_open _ p Ho) as (w & -> & Hw). eexists _, _. by split.
    + destruct (write_all_open _ p He) as (w & -> & Hw). eexists _, _. by split.
Qed.

Lemma silent_open {A} (m : ST Client Wait A) c : silent m -> open_ends c ->
  exists c' a, m c = (c', Ok a) /\ open_ends c' /\ c_inp c' = c_inp c.
Proof.
  intros Hm (Hs & Ho & He). specialize (Hm c). unfold wp in Hm. destruct (m c) as [c' [a|e]]; [|done].
  destruct Hm as ((Ei & Eo & Ee) & Hr). exists c', a. split; [done|]. split; [|done]. split_and!; [auto|congruence|congruence].
Qed.

Lemma client_loop_returns tty code l : 0 <= code < 256 -> Forall steady l -> forall closed D c, open_ends c ->
  c_inp c = frames D ++ status_frame code -> Forall data_frame D -> (length D < readable l)%nat ->
  exists c', forward_io_inner h tty l closed c = (c', Ok code).
Proof.
  intros Hc. induction 1 as [|[|e|t] l Ht Hl IH]; intros closed D c Hop Hi HD Hn; cbn [forward_io_inner]; [cbn in Hn; lia|by eapply IH|done|].
  destruct (silent_open _ c (silent_resize (winch t) tty) Hop) as (c1 & [] & E1 & Hop1 & I1). unfold mbind at 1, ST_bind. rewrite E1.
  cbn in Ht. rewrite Ht. assert (Hgo : forall D' c2, open_ends c2 -> c_inp c2 = frames D' ++ status_frame code -> Forall data_frame D' ->
    (length D' < readable l)%nat -> exists c', (closed ← forward_stdin t tty closed; forward_io_inner h tty l closed) c2 = (c', Ok code)).
  { intros D' c2 Hop2 I2 HD' Hn'. destruct (silent_open _ c2 (silent_stdin t tty closed) Hop2) as (c3 & cl & E3 & Hop3 & I3).
    unfold mbind, ST_bind. rewrite E3. apply (IH _ D'); [done|congruence|done|done]. }
  rewrite Hi in I1. unfold mbind at 1, ST_bind. unfold readable in Hn. cbn [List.filter] in Hn. destruct (agent_in t); [|by apply (Hgo D)].
  destruct (agent_frame_returns D code c1 Hop1 I1 HD Hc) as (c2 & r & -> & Hop2 & Hr). destruct HD as [|g D' Hg HD].
  - subst r. by eexists.
  - destruct Hr as [-> I2]. apply (Hgo D'); [done|done|done|]. cbn in Hn. unfold readable. lia.
Qed.

(** The calls before the loop succeed. *)
Definition reachable (tty : bool) : Prop :=
  connect h = Ok tt /\ (forall b, set_read_timeout h b = Ok tt) /\ (tty = true -> enter_raw h = Ok tt).

Lemma forward_returns tty c code : reachable tty ->
  (forall c1, open_ends c1 -> c_inp c1 = c_inp c -> exists c2, forward_io_inner h tty (c_ticks h) false c1 = (c2, Ok code)) ->
  open_ends c -> exists c', c_forward_io h tty c = (c', Ok code).
Proof.
  intros (_ & _ & Hraw) Hin (Hs & Ho & He). set (c1 := (set_flags (Z.lor (getfl h) O_NONBLOCK) c).1).
  assert (Hrest : forall c2, open_ends c2 -> c_inp c2 = c_inp c ->
    exists c', restoring (getfl h) tty (forward_io_inner h tty (c_ticks h) false) c2 = (c', Ok code)).
  { intros c2 Hop Hi. destruct (Hin c2 Hop Hi) as (c3 & E). unfold restoring. rewrite E. eauto. }
  unfold c_forward_io. destruct tty.
  - rewrite Hraw by done. destruct (Hrest (set_raw true c1).1) as (c' & E); [done|done|]. exists c'.
    apply ST_bind_ok. exists c1, tt. split; [done|]. apply ST_bind_ok. exists (set_raw true c1).1, tt. by split.
  - destruct (Hrest c1) as (c' & E); [done|done|]. exists c'.
    apply ST_bind_ok. exists c1, tt. split; [done|]. apply ST_bind_ok. exists c1, tt. by split.
Qed.

Lemma exec_returns nonce cmd args env user tty c0 rest code : reachable tty -> open_ends c0 -> c_inp c0 = hello_frame ++ rest ->
  frame_ok CHANNEL_CONTROL (serialize (Exec (client_request cmd args env user tty))) ->
  (forall c, open_ends c -> c_inp c = rest -> exists c', c_forward_io h tty c = (c', Ok code)) ->
  exists c1, exec h nonce cmd args env user tty c0 = (c1, Ok code).
Proof.
  intros (Hconn & Hto & _) (Hs & Ho & He) Hi Hok Hfw. destruct (write_all_open _ nonce Hs) as (w1 & E1 & Hw1).
  unfold client_request in Hok. unfold exec. destruct (if tty then get_terminal_size h else (0, 0)) as [rows cols].
  set (req := {| Json.cmd := cmd |}) in *. unfold write_control. revert Hok. generalize (serialize (Exec req)). intros e Hok.
  destruct (write_frame w1 CHANNEL_CONTROL e) as [w2 r2] eqn:E2.
  destruct (write_frame_cases _ _ _ _ _ Hok (room_none _ Hw1) E2) as [(-> & _ & _ & R)|(? & ? & _ & _ & _ & _ & ?)]; [|done].
  destruct (Hfw (set_c_sock w2 (set_c_inp rest (set_c_sock w1 c0)))) as (c1 & E3); [split; [by apply R|done]|done|]. exists c1.
  rewrite Hconn, !Hto. apply ST_bind_ok. exists c0, tt. split; [done|]. apply ST_bind_ok. exists c0, tt. split; [done|].
  apply ST_bind_ok. exists (set_c_sock w1 c0), tt. split; [unfold to_sock, write_nonce; by rewrite E1|].
  apply ST_bind_ok. exists (set_c_inp rest (set_c_sock w1 c0)), (Hello PROTOCOL_VERSION). split.
  { unfold c_read_control, read_control. cbn [c_inp set_c_sock]. rewrite Hi. unfold hello_frame. rewrite read_frame_frame by done. done. }
  apply ST_bind_ok. eexists _, tt. split; [unfold to_sock; cbn [c_sock set_c_inp set_c_sock]; by rewrite E2|].
  apply ST_bind_ok. eexists _, tt. split; [done|exact E3].
Qed.
End ClientSide.

(** ** A client of the host *)

Definition demo_tick (a : bool) (i : option StdinRead) : CTick :=
  CPolled {| winch := false; agent_in := a; agent_hup := false; input := i; input_hup := false |}.
Definition demo_client_host : ClientHost :=
  {| connect := Ok tt; set_read_timeout _ := Ok tt; window := Some (50, 132); getfl := 2; enter_raw := Ok tt;
     c_ticks := [demo_tick false (Some (Input (bs "hi"))); CInterrupted; demo_tick true None; demo_tick true (Some InputEnd); demo_tick true None;
                 demo_tick true None] |}.
Definition demo_output : list Frame := [(CHANNEL_STDOUT, bs "ok"); (CHANNEL_STDOUT, bs "!"); (CHANNEL_STDERR, bs "err")].
Definition demo_client : Client :=
  {| c_inp := hello_frame ++ frames demo_output ++ status_frame 3; c_sock := {| written := []; room := None |};
     c_out := {| written := []; room := None |}; c_err := {| written := []; room := None |}; stdin_read := []; stdin_flags := 2; raw := false |}.
Abbreviation demo_exec := (exec demo_client_host demo_nonce (bs "cat") [bs "-u"] [bs "A=b"] (bs "dev") false demo_client).

Lemma demo_window r c : window demo_client_host = Some (r, c) -> is_u16 r /\ is_u16 c.
Proof. by intros [= <- <-]. Qed.
Lemma demo_returns : exists c1, demo_exec = (c1, Ok 3) /\ written (c_sock c1) = inp demo_session.
Proof.
  exists demo_exec.1. assert (Er : demo_exec.2 = Ok 3) by (vm_compute; reflexivity). rewrite <- Er. split; [apply surjective_pairing|].
  vm_compute. reflexivity.
Qed.
Lemma demo_answer : c_inp demo_client `prefix_of` written (sock demo_end.1).
Proof. assert (E : written (sock demo_end.1) = c_inp demo_client) by (vm_compute; reflexivity). by rewrite E. Qed.
Lemma demo_call_ok : request_ok (client_request demo_client_host (bs "cat") [bs "-u"] [bs "A=b"] (bs "dev") false).
Proof. by_eval. Qed.
Lemma demo_free s : session_free demo_agent s = true.
Proof. reflexivity. Qed.
Lemma demo_fresh_client : fresh_client demo_client.
Proof. by split_and!. Qed.
Lemma demo_fresh : fresh_session demo_session.
Proof. by split_and!. Qed.
Lemma demo_ends : handle_connection demo_agent demo_nonce demo_session = (demo_end.1, demo_end.2).
Proof. exact (surjective_pairing demo_end). Qed.
Lemma demo_cooperative : Cooperative demo_agent.
Proof.
  split; [|by intros s; eexists]. intros s t Ht. apply list_elem_of_In in Ht. cbn in Ht. by repeat (destruct Ht as [E|Ht]; [by inversion E; subst|]).
Qed.

(** C19: [vm::exec] returns the status the agent reports. For a request that fits in a frame (64 KiB), on a connection that stays up, with an agent that greets, sends
    any output and then its status, and a standard input, output and error of any content, the call returns that status
    once the agent's stream has been readable often enough; everything sent for the standard output and error
    is written there in order, and the flags and the mode of the terminal are those of before. *)
Theorem client_returns (h : ClientHost) nonce cmd args env user tty c0 D code :
  (forall r c, window h = Some (r, c) -> is_u16 r /\ is_u16 c) -> reachable h tty -> open_ends c0 ->
  frame_ok CHANNEL_CONTROL (serialize (Exec (client_request h cmd args env user tty))) ->
  Forall data_frame D -> 0 <= code < 256 -> c_inp c0 = hello_frame ++ frames D ++ status_frame code ->
  Forall steady (c_ticks h) -> (length D < readable (c_ticks h))%nat ->
  exists c1, exec h nonce cmd args env user tty c0 = (c1, Ok code) /\
    written (c_out c1) = written (c_out c0) ++ payloads CHANNEL_STDOUT D /\
    written (c_err c1) = written (c_err c0) ++ payloads CHANNEL_STDERR D /\
    (0 <= getfl h -> stdin_flags c1 = getfl h) /\ (tty = true -> raw c1 = false).
Proof.
  intros Hwin Hre Hop Hok HD Hc Hi Hst Hn.
  destruct (exec_returns h nonce cmd args env user tty c0 (frames D ++ status_frame code) code Hre Hop Hi Hok) as (c1 & E).
  { intros c Hopc Hic. apply forward_returns; [done| |done]. intros c2 Hop2 Hi2. eapply client_loop_returns; try done. congruence. }
  exists c1. split; [done|]. destruct (client_received h Hwin _ _ _ _ _ _ _ _ _ E) as [_ Hall].
  destruct (Hall D (status_frame code)) as (_ & -> & ->); [by rewrite Hi|done|right; by exists code|]. do 2 (split; [done|]).
  apply exec_phases in E as (w1 & w2 & m & rest & _ & _ & _ & E). by apply forward_restores in E as (k1 & k2 & _ & _ & _ & Hfl).
Qed.

Lemma client_returns_witness : exists c1, demo_exec = (c1, Ok 3) /\ written (c_out c1) = bs "ok!" /\ written (c_err c1) = bs "err" /\
  stdin_flags c1 = 2.
Proof.
  destruct (client_returns demo_client_host demo_nonce (bs "cat") [bs "-u"] [bs "A=b"] (bs "dev") false demo_client demo_output 3 demo_window)
    as (c1 & E & Ho & He & Hf & _).
  - by split_and!.
  - by split_and!.
  - split; [done|]. by vm_compute.
  - by repeat constructor.
  - lia.
  - reflexivity.
  - by repeat constructor.
  - cbn. lia.
  - exists c1. split; [exact E|]. split; [exact Ho|]. split; [exact He|]. apply Hf. cbn. lia.
Defined.


